(* ===== verification/_CoqProject ===== *)
-Q . S2P
Prelude.v
Prog.v
Resources.v
Kube.v
Api.v
Json.v
K8sClient.v
Helpers.v
OsClient.v
OsData.v
Fixtures.v
ReconcilerUtil.v
RContext.v
Scaler.v
ScaleDown.v
Upgrade.v
RollingRestart.v
Controller.v
Webhooks.v
ManagedCR.v
Owned.v
Security.v
Tenants.v
Templates.v
PolicyCR.v
IsmPolicy.v
SnapshotPolicy.v
Admission.v
Migration.v
MigrationSpec.v
MigrationRun.v
Schema.v
OldTypes.v
NewTypes.v
Conversion.v
RequestTypes.v
ReadBack.v
CrControllers.v
Setup.v
Patch.v
ResourceReconciler.v
Tls.v
TlsWorkers.v
Der.v
Pki.v
Configuration.v
ReconcileHelpers.v
SecurityConfig.v
SecurityJobs.v
Waits.v
Builders.v
ClusterRec.v
ClusterSts.v
ClusterFacts.v
BuilderFacts.v
Dashboards.v
DashboardsFacts.v
Pipeline.v
Metrics.v
Entry.v
