(* ===== verification/Prelude.v ===== *)
(** * Verification of the OpenSearch Kubernetes operator

    The operator ([src/opensearch-operator], written in Go) reconciles custom resources of a
    Kubernetes cluster: it brings the StatefulSets of an OpenSearchCluster to the specified
    size, version and configuration, and OpenSearch's users, roles, role mappings, tenants,
    action groups, templates, policies and snapshot repositories to the specified state; it
    validates the resources on admission and migrates those of a deprecated API group.  This
    library models it from the source and proves what makes it correct.  Paths below are
    relative to [src/opensearch-operator].

    ** The program and the files that model it

    - [Prelude]: this overview; notations, automation, 32-bit arithmetic and the Go string
      functions the code uses, with the lemmas on them.
    - [Prog]: the meaning of effectful code.  A Go function that talks to a server is a
      program: a value, a panic, or a request with a continuation for each answer.  [run]
      executes it against an environment that may answer anything; [wp] is a program logic in
      which every request can be given a condition on the history in which it is made;
      [only] and [once] are footprints.
    - [Resources], [Kube], [Api]: the data ([api/opensearch.org/v1], Kubernetes objects, the
      bodies of [opensearch-gateway/requests] and [responses]), the requests and their answers,
      and the third-party code as type classes with its documented laws.
    - [Json]: JSON documents as trees, and a round trip through a Go map ([canon]).
    - [K8sClient]: [pkg/reconcilers/k8s/client.go] and [pkg/reconciler/result.go]: getters,
      deletions, status updates retried on conflict, combined results.
    - [Helpers]: [pkg/helpers/helpers.go] and the names and readiness of
      [pkg/builders/cluster.go]: lists of component statuses, TLS and version predicates, the
      cluster's URL, ready and outdated pods, credentials.
    - [OsClient]: [opensearch-gateway/services/os_client.go].
    - [OsData]: [opensearch-gateway/services/os_data_service.go]: shards on a node, the
      allocation exclude list, the checks before a restart, the preparation of a pod.
    - [Fixtures]: concrete parameters and worlds for examples and witnesses.
    - [ReconcilerUtil]: [pkg/reconcilers/util/util.go] and the component status of
      [pkg/reconcilers/reconcilers.go]: clients, node counts, stale exclusions.
    - [Scaler], [Upgrade], [RollingRestart]: [pkg/reconcilers/scaler.go], [upgrade.go] and
      [rollingRestart.go], each reconciler as a whole.
    - [ScaleDown]: the abstract scale-down protocol, the step relation the scaler's status
      writes refine, and what holds of it over many reconciliations.
    - [Controller]: [controllers/opensearchController.go]: finalizer, phases, and the pipeline
      in which the component reconcilers run on one shared instance and context.  The
      reconcilers are an interface here ([Components]); [Pipeline] gives the instance.
    - [Webhooks]: the validators of clusters, roles, users and role bindings under [webhook].
    - [ManagedCR]: what the reconcilers of resources inside OpenSearch share: fetching the
      cluster, checking that it manages the resource, the client, the deferred status update.
    - [Owned]: the scheme of the reconcilers of roles, tenants, action groups and templates, as
      a record of operations with its laws; [PolicyCR]: the scheme of the policies.
    - [Security]: [os_security_service.go] and the reconcilers [role.go] (an instance of
      [Owned]), [users.go] and [userrolebinding.go].
    - [Tenants], [Templates]: [tenant.go], [actiongroup.go], [indextemplate.go],
      [componenttemplate.go] with the template part of [os_data_service.go] and
      [pkg/helpers/translate.go], as instances of [Owned].
    - [IsmPolicy], [SnapshotPolicy]: [ismpolicy.go], [snapshotpolicy.go],
      [snapshotrepository.go] and their services, as instances of [PolicyCR].
    - [Admission]: the remaining validators under [webhook], and those of the deprecated group.
    - [Migration]: [controllers/migration_controller.go]; [MigrationSpec]: its protocol;
      [MigrationRun]: its runs against an API server, an interface with laws ([ApiServer]) and
      an implementation in memory.
    - [Schema]: Go struct types with their JSON tags, and [encoding/json] on their values;
      [OldTypes], [NewTypes], [RequestTypes]: the structs of [api/v1], [api/opensearch.org/v1] and
      [opensearch-gateway/requests]; [Conversion]: how the migration moves objects between the
      groups; [ReadBack]: documents that OpenSearch returns as they were sent.
    - [CrControllers]: the nine controllers that hold a finalizer on a resource and call its
      reconciler; [Setup]: the registration of all controllers and validators, and which changes
      wake which controller.
    - [Patch]: [pkg/patch] and [pkg/types]: the deletion of nulls, the last-applied annotation,
      the calculation of a patch.
    - [ResourceReconciler]: [pkg/reconciler/resource.go], the program behind the request
      [ReconcileResource] of the other files.
    - [RContext]: [ReconcilerContext] of [pkg/reconcilers/reconcilers.go], what the component
      reconcilers of a cluster share: volumes, settings, the hash of each pool's configuration.
    - [Tls]: [pkg/reconcilers/tls.go], [pkg/tls/pki.go] and the cluster's authority of
      [util.go]; [TlsWorkers]: the workers that sign the certificates of the nodes, as a step
      relation, and the theorems on certificates.
    - [Pki]: the rest of [pkg/tls/pki.go], the programs behind the requests for an authority and
      a certificate of [Tls]; [Der]: the part of [encoding/asn1] it uses.
    - [Configuration]: [pkg/reconcilers/configuration.go] and the additional volumes of
      [util.go].
    - [ReconcileHelpers]: [pkg/helpers/reconcile-helpers.go], images and commands.
    - [SecurityConfig]: [pkg/reconcilers/securityconfig.go] with the generated secret
      ([pkg/helpers/helpers.go]) and the update job ([pkg/builders/cluster.go]);
      [SecurityJobs]: the theorems on it.
    - [Waits]: the rest of [pkg/reconcilers/k8s/client.go], and the deletions and polls of
      [pkg/helpers/helpers.go].
    - [Builders]: [pkg/builders/cluster.go], the objects of a cluster; [BuilderFacts]: how they
      fit together.
    - [ClusterRec]: [pkg/reconcilers/cluster.go] and [emptydir_recovery.go]; [ClusterSts]: what
      it does to StatefulSets; [ClusterFacts]: status, volumes and recovery.
    - [Dashboards]: [pkg/reconcilers/dashboards.go] and [pkg/builders/dashboards.go];
      [DashboardsFacts]: the theorems on them.
    - [Pipeline]: all component reconcilers together, on the context they share.
    - [Metrics]: [pkg/helpers/metrics.go]; [Entry]: [main.go], the settings and the start of the process.

    A definition has the name of the Go function; the receiver's fields are arguments, named
    results are the returned value, a loop is [for_range], the Go error is an [option err] or
    a [result].  The parts of a long function are definitions of their own, named in a comment.
    Log messages are left out, events are requests.

    ** What the theorems show

    - Safety of workload changes, for every answer of the servers: what the scaler does to
      StatefulSets ([scaler_changes_guarded], [resize_one_step]), when the upgrade and the
      rolling restart delete a pod ([upgrade_deletes_guarded], [restart_deletes_guarded]), and
      that they delete at most one per reconciliation ([upgrade_one_pod],
      [one_pod_per_reconcile]); when the cluster reconciler deletes, creates or updates a
      StatefulSet, and that an update keeps the replicas ([cluster_changes_guarded]).
    - The whole pipeline: every workload that a reconciliation writes or deletes is one of
      these, and the sets are written with the hash of the settings and volumes of this
      reconciliation and with a volume for each mount ([pipeline_changes_guarded]).
    - The objects of a cluster: every mount has a volume ([sts_mounts_bound]), when the selector
      matches the pods ([selectors_agree]), the roles can be read back
      ([node_roles_roundtrip]), ports, heap and names of services ([grpc_port_spec],
      [heap_half_of_request], [service_names_distinct]).
    - The cluster reconciler besides: claims are resized ([volumes_resized]), status entries of
      the other reconcilers are kept ([cluster_keeps_entries]), the judgement that data was lost
      ([data_loss_spec]).
    - Dashboards: what is written and when ([dashboards_changes_guarded]), which settings win
      ([dashboards_settings]), whether the service finds the pods ([dashboards_selected]).
    - The scale-down protocol: the scaler's status writes are its steps
      ([scaler_follows_protocol]), the entries in the status tell what happened
      ([entries_backed]), and so no node leaves a pool before it was excluded and listed
      without shards (or its listing failed, a defect below), over any number of
      reconciliations ([shrink_after_drain]).  Premises: the entries read were written by this operator, and its other parts keep them.
    - The state machine of an upgrade: order of pools, recorded version, refusal of versions,
      the final write, initialization.
    - The exclude list as a set of names ([append_exclude_exact], [remove_exclude_exact],
      [clean_exclusions_guarded]), combined results, the order of restart candidates, the
      quorum of cluster managers, ordinals of pods.
    - The controller: where the pipeline stops and when the finalizer stays.
    - Admission: exact characterisations of what the validators accept.
    - Resources inside OpenSearch: what was there before is not touched
      ([role_changes_guarded], [tenant_changes_guarded], [template_changes_guarded],
      [ism_changes_guarded], [snapshot_changes_guarded]), users are changed only with their
      mark, role mappings keep the members a binding did not provide, and reconciling
      converges; the documents that are sent ([ism_document]) and compared
      ([index_template_in_sync]); a finalizer is held before anything is created and taken off
      only when it is gone ([controller_finalizer_protocol], [released_means_gone]).
    - The migration: its protocol for every answer of the API server ([migration_protocol]),
      and against a server that keeps its laws that it completes ([migration_completes]), that
      deletion ends ([deletion_completes]) and that the certificates follow the cluster; that the
      conversions keep every document ([conversion_lossless]) and that the status follows the object
      ([status_moved]).
    - Documents: one that OpenSearch returns unchanged is not taken for a difference
      ([read_back_equal]).
    - The process: every kind has one controller, one migration and its validators
      ([registered_once]), which changes wake a cluster's reconciliation ([cluster_woken]), and that
      the manager is started after all registrations succeeded ([main_starts]).
    - The generic reconciler: its protocol ([resource_protocol]), that an object in sync is only
      read, that a replacement keeps foreign metadata, the round trip of the last-applied
      annotation, and the normal form of documents ([delete_null_spec]).
    - Certificates: what the TLS reconciler stores and when ([certificates_guarded]), and that
      every schedule of its workers ends with the same secret ([certificates_any_schedule]); that
      the names in a certificate can be read back ([san_roundtrip]), that a stored authority signs
      what it then accepts ([generated_ca_signs]), and how long a certificate is kept
      ([issued_certificate_rotation]).
    - Configuration: which settings win in the config maps ([config_maps_guarded]), and that the
      hash that restarts a pool's pods is that of its settings and volumes ([config_hashes]).
    - Security configuration: what is written and when ([securityconfig_guarded]), that an
      unchanged configuration keeps its checksum ([securityconfig_stable]), the delay between
      attempts ([retry_delay_closed_form]) and that attempts are not counted while reconciliations
      end without an error ([attempts_not_counted]).
    - Defects the model shows, each as a theorem about the code as it is:
      [drain_ignores_listing_error], [relocating_primary_missed],
      [quorum_even_loses_majority], [single_manager_never_restarted],
      [drained_shrinks_undersized], [orphan_empty_set_kept], [settle_retry_duplicates],
      [settle_overwrites_fetched], [waiting_scale_down_duplicates], [setConditions_drops_old],
      [role_waiting_recorded_created], [finalizer_ignores_requeue], [ism_never_ignored],
      [ism_delete_needs_policy], [recorded_template_names], [template_renames],
      [snapshot_default_name_never_in_sync], [early_deletion_waits_forever],
      [cluster_status_not_copied], [ca_replaced_on_read_error], [admin_certificate_of_old_ca],
      [volume_content_ambiguous], [stale_observation_recreates], [growth_taken_for_failure],
      [recovery_drops_undrained], [dashboards_certificate_names], [pool_named_dashboards],
      [old_versions_stay], [deleted_metrics], [cluster_change_unnoticed].

    ** Choices and bounds

    - An environment is a function of the request and of the whole history, so it may answer
      the same request differently each time: other writers, failures and conflicts are
      included.  Nothing is assumed about the servers unless a theorem says so.
    - Every program is a finite tree, so every modelled function terminates: loops range over
      lists the code has, and a retry on conflict is bounded by the number of steps of the
      retry policy, a parameter ([RetrySteps]; the library's default is five), a poll by the
      number of times its condition is asked ([PollSteps]).  No fuel is needed beyond that.
    - [int32] values are integers with the wrap-around of the arithmetic written out
      ([wrap32]); the delays of results are in seconds, a remaining delay is rounded up, times are
      in nanoseconds.  [unicode.IsSpace] is its ASCII part.  A pointer
      is an [option] and a nil dereference a panic.
    - Slices that two variables share and the code shifts in place are modelled where a result
      depends on it (the status list of the scaler).  An accepted [Update] leaves the sent
      object unchanged but for metadata the model does not have; [ReconcileResource] returns
      the object as it is left.
    - The workers of the TLS reconciler are steps of a relation, with the mutex as atomicity of
      a worker's write; the program of the reconciler runs them in order.
    - Two concurrent reconciliations of one resource do not occur: controller-runtime runs one
      worker per object.

    ** Not modelled

    The generation of keys, the signature itself and the parsing of certificates (requests and
    parameters of [Pki] and [Tls]); YAML, bcrypt and SHA-1 (parameters of [Configuration] and [SecurityConfig]); the
    merge patches of Kubernetes and the archive of the annotation (parameters of [Patch]); the
    arithmetic of quantities and the Prometheus client (parameters of [Builders] and
    [Metrics]); the wait for custom resource definitions, which the operator does not
    reconcile; the calls of the metrics inside the reconcilers; the manager, the logger and its own
    flags (requests and parameters of [Entry]); functions nothing calls ([PodSpecChanged],
    [CheckEquels], [GetField], the statistics and rerouting of [OsClient]) and the response types
    only they use; the generated copies of the data types, the mocks and the helpers of tests. *)

From stdpp Require Export base strings list gmap pretty sorting.
From Stdlib Require Export ZArith Lia Ascii.

Set Default Proof Using "Type".

(** ** Notations that follow the Go source *)

Declare Scope go_scope.
Delimit Scope go_scope with go.

(** Go's [==] and [!=] on comparable values. *)
Notation "x == y" := (bool_decide (x = y)) (at level 70, no associativity) : go_scope.
Notation "x != y" := (negb (bool_decide (x = y))) (at level 70, no associativity) : go_scope.
Open Scope go_scope.
Open Scope Z_scope.

(** ** Automation shared by every file *)

Create HintDb go discriminated.

(** Case analysis on every test and match of the goal, with the decided facts as hypotheses. *)
Ltac go_case :=
  match goal with
  | |- context [bool_decide ?P] => destruct (bool_decide_reflect P)
  | |- context [decide ?P] => destruct (decide P)
  | |- context [match ?x with _ => _ end] =>
      lazymatch x with
      | context [match _ with _ => _ end] => fail
      | _ => destruct x eqn:?
      end
  end.

Ltac go_cases := repeat (go_case; simplify_eq/=).

(** The same, on a hypothesis. *)
Ltac go_case_in H :=
  match type of H with
  | context [bool_decide ?P] => destruct (bool_decide_reflect P)
  | context [decide ?P] => destruct (decide P)
  | context [match ?x with _ => _ end] =>
      lazymatch x with
      | context [match _ with _ => _ end] => fail
      | _ => destruct x eqn:?
      end
  end.

Ltac go_cases_in H := repeat (go_case_in H; simplify_eq/=).

(** ** Machine integers *)

(** Two's-complement wrap-around of an [int32]. *)
Definition wrap32 (z : Z) : Z := (z + 2 ^ 31) `mod` 2 ^ 32 - 2 ^ 31.

Definition in_int32 (z : Z) : Prop := - 2 ^ 31 <= z < 2 ^ 31.

Lemma wrap32_id z : in_int32 z -> wrap32 z = z.
Proof. unfold in_int32, wrap32. intros. rewrite Z.mod_small; lia. Qed.

Lemma wrap32_range z : in_int32 (wrap32 z).
Proof.
  unfold in_int32, wrap32.
  pose proof (Z.mod_pos_bound (z + 2 ^ 31) (2 ^ 32)). lia.
Qed.

#[export] Hint Resolve wrap32_range : go.

(** ** Go strings

    A Go string is a byte string; [unicode.IsSpace] is modelled on its ASCII part. *)

Definition is_space (c : ascii) : bool :=
  match Ascii.nat_of_ascii c with
  | 9 | 10 | 11 | 12 | 13 | 32 => true
  | _ => false
  end%nat.

(** [strings.Split(s, sep)] for a one-byte separator: never empty. *)
Fixpoint Split (s : string) (sep : ascii) : list string :=
  match s with
  | EmptyString => [""]
  | String c s' =>
      if bool_decide (c = sep) then "" :: Split s' sep
      else match Split s' sep with
           | [] => [String c ""]
           | w :: ws => String c w :: ws
           end
  end.

(** [strings.Join(l, sep)] for a one-byte separator. *)
Fixpoint Join (l : list string) (sep : ascii) : string :=
  match l with
  | [] => ""
  | [w] => w
  | w :: ws => w +:+ String sep (Join ws sep)
  end.

Fixpoint trim_left (s : string) : string :=
  match s with
  | EmptyString => ""
  | String c s' => if is_space c then trim_left s' else s
  end.

Fixpoint trim_right (s : string) : string :=
  match s with
  | EmptyString => ""
  | String c s' =>
      match trim_right s' with
      | EmptyString => if is_space c then "" else String c ""
      | t => String c t
      end
  end.

(** [strings.TrimSpace]. *)
Definition TrimSpace (s : string) : string := trim_right (trim_left s).

(** [strings.Fields]: the maximal runs of non-space bytes. *)
Fixpoint Fields_aux (cur : string) (s : string) : list string :=
  match s with
  | EmptyString => if bool_decide (cur = "") then [] else [cur]
  | String c s' =>
      if is_space c
      then if bool_decide (cur = "") then Fields_aux "" s' else cur :: Fields_aux "" s'
      else Fields_aux (cur +:+ String c "") s'
  end.
Definition Fields (s : string) : list string := Fields_aux "" s.

(** String formatting with [%q], for strings without bytes to escape. *)
Definition Quote (s : string) : string :=
  let q := String (Ascii.ascii_of_nat 34) "" in q +:+ s +:+ q.

(** Number formatting ([%d]) of a signed integer. *)
Definition Itoa (z : Z) : string := pretty z.

Definition is_digit (c : ascii) : option Z :=
  let n := Z.of_nat (Ascii.nat_of_ascii c) in
  if bool_decide (48 <= n <= 57) then Some (n - 48) else None.

(** A non-empty run of decimal digits: its value and what follows it. *)
Fixpoint scan_digits (acc : option Z) (s : string) : option (Z * string) :=
  match s with
  | EmptyString => (λ v, (v, "")) <$> acc
  | String c s' =>
      match is_digit c with
      | Some d => scan_digits (Some (10 * default 0 acc + d)) s'
      | None => (λ v, (v, s)) <$> acc
      end
  end.

Definition scan_sign (s : string) : bool * string :=
  match s with
  | String c s' =>
      if bool_decide (c = "-"%char) then (true, s')
      else if bool_decide (c = "+"%char) then (false, s') else (false, s)
  | EmptyString => (false, s)
  end.

Definition int64_ok (z : Z) : option Z :=
  if bool_decide (- 2 ^ 63 <= z < 2 ^ 63) then Some z else None.

(** [strconv.Atoi]. *)
Definition Atoi (s : string) : option Z :=
  let '(neg, s1) := scan_sign s in
  match scan_digits None s1 with
  | Some (v, "") => int64_ok (if (neg : bool) then - v else v)
  | _ => None
  end.

Fixpoint skip_blanks (s : string) : string :=
  match s with
  | String c s' =>
      if is_space c && negb (bool_decide (c = "010"%char)) then skip_blanks s' else s
  | EmptyString => s
  end.

(** [fmt.Sscanf(s, "%d", &n)]: reads the leading number, the rest of the input is ignored. *)
Definition Sscanf_d (s : string) : option Z :=
  let '(neg, s1) := scan_sign (skip_blanks s) in
  match scan_digits None s1 with
  | Some (v, _) => int64_ok (if (neg : bool) then - v else v)
  | None => None
  end.

(** The byte [c] does not occur in [s]. *)
Fixpoint no_char (c : ascii) (s : string) : bool :=
  match s with
  | EmptyString => true
  | String d s' => negb (bool_decide (d = c)) && no_char c s'
  end.

Lemma Split_not_nil s sep : Split s sep <> [].
Proof. destruct s; simpl; [done|]. go_cases; done. Qed.

Lemma Join_Split s sep : Join (Split s sep) sep = s.
Proof.
  induction s as [|c s IH]; simpl; [done|].
  case_bool_decide as E.
  - subst c. pose proof (Split_not_nil s sep).
    destruct (Split s sep) as [|w ws] eqn:Es; [done|].
    change (String sep (Join (w :: ws) sep) = String sep s). by rewrite IH.
  - pose proof (Split_not_nil s sep).
    destruct (Split s sep) as [|w ws] eqn:Es; [done|].
    rewrite <- IH. destruct ws; done.
Qed.

Lemma Split_no_char s sep : no_char sep s = true -> Split s sep = [s].
Proof.
  induction s as [|c s IH]; simpl; [done|].
  intros [H1 H2]%andb_prop. rewrite negb_true_iff in H1. rewrite H1. by rewrite IH.
Qed.

Lemma str_app_nil s : "" +:+ s = s.
Proof. done. Qed.

Lemma str_app_cons c s t : String c s +:+ t = String c (s +:+ t).
Proof. done. Qed.

Lemma Split_app w s sep :
  no_char sep w = true -> Split (w +:+ String sep s) sep = w :: Split s sep.
Proof.
  induction w as [|c w IH]; rewrite ?str_app_nil, ?str_app_cons; simpl; intros H.
  - by rewrite bool_decide_true.
  - apply andb_prop in H as [H1 H2]. rewrite negb_true_iff in H1. rewrite H1.
    by rewrite IH.
Qed.

Lemma Split_Join l sep :
  l <> [] -> Forall (λ w, no_char sep w = true) l -> Split (Join l sep) sep = l.
Proof.
  induction l as [|w [|v l] IH]; intros Hne Hf; [done| |].
  - inversion Hf; subst. by apply Split_no_char.
  - inversion Hf as [|? ? Hw Hf']; subst.
    change (Split (w +:+ String sep (Join (v :: l) sep)) sep = w :: v :: l).
    rewrite Split_app by done. f_equal. by apply IH.
Qed.

Lemma Split_pieces s sep : Forall (λ w, no_char sep w = true) (Split s sep).
Proof.
  induction s as [|c s IH]; simpl; [by repeat constructor|].
  case_bool_decide; [by constructor|].
  destruct (Split s sep) as [|w ws]; inversion IH; subst; constructor; simpl; try done;
    rewrite bool_decide_false by done; done.
Qed.

(** Trimming. *)
Fixpoint no_space (s : string) : bool :=
  match s with EmptyString => true | String d s' => negb (is_space d) && no_space s' end.

Lemma trim_right_no_space s : no_space s = true -> trim_right s = s.
Proof.
  induction s as [|c s IH]; simpl; [done|]. intros [H1 H2]%andb_prop.
  rewrite negb_true_iff in H1. rewrite H1, IH by done. by destruct s.
Qed.

Lemma TrimSpace_no_space s : no_space s = true -> TrimSpace s = s.
Proof.
  unfold TrimSpace. intros H.
  assert (trim_left s = s) as ->.
  { destruct s; simpl in *; [done|]. apply andb_prop in H as [H _].
    rewrite negb_true_iff in H. by rewrite H. }
  by apply trim_right_no_space.
Qed.

Lemma trim_left_no_char c s : no_char c s = true -> no_char c (trim_left s) = true.
Proof.
  induction s as [|d s IH]; simpl; [done|]. intros H.
  destruct (is_space d); [apply IH; by apply andb_prop in H as [_ ?]|done].
Qed.

Lemma trim_right_no_char c s : no_char c s = true -> no_char c (trim_right s) = true.
Proof.
  induction s as [|d s IH]; simpl; [done|]. intros [H1 H2]%andb_prop.
  specialize (IH H2). destruct (trim_right s) eqn:E.
  - destruct (is_space d); simpl; [done|]. by rewrite H1.
  - change (negb (bool_decide (d = c)) && no_char c (String a s0) = true).
    by rewrite H1, IH.
Qed.

Lemma TrimSpace_no_char c s : no_char c s = true -> no_char c (TrimSpace s) = true.
Proof. intros. by apply trim_right_no_char, trim_left_no_char. Qed.

(** Formatting distinguishes different numbers. *)
Lemma app_inj_l s t u : s +:+ t = s +:+ u -> t = u.
Proof. induction s; [done|]. rewrite !str_app_cons. intros [=]; auto. Qed.

Lemma str_app_nil_r s : s +:+ "" = s.
Proof. induction s as [|a s IH]; [done|]. by rewrite str_app_cons, IH. Qed.
Lemma str_app_assoc (s t u : string) : (s +:+ t) +:+ u = s +:+ (t +:+ u).
Proof. induction s as [|a s IH]; [done|]. by rewrite !str_app_cons, IH. Qed.
Lemma str_app_length (s t : string) :
  String.length (s +:+ t) = (String.length s + String.length t)%nat.
Proof. induction s as [|a s IH]; [done|]. rewrite str_app_cons. simpl. by rewrite IH. Qed.
(** Strings that end in parts of the same length. *)
Lemma str_app_inj (s t u v : string) :
  String.length t = String.length v -> s +:+ t = u +:+ v -> s = u /\ t = v.
Proof.
  revert u. induction s as [|a s IH]; intros [|b u] Hl H; rewrite ?str_app_cons in H.
  - done.
  - change (t = String b (u +:+ v)) in H. subst t. cbn [String.length] in Hl.
    rewrite str_app_length in Hl. lia.
  - change (String a (s +:+ t) = v) in H. subst v. cbn [String.length] in Hl.
    rewrite str_app_length in Hl. lia.
  - injection H as -> H. destruct (IH u Hl H) as [-> ->]. done.
Qed.

Lemma no_char_app c (s t : string) : no_char c (s +:+ t) = no_char c s && no_char c t.
Proof.
  induction s as [|a s IH]; [done|]. rewrite str_app_cons. simpl. by rewrite IH, andb_assoc.
Qed.
(** What is before and after the last separator. *)
Lemma last_sep_inj c (a b s t : string) :
  no_char c s = true -> no_char c t = true ->
  a +:+ String c s = b +:+ String c t -> a = b /\ s = t.
Proof.
  intros Hs Ht. revert b. induction a as [|x a IH]; intros [|y b] H; rewrite ?str_app_cons in H.
  - by injection H as ->.
  - injection H as -> H. change (s = b +:+ String y t) in H. rewrite H, no_char_app in Hs. simpl in Hs.
    rewrite bool_decide_true, andb_false_r in Hs by done. done.
  - injection H as -> H. change (a +:+ String c s = t) in H. rewrite <- H, no_char_app in Ht.
    simpl in Ht. rewrite bool_decide_true, andb_false_r in Ht by done. done.
  - injection H as -> H. destruct (IH b H) as [-> ->]. done.
Qed.

Lemma sublist_same_length {A} (l k : list A) :
  sublist l k -> length l = length k -> l = k.
Proof.
  intros Hs. induction Hs as [|x l k Hs IH|x l k Hs IH]; simpl; intros Hl; [done| |].
  - f_equal. auto.
  - apply sublist_length in Hs. lia.
Qed.

(** ** Decimal numbers: printing and parsing *)

Fixpoint all_digits (s : string) : bool :=
  match s with
  | EmptyString => true
  | String c s' => bool_decide (is_Some (is_digit c)) && all_digits s'
  end.

Lemma is_digit_char x : (x < 10)%N -> is_digit (pretty_N_char x) = Some (Z.of_N x).
Proof.
  intros Hx. assert (x ∈ [0;1;2;3;4;5;6;7;8;9])%N as H.
  { assert (x = 0 \/ x = 1 \/ x = 2 \/ x = 3 \/ x = 4 \/ x = 5 \/ x = 6 \/ x = 7 \/ x = 8 \/
            x = 9)%N by lia. set_solver. }
  repeat (apply elem_of_cons in H as [->|H]; [reflexivity|]). by apply elem_of_nil in H.
Qed.

Lemma all_digits_go x s : all_digits s = true -> all_digits (pretty_N_go x s) = true.
Proof.
  revert s. induction (N.lt_wf_0 x) as [x _ IH]; intros s Hs.
  destruct (decide (x = 0)%N) as [->|Hx]; [by rewrite pretty_N_go_0|].
  rewrite pretty_N_go_step by lia. apply IH; [apply N.div_lt; lia|].
  simpl. rewrite is_digit_char by (apply N.mod_lt; lia). by rewrite bool_decide_true.
Qed.

Lemma scan_digits_go x s :
  (0 < x)%N -> scan_digits None (pretty_N_go x s) = scan_digits (Some (Z.of_N x)) s.
Proof.
  revert s. induction (N.lt_wf_0 x) as [x _ IH]; intros s Hx.
  rewrite pretty_N_go_step by lia. pose proof (N.mod_lt x 10 ltac:(lia)) as Hm.
  pose proof (N.div_mod x 10 ltac:(lia)) as Hd.
  destruct (decide (x `div` 10 = 0)%N) as [H0|H0].
  - rewrite H0, pretty_N_go_0. simpl. rewrite is_digit_char by lia. f_equal. f_equal. lia.
  - rewrite IH; [|apply N.div_lt; lia|lia]. simpl. rewrite is_digit_char by lia.
    f_equal. f_equal. lia.
Qed.

Lemma pretty_N_digits x :
  all_digits (pretty x) = true /\ scan_digits None (pretty x) = Some (Z.of_N x, "").
Proof.
  unfold pretty, pretty_N. case_decide as Hx; [by subst|]. split; [by apply all_digits_go|].
  by rewrite scan_digits_go by lia.
Qed.

Lemma all_digits_sign s : all_digits s = true -> scan_sign s = (false, s).
Proof.
  destruct s as [|c s]; simpl; [done|]. intros [Hc _]%andb_true_iff.
  apply bool_decide_eq_true in Hc. case_bool_decide; [by subst; destruct Hc|].
  case_bool_decide; [by subst; destruct Hc|done].
Qed.

Lemma all_digits_no_dash s : all_digits s = true -> no_char "-" s = true.
Proof.
  induction s as [|c s IH]; simpl; [done|]. intros [Hc Hs]%andb_true_iff.
  apply bool_decide_eq_true in Hc. rewrite IH, andb_true_r by done.
  apply negb_true_iff, bool_decide_eq_false. intros ->. by destruct Hc.
Qed.

Lemma Itoa_nonneg z : 0 <= z -> Itoa z = pretty (Z.to_N z).
Proof.
  intros Hz. unfold Itoa. rewrite <- (Z2N.id z) at 1 by done. by destruct (Z.to_N z).
Qed.

Lemma Itoa_no_dash z : 0 <= z -> no_char "-" (Itoa z) = true.
Proof. intros Hz. rewrite Itoa_nonneg by done. apply all_digits_no_dash, pretty_N_digits. Qed.

Lemma Atoi_Itoa z : 0 <= z < 2 ^ 63 -> Atoi (Itoa z) = Some z.
Proof.
  intros Hz. rewrite Itoa_nonneg by lia. destruct (pretty_N_digits (Z.to_N z)) as [Hd Hs].
  unfold Atoi. rewrite all_digits_sign, Hs by done. rewrite Z2N.id by lia.
  unfold int64_ok. by rewrite bool_decide_true by lia.
Qed.

(** The last piece of a string after a separator that does not occur further on. *)
Lemma last_Split_app a b sep :
  no_char sep b = true -> last (Split (a +:+ String sep b) sep) = Some b.
Proof.
  intros Hb. induction a as [|c a IH]; simpl.
  - rewrite bool_decide_true by done. rewrite Split_no_char by done. done.
  - change (String c a +:+ String sep b) with (String c (a +:+ String sep b)). simpl.
    case_bool_decide.
    + pose proof (Split_not_nil (a +:+ String sep b) sep).
      destruct (Split (a +:+ String sep b) sep) eqn:E; [done|]. by rewrite last_cons, IH.
    + pose proof (Split_not_nil (a +:+ String sep b) sep).
      destruct (Split (a +:+ String sep b) sep) as [|w ws] eqn:E; [done|].
      destruct ws as [|w' ws]; [|exact IH]. exfalso.
      assert (length (Split (a +:+ String sep b) sep) >= 2)%nat; [|rewrite E in *; simpl in *; lia].
      clear. induction a as [|c a IH]; simpl.
      * rewrite bool_decide_true by done. pose proof (Split_not_nil b sep).
        destruct (Split b sep); [done|simpl; lia].
      * change (String c a +:+ String sep b) with (String c (a +:+ String sep b)). simpl.
        case_bool_decide; [simpl; lia|].
        destruct (Split (a +:+ String sep b) sep); simpl in *; lia.
Qed.

Lemma find_none_iff {A} (f : A -> bool) l :
  find f l = None <-> forall x, In x l -> f x = false.
Proof.
  split; [apply find_none|]. induction l as [|y l IH]; simpl; [done|]. intros H.
  rewrite (H y) by auto. apply IH. intros x Hx. apply H. auto.
Qed.
