(* ===== verification/Prog.v ===== *)
(** * Prog: effectful Go code as programs over requests, and their program logic

    The operator's code is sequential Go that talks to two servers.  A function of the
    source is a [prog]: a finite tree of requests to the outside world, whose branches are
    indexed by the answer.  Everything the code cannot decide by itself (what the API server
    or OpenSearch answer) is a universally quantified answer, so a theorem about a [prog]
    holds for every behaviour of the environment.

    - [run] executes a program against an environment (a function of the request and of the
      history so far) and returns the outcome and the history;
    - [wp p P Q h]: from history [h], every request [q] that [p] makes satisfies [P h' q]
      ([h'] the history when it is made), and the outcome satisfies [Q];
    - [wp_sound] relates the two. *)

From S2P Require Import Prelude.

Section Prog.
Context {Req : Type} {Resp : Req -> Type}.

(** A program: a value, a Go panic, or a request with a continuation. *)
Inductive prog (A : Type) : Type :=
| Ret (a : A)
| Panic (msg : string)
| Call (q : Req) (k : Resp q -> prog A).
Arguments Ret {A} a.
Arguments Panic {A} msg.
Arguments Call {A} q k.

(** One exchange with the environment; histories hold the newest exchange first. *)
Record event := Ev { ev_req : Req; ev_resp : Resp ev_req }.
Definition hist := list event.

Inductive outcome (A : Type) : Type :=
| Returned (a : A)
| Panicked (msg : string).
Arguments Returned {A} a.
Arguments Panicked {A} msg.

Definition call (q : Req) : prog (Resp q) := Call q Ret.

Fixpoint bind {A B} (p : prog A) (f : A -> prog B) : prog B :=
  match p with
  | Ret a => f a
  | Panic m => Panic m
  | Call q k => Call q (fun r => bind (k r) f)
  end.

(** ** Execution *)

Definition env := forall q : Req, hist -> Resp q.

Fixpoint run {A} (w : env) (p : prog A) (h : hist) : outcome A * hist :=
  match p with
  | Ret a => (Returned a, h)
  | Panic m => (Panicked m, h)
  | Call q k => let r := w q h in run w (k r) (Ev q r :: h)
  end.

(** ** Weakest preconditions *)

Fixpoint wp {A} (p : prog A) (P : hist -> Req -> Prop)
    (Q : hist -> outcome A -> Prop) (h : hist) : Prop :=
  match p with
  | Ret a => Q h (Returned a)
  | Panic m => Q h (Panicked m)
  | Call q k => P h q /\ forall r, wp (k r) P Q (Ev q r :: h)
  end.

(** Sequential composition of postconditions. *)
Definition seq_post {A B} (f : A -> prog B) (P : hist -> Req -> Prop)
    (Q : hist -> outcome B -> Prop) : hist -> outcome A -> Prop :=
  fun h o => match o with
             | Returned a => wp (f a) P Q h
             | Panicked m => Q h (Panicked m)
             end.

(** All requests of a history were allowed by [P] when they were made. *)
Fixpoint calls_ok (P : hist -> Req -> Prop) (h : hist) : Prop :=
  match h with
  | [] => True
  | e :: h' => P h' (ev_req e) /\ calls_ok P h'
  end.

Lemma calls_ok_mono (P P' : hist -> Req -> Prop) h :
  (forall h' q, P h' q -> P' h' q) -> calls_ok P h -> calls_ok P' h.
Proof. intros HP. induction h as [|e h IH]; simpl; [done|]. intros [H1 H2]. auto. Qed.

Lemma wp_bind_iff {A B} (p : prog A) (f : A -> prog B) P Q h :
  wp (bind p f) P Q h <-> wp p P (seq_post f P Q) h.
Proof.
  revert h. induction p as [a|m|q k IH]; intros h; simpl; [done|done|].
  split; intros [H1 H2]; split; try done; intros r; specialize (H2 r);
    by apply (IH r).
Qed.

Lemma wp_bind {A B} (p : prog A) (f : A -> prog B) P Q h :
  wp p P (seq_post f P Q) h -> wp (bind p f) P Q h.
Proof. apply wp_bind_iff. Qed.

Lemma wp_ret {A} (a : A) (P : hist -> Req -> Prop) (Q : _ -> _ -> Prop) h :
  Q h (Returned a) -> wp (Ret a) P Q h.
Proof. done. Qed.

Lemma wp_panic {A} m (P : hist -> Req -> Prop) (Q : hist -> outcome A -> Prop) h :
  Q h (Panicked m) -> wp (Panic m) P Q h.
Proof. done. Qed.

Lemma wp_call1 q (P : hist -> Req -> Prop) (Q : _ -> _ -> Prop) h :
  P h q -> (forall r, Q (Ev q r :: h) (Returned r)) -> wp (call q) P Q h.
Proof. intros HP HQ. by split. Qed.

Lemma wp_call {B} q (f : Resp q -> prog B) (P : hist -> Req -> Prop) Q h :
  P h q -> (forall r, wp (f r) P Q (Ev q r :: h)) -> wp (bind (call q) f) P Q h.
Proof. intros HP HQ. by split. Qed.

Lemma wp_mono {A} (p : prog A) (P P' : hist -> Req -> Prop) (Q Q' : _ -> _ -> Prop) h :
  (forall h' q, P h' q -> P' h' q) ->
  (forall h' o, Q h' o -> Q' h' o) ->
  wp p P Q h -> wp p P' Q' h.
Proof.
  intros HP HQ. revert h. induction p as [a|m|q k IH]; intros h; simpl; [auto|auto|].
  intros [H1 H2]. split; [auto|]. intros r. by apply IH.
Qed.

(** Histories only grow. *)
Definition extends (h0 h : hist) : Prop := exists l, h = l ++ h0.

#[global] Instance extends_preorder : PreOrder extends.
Proof.
  split; [by exists []|].
  intros h1 h2 h3 [l1 ->] [l2 ->]. exists (l2 ++ l1). by rewrite app_assoc.
Qed.

Lemma extends_cons h0 h e : extends h0 h -> extends h0 (e :: h).
Proof. intros [l ->]. by exists (e :: l). Qed.

Lemma extends_elem e h0 h : extends h0 h -> e ∈ h0 -> e ∈ h.
Proof. intros [l ->] He. set_solver. Qed.

(** Both halves may be strengthened with the fact that the history extends the initial one. *)
Lemma wp_mono_ext {A} (p : prog A) (P P' : hist -> Req -> Prop) (Q Q' : _ -> _ -> Prop) h :
  (forall h' q, extends h h' -> P h' q -> P' h' q) ->
  (forall h' o, extends h h' -> Q h' o -> Q' h' o) ->
  wp p P Q h -> wp p P' Q' h.
Proof.
  revert h. induction p as [a|m|q k IH]; intros h HP HQ; simpl.
  - apply HQ. reflexivity.
  - apply HQ. reflexivity.
  - intros [H1 H2]. split; [apply HP; [reflexivity|done]|].
    intros r. apply IH; [| |done]; intros h' x Hx;
      [apply HP|apply HQ]; (etransitivity; [|done]; by apply extends_cons).
Qed.

Lemma wp_conj {A} (p : prog A) (P P' : hist -> Req -> Prop) (Q Q' : _ -> _ -> Prop) h :
  wp p P Q h -> wp p P' Q' h ->
  wp p (λ h q, P h q /\ P' h q) (λ h o, Q h o /\ Q' h o) h.
Proof.
  revert h. induction p as [a|m|q k IH]; intros h; simpl; [done|done|].
  intros [H1 H2] [H3 H4]. split; [done|]. intros r. apply IH; auto.
Qed.

Lemma wp_true {A} (p : prog A) h : wp p (λ _ _, True) (λ _ _, True) h.
Proof. revert h. induction p; intros h; simpl; auto. Qed.

(** A program whose every request satisfies a history-independent test. *)
Lemma wp_pure {A} (p : prog A) (P P' : hist -> Req -> Prop) (Q Q' : _ -> _ -> Prop) h :
  wp p P Q h -> (forall h' q, extends h h' -> P h' q -> P' h' q) ->
  (forall h' o, extends h h' -> Q h' o -> Q' h' o) ->
  wp p P' Q' h.
Proof. intros. by eapply wp_mono_ext. Qed.

(** Soundness: what [wp] promises holds of every execution. *)
Theorem wp_sound {A} (w : env) (p : prog A) P Q h :
  wp p P Q h -> calls_ok P h ->
  Q (run w p h).2 (run w p h).1 /\ calls_ok P (run w p h).2.
Proof.
  revert h. induction p as [a|m|q k IH]; intros h; simpl; [done|done|].
  intros [H1 H2] H3. apply IH; [apply H2|by split].
Qed.

Lemma run_bind {A B} (w : env) (p : prog A) (f : A -> prog B) h :
  run w (bind p f) h =
    match run w p h with
    | (Returned a, h') => run w (f a) h'
    | (Panicked m, h') => (Panicked m, h')
    end.
Proof. revert h. induction p as [a|m|q k IH]; intros h; simpl; [done|done|apply IH]. Qed.

Lemma run_extends {A} (w : env) (p : prog A) h : extends h (run w p h).2.
Proof.
  revert h. induction p as [a|m|q k IH]; intros h; simpl; [reflexivity|reflexivity|].
  etransitivity; [|apply IH]. by apply extends_cons.
Qed.

(** ** Loops

    [for x := range xs { body }] with the loop-carried variables in [s]; the body answers
    [inl s'] to go on and [inr r] to leave the loop (a [break] or a [return]). *)
Fixpoint for_range {X S R} (xs : list X) (s : S) (body : X -> S -> prog (S + R))
    : prog (S + R) :=
  match xs with
  | [] => Ret (inl s)
  | x :: xs' =>
      bind (body x s) (fun o =>
        match o with
        | inl s' => for_range xs' s' body
        | inr r => Ret (inr r)
        end)
  end.

Definition loop_post {X S R} (Inv : list X -> S -> hist -> Prop)
    (Q : hist -> outcome (S + R) -> Prop) (xs : list X) : hist -> outcome (S + R) -> Prop :=
  fun h o => match o with
             | Returned (inl s') => Inv xs s' h
             | _ => Q h o
             end.

(** The loop rule: an invariant of the elements still to be visited, the loop-carried
    variables and the history. *)
Lemma wp_for_range {X S R} (Inv : list X -> S -> hist -> Prop) P
    (Q : hist -> outcome (S + R) -> Prop) xs s body h :
  Inv xs s h ->
  (forall x xs s h, Inv (x :: xs) s h -> wp (body x s) P (loop_post Inv Q xs) h) ->
  (forall s h, Inv [] s h -> Q h (Returned (inl s))) ->
  wp (for_range xs s body) P Q h.
Proof.
  revert s h. induction xs as [|x xs IH]; intros s h Hi Hb Hq; simpl.
  - by apply Hq.
  - apply wp_bind. eapply wp_mono; [done| |by apply Hb].
    intros h' [[s'|r]|m] Ho; simpl in *; auto.
Qed.

(** ** Footprints

    [only R p]: whatever the answers, [p] makes no request outside [R]. *)
Definition only {A} (R : Req -> Prop) (p : prog A) : Prop :=
  forall h, wp p (λ _ q, R q) (λ _ _, True) h.

Lemma only_ret {A} R (a : A) : only R (Ret a).
Proof. by intros h. Qed.
Lemma only_panic {A} R m : only R (Panic m : prog A).
Proof. by intros h. Qed.
Lemma only_call (R : Req -> Prop) q : R q -> only R (call q).
Proof. by intros H h. Qed.
Lemma only_bind {A B} R (p : prog A) (f : A -> prog B) :
  only R p -> (forall a, only R (f a)) -> only R (bind p f).
Proof.
  intros Hp Hf h. apply wp_bind. eapply wp_mono; [| |apply Hp]; [done|].
  intros h' [a|m] _; simpl; [apply Hf|done].
Qed.
Lemma only_for_range {X S A} R (xs : list X) (s : S) (body : X -> S -> prog (S + A)) :
  (forall x s, only R (body x s)) -> only R (for_range xs s body).
Proof.
  intros Hb. revert s. induction xs as [|x xs IH]; intros s; simpl; [apply only_ret|].
  apply only_bind; [apply Hb|]. intros [s'|a]; [apply IH|apply only_ret].
Qed.
Lemma only_mono {A} (R R' : Req -> Prop) (p : prog A) :
  (forall q, R q -> R' q) -> only R p -> only R' p.
Proof. intros H Hp h. eapply wp_mono; [| |apply Hp]; auto. Qed.

(** A program with a footprint can be stepped over. *)
Lemma wp_only {A} R (p : prog A) (P : hist -> Req -> Prop) (Q : _ -> _ -> Prop) h :
  only R p -> (forall h' q, extends h h' -> R q -> P h' q) ->
  (forall h' o, extends h h' -> Q h' o) -> wp p P Q h.
Proof. intros Hp HP HQ. eapply wp_mono_ext; [| |apply Hp]; auto. Qed.

(** The same, in front of a continuation. *)
Lemma wp_only_bind {A B} R (p : prog A) (f : A -> prog B) (P : hist -> Req -> Prop)
    (Q : _ -> _ -> Prop) h :
  only R p -> (forall h' q, extends h h' -> R q -> P h' q) ->
  (forall h' a, extends h h' -> wp (f a) P Q h') ->
  (forall h' m, extends h h' -> Q h' (Panicked m)) -> wp (bind p f) P Q h.
Proof.
  intros Hp HP HQ Hm. apply wp_bind. eapply wp_only; [done|done|].
  intros h' [a|m] He; simpl; auto.
Qed.

(** [always P p]: from every history, every request of [p] is one [P] allows by then. *)
Definition always {A} (P : hist -> Req -> Prop) (p : prog A) : Prop :=
  forall h, wp p P (λ _ _, True) h.

Lemma always_ret {A} P (a : A) : always P (Ret a).
Proof. by intros h. Qed.
Lemma always_panic {A} P m : always P (Panic m : prog A).
Proof. by intros h. Qed.
Lemma always_call (P : hist -> Req -> Prop) q : (forall h, P h q) -> always P (call q).
Proof. by intros H h. Qed.
Lemma always_bind {A B} P (p : prog A) (f : A -> prog B) :
  always P p -> (forall a, always P (f a)) -> always P (bind p f).
Proof.
  intros Hp Hf h. apply wp_bind. eapply wp_mono; [| |apply Hp]; [done|].
  intros h' [a|m] _; simpl; [apply Hf|done].
Qed.
Lemma always_for_range {X S A} P (xs : list X) (s : S) (body : X -> S -> prog (S + A)) :
  (forall x s, x ∈ xs -> always P (body x s)) -> always P (for_range xs s body).
Proof.
  revert s. induction xs as [|x xs IH]; intros s Hb; simpl; [apply always_ret|].
  apply always_bind; [apply Hb; left|]. intros [s'|a]; [|apply always_ret].
  apply IH. intros y t Hy. apply Hb. by right.
Qed.
Lemma always_only {A} (R : Req -> Prop) (P : hist -> Req -> Prop) (p : prog A) :
  only R p -> (forall h q, R q -> P h q) -> always P p.
Proof. intros Hp HR h. eapply wp_mono; [| |apply Hp]; auto. Qed.
Lemma always_run {A} P (p : prog A) (w : env) : always P p -> calls_ok P (run w p []).2.
Proof. intros Hp. by eapply wp_sound. Qed.

(** [ensures P R p]: moreover every value that [p] returns satisfies [R]. *)
Definition ensures {A} (P : hist -> Req -> Prop) (R : A -> Prop) (p : prog A) : Prop :=
  forall h, wp p P (λ _ o, match o with Returned a => R a | Panicked _ => True end) h.

Lemma ensures_ret {A} P (R : A -> Prop) a : R a -> ensures P R (Ret a).
Proof. by intros H h. Qed.
Lemma ensures_panic {A} P (R : A -> Prop) m : ensures P R (Panic m).
Proof. by intros h. Qed.
Lemma ensures_bind {A B} P (R0 : A -> Prop) (R : B -> Prop) (p : prog A) (f : A -> prog B) :
  ensures P R0 p -> (forall a, R0 a -> ensures P R (f a)) -> ensures P R (bind p f).
Proof.
  intros Hp Hf h. apply wp_bind. eapply wp_mono; [| |apply Hp]; [done|].
  intros h' [a|m] Ha; simpl; [by apply Hf|done].
Qed.
Lemma ensures_after {A B} P (R : B -> Prop) (p : prog A) (f : A -> prog B) :
  always P p -> (forall a, ensures P R (f a)) -> ensures P R (bind p f).
Proof.
  intros Hp Hf. eapply (ensures_bind P (λ _, True)); [|auto].
  intros h. eapply wp_mono; [| |apply Hp]; [done|]. by intros h' [a|m].
Qed.
Lemma ensures_assoc {A B C} P (R : C -> Prop) (p : prog A) (f : A -> prog B) (g : B -> prog C) :
  ensures P R (bind p (λ a, bind (f a) g)) -> ensures P R (bind (bind p f) g).
Proof.
  intros H h. specialize (H h). apply wp_bind_iff, wp_bind_iff. apply wp_bind_iff in H.
  eapply wp_mono; [| |exact H]; [done|]. intros h' [a|m]; simpl; [apply wp_bind_iff|done].
Qed.
Lemma always_ensures {A} P (R : A -> Prop) (p : prog A) : ensures P R p -> always P p.
Proof. intros Hp h. eapply wp_mono; [| |apply Hp]; done. Qed.

(** [reaches p h a h']: from [h], the program can return [a], with [h'] by then. *)
Inductive reaches {A} : prog A -> hist -> A -> hist -> Prop :=
| reaches_ret a h : reaches (Ret a) h a h
| reaches_call q k r h a h' : reaches (k r) (Ev q r :: h) a h' -> reaches (Call q k) h a h'.

Lemma wp_reaches {A} (p : prog A) P Q h a h' :
  wp p P Q h -> reaches p h a h' -> Q h' (Returned a).
Proof. intros Hw Hr. induction Hr as [a h|q k r h a h' Hr IH]; [done|]. apply IH, Hw. Qed.

Lemma reaches_wp {A} (p : prog A) h :
  wp p (λ _ _, True) (λ h' o, forall a, o = Returned a -> reaches p h a h') h.
Proof.
  revert h. induction p as [a|m|q k IH]; intros h; simpl; [intros ? [= <-]; constructor|done|].
  split; [done|]. intros r. eapply wp_mono; [done| |apply IH].
  intros h' o Ho a E. econstructor. by apply Ho.
Qed.

(** [once f p]: whatever the answers, [p] makes at most one request that passes the test. *)
Fixpoint once {A} (f : Req -> bool) (p : prog A) : Prop :=
  match p with
  | Ret _ | Panic _ => True
  | Call q k =>
      if f q then forall r, only (λ q, f q = false) (k r) else forall r, once f (k r)
  end.

Lemma only_inv {A} R q (k : Resp q -> prog A) :
  only R (Call q k) -> R q /\ forall r, only R (k r).
Proof.
  intros H. split; [apply (H [])|]. intros r h. 
  assert (forall B (p : prog B) h1 h2, wp p (λ _ q, R q) (λ _ _, True) h1 ->
    wp p (λ _ q, R q) (λ _ _, True) h2) as Hh.
  { intros B p. induction p as [|m|q' k' IH]; intros h1 h2; simpl; [done|done|].
    intros [H1 H2]. split; [done|]. intros r'. by eapply IH. }
  eapply Hh, (H []).
Qed.

Lemma once_never {A} f (p : prog A) : only (λ q, f q = false) p -> once f p.
Proof.
  induction p as [a|m|q k IH]; simpl; [done|done|]. intros [Hq Hk]%only_inv.
  rewrite Hq. intros r. by apply IH.
Qed.

Lemma once_bind_l {A B} f (p : prog A) (k : A -> prog B) :
  only (λ q, f q = false) p -> (forall a, once f (k a)) -> once f (bind p k).
Proof.
  intros Hp Hk. induction p as [a|m|q k' IH]; simpl; [apply Hk|done|].
  apply only_inv in Hp as [Hq Hp]. rewrite Hq. intros r. by apply IH.
Qed.

Lemma once_bind_r {A B} f (p : prog A) (k : A -> prog B) :
  once f p -> (forall a, only (λ q, f q = false) (k a)) -> once f (bind p k).
Proof.
  intros Hp Hk. induction p as [a|m|q k' IH]; simpl in *; [by apply once_never|done|].
  destruct (f q); intros r; [apply only_bind; auto|by apply IH].
Qed.

Lemma once_call f q : once f (call q).
Proof. simpl. destruct (f q); intros r; [apply only_ret|done]. Qed.

Lemma run_only {A} R (p : prog A) (w : env) :
  only R p -> forall e, e ∈ (run w p []).2 -> R (ev_req e).
Proof.
  intros Hp e He. destruct (wp_sound w p _ _ [] (Hp []) I) as [_ Hc].
  revert He. generalize (run w p []).2 Hc. clear. intros l. induction l as [|x l IH]; simpl.
  - by intros _ ?%elem_of_nil.
  - intros [H1 H2] [->|H]%elem_of_cons; auto.
Qed.

End Prog.

Arguments prog {Req} Resp A.
Arguments Ret {Req Resp A} a.
Arguments Panic {Req Resp A} msg.
Arguments Call {Req Resp A} q k.
Arguments event {Req} Resp.
Arguments Ev {Req Resp} ev_req ev_resp.
Arguments hist {Req} Resp.
Arguments Returned {A} a.
Arguments Panicked {A} msg.
Arguments env {Req} Resp.
Arguments wp : simpl never.
Arguments only : simpl never.
Arguments always : simpl never.
Arguments ensures : simpl never.
Arguments bind : simpl never.
Arguments call : simpl never.

(** Sequencing: [let! x := p in k] runs [p], binds its result and goes on with [k]. *)
Notation "'let!' x := p 'in' k" := (bind p (fun x => k))
  (at level 10, x pattern, p at level 200, k at level 200,
   format "'[v' 'let!'  x  :=  p  'in' '/' k ']'") : go_scope.
Notation "'do!' p 'in' k" := (bind p (fun _ => k))
  (at level 10, p at level 200, k at level 200,
   format "'[v' 'do!'  p  'in' '/' k ']'") : go_scope.

#[export] Hint Resolve extends_cons : go.
#[export] Hint Extern 0 (extends ?h ?h) => reflexivity : go.

(** The number of exchanges of a history whose request passes a test. *)
Fixpoint count_calls {Req} {Resp : Req -> Type} (f : Req -> bool) (h : hist Resp) : nat :=
  match h with
  | [] => 0
  | e :: h' => (if f (ev_req e) then 1 else 0) + count_calls f h'
  end.

Lemma count_only {Req} {Resp : Req -> Type} {A} f (p : prog Resp A) w h :
  only (λ q, f q = false) p -> count_calls f (run w p h).2 = count_calls f h.
Proof.
  revert h. induction p as [a|m|q k IH]; intros h; simpl; [done|done|].
  intros [Hq Hk]%only_inv. rewrite IH by done. simpl. by rewrite Hq.
Qed.

Lemma once_count {Req} {Resp : Req -> Type} {A} f (p : prog Resp A) w h :
  once f p -> (count_calls f (run w p h).2 <= 1 + count_calls f h)%nat.
Proof.
  revert h. induction p as [a|m|q k IH]; intros h; simpl; [lia|lia|].
  destruct (f q) eqn:E; intros Hk.
  - rewrite count_only by apply Hk. simpl. rewrite E. lia.
  - etransitivity; [apply IH, Hk|]. simpl. rewrite E. lia.
Qed.

Arguments once : simpl never.

(** ** Tactics *)

Create HintDb only discriminated.

(** Footprint goals, by the structure of the program; [only] lists the known footprints. *)
Ltac only_step :=
  lazymatch goal with
  | |- only _ (Ret _) => apply only_ret
  | |- only _ (Panic _) => apply only_panic
  | |- only ?R (call ?q) =>
      refine (only_call R q _); first [exact I | solve [auto with only]]
  | |- only _ (bind _ _) => apply only_bind; [|intros ?]
  | |- only _ (for_range _ _ _) => apply only_for_range; intros ? ?
  | |- only _ (match ?x with _ => _ end) => destruct x
  | |- only _ ((match ?x with _ => _ end) _) => destruct x
  | |- only _ (let x := _ in _) => cbv zeta
  end.
Ltac only_auto :=
  intros; repeat (cbv beta zeta; first [only_step | solve [eauto with only]]).


Create HintDb always discriminated.

(** The same for [always]; a subprogram with a footprint is left to the hints. *)
Ltac always_step :=
  lazymatch goal with
  | |- always _ (Ret _) => apply always_ret
  | |- always _ (Panic _) => apply always_panic
  | |- always _ (call _) => apply always_call; solve [eauto with always]
  | |- always _ (bind _ _) => apply always_bind; [|intros ?]
  | |- always _ (match ?x with _ => _ end) => destruct x
  | |- always _ ((match ?x with _ => _ end) _) => destruct x
  | |- always _ (let x := _ in _) => cbv zeta
  end.
Ltac always_auto :=
  intros; repeat (cbv beta zeta; first [solve [eauto with always] | always_step]).

(** And for [ensures]; the programs in front of a continuation only have to be allowed. *)
Ltac ensures_step :=
  lazymatch goal with
  | |- ensures _ _ (Ret _) => apply ensures_ret
  | |- ensures _ _ (Panic _) => apply ensures_panic
  | |- ensures _ _ (bind (bind _ _) _) => apply ensures_assoc
  | |- ensures ?P ?R (bind (Ret ?a) ?f) => change (ensures P R (f a))
  | |- ensures _ _ (bind (match ?x with _ => _ end) _) => destruct x
  | |- ensures _ _ (bind ((match ?x with _ => _ end) _) _) => destruct x
  | |- ensures _ _ (bind _ _) => apply ensures_after; [solve [always_auto]|intros ?]
  | |- ensures _ _ (match ?x with _ => _ end) => destruct x
  | |- ensures _ _ ((match ?x with _ => _ end) _) => destruct x
  | |- ensures _ _ (let x := _ in _) => cbv zeta
  end.
Ltac ensures_auto := intros; repeat (cbv beta iota zeta; ensures_step).

(** One step of a program: unfold a bind, a request, a value. *)
Ltac wp_step :=
  cbv beta;
  lazymatch goal with
  | |- wp (Ret _) _ _ _ => apply wp_ret
  | |- wp (Panic _) _ _ _ => apply wp_panic
  | |- wp (bind (call ?q) ?f) ?P ?Q ?h => refine (wp_call q f P Q h _ _); [|intros ?r]
  | |- wp (bind _ _) _ _ _ => apply wp_bind
  | |- wp (call ?q) ?P ?Q ?h => refine (wp_call1 q P Q h _ _); [|intros ?r]
  | |- wp (match ?x with _ => _ end) _ _ _ => destruct x eqn:?
  | |- wp ((match ?x with _ => _ end) _) _ _ _ => destruct x eqn:?
  | |- wp (let x := _ in _) _ _ _ => cbv zeta
  | |- seq_post _ _ _ _ (Returned _) => cbn [seq_post]
  | |- seq_post _ _ _ _ (Panicked _) => cbn [seq_post]
  | |- loop_post _ _ _ _ (Returned (inr _)) => cbn [loop_post]
  | |- loop_post _ _ _ _ (Panicked _) => cbn [loop_post]
  end.

(** [extends] by the chain of extensions in the context. *)
Ltac ext :=
  match goal with
  | |- extends ?h ?h => reflexivity
  | H : extends ?h ?h' |- extends ?h ?h' => exact H
  | |- extends _ (_ :: _) => apply extends_cons; ext
  | H : extends ?a ?h' |- extends _ ?h' => transitivity a; [ext|exact H]
  end.

(** A program that makes no request passing the test keeps their number. *)
Lemma wp_count_never {Req} {Resp : Req -> Type} {A} f (p : prog Resp A) h :
  only (λ q, f q = false) p ->
  wp p (λ _ _, True) (λ h' _, count_calls f h' = count_calls f h) h.
Proof.
  revert h. induction p as [a|m|q k IH]; intros h Hp; [done|done|].
  apply only_inv in Hp as [Hq Hk]. split; [done|]. intros r.
  eapply wp_mono; [done| |by apply IH]. intros h' o Ho. rewrite Ho. simpl. by rewrite Hq.
Qed.

Lemma wp_count_once {Req} {Resp : Req -> Type} {A} f (p : prog Resp A) h :
  once f p ->
  wp p (λ _ _, True) (λ h' _, (count_calls f h' <= 1 + count_calls f h)%nat) h.
Proof.
  revert h. induction p as [a|m|q k IH]; intros h Hp; [by constructor|by constructor|].
  unfold once in Hp; fold (@once Req Resp) in Hp. split; [done|]. intros r.
  destruct (f q) eqn:E.
  - eapply wp_mono; [done| |by apply wp_count_never]. intros h' o Ho. rewrite Ho. simpl.
    rewrite E. lia.
  - eapply wp_mono; [done| |by apply IH]. intros h' o Ho. simpl in Ho. rewrite E in Ho. lia.
Qed.
