(* ===== verification/Resources.v ===== *)
(** * Resources: tenants, action groups, templates, policies and snapshot repositories

    The custom resources of [api/opensearch.org/v1] for OpenSearch's own objects, and the
    documents of [opensearch-gateway/requests] and [responses] they are translated to.  Where
    a struct of the API and its counterpart of the gateway have the same fields, one record
    stands for both; a raw JSON value ([apiextensionsv1.JSON]) is its syntax tree. *)

From S2P Require Import Prelude.

(** ** JSON *)

(** [map[string]interface{}] values as they come from and go to JSON; an object keeps its
    members in the order the code meets them. *)
#[warnings="-register-all"]
Inductive json :=
| JNull
| JBool (b : bool)
| JNum (n : Z)
| JStr (s : string)
| JArr (l : list json)
| JObj (m : list (string * json)).

(** Induction that reaches the values inside arrays and objects. *)
Section JsonInd.
Variable P : json -> Prop.
Hypothesis HNull : P JNull.
Hypothesis HBool : forall b, P (JBool b).
Hypothesis HNum : forall n, P (JNum n).
Hypothesis HStr : forall s, P (JStr s).
Hypothesis HArr : forall l, Forall P l -> P (JArr l).
Hypothesis HObj : forall m, Forall (λ kv, P kv.2) m -> P (JObj m).

Fixpoint json_nested_ind (v : json) : P v :=
  match v with
  | JNull => HNull
  | JBool b => HBool b
  | JNum n => HNum n
  | JStr s => HStr s
  | JArr l =>
      HArr l ((fix go (l : list json) : Forall P l :=
                 match l with
                 | [] => Forall_nil_2 P
                 | v :: l' => Forall_cons_2 P v l' (json_nested_ind v) (go l')
                 end) l)
  | JObj m =>
      HObj m ((fix go (m : list (string * json)) : Forall (λ kv, P kv.2) m :=
                 match m with
                 | [] => Forall_nil_2 _
                 | kv :: m' => Forall_cons_2 (λ kv, P kv.2) kv m' (json_nested_ind kv.2) (go m')
                 end) m)
  end.
End JsonInd.

#[global] Instance json_eq_dec : EqDecision json.
Proof.
  notypeclasses refine (fix go (x y : json) : Decision (x = y) := _). unfold Decision.
  destruct x as [|a|a|a|l|m], y as [|b|b|b|l'|m']; try (right; discriminate).
  - by left.
  - destruct (decide (a = b)); [left|right]; congruence.
  - destruct (decide (a = b)); [left|right]; congruence.
  - destruct (decide (a = b)); [left|right]; congruence.
  - assert (EqDecision json) as Hd by exact go.
    destruct (@list_eq_dec _ Hd l l'); [left|right]; congruence.
  - assert (EqDecision json) as Hd by exact go.
    destruct (@list_eq_dec _ (@prod_eq_dec _ _ _ Hd) m m'); [left|right]; congruence.
Defined.

(** Index into a [map[string]interface{}]. *)
Fixpoint obj_lookup (k : string) (m : list (string * json)) : option json :=
  match m with
  | [] => None
  | (k', v) :: m' => if decide (k' = k) then Some v else obj_lookup k m'
  end.

(** ** Tenants and action groups *)

Record OpensearchTenant := mkTenantCR {
  ten_Name : string;
  ten_Namespace : string;
  ten_OpensearchRef : string;
  ten_Description : string;
  ten_State : string;
  ten_Reason : string;
  ten_ExistingTenant : option bool;
  ten_ManagedCluster : option string }.

Record OpensearchActionGroup := mkActionGroupCR {
  agr_Name : string;
  agr_Namespace : string;
  agr_OpensearchRef : string;
  agr_AllowedActions : list string;
  agr_Type : string;
  agr_Description : string;
  agr_State : string;
  agr_Reason : string;
  agr_ExistingActionGroup : option bool;
  agr_ManagedCluster : option string }.

(** [requests.Tenant] and [requests.ActionGroup]. *)
Record TenantReq := mkTenantReq { tr_Description : string }.
Record ActionGroupReq := mkActionGroupReq {
  ar_AllowedActions : list string;
  ar_Type : string;
  ar_Description : string }.

(** ** Index and component templates *)

(** [OpensearchIndexAliasSpec] and [requests.IndexAlias]. *)
Record IndexAlias := mkIndexAlias {
  ia_Index : string;
  ia_Alias : string;
  ia_Filter : option json;
  ia_Routing : string;
  ia_IsWriteIndex : bool }.

(** [OpensearchIndexSpec] and [requests.Index]. *)
Record IndexSpec := mkIndexSpec {
  is_Settings : option json;
  is_Mappings : option json;
  is_Aliases : gmap string IndexAlias }.

(** [OpensearchDatastreamSpec], whose timestamp field is a struct, and [requests.Datastream],
    where it is a pointer. *)
Record DatastreamSpec := mkDatastreamSpec { dss_TimestampFieldName : string }.
Record DatastreamReq := mkDatastreamReq { dsr_TimestampField : option string }.

Record OpensearchIndexTemplate := mkIndexTemplateCR {
  itp_Name : string;
  itp_Namespace : string;
  itp_DeletionTimestamp : option string;
  itp_OpensearchRef : string;
  itp_SpecName : string;
  itp_IndexPatterns : list string;
  itp_DataStream : option DatastreamSpec;
  itp_Template : IndexSpec;
  itp_ComposedOf : list string;
  itp_Priority : Z;
  itp_Version : Z;
  itp_Meta : option json;
  itp_State : string;
  itp_Reason : string;
  itp_ExistingIndexTemplate : option bool;
  itp_ManagedCluster : option string;
  itp_IndexTemplateName : string }.

Record OpensearchComponentTemplate := mkComponentTemplateCR {
  ctp_Name : string;
  ctp_Namespace : string;
  ctp_OpensearchRef : string;
  ctp_SpecName : string;
  ctp_Template : IndexSpec;
  ctp_Version : Z;
  ctp_AllowAutoCreate : bool;
  ctp_Meta : option json;
  ctp_State : string;
  ctp_Reason : string;
  ctp_ExistingComponentTemplate : option bool;
  ctp_ManagedCluster : option string;
  ctp_ComponentTemplateName : string }.

(** [requests.IndexTemplate] and [requests.ComponentTemplate]; an answer names each. *)
Record IndexTemplateReq := mkIndexTemplateReq {
  itr_IndexPatterns : list string;
  itr_DataStream : option DatastreamReq;
  itr_Template : IndexSpec;
  itr_ComposedOf : list string;
  itr_Priority : Z;
  itr_Version : Z;
  itr_Meta : option json }.
Record ComponentTemplateReq := mkComponentTemplateReq {
  ctr_Template : IndexSpec;
  ctr_Version : Z;
  ctr_Meta : option json }.

(** ** Index state management *)

Module Ism.

Record DestinationURL := mkDestinationURL { du_URL : string }.
Record MessageTemplate := mkMessageTemplate { mt_Source : string }.
Record Destination := mkDestination {
  dst_Slack : option DestinationURL;
  dst_Amazon : option DestinationURL;
  dst_Chime : option DestinationURL;
  dst_CustomWebhook : option DestinationURL }.
Record ErrorNotification := mkErrorNotification {
  en_Destination : option Destination;
  en_Channel : string;
  en_MessageTemplate : option MessageTemplate }.
Record ISMTemplate := mkISMTemplate { tpl_IndexPatterns : list string; tpl_Priority : Z }.

Record AliasDetails := mkAliasDetails {
  ald_Index : option string;
  ald_Aliases : list string;
  ald_Routing : option string;
  ald_IsWriteIndex : option bool }.
Record AliasAction := mkAliasAction {
  aa_Add : option AliasDetails;
  aa_Remove : option AliasDetails }.
Record Alias := mkAlias { als_Actions : list AliasAction }.
Record Allocation := mkAllocation {
  alc_Exclude : string;
  alc_Include : string;
  alc_Require : string;
  alc_WaitFor : string }.
Record ForceMerge := mkForceMerge { fm_MaxNumSegments : Z }.
Record IndexPriority := mkIndexPriority { ipr_Priority : Z }.
Record Notification := mkNotification {
  nt_Destination : string;
  nt_MessageTemplate : MessageTemplate }.
Record ReplicaCount := mkReplicaCount { rc_NumberOfReplicas : Z }.
Record Retry := mkRetry { rt_Backoff : string; rt_Count : Z; rt_Delay : string }.
Record Rollover := mkRollover {
  ro_MinDocCount : option Z;
  ro_MinIndexAge : option string;
  ro_MinPrimaryShardSize : option string;
  ro_MinSize : option string }.
Record Shrink := mkShrink {
  shr_ForceUnsafe : option bool;
  shr_MaxShardSize : option string;
  shr_NumNewShards : option Z;
  shr_PercentageOfSourceShards : option Z;
  shr_TargetIndexNameTemplate : option string }.
Record Snapshot := mkSnapshot { sn_Repository : string; sn_Snapshot : string }.

(** A pointer to an empty struct is an [option unit]. *)
Record Action := mkAction {
  ac_Alias : option Alias;
  ac_Allocation : option Allocation;
  ac_Close : option unit;
  ac_Delete : option unit;
  ac_ForceMerge : option ForceMerge;
  ac_IndexPriority : option IndexPriority;
  ac_Notification : option Notification;
  ac_Open : option unit;
  ac_ReadOnly : option unit;
  ac_ReadWrite : option unit;
  ac_ReplicaCount : option ReplicaCount;
  ac_Retry : option Retry;
  ac_Rollover : option Rollover;
  ac_Rollup : option unit;
  ac_Shrink : option Shrink;
  ac_Snapshot : option Snapshot;
  ac_Timeout : option string }.

Record CronDetails := mkCronDetails { cd_Expression : string; cd_Timezone : string }.
Record Cron := mkCron { cr_CronDetails : option CronDetails }.
Record Condition := mkCondition {
  cnd_Cron : option Cron;
  cnd_MinDocCount : option Z;
  cnd_MinIndexAge : option string;
  cnd_MinRolloverAge : option string;
  cnd_MinSize : option string }.
Record Transition := mkTransition { tst_Conditions : Condition; tst_StateName : string }.
Record State := mkState {
  sta_Actions : list Action;
  sta_Name : string;
  sta_Transitions : list Transition }.

(** [requests.ISMPolicySpec]. *)
Record ISMPolicySpec := mkISMPolicySpec {
  pol_DefaultState : string;
  pol_Description : string;
  pol_ErrorNotification : option ErrorNotification;
  pol_ISMTemplate : list ISMTemplate;
  pol_States : list State }.

(** [responses.GetISMPolicyResponse]. *)
Record GetISMPolicyResponse := mkGetISMPolicy {
  gip_PolicyID : string;
  gip_PrimaryTerm : Z;
  gip_SequenceNumber : Z;
  gip_Policy : ISMPolicySpec }.

End Ism.

Record OpenSearchISMPolicy := mkISMPolicyCR {
  ism_Name : string;
  ism_Namespace : string;
  ism_OpensearchRef : string;
  ism_DefaultState : string;
  ism_Description : string;
  ism_ApplyToExistingIndices : option bool;
  ism_ErrorNotification : option Ism.ErrorNotification;
  ism_ISMTemplate : option Ism.ISMTemplate;
  ism_PolicyID : string;
  ism_States : list Ism.State;
  ism_State : string;
  ism_Reason : string;
  ism_ExistingISMPolicy : option bool;
  ism_ManagedCluster : option string;
  ism_StatusPolicyId : string }.

(** ** Snapshot policies and repositories *)

Module Sm.

(** [CronSchedule] wraps a [CronExpression]. *)
Record CronSchedule := mkCronSchedule { crs_Expression : string; crs_Timezone : string }.
Record SnapshotConfig := mkSnapshotConfig {
  sco_DateFormat : string;
  sco_DateFormatTimezone : string;
  sco_Indices : string;
  sco_Repository : string;
  sco_IgnoreUnavailable : option bool;
  sco_IncludeGlobalState : option bool;
  sco_Partial : option bool;
  sco_Metadata : gmap string string }.
Record SnapshotCreation := mkSnapshotCreation {
  scr_Schedule : CronSchedule;
  scr_TimeLimit : option string }.
Record SnapshotDeleteCondition := mkDeleteCondition {
  dc_MaxCount : option Z;
  dc_MaxAge : option string;
  dc_MinCount : option Z }.
Record SnapshotDeletion := mkSnapshotDeletion {
  sdl_Schedule : option CronSchedule;
  sdl_TimeLimit : option string;
  sdl_DeleteCondition : option SnapshotDeleteCondition }.
Record NotificationConditions := mkNotificationConditions {
  nc_Creation : option bool;
  nc_Deletion : option bool;
  nc_Failure : option bool }.
Record SnapshotNotification := mkSnapshotNotification {
  sno_ChannelID : string;
  sno_Conditions : option NotificationConditions }.

(** [requests.SnapshotPolicySpec]. *)
Record SnapshotPolicySpec := mkSnapshotPolicySpec {
  sps_PolicyName : string;
  sps_Description : option string;
  sps_Enabled : option bool;
  sps_SnapshotConfig : SnapshotConfig;
  sps_Creation : SnapshotCreation;
  sps_Deletion : option SnapshotDeletion;
  sps_Notification : option SnapshotNotification }.

(** [responses.GetSnapshotPolicyResponse]. *)
Record GetSnapshotPolicyResponse := mkGetSnapshotPolicy {
  gsp_PrimaryTerm : Z;
  gsp_SequenceNumber : Z;
  gsp_Policy : SnapshotPolicySpec }.

End Sm.

Record OpensearchSnapshotPolicy := mkSnapshotPolicyCR {
  snp_Name : string;
  snp_Namespace : string;
  snp_OpensearchRef : string;
  snp_PolicyName : string;
  snp_Description : option string;
  snp_Enabled : option bool;
  snp_SnapshotConfig : Sm.SnapshotConfig;
  snp_Creation : Sm.SnapshotCreation;
  snp_Deletion : option Sm.SnapshotDeletion;
  snp_Notification : option Sm.SnapshotNotification;
  snp_State : string;
  snp_Reason : string;
  snp_SnapshotPolicyName : string;
  snp_ManagedCluster : option string;
  snp_ExistingSnapshotPolicy : option bool }.

(** [SnapshotRepoConfig] of the cluster and [requests.SnapshotRepository]. *)
Record SnapshotRepoConfig := mkSnapshotRepo {
  sr_Name : string;
  sr_Type : string;
  sr_Settings : gmap string string }.
Record SnapshotRepositoryReq := mkSnapshotRepoReq {
  srr_Type : string;
  srr_Settings : gmap string string }.

(** ** Equality of the documents *)

#[global] Instance TenantReq_eq_dec : EqDecision TenantReq.
Proof. solve_decision. Defined.
#[global] Instance ActionGroupReq_eq_dec : EqDecision ActionGroupReq.
Proof. solve_decision. Defined.
#[global] Instance IndexAlias_eq_dec : EqDecision IndexAlias.
Proof. solve_decision. Defined.
#[global] Instance IndexSpec_eq_dec : EqDecision IndexSpec.
Proof. solve_decision. Defined.
#[global] Instance DatastreamReq_eq_dec : EqDecision DatastreamReq.
Proof. solve_decision. Defined.
#[global] Instance IndexTemplateReq_eq_dec : EqDecision IndexTemplateReq.
Proof. solve_decision. Defined.
#[global] Instance ComponentTemplateReq_eq_dec : EqDecision ComponentTemplateReq.
Proof. solve_decision. Defined.
#[global] Instance SnapshotRepositoryReq_eq_dec : EqDecision SnapshotRepositoryReq.
Proof. solve_decision. Defined.

Module IsmEq.
Import Ism.
#[export] Instance DestinationURL_eq_dec : EqDecision DestinationURL.
Proof. solve_decision. Defined.
#[export] Instance MessageTemplate_eq_dec : EqDecision MessageTemplate.
Proof. solve_decision. Defined.
#[export] Instance Destination_eq_dec : EqDecision Destination.
Proof. solve_decision. Defined.
#[export] Instance ErrorNotification_eq_dec : EqDecision ErrorNotification.
Proof. solve_decision. Defined.
#[export] Instance ISMTemplate_eq_dec : EqDecision ISMTemplate.
Proof. solve_decision. Defined.
#[export] Instance AliasDetails_eq_dec : EqDecision AliasDetails.
Proof. solve_decision. Defined.
#[export] Instance AliasAction_eq_dec : EqDecision AliasAction.
Proof. solve_decision. Defined.
#[export] Instance Alias_eq_dec : EqDecision Alias.
Proof. solve_decision. Defined.
#[export] Instance Allocation_eq_dec : EqDecision Allocation.
Proof. solve_decision. Defined.
#[export] Instance ForceMerge_eq_dec : EqDecision ForceMerge.
Proof. solve_decision. Defined.
#[export] Instance IndexPriority_eq_dec : EqDecision IndexPriority.
Proof. solve_decision. Defined.
#[export] Instance Notification_eq_dec : EqDecision Notification.
Proof. solve_decision. Defined.
#[export] Instance ReplicaCount_eq_dec : EqDecision ReplicaCount.
Proof. solve_decision. Defined.
#[export] Instance Retry_eq_dec : EqDecision Retry.
Proof. solve_decision. Defined.
#[export] Instance Rollover_eq_dec : EqDecision Rollover.
Proof. solve_decision. Defined.
#[export] Instance Shrink_eq_dec : EqDecision Shrink.
Proof. solve_decision. Defined.
#[export] Instance Snapshot_eq_dec : EqDecision Snapshot.
Proof. solve_decision. Defined.
#[export] Instance Action_eq_dec : EqDecision Action.
Proof. solve_decision. Defined.
#[export] Instance CronDetails_eq_dec : EqDecision CronDetails.
Proof. solve_decision. Defined.
#[export] Instance Cron_eq_dec : EqDecision Cron.
Proof. solve_decision. Defined.
#[export] Instance Condition_eq_dec : EqDecision Condition.
Proof. solve_decision. Defined.
#[export] Instance Transition_eq_dec : EqDecision Transition.
Proof. solve_decision. Defined.
#[export] Instance State_eq_dec : EqDecision State.
Proof. solve_decision. Defined.
#[export] Instance ISMPolicySpec_eq_dec : EqDecision ISMPolicySpec.
Proof. solve_decision. Defined.
End IsmEq.
Export IsmEq.

Module SmEq.
Import Sm.
#[export] Instance CronSchedule_eq_dec : EqDecision CronSchedule.
Proof. solve_decision. Defined.
#[export] Instance SnapshotConfig_eq_dec : EqDecision SnapshotConfig.
Proof. solve_decision. Defined.
#[export] Instance SnapshotCreation_eq_dec : EqDecision SnapshotCreation.
Proof. solve_decision. Defined.
#[export] Instance SnapshotDeleteCondition_eq_dec : EqDecision SnapshotDeleteCondition.
Proof. solve_decision. Defined.
#[export] Instance SnapshotDeletion_eq_dec : EqDecision SnapshotDeletion.
Proof. solve_decision. Defined.
#[export] Instance NotificationConditions_eq_dec : EqDecision NotificationConditions.
Proof. solve_decision. Defined.
#[export] Instance SnapshotNotification_eq_dec : EqDecision SnapshotNotification.
Proof. solve_decision. Defined.
#[export] Instance SnapshotPolicySpec_eq_dec : EqDecision SnapshotPolicySpec.
Proof. solve_decision. Defined.
End SmEq.
Export SmEq.
