(* ===== verification/Kube.v ===== *)
(** * Kube: pods and the objects that hold them

    The Kubernetes types the operator builds: containers and pods, services, claims, disruption
    budgets, deployments and service monitors, with the fields the modelled code reads or
    writes.  Parts that the code only copies (tolerations, host aliases, security contexts of
    users' containers) are documents ([json]).  A [resource.Quantity] is its text; its
    arithmetic is third-party code ([QuantityLib]). *)

From S2P Require Import Prelude Resources.

Definition Quantity := string.

Record OwnerReference := mkOwner { or_Name : string; or_UID : string; or_Controller : bool }.

(** ** Volumes *)

(** Where the content of a volume comes from: the name of a secret or config map, some keys of
    several secrets, each under its own name, an empty directory, a directory of the host, a
    claim, or another source, of which only its kind and [ReadOnly] matter. *)
Inductive OtherSource :=
| SrcEmptyDir | SrcCSI (readOnly : option bool) | SrcPVC (readOnly : bool) | SrcProjected | SrcNFS
| SrcHostPath.
Inductive VolumeSource := VolConfigMap (name : string) | VolSecret (name : string)
| VolProjected (secrets : list (string * list string))
| VolConfigMapMode (name : string) (defaultMode : Z)
| VolEmptyDir (doc : json) | VolHostPath (doc : json) | VolClaim (claimName : string)
| VolOther (s : OtherSource).
Record Volume := mkVolume { vol_Name : string; vol_Source : VolumeSource }.
Record VolumeMount := mkMount {
  vm_Name : string;
  vm_ReadOnly : bool;
  vm_MountPath : string;
  vm_SubPath : string }.

(** ** Containers *)

Record ResourceRequirements := mkResources {
  res_Requests : gmap string Quantity;
  res_Limits : gmap string Quantity;
  res_Claims : json }.
Definition noResources : ResourceRequirements := mkResources ∅ ∅ JNull.

Inductive EnvSource :=
| EnvValue (value : string)
| EnvFieldRef (apiVersion fieldPath : string)
| EnvSecretKeyRef (name key : string)
| EnvOther (doc : json).
Record EnvVar := mkEnv { env_Name : string; env_Source : EnvSource }.

Record ContainerPort := mkPort { cp_Name : string; cp_ContainerPort : Z }.

Inductive ProbeHandler :=
| TCPSocket (port : Z)
| Exec (command : list string)
| HTTPGet (path : string) (port : Z) (scheme : string)
| OtherProbe (doc : json).
Record Probe := mkProbe {
  pr_PeriodSeconds : Z;
  pr_TimeoutSeconds : Z;
  pr_FailureThreshold : Z;
  pr_SuccessThreshold : Z;
  pr_InitialDelaySeconds : Z;
  pr_Handler : ProbeHandler }.

(** [SecurityContext] and [PodSecurityContext]: the fields the code looks at, and the others. *)
Record SecurityContext := mkSecurityContext {
  sctx_RunAsUser : option Z;
  sctx_RunAsGroup : option Z;
  sctx_Privileged : option bool;
  sctx_Other : json }.

(** [ctn_Other]: what else the containers of users have. *)
Record Container := mkContainer {
  ctn_Name : string;
  ctn_Image : string;
  ctn_ImagePullPolicy : string;
  ctn_Command : list string;
  ctn_Args : list string;
  ctn_Env : list EnvVar;
  ctn_Ports : list ContainerPort;
  ctn_Resources : ResourceRequirements;
  ctn_StartupProbe : option Probe;
  ctn_LivenessProbe : option Probe;
  ctn_ReadinessProbe : option Probe;
  ctn_VolumeMounts : list VolumeMount;
  ctn_SecurityContext : option SecurityContext;
  ctn_Other : json }.

Record PodSpec := mkPodSpec {
  ps_Containers : list Container;
  ps_InitContainers : list Container;
  ps_Volumes : list Volume;
  ps_ServiceAccountName : string;
  ps_NodeSelector : gmap string string;
  ps_Tolerations : json;
  ps_Affinity : option json;
  ps_TopologySpreadConstraints : json;
  ps_ImagePullSecrets : list string;
  ps_PriorityClassName : string;
  ps_SecurityContext : option SecurityContext;
  ps_HostAliases : json;
  ps_HostNetwork : bool }.
Definition zeroPodSpec : PodSpec := mkPodSpec [] [] [] "" ∅ JNull None JNull [] "" None JNull false.

Record PodTemplateSpec := mkTemplate {
  pt_Labels : gmap string string;
  pt_Annotations : gmap string string;
  pt_Spec : PodSpec }.

#[global] Instance EnvSource_eq_dec : EqDecision EnvSource.
Proof. solve_decision. Defined.
#[global] Instance EnvVar_eq_dec : EqDecision EnvVar.
Proof. solve_decision. Defined.
#[global] Instance ContainerPort_eq_dec : EqDecision ContainerPort.
Proof. solve_decision. Defined.
#[global] Instance ProbeHandler_eq_dec : EqDecision ProbeHandler.
Proof. solve_decision. Defined.
#[global] Instance Probe_eq_dec : EqDecision Probe.
Proof. solve_decision. Defined.
#[global] Instance VolumeMount_eq_dec : EqDecision VolumeMount.
Proof. solve_decision. Defined.
#[global] Instance SecurityContext_eq_dec : EqDecision SecurityContext.
Proof. solve_decision. Defined.
#[global] Instance ResourceRequirements_eq_dec : EqDecision ResourceRequirements.
Proof. solve_decision. Defined.
#[global] Instance Container_eq_dec : EqDecision Container.
Proof. solve_decision. Defined.

(** ** Objects *)

(** A nil map of requests is [None]: a key cannot be assigned in it. *)
Record PVC := mkPVC {
  pvc_Name : string;
  pvc_Namespace : string;
  pvc_Labels : gmap string string;
  pvc_Annotations : gmap string string;
  pvc_AccessModes : list string;
  pvc_Requests : option (gmap string Quantity);
  pvc_StorageClassName : option string;
  pvc_VolumeMode : option string;
  pvc_OwnerReferences : list OwnerReference }.

(** The selector pointer of a stateful set may be nil. *)
Record StatefulSet := mkSts {
  sts_Name : string;
  sts_Namespace : string;
  sts_Labels : gmap string string;
  sts_Replicas : option Z;
  sts_StatusReplicas : Z;
  sts_ReadyReplicas : Z;
  sts_AvailableReplicas : Z;
  sts_UpdatedReplicas : Z;
  sts_CurrentRevision : string;
  sts_UpdateRevision : string;
  sts_Annotations : gmap string string;
  sts_ResourceVersion : string;
  sts_UID : string;
  sts_OwnerReferences : list OwnerReference;
  sts_Selector : option (gmap string string);
  sts_PodManagementPolicy : string;
  sts_UpdateStrategy : string;
  sts_Template : PodTemplateSpec;
  sts_VolumeClaimTemplates : list PVC;
  sts_ServiceName : string }.

Definition sts_with_Replicas (n : option Z) (s : StatefulSet) :=
  mkSts (sts_Name s) (sts_Namespace s) (sts_Labels s) n (sts_StatusReplicas s)
    (sts_ReadyReplicas s) (sts_AvailableReplicas s) (sts_UpdatedReplicas s)
    (sts_CurrentRevision s) (sts_UpdateRevision s) (sts_Annotations s) (sts_ResourceVersion s)
    (sts_UID s) (sts_OwnerReferences s) (sts_Selector s) (sts_PodManagementPolicy s)
    (sts_UpdateStrategy s) (sts_Template s) (sts_VolumeClaimTemplates s) (sts_ServiceName s).
Definition sts_with_ReadyReplicas (n : Z) (s : StatefulSet) :=
  mkSts (sts_Name s) (sts_Namespace s) (sts_Labels s) (sts_Replicas s) (sts_StatusReplicas s)
    n (sts_AvailableReplicas s) (sts_UpdatedReplicas s)
    (sts_CurrentRevision s) (sts_UpdateRevision s) (sts_Annotations s) (sts_ResourceVersion s)
    (sts_UID s) (sts_OwnerReferences s) (sts_Selector s) (sts_PodManagementPolicy s)
    (sts_UpdateStrategy s) (sts_Template s) (sts_VolumeClaimTemplates s) (sts_ServiceName s).
Definition sts_with_CurrentRevision (rev : string) (s : StatefulSet) :=
  mkSts (sts_Name s) (sts_Namespace s) (sts_Labels s) (sts_Replicas s) (sts_StatusReplicas s)
    (sts_ReadyReplicas s) (sts_AvailableReplicas s) (sts_UpdatedReplicas s)
    rev (sts_UpdateRevision s) (sts_Annotations s) (sts_ResourceVersion s)
    (sts_UID s) (sts_OwnerReferences s) (sts_Selector s) (sts_PodManagementPolicy s)
    (sts_UpdateStrategy s) (sts_Template s) (sts_VolumeClaimTemplates s) (sts_ServiceName s).
Definition sts_with_OwnerReferences (refs : list OwnerReference) (s : StatefulSet) :=
  mkSts (sts_Name s) (sts_Namespace s) (sts_Labels s) (sts_Replicas s) (sts_StatusReplicas s)
    (sts_ReadyReplicas s) (sts_AvailableReplicas s) (sts_UpdatedReplicas s)
    (sts_CurrentRevision s) (sts_UpdateRevision s) (sts_Annotations s) (sts_ResourceVersion s)
    (sts_UID s) refs (sts_Selector s) (sts_PodManagementPolicy s)
    (sts_UpdateStrategy s) (sts_Template s) (sts_VolumeClaimTemplates s) (sts_ServiceName s).
(** [Spec.PodManagementPolicy = p; ResourceVersion = ""; UID = ""]. *)
Definition sts_anew_with_policy (p : string) (s : StatefulSet) :=
  mkSts (sts_Name s) (sts_Namespace s) (sts_Labels s) (sts_Replicas s) (sts_StatusReplicas s)
    (sts_ReadyReplicas s) (sts_AvailableReplicas s) (sts_UpdatedReplicas s)
    (sts_CurrentRevision s) (sts_UpdateRevision s) (sts_Annotations s) ""
    "" (sts_OwnerReferences s) (sts_Selector s) p
    (sts_UpdateStrategy s) (sts_Template s) (sts_VolumeClaimTemplates s) (sts_ServiceName s).
Definition sts_with_Template (t : PodTemplateSpec) (s : StatefulSet) :=
  mkSts (sts_Name s) (sts_Namespace s) (sts_Labels s) (sts_Replicas s) (sts_StatusReplicas s)
    (sts_ReadyReplicas s) (sts_AvailableReplicas s) (sts_UpdatedReplicas s)
    (sts_CurrentRevision s) (sts_UpdateRevision s) (sts_Annotations s) (sts_ResourceVersion s)
    (sts_UID s) (sts_OwnerReferences s) (sts_Selector s) (sts_PodManagementPolicy s)
    (sts_UpdateStrategy s) t (sts_VolumeClaimTemplates s) (sts_ServiceName s).
Definition zeroSts : StatefulSet :=
  mkSts "" "" ∅ None 0 0 0 0 "" "" ∅ "" "" [] None "" "" (mkTemplate ∅ ∅ zeroPodSpec) [] "".

Record PodCondition := mkPodCondition { pc_Type : string; pc_Status : string }.
(** A container status: ready flag and the reason it is waiting, if it is. *)
Record ContainerStatus := mkContainerStatus {
  ctr_Ready : bool;
  ctr_WaitingReason : option string }.
Record Pod := mkPod {
  pod_Name : string;
  pod_Namespace : string;
  pod_Labels : gmap string string;
  pod_DeletionTimestamp : option string;
  pod_Conditions : list PodCondition;
  pod_ContainerStatuses : list ContainerStatus;
  pod_Annotations : gmap string string;
  pod_Spec : PodSpec;
  pod_OwnerReferences : list OwnerReference }.

Definition pod_with_Labels (l : gmap string string) (p : Pod) :=
  mkPod (pod_Name p) (pod_Namespace p) l (pod_DeletionTimestamp p) (pod_Conditions p)
    (pod_ContainerStatuses p) (pod_Annotations p) (pod_Spec p) (pod_OwnerReferences p).

(** [intstr.IntOrString]. *)
Record IntOrString := mkIntStr { is_IntVal : Z; is_StrVal : string }.
Record ServicePort := mkServicePort {
  svp_Name : string;
  svp_Protocol : string;
  svp_Port : Z;
  svp_TargetPort : IntOrString;
  svp_AppProtocol : option string }.
Record Service := mkService {
  svc_Name : string;
  svc_Namespace : string;
  svc_Labels : gmap string string;
  svc_Annotations : gmap string string;
  svc_ClusterIP : string;
  svc_Ports : list ServicePort;
  svc_Selector : gmap string string;
  svc_Type : string;
  svc_PublishNotReadyAddresses : bool;
  svc_LoadBalancerSourceRanges : list string;
  svc_OwnerReferences : list OwnerReference }.

Record PodDisruptionBudget := mkPDB {
  pdb_Name : string;
  pdb_Namespace : string;
  pdb_Finalizers : list string;
  pdb_MinAvailable : option IntOrString;
  pdb_MaxUnavailable : option IntOrString;
  pdb_Selector : option (gmap string string);
  pdb_OwnerReferences : list OwnerReference }.

Record Deployment := mkDeployment {
  dep_Name : string;
  dep_Namespace : string;
  dep_Labels : gmap string string;
  dep_Annotations : gmap string string;
  dep_Replicas : option Z;
  dep_Selector : option (gmap string string);
  dep_Strategy : string;
  dep_Template : PodTemplateSpec;
  dep_OwnerReferences : list OwnerReference }.

(** A service monitor with one endpoint. *)
Record BasicAuth := mkBasicAuth {
  ba_UsernameSecret : string;
  ba_UsernameKey : string;
  ba_PasswordSecret : string;
  ba_PasswordKey : string }.
Record Endpoint := mkEndpoint {
  ep_Port : string;
  ep_Path : string;
  ep_Interval : string;
  ep_TLSConfig : option (string * bool);
  ep_HonorLabels : bool;
  ep_BasicAuth : option BasicAuth;
  ep_Scheme : string;
  ep_RelabelConfigs : json;
  ep_MetricRelabelConfigs : json }.
(** [smo_MatchExpressions]: keys that must exist. *)
Record ServiceMonitor := mkServiceMonitor {
  smo_Name : string;
  smo_Namespace : string;
  smo_Labels : gmap string string;
  smo_JobLabel : string;
  smo_TargetLabels : list string;
  smo_PodTargetLabels : list string;
  smo_Endpoints : list Endpoint;
  smo_MatchLabels : gmap string string;
  smo_MatchExpressions : list string;
  smo_NamespaceAny : bool;
  smo_NamespaceNames : list string;
  smo_OwnerReferences : list OwnerReference }.

(** [k8s.io/apimachinery/pkg/api/resource]: the value is rounded up to an integer of 64 bits. *)
Class QuantityLib := {
  IsZero : Quantity -> bool;
  QuantityValue : Quantity -> Z;
  QuantityEqual : Quantity -> Quantity -> bool;
  QuantityString : Quantity -> string }.
(** Documented: equality compares the amounts, and a zero quantity is one of amount zero. *)
Class QuantityLaws `{QL : QuantityLib} := {
  QuantityEqual_equiv : Equivalence (λ a b, QuantityEqual a b = true);
  IsZero_equal : forall a b, QuantityEqual a b = true -> IsZero a = IsZero b;
  QuantityValue_pos : forall a, IsZero a = true -> QuantityValue a = 0 }.
