(* ===== verification/Api.v ===== *)
(** * Api: the operator's data types and its requests to the outside world

    Records mirror the Go structs of [api/opensearch.org/v1], of the Kubernetes API
    machinery and of [opensearch-gateway/{requests,responses}], restricted to the fields the
    modelled code reads or writes (a field keeps the source's name after a two- or
    three-letter prefix).  An [int32] is a [Z]; a pointer is an [option].

    [req] is every way the modelled code talks to the outside: the controller-runtime
    client, the event recorder, the random source and the OpenSearch HTTP API. *)

From S2P Require Import Prelude Prog Resources.
From S2P Require Export Kube.

(** ** Errors and results *)

(** Errors, as far as the code can tell them apart: the API server's not-found, already-exists
    and conflict errors, other errors with their message, and [fmt.Errorf("...%w", err)]. *)
Inductive err :=
| NotFound (msg : string)
| AlreadyExists (msg : string)
| Conflict (msg : string)
| OtherErr (msg : string)
| Wrapped (msg : string) (e : err).

#[global] Instance err_eq_dec : EqDecision err.
Proof. solve_decision. Defined.

(** [k8serrors.IsNotFound], [IsAlreadyExists] and [IsConflict] look through wrapped errors. *)
Fixpoint IsNotFound (e : err) : bool :=
  match e with NotFound _ => true | Wrapped _ e' => IsNotFound e' | _ => false end.
Fixpoint IsAlreadyExists (e : err) : bool :=
  match e with AlreadyExists _ => true | Wrapped _ e' => IsAlreadyExists e' | _ => false end.
Fixpoint IsConflict (e : err) : bool :=
  match e with Conflict _ => true | Wrapped _ e' => IsConflict e' | _ => false end.

(** [err.Error()]. *)
Fixpoint Error (e : err) : string :=
  match e with
  | NotFound m | AlreadyExists m | Conflict m | OtherErr m => m
  | Wrapped m e' => m +:+ Error e'
  end.

Inductive result (A : Type) :=
| Ok (a : A)
| Err (e : err).
Arguments Ok {A} a.
Arguments Err {A} e.

(** The error half of a Go [(T, error)] pair. *)
Definition err_of {A} (r : result A) : option err :=
  match r with Ok _ => None | Err e => Some e end.

(** [ctrl.Result]; durations in seconds. *)
Record Result := mkResult { Requeue : bool; RequeueAfter : Z }.
Definition noResult : Result := mkResult false 0.
Definition requeueIn (s : Z) : Result := mkResult true s.

#[global] Instance Result_eq_dec : EqDecision Result.
Proof. solve_decision. Defined.

(** ** The OpenSearchCluster custom resource *)

Record ComponentStatus := mkCS {
  cs_Component : string;
  cs_Status : string;
  cs_Description : string;
  cs_Conditions : list string }.

#[global] Instance ComponentStatus_eq_dec : EqDecision ComponentStatus.
Proof. solve_decision. Defined.

Record PVCSource := mkPVCSource {
  pvs_StorageClassName : option string;
  pvs_AccessModes : list string;
  pvs_Annotations : gmap string string;
  pvs_Labels : gmap string string }.
(** [PersistenceConfig] with the embedded [PersistenceSource]. *)
Record PersistenceConfig := mkPersistence {
  per_PVC : option PVCSource;
  per_EmptyDir : option json;
  per_HostPath : option json }.

Record PdbConfig := mkPdbConfig {
  pd_Enable : bool;
  pd_MinAvailable : option IntOrString;
  pd_MaxUnavailable : option IntOrString }.

(** [ProbeConfig] and [CommandProbeConfig]; the first has no command. *)
Record ProbeConfig := mkProbeConfig {
  pcf_InitialDelaySeconds : Z;
  pcf_PeriodSeconds : Z;
  pcf_TimeoutSeconds : Z;
  pcf_SuccessThreshold : Z;
  pcf_FailureThreshold : Z;
  pcf_Command : list string }.
Record ProbesConfig := mkProbes {
  prb_Liveness : option ProbeConfig;
  prb_Readiness : option ProbeConfig;
  prb_Startup : option ProbeConfig }.

Record NodePool := mkNodePool {
  np_Component : string;
  np_Replicas : Z;
  np_DiskSize : Quantity;
  np_Resources : ResourceRequirements;
  np_Jvm : string;
  np_Roles : list string;
  np_Tolerations : json;
  np_NodeSelector : gmap string string;
  np_Affinity : option json;
  np_TopologySpreadConstraints : json;
  np_Persistence : option PersistenceConfig;
  np_Labels : gmap string string;
  np_Annotations : gmap string string;
  np_Env : list EnvVar;
  np_PriorityClassName : string;
  np_Pdb : option PdbConfig;
  np_Probes : option ProbesConfig;
  np_AdditionalConfig : gmap string string;
  np_SidecarContainers : list Container;
  np_InitContainers : list Container }.

#[global] Instance PVCSource_eq_dec : EqDecision PVCSource.
Proof. solve_decision. Defined.
#[global] Instance PersistenceConfig_eq_dec : EqDecision PersistenceConfig.
Proof. solve_decision. Defined.
#[global] Instance IntOrString_eq_dec : EqDecision IntOrString.
Proof. solve_decision. Defined.
#[global] Instance PdbConfig_eq_dec : EqDecision PdbConfig.
Proof. solve_decision. Defined.
#[global] Instance ProbeConfig_eq_dec : EqDecision ProbeConfig.
Proof. solve_decision. Defined.
#[global] Instance ProbesConfig_eq_dec : EqDecision ProbesConfig.
Proof. solve_decision. Defined.
#[global] Instance NodePool_eq_dec : EqDecision NodePool.
Proof. solve_decision. Defined.

(** A pool with nothing but a name, a size and roles. *)
Definition plainNodePool (component : string) (replicas : Z) (roles : list string) : NodePool :=
  mkNodePool component replicas "0" noResources "" roles JNull ∅ None JNull None ∅ ∅ [] "" None
    None ∅ [] [].
(** The zero [NodePool{}]. *)
Definition zeroNodePool : NodePool := plainNodePool "" 0 [].

(** [TlsConfigTransport] and [TlsConfigHttp]; [tl_PerNode] and [tl_NodesDn] are fields of the
    first, [tl_CustomFQDN] of the second.  Durations are in nanoseconds. *)
Record TlsSide := mkTlsSide {
  tl_Enabled : option bool;
  tl_Generate : bool;
  tl_Secret : string;
  tl_CaSecret : string;
  tl_PerNode : bool;
  tl_RotateDaysBeforeExpiry : Z;
  tl_Duration : option Z;
  tl_EnableHotReload : bool;
  tl_NodesDn : list string;
  tl_AdminDn : list string;
  tl_CustomFQDN : option string }.
Record TlsConfig := mkTlsConfig { tls_Transport : option TlsSide; tls_Http : option TlsSide }.

(** An image; a nil policy is [None]. *)
Record ImageSpec := mkImage {
  img_Image : option string;
  img_PullPolicy : option string;
  img_PullSecrets : list string }.

(** Parts of pod specifications that the code only copies are documents. *)
Record SecurityUpdateJobConfig := mkUpdateJob {
  uj_Resources : json;
  uj_PriorityClassName : string;
  uj_Labels : gmap string string;
  uj_Tolerations : json;
  uj_NodeSelector : gmap string string;
  uj_Affinity : json }.

Record SecurityConfig := mkSecurityConfig {
  sc_AdminSecret : string;
  sc_AdminCredentialsSecret : string;
  sc_OperatorClientCert : string;
  sc_OperatorClientServerName : string;
  sc_SecurityconfigSecret : string;
  sc_UpdateJob : SecurityUpdateJobConfig }.
Record Security := mkSecurity { sec_Tls : option TlsConfig; sec_Config : option SecurityConfig }.

(** The sources a volume has, in the order in which the code looks at them. *)
Record AdditionalVolume := mkAddVolume {
  av_Name : string;
  av_Path : string;
  av_SubPath : string;
  av_ConfigMap : option string;
  av_Secret : option string;
  av_EmptyDir : bool;
  av_CSI : option (option bool);
  av_PersistentVolumeClaim : option bool;
  av_Projected : bool;
  av_NFS : bool;
  av_HostPath : bool;
  av_RestartPods : bool }.

Record GrpcConfig := mkGrpc {
  grpc_Enable : bool;
  grpc_Port : string;
  grpc_Host : list string;
  grpc_BindHost : list string;
  grpc_PublishHost : list string;
  grpc_PublishPort : option Z;
  grpc_NettyWorkerCount : option Z;
  grpc_NettyExecutorCount : option Z;
  grpc_MaxConcurrentConnectionCalls : option Z;
  grpc_MaxConnectionAge : string;
  grpc_MaxConnectionIdle : string;
  grpc_KeepaliveTimeout : string;
  grpc_MaxMsgSize : string }.

Record MonitoringConfig := mkMonitoring {
  mon_Enable : bool;
  mon_MonitoringUserSecret : string;
  mon_ScrapeInterval : string;
  mon_PluginURL : string;
  mon_TLSConfig : option (string * bool);
  mon_Labels : gmap string string;
  mon_Relabelings : json;
  mon_MetricRelabelings : json }.
Record KeystoreValue := mkKeystore {
  ks_Secret : string;
  ks_KeyMappings : gmap string string }.

Record GeneralConfig := mkGeneral {
  g_HttpPort : Z;
  g_Version : string;
  g_ServiceName : string;
  g_DrainDataNodes : bool;
  g_OperatorClusterURL : option string;
  g_SnapshotRepositories : list SnapshotRepoConfig;
  g_OpenSearchHome : string;
  g_AdditionalConfig : gmap string string;
  g_AdditionalVolumes : list AdditionalVolume;
  g_Grpc : option GrpcConfig;
  g_ImageSpec : option ImageSpec;
  g_ServiceAccount : string;
  g_DefaultRepo : option string;
  g_PodSecurityContext : option SecurityContext;
  g_SecurityContext : option SecurityContext;
  g_HostNetwork : bool;
  g_Vendor : string;
  g_SetVMMaxMapCount : option bool;
  g_Annotations : gmap string string;
  g_PluginsList : list string;
  g_Command : string;
  g_Monitoring : MonitoringConfig;
  g_Keystore : list KeystoreValue;
  g_HostAliases : json }.

(** [DashboardsTlsConfig] with its certificate configuration. *)
Record DashboardsTlsConfig := mkDashboardsTls {
  dtl_Enable : bool;
  dtl_Generate : bool;
  dtl_Secret : string;
  dtl_CaSecret : string;
  dtl_Duration : option Z }.
Record DashboardsConfig := mkDashboards {
  db_Enable : bool;
  db_ImageSpec : option ImageSpec;
  db_Version : string;
  db_OpensearchCredentialsSecret : string;
  db_Resources : ResourceRequirements;
  db_Replicas : Z;
  db_Tls : option DashboardsTlsConfig;
  db_BasePath : string;
  db_AdditionalConfig : gmap string string;
  db_Env : list EnvVar;
  db_AdditionalVolumes : list AdditionalVolume;
  db_Tolerations : json;
  db_NodeSelector : gmap string string;
  db_Affinity : option json;
  db_Labels : gmap string string;
  db_Annotations : gmap string string;
  db_ServiceType : string;
  db_ServiceLoadBalancerSourceRanges : list string;
  db_ServiceLabels : gmap string string;
  db_PluginsList : list string;
  db_HostAliases : json;
  db_TopologySpreadConstraints : json;
  db_PodSecurityContext : option SecurityContext;
  db_SecurityContext : option SecurityContext;
  db_PriorityClassName : string;
  db_OpenSearchDashboardsHome : string }.
Record InitHelperConfig := mkInitHelper {
  ih_ImageSpec : option ImageSpec;
  ih_Version : option string;
  ih_Resources : ResourceRequirements }.

Record BootstrapConfig := mkBootstrap {
  bs_Resources : ResourceRequirements;
  bs_Tolerations : json;
  bs_NodeSelector : gmap string string;
  bs_Affinity : option json;
  bs_Jvm : string;
  bs_Annotations : gmap string string;
  bs_Labels : gmap string string;
  bs_PluginsList : list string;
  bs_Keystore : list KeystoreValue;
  bs_Env : list EnvVar;
  bs_InitContainers : list Container;
  bs_HostAliases : option json;
  bs_DiskSize : Quantity;
  bs_PriorityClassName : string;
  bs_StorageClassName : option string }.

Record ClusterSpec := mkClusterSpec {
  sp_General : GeneralConfig;
  sp_SmartScaler : bool;
  sp_Security : option Security;
  sp_NodePools : list NodePool;
  sp_Dashboards : DashboardsConfig;
  sp_InitHelper : InitHelperConfig;
  sp_Bootstrap : BootstrapConfig }.

Record ClusterStatus := mkClusterStatus {
  st_Phase : string;
  st_ComponentsStatus : list ComponentStatus;
  st_Version : string;
  st_Initialized : bool;
  st_AvailableNodes : Z;
  st_Health : string;
  st_AdminSecretCreated : bool;
  st_ContextSecretCreated : bool }.

Record OpenSearchCluster := mkCluster {
  cl_Name : string;
  cl_Namespace : string;
  cl_UID : string;
  cl_DeletionTimestamp : option string;
  cl_Finalizers : list string;
  cl_Spec : ClusterSpec;
  cl_Status : ClusterStatus }.

Definition PhasePending : string := "PENDING".
Definition PhaseRunning : string := "RUNNING".
Definition PhaseUpgrading : string := "UPGRADING".

(** Assignments to fields of the status. *)
Definition set_ComponentsStatus (cs : list ComponentStatus) (st : ClusterStatus) :=
  mkClusterStatus (st_Phase st) cs (st_Version st) (st_Initialized st)
    (st_AvailableNodes st) (st_Health st) (st_AdminSecretCreated st) (st_ContextSecretCreated st).
Definition set_Phase (p : string) (st : ClusterStatus) :=
  mkClusterStatus p (st_ComponentsStatus st) (st_Version st) (st_Initialized st)
    (st_AvailableNodes st) (st_Health st) (st_AdminSecretCreated st) (st_ContextSecretCreated st).
Definition set_StatusVersion (v : string) (st : ClusterStatus) :=
  mkClusterStatus (st_Phase st) (st_ComponentsStatus st) v (st_Initialized st)
    (st_AvailableNodes st) (st_Health st) (st_AdminSecretCreated st) (st_ContextSecretCreated st).
Definition set_Initialized (b : bool) (st : ClusterStatus) :=
  mkClusterStatus (st_Phase st) (st_ComponentsStatus st) (st_Version st) b
    (st_AvailableNodes st) (st_Health st) (st_AdminSecretCreated st) (st_ContextSecretCreated st).
Definition set_AdminSecretCreated (b : bool) (st : ClusterStatus) :=
  mkClusterStatus (st_Phase st) (st_ComponentsStatus st) (st_Version st) (st_Initialized st)
    (st_AvailableNodes st) (st_Health st) b (st_ContextSecretCreated st).
Definition set_ContextSecretCreated (b : bool) (st : ClusterStatus) :=
  mkClusterStatus (st_Phase st) (st_ComponentsStatus st) (st_Version st) (st_Initialized st)
    (st_AvailableNodes st) (st_Health st) (st_AdminSecretCreated st) b.
Definition with_status (f : ClusterStatus -> ClusterStatus) (c : OpenSearchCluster) :=
  mkCluster (cl_Name c) (cl_Namespace c) (cl_UID c) (cl_DeletionTimestamp c)
    (cl_Finalizers c) (cl_Spec c) (f (cl_Status c)).
Definition with_finalizers (f : list string -> list string) (c : OpenSearchCluster) :=
  mkCluster (cl_Name c) (cl_Namespace c) (cl_UID c) (cl_DeletionTimestamp c)
    (f (cl_Finalizers c)) (cl_Spec c) (cl_Status c).

Definition componentsStatus (c : OpenSearchCluster) : list ComponentStatus :=
  st_ComponentsStatus (cl_Status c).
Definition nodePools (c : OpenSearchCluster) : list NodePool := sp_NodePools (cl_Spec c).
Definition specVersion (c : OpenSearchCluster) : string := g_Version (sp_General (cl_Spec c)).
Definition drainDataNodes (c : OpenSearchCluster) : bool :=
  g_DrainDataNodes (sp_General (cl_Spec c)).

(** ** Kubernetes objects *)

(** The type is empty where the code leaves it to the API server. *)
Record Secret := mkSecret {
  secret_Name : string;
  secret_Namespace : string;
  secret_Annotations : gmap string string;
  secret_Data : gmap string string;
  secret_StringData : gmap string string;
  secret_ResourceVersion : string;
  secret_Type : string;
  secret_OwnerReferences : list OwnerReference }.

Record ConfigMap := mkConfigMap {
  cm_Name : string;
  cm_Namespace : string;
  cm_Data : gmap string string;
  cm_OwnerReferences : list OwnerReference }.

(** The pod of a job has one container. *)
Record JobPod := mkJobPod {
  jp_Labels : gmap string string;
  jp_Image : string;
  jp_ImagePullPolicy : string;
  jp_ImagePullSecrets : list string;
  jp_Resources : json;
  jp_Command : list string;
  jp_Args : list string;
  jp_Volumes : list Volume;
  jp_VolumeMounts : list VolumeMount;
  jp_SecurityContext : option SecurityContext;
  jp_PodSecurityContext : option SecurityContext;
  jp_ServiceAccountName : string;
  jp_PriorityClassName : string;
  jp_HostNetwork : bool;
  jp_Tolerations : json;
  jp_NodeSelector : gmap string string;
  jp_Affinity : json;
  jp_TerminationGracePeriodSeconds : Z;
  jp_RestartPolicy : string }.
Record Job := mkJob {
  job_Name : string;
  job_Namespace : string;
  job_Annotations : gmap string string;
  job_Labels : gmap string string;
  job_BackoffLimit : Z;
  job_ActiveDeadlineSeconds : Z;
  job_Pod : JobPod;
  job_Succeeded : Z;
  job_Active : Z;
  job_Failed : Z;
  job_OwnerReferences : list OwnerReference }.

(** ** Security custom resources *)

Record OpensearchUser := mkUser {
  usr_Name : string;
  usr_Namespace : string;
  usr_UID : string;
  usr_OpensearchRef : string;
  usr_PasswordFromName : string;
  usr_PasswordFromKey : string;
  usr_OpendistroSecurityRoles : list string;
  usr_BackendRoles : list string;
  usr_Attributes : gmap string string;
  usr_State : string;
  usr_Reason : string;
  usr_ManagedCluster : option string }.

Record IndexPermissionSpec := mkIndexPermission {
  ip_IndexPatterns : list string;
  ip_DocumentLevelSecurity : string;
  ip_FieldLevelSecurity : list string;
  ip_AllowedActions : list string;
  ip_MaskedFields : list string }.
Record TenantPermissionsSpec := mkTenantPermission {
  tp_TenantPatterns : list string;
  tp_AllowedActions : list string }.

Record OpensearchRole := mkRoleCR {
  rol_Name : string;
  rol_Namespace : string;
  rol_OpensearchRef : string;
  rol_ClusterPermissions : list string;
  rol_IndexPermissions : list IndexPermissionSpec;
  rol_TenantPermissions : list TenantPermissionsSpec;
  rol_State : string;
  rol_Reason : string;
  rol_ExistingRole : option bool;
  rol_ManagedCluster : option string }.

Record OpensearchUserRoleBinding := mkBinding {
  urb_Name : string;
  urb_Namespace : string;
  urb_OpensearchRef : string;
  urb_Roles : list string;
  urb_Users : list string;
  urb_BackendRoles : list string;
  urb_State : string;
  urb_Reason : string;
  urb_ManagedCluster : option string;
  urb_ProvisionedRoles : list string;
  urb_ProvisionedUsers : list string;
  urb_ProvisionedBackendRoles : list string }.

(** ** The OpenSearch gateway *)

Record CatShardsResponse := mkShard {
  sh_Index : string;
  sh_Shard : string;
  sh_PrimaryOrReplica : string;
  sh_State : string;
  sh_NodeName : string }.

Record CatIndicesResponse := mkCatIndex { ci_Index : string; ci_Rep : string }.

(** [Indices] in the order a [range] over the map visits them. *)
Record ClusterHealthResponse := mkHealth {
  ch_Status : string;
  ch_ActiveShards : Z;
  ch_RelocatingShards : Z;
  ch_InitializingShards : Z;
  ch_UnassignedShards : Z;
  ch_Indices : list (string * string) }.
Definition zeroHealth : ClusterHealthResponse := mkHealth "" 0 0 0 0 [].

Record ClusterSettingsResponse := mkSettings {
  cset_Persistent : list (string * json);
  cset_Transient : list (string * json) }.

Record FlatClusterSettingsResponse := mkFlat {
  fl_AllocationEnable : string;
  fl_AllocationExclude : string }.

Record AllocationDecision := mkDecision { ad_Decider : string; ad_Decision : string }.
Record AllocationExplainNodeDecision := mkNodeDecision {
  nd_Decision : string;
  nd_Deciders : list AllocationDecision }.
Record AllocationExplainResponse := mkExplain {
  ex_CurrentState : string;
  ex_CanRemainOnCurrentNode : string;
  ex_CanMoveToOtherNode : string;
  ex_CanAllocate : string;
  ex_NodeAllocationDecisions : list AllocationExplainNodeDecision }.

(** Request and response bodies of the security API. *)
Record UserReq := mkUserReq {
  ur_Password : string;
  ur_OpendistroSecurityRoles : list string;
  ur_BackendRoles : list string;
  ur_Attributes : gmap string string }.
Record RoleReq := mkRoleReq {
  rr_ClusterPermissions : list string;
  rr_IndexPermissions : list IndexPermissionSpec;
  rr_TenantPermissions : list TenantPermissionsSpec }.
Record RoleMapping := mkMapping {
  rm_BackendRoles : list string;
  rm_Hosts : list string;
  rm_Users : list string }.

#[global] Instance IndexPermissionSpec_eq_dec : EqDecision IndexPermissionSpec.
Proof. solve_decision. Defined.
#[global] Instance TenantPermissionsSpec_eq_dec : EqDecision TenantPermissionsSpec.
Proof. solve_decision. Defined.
#[global] Instance UserReq_eq_dec : EqDecision UserReq.
Proof. solve_decision. Defined.
#[global] Instance RoleReq_eq_dec : EqDecision RoleReq.
Proof. solve_decision. Defined.
#[global] Instance RoleMapping_eq_dec : EqDecision RoleMapping.
Proof. solve_decision. Defined.

(** The operator-side TLS settings and the client of one OpenSearch cluster. *)
Record ClientTLS := mkClientTLS {
  ct_Cert : string;
  ct_ServerName : string;
  ct_RootCAs : option string;
  ct_InsecureSkipVerify : bool }.
Record OsClusterClient := mkOsClient {
  os_URL : string;
  os_Username : string;
  os_Password : string;
  os_TLS : option ClientTLS }.

(** The JSON documents the gateway sends, and what it decodes an answer into. *)
Inductive body :=
| NoBody
| UserBody (u : UserReq)
| RoleBody (r : RoleReq)
| MappingBody (m : RoleMapping)
| TenantBody (t : TenantReq)
| ActionGroupBody (a : ActionGroupReq)
| IndexTemplateBody (t : IndexTemplateReq)
| ComponentTemplateBody (t : ComponentTemplateReq)
| ISMPolicyBody (p : Ism.ISMPolicySpec)
| AddISMPolicyBody (policyId : string)
| SnapshotPolicyBody (p : Sm.SnapshotPolicySpec)
| SnapshotRepoBody (r : SnapshotRepositoryReq).

Inductive payload :=
| PNone | PUsers | PRoles | PMappings | PTenants | PActionGroups | PIndexTemplates
| PComponentTemplates | PISMPolicy | PIndices | PSnapshotPolicy | PSnapshotRepos.
Definition payload_ty (p : payload) : Type :=
  match p with
  | PNone => unit
  | PUsers => gmap string UserReq
  | PRoles => gmap string RoleReq
  | PMappings => gmap string RoleMapping
  | PTenants => gmap string TenantReq
  | PActionGroups => gmap string ActionGroupReq
  | PIndexTemplates => list (string * IndexTemplateReq)
  | PComponentTemplates => list (string * ComponentTemplateReq)
  | PISMPolicy => Ism.GetISMPolicyResponse
  | PIndices => list string
  | PSnapshotPolicy => Sm.GetSnapshotPolicyResponse
  | PSnapshotRepos => gmap string SnapshotRepositoryReq
  end.

Inductive os_op :=
| OpPing
| OpInfo
| OpHealth
| OpClusterHealth
| OpCatIndices (index : list string)
| OpCatShards (index headers : list string)
| OpAllocationExplain (index : string) (shard : Z) (primary : bool)
| OpGetSettings
| OpGetFlatSettings
| OpPutSettings (s : ClusterSettingsResponse)
| OpHttp (method path : string) (b : body) (p : payload).

Definition os_ty (op : os_op) : Type :=
  match op with
  | OpPing | OpInfo => unit
  | OpHealth | OpClusterHealth => ClusterHealthResponse
  | OpCatIndices _ => list CatIndicesResponse
  | OpCatShards _ _ => list CatShardsResponse
  | OpAllocationExplain _ _ _ => AllocationExplainResponse
  | OpGetSettings | OpPutSettings _ => ClusterSettingsResponse
  | OpGetFlatSettings => FlatClusterSettingsResponse
  | OpHttp _ _ _ p => payload_ty p
  end.

(** An HTTP answer: its status code, the library's verdict on it ([IsError]), its status
    line, its text, and the result of decoding its body. *)
Record HttpResp (A : Type) := mkResp {
  hr_StatusCode : Z;
  hr_IsError : bool;
  hr_Status : string;
  hr_String : string;
  hr_Body : result A }.
Arguments mkResp {A}.
Arguments hr_StatusCode {A}.
Arguments hr_IsError {A}.
Arguments hr_Status {A}.
Arguments hr_String {A}.
Arguments hr_Body {A}.

(** ** Requests *)

Inductive kind :=
| KCluster | KLegacyCluster | KStatefulSet | KPod | KSecret | KPVC | KUser | KRole | KBinding
| KTenant | KActionGroup | KIndexTemplate | KComponentTemplate | KISMPolicy | KSnapshotPolicy
| KConfigMap | KJob | KService | KDeployment | KPodDisruptionBudget | KServiceMonitor.

Definition obj (k : kind) : Type :=
  match k with
  | KCluster | KLegacyCluster => OpenSearchCluster
  | KStatefulSet => StatefulSet
  | KPod => Pod
  | KSecret => Secret
  | KPVC => PVC
  | KUser => OpensearchUser
  | KRole => OpensearchRole
  | KBinding => OpensearchUserRoleBinding
  | KTenant => OpensearchTenant
  | KActionGroup => OpensearchActionGroup
  | KIndexTemplate => OpensearchIndexTemplate
  | KComponentTemplate => OpensearchComponentTemplate
  | KISMPolicy => OpenSearchISMPolicy
  | KSnapshotPolicy => OpensearchSnapshotPolicy
  | KConfigMap => ConfigMap
  | KJob => Job
  | KService => Service
  | KDeployment => Deployment
  | KPodDisruptionBudget => PodDisruptionBudget
  | KServiceMonitor => ServiceMonitor
  end.

Inductive DesiredState := StateCreated | StateAbsent | StatePresent.

(** Deletion propagation: the default, orphaning, or foreground. *)
Inductive Propagation := PropDefault | PropOrphan | PropForeground.

(** A certificate with its key ([PEMCert] of [pkg/tls]). *)
Record PEMCert := mkPEM { certBytes : string; keyBytes : string }.

(** What the process asks of its surroundings other than the API server and OpenSearch: a random
    text, the time (in nanoseconds), a new certificate authority, a certificate signed by one, the
    salted hash of a password (bcrypt of cost 12). *)
Inductive local_op :=
| RandText
| TimeNow
| NewCA (name : string)
| SignCertificate (ca : PEMCert) (commonName orgUnit : string) (dnsNames : list string)
    (validity : Z)
| HashPassword (password : string).
Definition local_ty (op : local_op) : Type :=
  match op with
  | RandText => string
  | TimeNow => Z
  | NewCA _ | SignCertificate _ _ _ _ _ => result PEMCert
  | HashPassword _ => result string
  end.

Inductive req :=
| Get (k : kind) (name ns : string)
| List_ (k : kind) (ns : string) (labels : list (string * string))
| Update (k : kind) (o : obj k)
| StatusUpdate (k : kind) (o : obj k)
| Delete (k : kind) (name ns : string) (p : Propagation)
| ReconcileResource (k : kind) (o : obj k) (s : DesiredState)
| RecordEvent (etype reason message : string)
| Local_ (op : local_op)
| OsNewClient (url username password : string) (tls : option ClientTLS)
| OsDo (c : OsClusterClient) (op : os_op).

(** The answers.  [ReconcileResource] is given a pointer and may change the object behind it
    (its metadata, or all of it with the server's answer to an update): the object as it is
    left is part of the answer. *)
Definition resp (q : req) : Type :=
  match q with
  | Get k _ _ => result (obj k)
  | List_ k _ _ => result (list (obj k))
  | Update _ _ | StatusUpdate _ _ | Delete _ _ _ _ => option err
  | ReconcileResource k _ _ => obj k * (option Result * option err)
  | RecordEvent _ _ _ => unit
  | Local_ op => local_ty op
  | OsNewClient _ _ _ _ => result unit
  | OsDo _ op => result (HttpResp (os_ty op))
  end.

(** The operator's programs, their histories and environments. *)
Abbreviation io := (prog resp).
Abbreviation ohist := (hist resp).
Abbreviation oenv := (env resp).
Abbreviation ask := (@call req resp).

(** An answer to every request: the one of a server that is down. *)
Definition down (q : req) : resp q :=
  match q with
  | Get _ _ _ => Err (OtherErr "down")
  | List_ _ _ _ => Err (OtherErr "down")
  | Update _ _ => Some (OtherErr "down")
  | StatusUpdate _ _ => Some (OtherErr "down")
  | Delete _ _ _ _ => Some (OtherErr "down")
  | ReconcileResource _ o _ => (o, (None, Some (OtherErr "down")))
  | RecordEvent _ _ _ => tt
  | Local_ RandText => ""
  | Local_ TimeNow => 0
  | Local_ (NewCA _) => Err (OtherErr "down")
  | Local_ (SignCertificate _ _ _ _ _) => Err (OtherErr "down")
  | Local_ (HashPassword _) => Err (OtherErr "down")
  | OsNewClient _ _ _ _ => Err (OtherErr "down")
  | OsDo _ op => Err (OtherErr "down")
  end.

(** ** Kinds of requests *)

(** Requests that read, against those that change a server's state.  Creating a client pings
    the cluster; an event is a record for people. *)
Definition os_reads (op : os_op) : Prop :=
  match op with
  | OpPutSettings _ => False
  | OpHttp m _ _ _ => m = "GET" \/ m = "HEAD"
  | _ => True
  end.

Definition reads (q : req) : Prop :=
  match q with
  | Get _ _ _ | List_ _ _ _ | RecordEvent _ _ _ | Local_ _ | OsNewClient _ _ _ _ => True
  | OsDo _ op => os_reads op
  | _ => False
  end.

(** Requests that do not touch workloads (pods and stateful sets): reads, status updates,
    secrets and OpenSearch calls. *)
Definition no_workload (q : req) : Prop :=
  match q with
  | Update KPod _ | Update KStatefulSet _ => False
  | Delete KPod _ _ _ | Delete KStatefulSet _ _ _ => False
  | ReconcileResource KPod _ _ | ReconcileResource KStatefulSet _ _ => False
  | _ => True
  end.

(** Reads, and writes of secrets. *)
Definition reads_or_secret (q : req) : Prop :=
  match q with
  | ReconcileResource KSecret _ _ => True
  | _ => reads q
  end.

(** Requests that change no Kubernetes object but the operator's own credentials secret. *)
Definition quiet (q : req) : Prop :=
  match q with
  | ReconcileResource KSecret _ _ | OsDo _ _ => True
  | _ => reads q
  end.

Lemma quiet_no_workload q : quiet q -> no_workload q.
Proof. by destruct q as [| | | | |[]| | | |]. Qed.
(** Requests that do not write an OpenSearchCluster. *)
Definition no_status (q : req) : Prop :=
  match q with
  | StatusUpdate KCluster _ | Update KCluster _ | ReconcileResource KCluster _ _ => False
  | _ => True
  end.

Lemma quiet_no_status q : quiet q -> no_status q.
Proof. by destruct q as [| |[]|[]| |[]| | | |]. Qed.
Lemma reads_or_secret_quiet q : reads_or_secret q -> quiet q.
Proof. by destruct q as [| | | | |[]| | | |]. Qed.
Lemma reads_reads_or_secret q : reads q -> reads_or_secret q.
Proof. by destruct q. Qed.
Lemma reads_quiet q : reads q -> quiet q.
Proof. by destruct q. Qed.

Lemma reads_no_workload q : reads q -> no_workload q.
Proof. by destruct q. Qed.

#[export] Hint Resolve reads_no_workload : only.

(** ** Third-party code

    What the sources call but do not contain: parameters of the model. *)

(** [retry.DefaultRetry] of client-go allows this many attempts. *)
Class RetryPolicy := { RetrySteps : nat }.

(** [wait.PollUntilContextTimeout] asks its condition at once and then in steps until the time
    is over: at most this often. *)
Class PollPolicy := { PollSteps : nat }.

(** The process environment. *)
Class ProcEnv := { LookupEnv : string -> option string }.

(** Certificate parsing ([crypto/tls.X509KeyPair], [x509.CertPool.AppendCertsFromPEM]). *)
Class Crypto := {
  X509KeyPair : string -> string -> result string;
  AppendCertsFromPEM : string -> bool }.

(** [controllerutil.SetControllerReference(owner, object, scheme)]: the name and UID of the owner
    and the owner references of the object.  Documented: on success the owner is among them. *)
Class CtrlLib := {
  SetControllerReference : string -> string -> list OwnerReference ->
    result (list OwnerReference) }.
Class CtrlLaws `{CL : CtrlLib} := {
  SetControllerReference_owner : forall name uid refs refs',
    SetControllerReference name uid refs = Ok refs' ->
    exists r, r ∈ refs' /\ or_UID r = uid }.

(** [emperror.dev/errors.Combine]. *)
Class Combiner := { Combine_errs : option err -> option err -> option err }.

(** Documented: [nil] errors are dropped, and the combination of errors is an error. *)
Class CombinerLaws `{C : Combiner} := {
  Combine_nil_l : forall e, Combine_errs None e = e;
  Combine_nil_r : forall e, Combine_errs e None = e;
  Combine_some : forall e e', Combine_errs (Some e) (Some e') <> None }.

(** [github.com/Masterminds/semver]. *)
Class Semver := {
  Version : Type;
  Constraint : Type;
  NewVersion : string -> result Version;
  LessThan : Version -> Version -> bool;
  IncMajor : Version -> Version;
  VersionString : Version -> string;
  NewConstraint : string -> result Constraint;
  ConstraintCheck : Constraint -> Version -> bool }.

(** [github.com/google/go-cmp/cmp.Equal] with [cmpopts.EquateEmpty()] on the bodies of the
    security API.  Documented: deep equality that takes nil and empty slices and maps for the
    same, as the lists and maps of the model do. *)
Class CmpLib := { CmpEqual : forall {A : Type} {EqA : EqDecision A}, A -> A -> bool }.
Class CmpLaws `{CL : CmpLib} := {
  CmpEqual_spec : forall {A : Type} {EqA : EqDecision A} (x y : A),
    CmpEqual x y = true <-> x = y }.

(** [github.com/hashicorp/go-version]. *)
Class HcVersion := {
  HVersion : Type;
  HNewVersion : string -> result HVersion;
  HSegments : HVersion -> list Z;
  HGreaterThanOrEqual : HVersion -> HVersion -> bool;
  HLessThan : HVersion -> HVersion -> bool;
  HConstraint : Type;
  HNewConstraint : string -> result HConstraint;
  HCheck : HConstraint -> HVersion -> bool }.

(** ** Small helpers over requests *)

(** Dereference of a pointer: a nil pointer panics. *)
Definition deref {A} (p : option A) : io A :=
  match p with
  | Some a => Ret a
  | None => Panic "runtime error: invalid memory address or nil pointer dereference"
  end.

Lemma wp_deref {A} (p : option A) P (Q : ohist -> outcome A -> Prop) h :
  (forall a, p = Some a -> Q h (Returned a)) ->
  (forall m, p = None -> Q h (Panicked m)) ->
  wp (deref p) P Q h.
Proof. intros H1 H2. destruct p; cbn; [apply wp_ret|apply wp_panic]; eauto. Qed.

(** [saw h q r]: request [q] was answered [r] in history [h]. *)
Definition saw (h : ohist) (q : req) (r : resp q) : Prop := Ev q r ∈ h.

(** It was the last thing that happened. *)
Definition just_saw (h : ohist) (q : req) (r : resp q) : Prop := exists h', h = Ev q r :: h'.

Lemma saw_here q (r : resp q) h : saw (Ev q r :: h) q r.
Proof. constructor. Qed.
Lemma just_saw_here q (r : resp q) h : just_saw (Ev q r :: h) q r.
Proof. by exists h. Qed.
Lemma just_saw_saw h q (r : resp q) : just_saw h q r -> saw h q r.
Proof. intros [h' ->]. constructor. Qed.
Lemma saw_there e q (r : resp q) h : saw h q r -> saw (e :: h) q r.
Proof. by constructor. Qed.
Lemma saw_extends h h' q (r : resp q) : extends h h' -> saw h q r -> saw h' q r.
Proof. intros He. by apply extends_elem. Qed.

#[export] Hint Resolve saw_here saw_there : go.

(** From [wp] to executions from the empty history. *)
Lemma wp_run {A} (w : oenv) (p : io A) P Q :
  wp p P Q [] -> Q (run w p []).2 (run w p []).1 /\ calls_ok P (run w p []).2.
Proof. intros H. by apply wp_sound. Qed.
