(* ===== verification/Json.v ===== *)
(** * Json: decoding into Go maps and encoding them again

    [encoding/json] decodes an object into a map, where the last of several members of one
    name wins, and encodes a map with its names sorted, at every depth.  [canon] is that round
    trip on syntax trees; [same] says that two values are equal as Go values, member by member;
    [canon_same] relates the two.  Models [helpers.SortedJsonKeys]. *)

From S2P Require Import Prelude Prog Resources Api.

(** ** Members of an object as a map *)

(** The value a decoded map has for a name. *)
Definition map_lookup (k : string) (m : list (string * json)) : option json :=
  obj_lookup k (reverse m).

Definition map_keys (m : list (string * json)) : list string :=
  merge_sort String.le (remove_dups m.*1).

(** The members of a map as the encoder writes them. *)
Definition sort_members (m : list (string * json)) : list (string * json) :=
  (fun k => (k, default JNull (map_lookup k m))) <$> map_keys m.

Fixpoint canon (v : json) : json :=
  match v with
  | JArr l => JArr (map canon l)
  | JObj m => JObj (sort_members (map (fun kv => (kv.1, canon kv.2)) m))
  | _ => v
  end.

(** [json.Unmarshal(raw, &m)] for a [map[string]interface{}]: [null] leaves the map empty. *)
Definition unmarshalMap (v : json) : result (list (string * json)) :=
  match v with
  | JObj m => Ok m
  | JNull => Ok []
  | _ => Err (OtherErr "json: cannot unmarshal into Go value of type map[string]interface {}")
  end.

Definition SortedJsonKeys (obj : json) : result json :=
  match unmarshalMap obj with
  | Err e => Err e
  | Ok m => Ok (canon (JObj m))
  end.

(** Equality of the decoded values. *)
#[warnings="-register-all"]
Inductive same : json -> json -> Prop :=
| same_null : same JNull JNull
| same_bool b : same (JBool b) (JBool b)
| same_num n : same (JNum n) (JNum n)
| same_str s : same (JStr s) (JStr s)
| same_arr l l' : Forall2 same l l' -> same (JArr l) (JArr l')
| same_obj m m' :
    (forall k, option_Forall2 same (map_lookup k m) (map_lookup k m')) ->
    same (JObj m) (JObj m').

(** ** Lookup *)

Lemma obj_lookup_app k m m' :
  obj_lookup k (m ++ m') = match obj_lookup k m with Some v => Some v | None => obj_lookup k m' end.
Proof. induction m as [|[k' v] m IH]; simpl; [done|]. by case_decide. Qed.

Lemma obj_lookup_elem k m v : obj_lookup k m = Some v -> (k, v) ∈ m.
Proof.
  induction m as [|[k' v'] m IH]; simpl; [done|]. case_decide; [intros [= ->]|]; subst; set_solver.
Qed.

Lemma obj_lookup_some k m : is_Some (obj_lookup k m) <-> k ∈ m.*1.
Proof.
  induction m as [|[k' v] m IH]; simpl.
  - split; [by intros [? ?]|by intros ?%elem_of_nil].
  - rewrite elem_of_cons. case_decide as E; [split; [intros _; by left|intros _; by exists v]|].
    rewrite IH. naive_solver.
Qed.

Lemma map_lookup_elem k m v : map_lookup k m = Some v -> (k, v) ∈ m.
Proof. intros H%obj_lookup_elem. by rewrite elem_of_reverse in H. Qed.

Lemma map_lookup_some k m : is_Some (map_lookup k m) <-> k ∈ m.*1.
Proof. unfold map_lookup. by rewrite obj_lookup_some, fmap_reverse, elem_of_reverse. Qed.

Lemma obj_lookup_map (f : json -> json) k m :
  obj_lookup k (map (fun kv => (kv.1, f kv.2)) m) = f <$> obj_lookup k m.
Proof. induction m as [|[k' v] m IH]; simpl; [done|]. by case_decide. Qed.

Lemma map_lookup_map (f : json -> json) k m :
  map_lookup k (map (fun kv => (kv.1, f kv.2)) m) = f <$> map_lookup k m.
Proof.
  unfold map_lookup. change (map ?g m) with (g <$> m). rewrite <- fmap_reverse.
  apply obj_lookup_map.
Qed.

(** The sorted names are the names of the object, each once and in order. *)
Lemma elem_of_map_keys k m : k ∈ map_keys m <-> k ∈ m.*1.
Proof. unfold map_keys. by rewrite merge_sort_Permutation, elem_of_remove_dups. Qed.
Lemma NoDup_map_keys m : NoDup (map_keys m).
Proof. unfold map_keys. rewrite merge_sort_Permutation. apply NoDup_remove_dups. Qed.
Lemma Sorted_map_keys m : Sorted String.le (map_keys m).
Proof. apply Sorted_merge_sort, _. Qed.

Lemma sort_members_keys m : (sort_members m).*1 = map_keys m.
Proof. unfold sort_members. rewrite <- list_fmap_compose. by rewrite list_fmap_id. Qed.

(** A list without repeated names is its own map. *)
Lemma map_lookup_NoDup k v m : NoDup m.*1 -> (k, v) ∈ m -> map_lookup k m = Some v.
Proof.
  intros Hnd Hin. destruct (map_lookup k m) as [v'|] eqn:E.
  - apply map_lookup_elem in E. apply list_elem_of_lookup in Hin as [i Hi].
    apply list_elem_of_lookup in E as [j Hj].
    assert (i = j) as ->; [|congruence].
    apply (NoDup_lookup m.*1 i j k); [done|by rewrite list_lookup_fmap, Hi|by rewrite list_lookup_fmap, Hj].
  - assert (is_Some (map_lookup k m)) as [? ?]; [|congruence].
    apply map_lookup_some. by apply (list_elem_of_fmap_2 fst _ (k, v)).
Qed.

Lemma sort_members_lookup k m : map_lookup k (sort_members m) = map_lookup k m.
Proof.
  destruct (map_lookup k m) as [v|] eqn:E.
  - apply map_lookup_NoDup; [rewrite sort_members_keys; apply NoDup_map_keys|].
    unfold sort_members. apply list_elem_of_fmap. exists k. rewrite E. split; [done|].
    by apply elem_of_map_keys, map_lookup_some.
  - destruct (map_lookup k (sort_members m)) as [v|] eqn:E'; [|done].
    assert (is_Some (map_lookup k m)) as [? ?]; [|congruence].
    apply map_lookup_some, elem_of_map_keys. rewrite <- sort_members_keys.
    apply map_lookup_some. by eexists.
Qed.

(** What the encoder writes depends on the map alone. *)
Lemma sort_members_ext m m' :
  (forall k, map_lookup k m = map_lookup k m') -> sort_members m = sort_members m'.
Proof.
  intros H. unfold sort_members.
  assert (map_keys m = map_keys m') as ->.
  - apply (Sorted_unique String.le); [apply Sorted_map_keys..|].
    apply NoDup_Permutation; [apply NoDup_map_keys..|]. intros k.
    by rewrite !elem_of_map_keys, <- !map_lookup_some, H.
  - apply list_fmap_ext. intros _ k _. by rewrite H.
Qed.

(** ** The round trip *)

Lemma canon_obj_lookup k m m' :
  canon (JObj m) = canon (JObj m') ->
  canon <$> map_lookup k m = canon <$> map_lookup k m'.
Proof.
  simpl. intros [= H]. by rewrite <- !map_lookup_map, <- sort_members_lookup, H, sort_members_lookup.
Qed.

Lemma Forall2_canon l l' :
  Forall (λ v, forall w, canon v = canon w <-> same v w) l ->
  map canon l = map canon l' <-> Forall2 same l l'.
Proof.
  intros H. revert l'. induction H as [|v l Hv _ IH]; intros [|w l']; simpl.
  - split; [constructor|done].
  - split; [done|by intros ?%Forall2_nil_cons_inv].
  - split; [done|by intros ?%Forall2_cons_nil_inv].
  - split.
    + intros [= H1 H2]. constructor; [by apply Hv|by apply IH].
    + intros [H1 H2]%Forall2_cons. f_equal; [by apply Hv|by apply IH].
Qed.

Lemma canon_obj_same m m' :
  Forall (λ kv, forall w, canon kv.2 = canon w <-> same kv.2 w) m ->
  canon (JObj m) = canon (JObj m') <->
    (forall k, option_Forall2 same (map_lookup k m) (map_lookup k m')).
Proof.
  intros IH. assert (forall k v w, map_lookup k m = Some v -> canon v = canon w <-> same v w) as Hv.
  { intros k v w Hk%map_lookup_elem. rewrite Forall_forall in IH. by apply (IH (k, v)). }
  split.
  - intros H k. apply (canon_obj_lookup k) in H.
    destruct (map_lookup k m) as [v|] eqn:E, (map_lookup k m') as [w|] eqn:E'; simplify_eq/=;
      constructor. by eapply Hv.
  - intros H. simpl. f_equal. apply sort_members_ext. intros k. rewrite !map_lookup_map.
    specialize (H k). destruct (map_lookup k m) as [v|] eqn:E; inversion H; simpl; [|done].
    f_equal. by eapply Hv.
Qed.

(** Two values are encoded alike exactly when they are equal as Go values. *)
Lemma canon_same v w : canon v = canon w <-> same v w.
Proof.
  revert w. induction v as [|b|n|s|l IH|m IH] using json_nested_ind; intros w;
    try (split; [destruct w; simpl; intros H; simplify_eq; constructor
                |intros H; inversion H; by subst]).
  - split.
    + destruct w as [| | | |l'|]; try discriminate. intros [= H]. constructor.
      by apply Forall2_canon.
    + intros H. inversion H; subst. simpl. f_equal. by apply Forall2_canon.
  - split.
    + destruct w as [| | | | |m']; try discriminate. intros H. constructor.
      by apply canon_obj_same.
    + intros H. inversion H; subst. by apply canon_obj_same.
Qed.

#[global] Instance same_equivalence : Equivalence same.
Proof.
  split; [intros v; by apply canon_same|intros v w; rewrite <- !canon_same; done|].
  intros u v w. rewrite <- !canon_same. congruence.
Qed.

#[global] Instance canon_proper : Proper (same ==> eq) canon.
Proof. intros v w. apply canon_same. Qed.

#[global] Instance same_dec : RelDecision same.
Proof. intros v w. destruct (decide (canon v = canon w)); [left|right]; by rewrite <- canon_same. Defined.

Lemma canon_idem v : canon (canon v) = canon v.
Proof.
  induction v as [|b|n|s|l IH|m IH] using json_nested_ind; try done.
  - simpl. f_equal. rewrite map_map. by induction IH as [|v l Hv _ IHl]; simpl; [done|rewrite Hv, IHl].
  - simpl. f_equal. apply sort_members_ext. intros k.
    rewrite map_lookup_map, sort_members_lookup, map_lookup_map.
    destruct (map_lookup k m) as [v|] eqn:E; simpl; [|done]. f_equal.
    apply map_lookup_elem in E. rewrite Forall_forall in IH. by apply (IH (k, v)).
Qed.

Lemma canon_self v : same (canon v) v.
Proof. apply canon_same, canon_idem. Qed.

(** Answers that differ only in the order of members are sorted to the same document. *)
Lemma SortedJsonKeys_same v w : same v w -> SortedJsonKeys v = SortedJsonKeys w.
Proof.
  intros H. inversion H; subst; try done. unfold SortedJsonKeys, unmarshalMap. f_equal.
  by apply canon_same.
Qed.
