(* ===== verification/K8sClient.v ===== *)
(** * K8sClient: the operator's wrapper of the Kubernetes client

    Models [pkg/reconcilers/k8s/client.go] (the getters, the deletions and the two status
    updates with retry on conflict), and [pkg/reconciler/result.go] (combination of the
    results of sub-reconcilers). *)

From S2P Require Import Prelude Prog Resources Api.

(** ** Retries

    [retry.OnError(retry.DefaultRetry, again, fn)]: [fn] is run again after an error that
    [again] accepts, at most [RetrySteps] times in all; [s] holds the variables its closure
    writes.  The requests may be of any type. *)
Section Retry.
Context {Req : Type} {Resp : Req -> Type} {S : Type} (again : err -> bool).

Fixpoint retry_loop (steps : nat) (fn : S -> prog Resp (S * option err)) (s : S)
    : prog Resp (S * option err) :=
  match steps with
  | O => Ret (s, Some (OtherErr "timed out waiting for the condition"))
  | Datatypes.S n =>
      let! (s', e) := fn s in
      match e with
      | Some x =>
          if again x
          then match n with O => Ret (s', e) | _ => retry_loop n fn s' end
          else Ret (s', e)
      | None => Ret (s', e)
      end
  end.

Definition retry_post (Inv : S -> hist Resp -> Prop)
    (Q : hist Resp -> outcome (S * option err) -> Prop)
    : hist Resp -> outcome (S * option err) -> Prop :=
  fun h o => Q h o /\ match o with Returned (s, Some _) => Inv s h | _ => True end.

Lemma wp_retry_loop (Inv : S -> hist Resp -> Prop) steps fn (s : S) P Q h :
  Inv s h ->
  (forall s h, Inv s h -> wp (fn s) P (retry_post Inv Q) h) ->
  (forall s h e, Inv s h -> Q h (Returned (s, Some e))) ->
  wp (retry_loop steps fn s) P Q h.
Proof.
  revert s h. induction steps as [|n IH]; intros s h Hi Hf Ht; cbn [retry_loop].
  { by apply Ht. }
  apply wp_bind. eapply wp_mono; [done| |by apply Hf].
  intros h' [[s' [e|]]|m] [HQ HI]; cbn [seq_post wp]; [|done|done].
  destruct (again e); [|done]. destruct n; [done|]. by apply IH.
Qed.

Lemma only_retry_loop R steps (fn : S -> prog Resp (S * option err)) s :
  (forall s, only R (fn s)) -> only R (retry_loop steps fn s).
Proof.
  intros Hf. revert s. induction steps as [|n IH]; intros s; cbn [retry_loop]; [only_auto|].
  apply only_bind; [apply Hf|]. intros [s' [e|]]; [|only_auto].
  destruct (again e); [|only_auto]. destruct n; [only_auto|apply IH].
Qed.

End Retry.
Arguments wp_retry_loop {Req Resp S again}.
Arguments only_retry_loop {Req Resp S again}.

Section Client.
Context `{RP : RetryPolicy}.

(** ** Getters and deletions *)

Definition GetSecret (name ns : string) : io (result Secret) := ask (Get KSecret name ns).
Definition GetStatefulSet (name ns : string) : io (result StatefulSet) :=
  ask (Get KStatefulSet name ns).
Definition GetPod (name ns : string) : io (result Pod) := ask (Get KPod name ns).
Definition GetOpenSearchCluster (name ns : string) : io (result OpenSearchCluster) :=
  ask (Get KCluster name ns).
Definition ListStatefulSets (ns : string) (labels : list (string * string))
  : io (result (list StatefulSet)) := ask (List_ KStatefulSet ns labels).
Definition ListPods (ns : string) (labels : list (string * string))
  : io (result (list Pod)) := ask (List_ KPod ns labels).
Definition ListPVCs (ns : string) (labels : list (string * string))
  : io (result (list PVC)) := ask (List_ KPVC ns labels).
Definition DeletePod (name ns : string) : io (option err) :=
  ask (Delete KPod name ns PropDefault).
Definition DeleteStatefulSet (sts : StatefulSet) (orphan : bool) : io (option err) :=
  ask (Delete KStatefulSet (sts_Name sts) (sts_Namespace sts)
          (if orphan then PropOrphan else PropForeground)).
Definition GetConfigMap (name ns : string) : io (result ConfigMap) := ask (Get KConfigMap name ns).
Definition CreateConfigMap (cm : ConfigMap) : io (ConfigMap * (option Result * option err)) :=
  ask (ReconcileResource KConfigMap cm StatePresent).
Definition GetJob (name ns : string) : io (result Job) := ask (Get KJob name ns).
Definition CreateJob (job : Job) : io (Job * (option Result * option err)) :=
  ask (ReconcileResource KJob job StatePresent).
(** After an accepted deletion the job is made sure to be gone. *)
Definition DeleteJob (job : Job) : io (option err) :=
  let! e := ask (Delete KJob (job_Name job) (job_Namespace job) PropForeground) in
  match e with
  | Some e => Ret (Some e)
  | None => let! (_, (_, e)) := ask (ReconcileResource KJob job StateAbsent) in Ret e
  end.
Definition CreateSecret (s : Secret) : io (Secret * (option Result * option err)) :=
  ask (ReconcileResource KSecret s StatePresent).

(** [retry.RetryOnConflict(retry.DefaultRetry, fn)]. *)
Definition RetryOnConflict {Req} {Resp : Req -> Type} {S}
    (fn : S -> prog Resp (S * option err)) (s : S) : prog Resp (S * option err) :=
  retry_loop IsConflict RetrySteps fn s.

(** [UpdateOpenSearchClusterStatus(key, f)]: [f] works on a freshly fetched instance and on
    the variables [s] it captures. *)
Definition UpdateOpenSearchClusterStatusS {S} (name ns : string)
    (f : S -> OpenSearchCluster -> S * OpenSearchCluster) (s : S) : io (S * option err) :=
  RetryOnConflict (fun s =>
    let! r := GetOpenSearchCluster name ns in
    match r with
    | Err e => Ret (s, Some e)
    | Ok instance =>
        let '(s', instance') := f s instance in
        let! e := ask (StatusUpdate KCluster instance') in
        Ret (s', e)
    end) s.

(** The common case: a closure that writes nothing but the instance. *)
Definition UpdateOpenSearchClusterStatus (name ns : string)
    (f : OpenSearchCluster -> OpenSearchCluster) : io (option err) :=
  let! (_, e) := UpdateOpenSearchClusterStatusS name ns (fun s c => (s, f c)) tt in
  Ret e.

Definition obj_name (k : kind) : obj k -> string :=
  match k with
  | KCluster | KLegacyCluster => cl_Name
  | KStatefulSet => sts_Name
  | KPod => pod_Name
  | KSecret => secret_Name
  | KPVC => pvc_Name
  | KUser => usr_Name
  | KRole => rol_Name
  | KBinding => urb_Name
  | KTenant => ten_Name
  | KActionGroup => agr_Name
  | KIndexTemplate => itp_Name
  | KComponentTemplate => ctp_Name
  | KISMPolicy => ism_Name
  | KSnapshotPolicy => snp_Name
  | KConfigMap => cm_Name
  | KJob => job_Name
  | KService => svc_Name
  | KDeployment => dep_Name
  | KPodDisruptionBudget => pdb_Name
  | KServiceMonitor => smo_Name
  end.
Definition obj_namespace (k : kind) : obj k -> string :=
  match k with
  | KCluster | KLegacyCluster => cl_Namespace
  | KStatefulSet => sts_Namespace
  | KPod => pod_Namespace
  | KSecret => secret_Namespace
  | KPVC => pvc_Namespace
  | KUser => usr_Namespace
  | KRole => rol_Namespace
  | KBinding => urb_Namespace
  | KTenant => ten_Namespace
  | KActionGroup => agr_Namespace
  | KIndexTemplate => itp_Namespace
  | KComponentTemplate => ctp_Namespace
  | KISMPolicy => ism_Namespace
  | KSnapshotPolicy => snp_Namespace
  | KConfigMap => cm_Namespace
  | KJob => job_Namespace
  | KService => svc_Namespace
  | KDeployment => dep_Namespace
  | KPodDisruptionBudget => pdb_Namespace
  | KServiceMonitor => smo_Namespace
  end.

(** [UdateObjectStatus(instance, f)]: the caller's object is itself overwritten by the fetched
    one and then by [f], so the updated object is part of the result. *)
Definition UdateObjectStatus (k : kind) (instance : obj k) (f : obj k -> obj k)
    : io (obj k * option err) :=
  let name := obj_name k instance in
  let ns := obj_namespace k instance in
  RetryOnConflict (fun instance : obj k =>
    let! r := ask (Get k name ns) in
    match r return io (obj k * option err) with
    | Err e => Ret (instance, Some e)
    | Ok fetched =>
        let instance' := f fetched in
        let! e := ask (StatusUpdate k instance') in
        Ret (instance', e)
    end) instance.

(** ** Rules *)

(** A status update asks for the instance, writes back what [f] makes of it, and may fail. *)
Lemma wp_UpdateStatusS {S} (Inv : S -> Prop) name ns
    (f : S -> OpenSearchCluster -> S * OpenSearchCluster) (s : S) P Q h :
  Inv s ->
  (forall s c, Inv s -> Inv (f s c).1) ->
  (forall h', extends h h' -> P h' (Get KCluster name ns)) ->
  (forall h' s c, Inv s -> extends h h' -> just_saw h' (Get KCluster name ns) (Ok c) ->
     P h' (StatusUpdate KCluster (f s c).2)) ->
  (forall h' s e, Inv s -> extends h h' -> Q h' (Returned (s, e))) ->
  wp (UpdateOpenSearchClusterStatusS name ns f s) P Q h.
Proof.
  intros Hi Hf HG HS HQ. unfold UpdateOpenSearchClusterStatusS, RetryOnConflict.
  apply (wp_retry_loop (λ s h', Inv s /\ extends h h')).
  - split; [done|reflexivity].
  - intros s1 h1 [Hs1 He1]. unfold GetOpenSearchCluster. wp_step; [by apply HG|].
    assert (extends h (Ev (Get KCluster name ns) r :: h1)) by auto with go.
    destruct r as [c|e].
    + destruct (f s1 c) as [s2 c2] eqn:E.
      pose proof (HS (Ev (Get KCluster name ns) (Ok c) :: h1) s1 c Hs1 H (just_saw_here _ _ _)).
      pose proof (Hf s1 c Hs1). rewrite E in *. simpl in *.
      wp_step; [done|]. wp_step. split; [apply HQ; auto with go|]. destruct r; auto with go.
    + wp_step. split; [by apply HQ|done].
  - intros s1 h1 e [??]. by apply HQ.
Qed.

Lemma wp_UpdateStatus name ns f P Q h :
  (forall h', extends h h' -> P h' (Get KCluster name ns)) ->
  (forall h' c, extends h h' -> just_saw h' (Get KCluster name ns) (Ok c) ->
     P h' (StatusUpdate KCluster (f c))) ->
  (forall h' e, extends h h' -> Q h' (Returned e)) ->
  wp (UpdateOpenSearchClusterStatus name ns f) P Q h.
Proof.
  intros HG HS HQ. unfold UpdateOpenSearchClusterStatus. apply wp_bind.
  apply (wp_UpdateStatusS (λ _, True)); simpl; auto.
  intros h' s e _ He. apply wp_ret. by apply HQ.
Qed.

(** If it succeeds, the last request was the accepted write. *)
Lemma wp_UpdateStatus_last name ns f P Q h :
  (forall h', extends h h' -> P h' (Get KCluster name ns)) ->
  (forall h' c, extends h h' -> just_saw h' (Get KCluster name ns) (Ok c) ->
     P h' (StatusUpdate KCluster (f c))) ->
  (forall h' e, extends h h' -> Q h' (Returned (Some e))) ->
  (forall h' c, extends h h' -> Q (Ev (StatusUpdate KCluster (f c)) None :: h') (Returned None)) ->
  wp (UpdateOpenSearchClusterStatus name ns f) P Q h.
Proof.
  intros HG HS He HQ. unfold UpdateOpenSearchClusterStatus, UpdateOpenSearchClusterStatusS, RetryOnConflict.
  apply wp_bind, (wp_retry_loop (λ _ h', extends h h')).
  - reflexivity.
  - intros s1 h1 H1. unfold GetOpenSearchCluster. wp_step; [by apply HG|]. destruct r as [c|e].
    + wp_step; [apply HS; [ext|apply just_saw_here]|]. destruct r as [e|]; wp_step; split; [|ext| |done]; wp_step; wp_step.
      * apply He. ext.
      * apply HQ. ext.
    + wp_step. split; [|ext]. wp_step. wp_step. apply He. ext.
  - intros s1 h1 e H1. wp_step. wp_step. by apply He.
Qed.

Lemma wp_UdateObjectStatus k (o : obj k) f P Q h :
  (forall h', extends h h' -> P h' (Get k (obj_name k o) (obj_namespace k o))) ->
  (forall h' c, extends h h' ->
     just_saw h' (Get k (obj_name k o) (obj_namespace k o)) (Ok c) ->
     P h' (StatusUpdate k (f c))) ->
  (forall h' o' e, extends h h' ->
     (e = None -> exists c, Ev (Get k (obj_name k o) (obj_namespace k o)) (Ok c) ∈ h' /\
                            o' = f c) ->
     Q h' (Returned (o', e))) ->
  wp (UdateObjectStatus k o f) P Q h.
Proof.
  intros HG HS HQ. unfold UdateObjectStatus, RetryOnConflict.
  apply (wp_retry_loop (λ o' h', extends h h')).
  - reflexivity.
  - intros o1 h1 He1. wp_step; [by apply HG|].
    assert (extends h (Ev (Get k (obj_name k o) (obj_namespace k o)) r :: h1)) by auto with go.
    destruct r as [c|e].
    + wp_step; [apply HS; [done|apply just_saw_here]|].
      wp_step. split; [|destruct r; [auto with go|done]].
      apply HQ; [auto with go|]. intros ->. exists c. split; [|done]. do 2 constructor.
    + wp_step. split; [by apply HQ|done].
  - intros o1 h1 e ?. by apply HQ.
Qed.

(** ** Footprints *)

Lemma only_UpdateStatusS {S} name ns (f : S -> OpenSearchCluster -> S * OpenSearchCluster) s :
  only no_workload (UpdateOpenSearchClusterStatusS name ns f s).
Proof.
  apply only_retry_loop. intros s1. unfold GetOpenSearchCluster. only_auto.
Qed.

Lemma only_UpdateStatus name ns f :
  only no_workload (UpdateOpenSearchClusterStatus name ns f).
Proof. apply only_bind; [apply only_UpdateStatusS|only_auto]. Qed.

Lemma only_UdateObjectStatus k o f : only no_workload (UdateObjectStatus k o f).
Proof. apply only_retry_loop. intros s1. only_auto. Qed.

End Client.

Lemma only_reads_no_workload {A} (p : io A) : only reads p -> only no_workload p.
Proof. apply only_mono, reads_no_workload. Qed.

Lemma only_reads_quiet {A} (p : io A) : only reads p -> only quiet p.
Proof. apply only_mono, reads_quiet. Qed.
Lemma only_secret_quiet {A} (p : io A) : only reads_or_secret p -> only quiet p.
Proof. apply only_mono, reads_or_secret_quiet. Qed.
Lemma only_reads_secret {A} (p : io A) : only reads p -> only reads_or_secret p.
Proof. apply only_mono, reads_reads_or_secret. Qed.
Lemma only_quiet_no_workload {A} (p : io A) : only quiet p -> only no_workload p.
Proof. apply only_mono, quiet_no_workload. Qed.

Lemma only_quiet_no_status {A} (p : io A) : only quiet p -> only no_status p.
Proof. apply only_mono, quiet_no_status. Qed.

Lemma only_GetSecret n ns : only reads (GetSecret n ns).
Proof. unfold GetSecret. only_auto. Qed.
Lemma only_GetStatefulSet n ns : only reads (GetStatefulSet n ns).
Proof. unfold GetStatefulSet. only_auto. Qed.
Lemma only_GetPod n ns : only reads (GetPod n ns).
Proof. unfold GetPod. only_auto. Qed.
Lemma only_GetOpenSearchCluster n ns : only reads (GetOpenSearchCluster n ns).
Proof. unfold GetOpenSearchCluster. only_auto. Qed.
Lemma only_ListStatefulSets ns l : only reads (ListStatefulSets ns l).
Proof. unfold ListStatefulSets. only_auto. Qed.
Lemma only_ListPods ns l : only reads (ListPods ns l).
Proof. unfold ListPods. only_auto. Qed.
Lemma only_ListPVCs ns l : only reads (ListPVCs ns l).
Proof. unfold ListPVCs. only_auto. Qed.
Lemma only_CreateSecret s : only reads_or_secret (CreateSecret s).
Proof. unfold CreateSecret. only_auto. Qed.
Lemma only_deref {A} R (p : option A) : only R (deref p).
Proof. destruct p; [apply only_ret|apply only_panic]. Qed.

#[export] Hint Resolve only_UpdateStatusS only_UpdateStatus only_UdateObjectStatus
  only_GetSecret only_GetStatefulSet only_GetPod only_GetOpenSearchCluster
  only_ListStatefulSets only_ListPods only_ListPVCs only_CreateSecret only_deref : only.
Lemma only_DeletePod n ns : only no_status (DeletePod n ns).
Proof. unfold DeletePod. only_auto. Qed.
#[export] Hint Resolve only_DeletePod : only.
#[export] Hint Extern 8 (only no_workload _) => apply only_reads_no_workload : only.
#[export] Hint Extern 9 (only no_workload _) => apply only_quiet_no_workload : only.
#[export] Hint Extern 9 (only no_status _) => apply only_quiet_no_status : only.
#[export] Hint Extern 8 (only quiet _) => apply only_reads_quiet : only.
#[export] Hint Extern 9 (only quiet _) => apply only_secret_quiet : only.
#[export] Hint Extern 8 (only reads_or_secret _) => apply only_reads_secret : only.

(** ** Combined results ([pkg/reconciler/result.go]) *)

Section Combine.
Context `{C : Combiner}.

Record CombinedResult := mkCombined { c_Result : Result; c_Err : option err }.
Definition emptyCombined : CombinedResult := mkCombined noResult None.

Definition CombineErr (c : CombinedResult) (e : option err) : CombinedResult :=
  mkCombined (c_Result c) (Combine_errs (c_Err c) e).

Definition CombineResult (c : CombinedResult) (sub : option Result) (e : option err)
    : CombinedResult :=
  let c1 := CombineErr c e in
  match sub with
  | None => c1
  | Some sub =>
      let rq := if Requeue sub then true else Requeue (c_Result c1) in
      let cur := RequeueAfter (c_Result c1) in
      let ra :=
        if bool_decide (RequeueAfter sub > 0)
        then if bool_decide (cur = 0) || bool_decide (RequeueAfter sub < cur)
             then RequeueAfter sub else cur
        else cur in
      mkCombined (mkResult rq ra) (c_Err c1)
  end.

Definition combineAll (c : CombinedResult) (l : list (option Result * option err))
    : CombinedResult :=
  fold_left (fun c '(sub, e) => CombineResult c sub e) l c.

(** The positive delays asked for, and the specification of the combined one: the least. *)
Definition delays (l : list (option Result * option err)) : list Z :=
  omap (λ '(sub, _),
    match sub with
    | Some r => if bool_decide (RequeueAfter r > 0) then Some (RequeueAfter r) else None
    | None => None
    end) l.

Definition requeues (l : list (option Result * option err)) : bool :=
  existsb (λ '(sub, _), match sub with Some r => Requeue r | None => false end) l.

Definition least_delay (d : Z) (ds : list Z) : Z :=
  fold_left (fun cur x => if bool_decide (cur = 0) then x else Z.min x cur) ds d.

Lemma combineAll_result c l :
  RequeueAfter (c_Result c) >= 0 ->
  c_Result (combineAll c l) =
    mkResult (Requeue (c_Result c) || requeues l)
             (least_delay (RequeueAfter (c_Result c)) (delays l)).
Proof.
  revert c. induction l as [|[sub e] l IH]; intros [[rq ra] ce] Hra; simpl in *.
  { by rewrite orb_false_r. }
  unfold combineAll in *. simpl. rewrite IH.
  - destruct sub as [[srq sra]|]; simpl; [|done]. f_equal.
    + destruct srq, rq; done.
    + destruct (bool_decide_reflect (sra > 0)); simpl; [|done].
      f_equal. destruct (bool_decide_reflect (ra = 0)); simpl; [done|].
      destruct (bool_decide_reflect (sra < ra)); lia.
  - destruct sub as [[srq sra]|]; simpl; [|done]. go_cases; lia.
Qed.

Lemma combineAll_err `{CLaws : !CombinerLaws} c l :
  c_Err (combineAll c l) = None <-> c_Err c = None /\ Forall (λ '(_, e), e = None) l.
Proof.
  revert c. induction l as [|[sub e] l IH]; intros c; [naive_solver|].
  change (combineAll c ((sub, e) :: l)) with (combineAll (CombineResult c sub e) l).
  rewrite IH, Forall_cons.
  assert (c_Err (CombineResult c sub e) = Combine_errs (c_Err c) e) as ->.
  { by destruct sub. }
  assert (Combine_errs (c_Err c) e = None <-> c_Err c = None /\ e = None) as ->; [|tauto].
  destruct (c_Err c) as [e1|], e as [e2|];
    rewrite ?Combine_nil_l, ?Combine_nil_r; [|naive_solver..].
  split; [by intros H%Combine_some|by intros [? _]].
Qed.

Lemma delays_pos l : Forall (λ x, x > 0) (delays l).
Proof.
  unfold delays. induction l as [|[[r|] e] l IH]; simpl; [done| |done].
  case_bool_decide; [by constructor|done].
Qed.

Lemma least_delay_spec d ds :
  d >= 0 -> Forall (λ x, x > 0) ds ->
  let cands := (if bool_decide (d = 0) then [] else [d]) ++ ds in
  match cands with
  | [] => least_delay d ds = 0
  | _ => least_delay d ds ∈ cands /\ Forall (λ x, least_delay d ds <= x) cands
  end.
Proof.
  revert d. induction ds as [|x ds IH]; intros d Hd Hf; simpl.
  - case_bool_decide; simpl; [done|]. split; [set_solver|]. repeat constructor. lia.
  - inversion Hf as [|? ? Hx Hf']; subst.
    specialize (IH (if bool_decide (d = 0) then x else Z.min x d)).
    unfold least_delay in *; simpl in *.
    destruct (bool_decide_reflect (d = 0)) as [Hd0|Hd0]; simpl.
    + rewrite bool_decide_false in IH by lia. simpl in IH. apply IH; [lia|done].
    + rewrite bool_decide_false in IH by lia. simpl in IH.
      destruct IH as [H1 H2]; [lia|done|]. inversion H2; subst.
      split; [destruct (Z.min_spec x d) as [[_ E]|[_ E]]; rewrite E in *; set_solver|].
      repeat (constructor; [lia|]). done.
Qed.

(** Combining the results of sub-reconcilers asks for a requeue if one of them does, after
    the least of the positive delays asked for (none if there is none), and reports an error
    exactly when one of them did. *)
Theorem combined_result_spec `{CLaws : !CombinerLaws} l :
  let c := combineAll emptyCombined l in
  Requeue (c_Result c) = requeues l /\
  (delays l = [] -> RequeueAfter (c_Result c) = 0) /\
  (delays l <> [] -> RequeueAfter (c_Result c) ∈ delays l /\
     Forall (λ d, RequeueAfter (c_Result c) <= d) (delays l)) /\
  (c_Err c = None <-> Forall (λ '(_, e), e = None) l).
Proof.
  intros c. subst c. rewrite combineAll_err, combineAll_result by done. cbn.
  pose proof (least_delay_spec 0 (delays l) ltac:(lia) (delays_pos l)) as H. simpl in H.
  split_and!; [done|by intros ->| |naive_solver].
  destruct (delays l) as [|d ds]; [done|]. by intros _.
Qed.

End Combine.

(** A combination of errors that keeps the first one. *)
Definition first_error : Combiner :=
  {| Combine_errs := fun a b => match a with Some e => Some e | None => b end |}.

Lemma first_error_laws : @CombinerLaws first_error.
Proof. split; [by intros e|by intros [e|]|done]. Qed.

Lemma combined_result_spec_witness :
  let l := [(Some (requeueIn 30), None); (Some (mkResult false 0), None);
            (Some (requeueIn 10), None)] in
  c_Result (@combineAll first_error emptyCombined l) = requeueIn 10 /\
  c_Err (@combineAll first_error emptyCombined l) = None.
Proof.
  intros l. split; [reflexivity|].
  destruct (@combined_result_spec first_error first_error_laws l) as (_ & _ & _ & H).
  apply H. repeat constructor.
Defined.

(** ** Guarded changes of workloads *)

(** Every request leaves workloads alone, or changes a stateful set in a way [W] allows. *)
Definition sts_guarded (W : ohist -> StatefulSet -> DesiredState -> Prop) (h : ohist)
    (q : req) : Prop :=
  match q with
  | ReconcileResource KStatefulSet o s => W h o s
  | _ => no_workload q
  end.

(** The same for the deletion of pods. *)
Definition pod_guarded (W : ohist -> string -> string -> Prop) (h : ohist) (q : req) : Prop :=
  match q with
  | Delete KPod name ns _ => W h name ns
  | _ => no_workload q
  end.

Lemma sts_guarded_no_workload W h q : no_workload q -> sts_guarded W h q.
Proof. by destruct q as [| | | | |[]| | | |]. Qed.
Lemma pod_guarded_no_workload W h q : no_workload q -> pod_guarded W h q.
Proof. by destruct q as [| | | |[]| | | | |]. Qed.
#[export] Hint Resolve sts_guarded_no_workload pod_guarded_no_workload : go.

(** A program that leaves workloads alone, in front of a continuation. *)
Lemma wp_skip {A B} (p : io A) (f : A -> io B) (P : ohist -> req -> Prop) h :
  only no_workload p -> (forall h' q, no_workload q -> P h' q) ->
  (forall h' a, extends h h' -> wp (f a) P (λ _ _, True) h') ->
  wp (bind p f) P (λ _ _, True) h.
Proof. intros Hp HP Hf. eapply wp_only_bind; [exact Hp|auto|auto|auto]. Qed.

Lemma wp_skip_end {A} (p : io A) (P : ohist -> req -> Prop) h :
  only no_workload p -> (forall h' q, no_workload q -> P h' q) ->
  wp p P (λ _ _, True) h.
Proof. intros Hp HP. eapply wp_only; [exact Hp|auto|auto]. Qed.

Tactic Notation "wp_skip" ident(h) :=
  eapply wp_skip; [solve [auto with only]|by auto with go|intros h ? ?].
Tactic Notation "wp_skip" ident(h) "as" simple_intropattern(a) :=
  eapply wp_skip; [solve [auto with only]|by auto with go|intros h a ?].
Ltac wp_done := eapply wp_skip_end; [solve [only_auto]|by auto with go].

(** Every write of an OpenSearchCluster is a status write that [W] allows. *)
Definition status_guarded (W : ohist -> OpenSearchCluster -> Prop) (h : ohist) (q : req) : Prop :=
  match q with
  | StatusUpdate KCluster o => W h o
  | _ => no_status q
  end.

Lemma status_guarded_no_status W h q : no_status q -> status_guarded W h q.
Proof. by destruct q as [| | |[]| | | | | |]. Qed.
#[export] Hint Resolve status_guarded_no_status : go.

Lemma wp_status_skip {A B} (p : io A) (f : A -> io B) (P : ohist -> req -> Prop) h :
  only no_status p -> (forall h' q, no_status q -> P h' q) ->
  (forall h' a, extends h h' -> wp (f a) P (λ _ _, True) h') ->
  wp (bind p f) P (λ _ _, True) h.
Proof. intros Hp HP Hf. eapply wp_only_bind; [exact Hp|auto|auto|auto]. Qed.

Lemma wp_status_skip_end {A} (p : io A) (P : ohist -> req -> Prop) h :
  only no_status p -> (forall h' q, no_status q -> P h' q) ->
  wp p P (λ _ _, True) h.
Proof. intros Hp HP. eapply wp_only; [exact Hp|auto|auto]. Qed.

Tactic Notation "wp_status" "skip" ident(h) "as" simple_intropattern(a) :=
  eapply wp_status_skip; [solve [auto with only]|by auto with go|intros h a ?].
Tactic Notation "wp_status" "done" :=
  eapply wp_status_skip_end; [solve [only_auto]|by auto with go].

(** ** Counting the deletions of pods *)

Definition deletes_pod (q : req) : bool :=
  match q with Delete KPod _ _ _ => true | _ => false end.

Lemma only_no_pod_delete {A} (p : io A) :
  only no_workload p -> only (λ q, deletes_pod q = false) p.
Proof. apply only_mono. by intros [| | | |[]| | | | |]. Qed.

Ltac never := apply only_no_pod_delete; solve [only_auto].
Ltac once_step :=
  cbv beta zeta;
  lazymatch goal with
  | |- once _ (match ?x with _ => _ end) => destruct x
  | |- once _ (Ret _) => exact I
  | |- once ?f (call ?q) => exact (once_call f q)
  | |- _ => first [apply once_never; never
                  | apply once_bind_l; [never|intros ?]
                  | apply once_bind_r; [|intros ?; never]]
  end.
Ltac once_auto := repeat once_step.
