(* ===== verification/Helpers.v ===== *)
(** * Helpers: the shared helper functions of the operator

    Models [pkg/helpers/helpers.go] (status lists, version tests, pod counting, credentials),
    the names of [pkg/builders/cluster.go] and the constants they use.  The status-list
    functions [RemoveIt] and [Replace] work on Go slices in place; [RemoveIt_view] and
    [Replace_view] are what the caller's own slice shows after the call. *)

From S2P Require Import Prelude Prog Resources Api K8sClient.

Definition ClusterLabel : string := "opensearch.org/opensearch-cluster".
Definition NodePoolLabel : string := "opensearch.org/opensearch-nodepool".
Definition stsRevisionLabel : string := "controller-revision-hash".

(** ** Lists of strings *)

Fixpoint ContainsString (slice : list string) (s : string) : bool :=
  match slice with
  | [] => false
  | item :: rest => if decide (item = s) then true else ContainsString rest s
  end.

Definition DiffSlice (leftSlice rightSlice : list string) : list string :=
  filter (λ s, ContainsString rightSlice s = false) leftSlice.

Fixpoint RemoveDuplicateStrings_aux (seen : gset string) (l : list string) : list string :=
  match l with
  | [] => []
  | item :: rest =>
      if decide (item ∈ seen) then RemoveDuplicateStrings_aux seen rest
      else item :: RemoveDuplicateStrings_aux ({[item]} ∪ seen) rest
  end.
Definition RemoveDuplicateStrings (strSlice : list string) : list string :=
  RemoveDuplicateStrings_aux ∅ strSlice.

Definition MergeConfigs (left right : gmap string string) : gmap string string := right ∪ left.

Lemma ContainsString_spec l s : ContainsString l s = true <-> s ∈ l.
Proof.
  induction l as [|x l IH]; simpl; [split; [done|by intros ?%elem_of_nil]|].
  case_decide; [subst; split; [constructor|done]|].
  rewrite IH, elem_of_cons. naive_solver.
Qed.

Lemma ContainsString_false l s : ContainsString l s = false <-> s ∉ l.
Proof. rewrite <- ContainsString_spec. destruct (ContainsString l s); naive_solver. Qed.

Lemma elem_of_DiffSlice l r s : s ∈ DiffSlice l r <-> s ∈ l /\ s ∉ r.
Proof. unfold DiffSlice. rewrite list_elem_of_filter, ContainsString_false. naive_solver. Qed.

Lemma DiffSlice_nil l r : (forall s, s ∈ l -> s ∈ r) -> DiffSlice l r = [].
Proof.
  intros H. destruct (DiffSlice l r) as [|s l'] eqn:E; [done|].
  assert (s ∈ DiffSlice l r) as [H1 H2]%elem_of_DiffSlice by (rewrite E; left).
  by destruct H2; apply H.
Qed.
Lemma DiffSlice_nothing l : DiffSlice l [] = l.
Proof. unfold DiffSlice. induction l as [|x l IH]; [done|]. by rewrite filter_cons, IH. Qed.

Lemma RemoveDuplicateStrings_aux_spec seen l :
  NoDup (RemoveDuplicateStrings_aux seen l) /\
  (forall s, s ∈ RemoveDuplicateStrings_aux seen l <-> s ∈ l /\ s ∉ seen) /\
  sublist (RemoveDuplicateStrings_aux seen l) l.
Proof.
  revert seen. induction l as [|x l IH]; intros seen; simpl.
  { split; [constructor|]. split; [set_solver|constructor]. }
  case_decide as E.
  - destruct (IH seen) as (H1 & H2 & H3). split; [done|]. split; [set_solver|by constructor].
  - destruct (IH ({[x]} ∪ seen)) as (H1 & H2 & H3). split; [constructor; [|done]|].
    + rewrite H2. set_solver.
    + split; [|by constructor]. intros s. rewrite !elem_of_cons, H2.
      destruct (decide (s = x)); set_solver.
Qed.

(** ** Component statuses *)

Definition ComponentStatusEqual (left right : ComponentStatus) : bool :=
  (cs_Component left == cs_Component right) &&
  (cs_Description left == cs_Description right) &&
  (cs_Status left == cs_Status right).

(** The contents of the slice [RemoveIt] returns. *)
Fixpoint RemoveIt (ss : ComponentStatus) (ssSlice : list ComponentStatus)
    : list ComponentStatus :=
  match ssSlice with
  | [] => []
  | v :: rest => if ComponentStatusEqual v ss then rest else v :: RemoveIt ss rest
  end.

(** The contents of the slice [Replace] returns. *)
Definition Replace (remove add : ComponentStatus) (ssSlice : list ComponentStatus)
    : list ComponentStatus := RemoveIt remove ssSlice ++ [add].

(** [append(ssSlice[0:idx], ssSlice[idx+1:]...)] shifts the tail inside the backing array:
    the argument slice keeps its length and still ends with its old last element. *)
Definition RemoveIt_view (ss : ComponentStatus) (ssSlice : list ComponentStatus)
    : list ComponentStatus :=
  if existsb (λ v, ComponentStatusEqual v ss) ssSlice
  then RemoveIt ss ssSlice ++ drop (length ssSlice - 1) ssSlice
  else ssSlice.

(** After a removal there is room in the backing array, so the following [append] writes its
    last cell; without one it writes past the end of the argument slice. *)
Definition Replace_view (remove add : ComponentStatus) (ssSlice : list ComponentStatus)
    : list ComponentStatus :=
  if existsb (λ v, ComponentStatusEqual v remove) ssSlice
  then Replace remove add ssSlice
  else ssSlice.

Definition GetByDescriptionAndComponent (left right : ComponentStatus)
    : ComponentStatus * bool :=
  if (cs_Description left == cs_Description right) && (cs_Component left == cs_Component right)
  then (left, true) else (right, false).

Definition GetByComponent (left right : ComponentStatus) : ComponentStatus * bool :=
  if cs_Component left == cs_Component right then (left, true) else (right, false).

Fixpoint FindFirstPartial (arr : list ComponentStatus) (item : ComponentStatus)
    (predicator : ComponentStatus -> ComponentStatus -> ComponentStatus * bool)
    : ComponentStatus * bool :=
  match arr with
  | [] => (item, false)
  | x :: arr' =>
      let '(itemInArr, found) := predicator x item in
      if (found : bool) then (itemInArr, found) else FindFirstPartial arr' item predicator
  end.

Fixpoint FindAllPartial (arr : list ComponentStatus) (item : ComponentStatus)
    (predicator : ComponentStatus -> ComponentStatus -> ComponentStatus * bool)
    : list ComponentStatus :=
  match arr with
  | [] => []
  | x :: arr' =>
      let '(itemInArr, found) := predicator x item in
      if (found : bool) then itemInArr :: FindAllPartial arr' item predicator
      else FindAllPartial arr' item predicator
  end.

Definition IsUpgradeInProgress (status : ClusterStatus) : bool :=
  let foundStatus :=
    FindAllPartial (st_ComponentsStatus status) (mkCS "Upgrader" "" "" []) GetByComponent in
  existsb (λ s, (cs_Status s != "Upgraded") && (cs_Status s != "Finished")) foundStatus.

(** The entry of a component and description: what [FindFirstPartial] searches for. *)
Definition entry_key (c : ComponentStatus) : string * string :=
  (cs_Component c, cs_Description c).

(** Every component and description has at most one entry. *)
Definition unique_entries (l : list ComponentStatus) : Prop := NoDup (entry_key <$> l).

Lemma ComponentStatusEqual_spec a b :
  ComponentStatusEqual a b = true <->
  entry_key a = entry_key b /\ cs_Status a = cs_Status b.
Proof.
  unfold ComponentStatusEqual, entry_key.
  rewrite !andb_true_iff, !bool_decide_eq_true, pair_equal_spec. tauto.
Qed.

Lemma FindFirst_found l item c :
  FindFirstPartial l item GetByDescriptionAndComponent = (c, true) ->
  c ∈ l /\ entry_key c = entry_key item.
Proof.
  induction l as [|x l IH]; simpl; [done|].
  unfold GetByDescriptionAndComponent at 1.
  destruct (_ && _) eqn:E; simpl.
  - intros [= <-]. apply andb_true_iff in E as [E1 E2].
    apply bool_decide_eq_true in E1, E2. split; [constructor|].
    unfold entry_key. congruence.
  - intros H. destruct (IH H). split; [by constructor|done].
Qed.

Lemma FindFirst_not_found l item c :
  FindFirstPartial l item GetByDescriptionAndComponent = (c, false) ->
  c = item /\ entry_key item ∉ entry_key <$> l.
Proof.
  induction l as [|x l IH]; simpl; [intros [= <-]; split; [done|by intros ?%elem_of_nil]|].
  unfold GetByDescriptionAndComponent at 1.
  destruct (_ && _) eqn:E; simpl; [done|].
  intros H. destruct (IH H) as [-> Hn]. split; [done|].
  rewrite ?fmap_cons, not_elem_of_cons. split; [|done].
  intros Hk. unfold entry_key in Hk. injection Hk as H1 H2.
  rewrite andb_false_iff, !bool_decide_eq_false in E. naive_solver.
Qed.

(** Conversely the first entry with the key is found. *)
Lemma FindFirst_elem l item c :
  unique_entries l -> c ∈ l -> entry_key c = entry_key item ->
  FindFirstPartial l item GetByDescriptionAndComponent = (c, true).
Proof.
  unfold unique_entries.
  induction l as [|x l IH]; simpl; [by intros ? ?%elem_of_nil|].
  intros Hn Hc Hk. inversion Hn as [|? ? Hx Hn']; subst.
  unfold GetByDescriptionAndComponent at 1.
  destruct (_ && _) eqn:E; simpl.
  - apply andb_true_iff in E as [E1 E2]. apply bool_decide_eq_true in E1, E2.
    apply elem_of_cons in Hc as [->|Hc]; [done|].
    destruct Hx. apply list_elem_of_fmap. exists c. unfold entry_key in *. split; [congruence|done].
  - apply elem_of_cons in Hc as [->|Hc]; [|by apply IH].
    unfold entry_key in Hk. injection Hk as H1 H2.
    rewrite andb_false_iff, !bool_decide_eq_false in E. naive_solver.
Qed.

Lemma RemoveIt_sublist ss l : sublist (RemoveIt ss l) l.
Proof.
  induction l as [|x l IH]; simpl; [constructor|].
  destruct (ComponentStatusEqual x ss); [by constructor|by constructor].
Qed.

Lemma RemoveIt_unique ss l : unique_entries l -> unique_entries (RemoveIt ss l).
Proof.
  intros H. eapply sublist_NoDup; [exact H|]. apply fmap_sublist, RemoveIt_sublist.
Qed.

(** In a list with unique entries, removing an entry removes its key. *)
Lemma RemoveIt_key ss l :
  unique_entries l -> (exists c, c ∈ l /\ ComponentStatusEqual c ss = true) ->
  entry_key ss ∉ entry_key <$> RemoveIt ss l.
Proof.
  unfold unique_entries. induction l as [|x l IH]; simpl; [intros _ (c & Hc%elem_of_nil & _); done|].
  intros Hn (c & Hc & He). inversion Hn as [|? ? Hx Hn']; subst.
  destruct (ComponentStatusEqual x ss) eqn:E.
  - apply ComponentStatusEqual_spec in E as [E _]. by rewrite <- E.
  - apply elem_of_cons in Hc as [->|Hc]; [congruence|].
    rewrite ?fmap_cons, not_elem_of_cons. split; [|by apply IH; eauto].
    apply ComponentStatusEqual_spec in He as [He _]. rewrite <- He.
    intros Hk. apply Hx. rewrite <- Hk. apply list_elem_of_fmap. eauto.
Qed.


(** Replacing an entry by one with the same key keeps the entries unique. *)
Lemma Replace_unique remove add l :
  unique_entries l -> remove ∈ l -> entry_key add = entry_key remove ->
  unique_entries (Replace remove add l).
Proof.
  intros Hu Hr Hk. unfold unique_entries, Replace. rewrite fmap_app.
  apply NoDup_app. split; [by apply RemoveIt_unique|]. split; [|by apply NoDup_singleton].
  intros k Hin. simpl. rewrite list_elem_of_singleton. intros ->. rewrite Hk in Hin.
  eapply RemoveIt_key; [exact Hu| |exact Hin].
  exists remove. split; [done|]. by apply ComponentStatusEqual_spec.
Qed.

(** So does adding an entry with a new key. *)
Lemma Replace_unique_new remove add l :
  unique_entries l -> entry_key add ∉ entry_key <$> l ->
  unique_entries (Replace remove add l).
Proof.
  intros Hu Hk. unfold unique_entries, Replace. rewrite fmap_app.
  apply NoDup_app. split; [by apply RemoveIt_unique|]. split; [|by apply NoDup_singleton].
  intros k Hin. simpl. rewrite list_elem_of_singleton. intros ->. apply Hk.
  eapply elem_of_sublist; [exact Hin|]. apply fmap_sublist, RemoveIt_sublist.
Qed.

Lemma elem_of_RemoveIt_ne ss l c :
  c ∈ l -> ComponentStatusEqual c ss = false -> c ∈ RemoveIt ss l.
Proof.
  induction l as [|x l IH]; simpl; [done|]. intros Hc He.
  apply elem_of_cons in Hc as [->|Hc]; destruct (ComponentStatusEqual x ss) eqn:E;
    try congruence; try constructor; auto.
Qed.

Lemma RemoveIt_noop ss l :
  (forall c, c ∈ l -> ComponentStatusEqual c ss = false) -> RemoveIt ss l = l.
Proof.
  induction l as [|x l IH]; simpl; intros H; [done|].
  rewrite H by constructor. f_equal. apply IH. intros c Hc. apply H. by constructor.
Qed.

Lemma RemoveIt_length ss l :
  (exists c, c ∈ l /\ ComponentStatusEqual c ss = true) ->
  S (length (RemoveIt ss l)) = length l.
Proof.
  induction l as [|x l IH]; simpl; [intros (c & Hc%elem_of_nil & _); done|].
  intros (c & Hc & He). destruct (ComponentStatusEqual x ss) eqn:E; [done|].
  simpl. f_equal. apply IH. apply elem_of_cons in Hc as [->|Hc]; [congruence|eauto].
Qed.

Lemma Replace_view_found remove add l :
  remove ∈ l -> Replace_view remove add l = Replace remove add l.
Proof.
  intros Hr. unfold Replace_view. assert (existsb (λ v, ComponentStatusEqual v remove) l = true)
    as ->; [|done].
  apply existsb_exists. exists remove. split; [by apply list_elem_of_In|].
  by apply ComponentStatusEqual_spec.
Qed.

(** After a replacement by an entry with another status, the old entry is gone. *)
Lemma Replace_no_more remove add l :
  unique_entries l -> remove ∈ l -> cs_Status add <> cs_Status remove ->
  forall c, c ∈ Replace remove add l -> ComponentStatusEqual c remove = false.
Proof.
  intros Hu Hr Hs c Hc. apply not_true_is_false. intros He.
  apply ComponentStatusEqual_spec in He as [Hk Hst].
  apply elem_of_app in Hc as [Hc|Hc]; [|apply list_elem_of_singleton in Hc as ->; congruence].
  eapply (RemoveIt_key remove l Hu); [exists remove; split; [done|];
    by apply ComponentStatusEqual_spec|].
  apply list_elem_of_fmap. eauto.
Qed.

Lemma Replace_view_length remove add l : length (Replace_view remove add l) = length l.
Proof.
  unfold Replace_view. destruct (existsb _ l) eqn:E; [|done].
  apply existsb_exists in E as (c & Hc & He). unfold Replace. rewrite length_app. simpl.
  rewrite <- (RemoveIt_length remove l); [lia|]. exists c. split; [by apply list_elem_of_In|done].
Qed.

Lemma RemoveIt_view_length ss l : length (RemoveIt_view ss l) = length l.
Proof.
  unfold RemoveIt_view. destruct (existsb _ l) eqn:E; [|done].
  apply existsb_exists in E as (c & Hc & He).
  assert (HS : S (length (RemoveIt ss l)) = length l).
  { apply RemoveIt_length. exists c. split; [by apply list_elem_of_In|done]. }
  rewrite length_app, length_drop. lia.
Qed.

(** The statuses of a component in progress are exactly those that block
    [IsUpgradeInProgress]. *)
Lemma elem_of_FindAllPartial l item c :
  c ∈ FindAllPartial l item GetByComponent <->
  c ∈ l /\ cs_Component c = cs_Component item.
Proof.
  induction l as [|x l IH]; simpl; [split; [by intros ?%elem_of_nil|by intros [?%elem_of_nil _]]|].
  unfold GetByComponent at 1. case_bool_decide; simpl; rewrite !elem_of_cons, IH; naive_solver.
Qed.

(** ** Names *)

Definition StsName (cr : OpenSearchCluster) (nodePool : NodePool) : string :=
  cl_Name cr +:+ "-" +:+ np_Component nodePool.

Definition ReplicaHostName (currentSts : StatefulSet) (repNum : Z) : string :=
  sts_Name currentSts +:+ "-" +:+ Itoa repNum.

(** [sts.Labels[helpers.NodePoolLabel]]: a missing label reads as the empty string. *)
Definition STSInNodePools (sts : StatefulSet) (nodepools : list NodePool) : bool :=
  existsb (λ np, default "" (sts_Labels sts !! NodePoolLabel) == np_Component np) nodepools.

Definition GeneratedAdminCredentialsSecretName (cr : OpenSearchCluster) : string :=
  cl_Name cr +:+ "-admin-password".

Lemma Itoa_inj a b : Itoa a = Itoa b -> a = b.
Proof. unfold Itoa. intros H. by apply (inj pretty) in H. Qed.

Lemma StsName_inj cr p q : StsName cr p = StsName cr q -> np_Component p = np_Component q.
Proof. unfold StsName. intros H. by apply app_inj_l, app_inj_l in H. Qed.

Lemma ReplicaHostName_inj sts i j :
  ReplicaHostName sts i = ReplicaHostName sts j -> i = j.
Proof. unfold ReplicaHostName. intros H. by apply app_inj_l, app_inj_l, Itoa_inj in H. Qed.

(** ** Roles and versions *)

Definition HasDataRole (nodePool : NodePool) : bool := ContainsString (np_Roles nodePool) "data".
Definition HasManagerRole (nodePool : NodePool) : bool :=
  ContainsString (np_Roles nodePool) "master" ||
  ContainsString (np_Roles nodePool) "cluster_manager".

Section Versions.
Context `{SV : Semver} `{HV : HcVersion}.

(** Panics when the (constant) constraint does not parse. *)
Definition CheckVersionConstraint (cluster : OpenSearchCluster) (constraint : string)
    (defaultOnError : bool) : io bool :=
  match NewConstraint constraint with
  | Err e => Panic (Error e)
  | Ok versionConstraint =>
      match NewVersion (specVersion cluster) with
      | Err _ => Ret defaultOnError
      | Ok version => Ret (ConstraintCheck versionConstraint version)
      end
  end.

Definition SecurityChangeVersion (cluster : OpenSearchCluster) : io bool :=
  CheckVersionConstraint cluster ">=2.0.0" true.

Definition SupportsHotReload (cluster : OpenSearchCluster) : io bool :=
  CheckVersionConstraint cluster ">=2.19.1" false.

(** One side of the TLS configuration: explicit setting, else enabled when configured. *)
Definition tls_side_enabled (side : option TlsSide) : bool :=
  match side with
  | None => false
  | Some tlsConfig => match tl_Enabled tlsConfig with Some b => b | None => true end
  end.

Definition cluster_tls (cluster : OpenSearchCluster) : option TlsConfig :=
  match sp_Security (cl_Spec cluster) with Some s => sec_Tls s | None => None end.

Definition IsHttpTlsEnabled (cluster : OpenSearchCluster) : bool :=
  match cluster_tls cluster with Some t => tls_side_enabled (tls_Http t) | None => false end.
Definition IsTransportTlsEnabled (cluster : OpenSearchCluster) : bool :=
  match cluster_tls cluster with Some t => tls_side_enabled (tls_Transport t) | None => false end.

Definition IsSecurityPluginEnabled (cr : OpenSearchCluster) : io bool :=
  let! b := SecurityChangeVersion cr in
  Ret (if (b : bool) then IsHttpTlsEnabled cr else IsTransportTlsEnabled cr).

(** The name of the CA secret; the empty reference is the empty name. *)
Definition TlsCASecretRef (cluster : OpenSearchCluster) : io string :=
  match cluster_tls cluster with
  | None => Ret ""
  | Some t =>
      let! b := SecurityChangeVersion cluster in
      Ret (if (b : bool)
           then match tls_Http t with Some s => tl_CaSecret s | None => "" end
           else match tls_Transport t with Some s => tl_CaSecret s | None => "" end)
  end.

Definition ResolveClusterManagerRole (ver : string) : string :=
  match HNewVersion ver, HNewVersion "2.0.0" with
  | Ok osVer, Ok clusterManagerVer =>
      if HGreaterThanOrEqual osVer clusterManagerVer then "cluster_manager" else "master"
  | _, _ => "master"
  end.

(** The role renamings of each major version; an unknown major renames nothing. *)
Definition roleMap (majorVersion : Z) (role : string) : option string :=
  if decide (majorVersion = 1) then
    if decide (role = "cluster_manager") then Some "master" else None
  else if decide (majorVersion = 2) then
    if decide (role = "master") then Some "cluster_manager"
    else if decide (role = "warm") then Some "search" else None
  else if decide (majorVersion = 3) then
    if decide (role = "master") then Some "cluster_manager" else None
  else None.

(** [osVer.Segments()[0]]: go-version always returns at least one segment. *)
Definition MapClusterRole (role ver : string) : string :=
  match HNewVersion ver with
  | Err _ => role
  | Ok osVer =>
      match HSegments osVer with
      | [] => role
      | majorVersion :: _ => default role (roleMap majorVersion role)
      end
  end.

Definition MapClusterRoles (roles : list string) (version : string) : list string :=
  (λ role, MapClusterRole role version) <$> roles.

Lemma MapClusterRole_idem role ver :
  MapClusterRole (MapClusterRole role ver) ver = MapClusterRole role ver.
Proof.
  unfold MapClusterRole. destruct (HNewVersion ver) as [v|]; [|done].
  destruct (HSegments v) as [|m ?]; [done|]. unfold roleMap.
  repeat (case_decide; simpl; subst; try done).
Qed.

(** ** The cluster's URL *)

Context `{PE : ProcEnv}.

Definition ClusterDnsBase : string :=
  match LookupEnv "DNS_BASE" with
  | Some env => if decide (env = "") then "cluster.local" else env
  | None => "cluster.local"
  end.

Definition ClusterURL (cluster : OpenSearchCluster) : string :=
  let g := sp_General (cl_Spec cluster) in
  let httpPort := if decide (g_HttpPort g = 0) then 9200 else g_HttpPort g in
  let protocol := if IsHttpTlsEnabled cluster then "https" else "http" in
  let default_url :=
    protocol +:+ "://" +:+ g_ServiceName g +:+ "." +:+ cl_Namespace cluster +:+ ".svc." +:+
    ClusterDnsBase +:+ ":" +:+ Itoa httpPort in
  match g_OperatorClusterURL g with
  | Some u =>
      if decide (u = "") then default_url
      else protocol +:+ "://" +:+ u +:+ ":" +:+ Itoa httpPort
  | None => default_url
  end.

End Versions.

(** ** Nested settings *)

(** [FindByPath]: a missing intermediate key is skipped and the search goes on in the same
    object; an intermediate value that is not an object stops it.  Callers pass the constant,
    non-empty path. *)
Fixpoint FindByPath_in (mobj : list (string * json)) (keys : list string) : option json :=
  match keys with
  | [] => None
  | [k] => obj_lookup k mobj
  | k :: keys' =>
      match obj_lookup k mobj with
      | Some (JObj subPath) => FindByPath_in subPath keys'
      | Some _ => None
      | None => FindByPath_in mobj keys'
      end
  end.

Definition FindByPath (o : json) (keys : list string) : option json :=
  match o with JObj mobj => FindByPath_in mobj keys | _ => None end.

(** ** Pods of a node pool *)

(** [labels.NewRequirement(key, selection.Equals, []string{v})] validates the label value. *)
Class LabelLib := { NewRequirement : string -> string -> option err }.

Section Pods.
Context `{LL : LabelLib}.

Definition listPodsForNodePool (cr : OpenSearchCluster) (nodePool : NodePool)
    : io (result (list Pod)) :=
  match NewRequirement ClusterLabel (cl_Name cr) with
  | Some e => Ret (Err e)
  | None =>
      match NewRequirement NodePoolLabel (np_Component nodePool) with
      | Some e => Ret (Err e)
      | None =>
          ListPods (cl_Namespace cr)
            [(ClusterLabel, cl_Name cr); (NodePoolLabel, np_Component nodePool)]
      end
  end.

Definition podReady (pod : Pod) : bool :=
  existsb (λ c, (pc_Type c == "Ready") && (pc_Status c == "True")) (pod_Conditions pod).
Definition terminating (pod : Pod) : bool := bool_decide (is_Some (pod_DeletionTimestamp pod)).

Definition CountExistingPodsForNodePool (cr : OpenSearchCluster) (nodePool : NodePool)
    : io (result Z) :=
  let! r := listPodsForNodePool cr nodePool in
  match r with
  | Err e => Ret (Err e)
  | Ok pods => Ret (Ok (Z.of_nat (length (filter (λ p, terminating p = false) pods))))
  end.

Definition CountRunningPodsForNodePool (cr : OpenSearchCluster) (nodePool : NodePool)
    : io (result Z) :=
  let! r := listPodsForNodePool cr nodePool in
  match r with
  | Err e => Ret (Err e)
  | Ok pods =>
      Ret (Ok (Z.of_nat (length (filter (λ p, terminating p = false /\ podReady p = true) pods))))
  end.

Definition ReadyReplicasForNodePool (cr : OpenSearchCluster) (nodePool : NodePool)
    : io (result Z) :=
  let! r := CountRunningPodsForNodePool cr nodePool in
  match r with
  | Err e => Ret (Err e)
  | Ok numReadyPods => Ret (Ok (wrap32 numReadyPods))
  end.

Definition CountPVCsForNodePool (cr : OpenSearchCluster) (nodePool : NodePool)
    : io (result Z) :=
  match NewRequirement ClusterLabel (cl_Name cr) with
  | Some e => Ret (Err e)
  | None =>
      match NewRequirement NodePoolLabel (np_Component nodePool) with
      | Some e => Ret (Err e)
      | None =>
          let! r := ListPVCs (cl_Namespace cr)
                      [(ClusterLabel, cl_Name cr); (NodePoolLabel, np_Component nodePool)] in
          match r with
          | Err e => Ret (Err e)
          | Ok items => Ret (Ok (Z.of_nat (length items)))
          end
      end
  end.

(** The pod, of the lowest ordinal, whose revision is not the update revision. *)
Definition GetPodWithOlderRevision (sts : StatefulSet) : io (result (option Pod)) :=
  let! o := for_range (seqZ 0 (default 1 (sts_Replicas sts))) tt (fun i _ =>
    let podName := ReplicaHostName sts i in
    let! r := GetPod podName (sts_Namespace sts) in
    match r with
    | Err e => Ret (inr (Err e))
    | Ok pod =>
        match pod_Labels pod !! stsRevisionLabel with
        | None => Ret (inr (Err (OtherErr ("pod " +:+ podName +:+ " has no revision label"))))
        | Some podRevision =>
            if podRevision != sts_UpdateRevision sts
            then Ret (inr (Ok (Some pod)))
            else Ret (inl tt)
        end
    end) in
  match o with
  | inr r => Ret r
  | inl _ => Ret (Ok None)
  end.

Definition WorkingPodForRollingRestart (sts : StatefulSet) : io (result string) :=
  let! r := GetPodWithOlderRevision sts in
  match r with
  | Err e => Ret (Err e)
  | Ok (Some pod) => Ret (Ok (pod_Name pod))
  | Ok None =>
      Ret (Err (OtherErr "unable to calculate the working pod for rolling restart"))
  end.

(** A crash-looping container of the pod with the older revision gets the pod deleted. *)
Definition DeleteStuckPodWithOlderRevision (sts : StatefulSet) : io (option err) :=
  let! r := GetPodWithOlderRevision sts in
  match r with
  | Err e => Ret (Some e)
  | Ok None => Ret None
  | Ok (Some pod) =>
      if existsb (λ c, negb (ctr_Ready c) &&
            match ctr_WaitingReason c with
            | Some reason => reason == "CrashLoopBackOff"
            | None => false
            end) (pod_ContainerStatuses pod)
      then DeletePod (pod_Name pod) (sts_Namespace sts)
      else Ret None
  end.

End Pods.

(** ** Masters ([builders.AllMastersReady]) *)

Section Masters.
Context `{HV : HcVersion} `{LL : LabelLib}.

Definition AllMastersReady (cr : OpenSearchCluster) : io bool :=
  let! o := for_range (nodePools cr) tt (fun nodePool _ =>
    let masterRole := ResolveClusterManagerRole (specVersion cr) in
    if ContainsString (MapClusterRoles (np_Roles nodePool) (specVersion cr)) masterRole then
      let! r := ask (Get KStatefulSet (StsName cr nodePool) (cl_Namespace cr)) in
      match r with
      | Err _ => Ret (inr false)
      | Ok sts =>
          let! rr := ReadyReplicasForNodePool cr nodePool in
          match rr with
          | Err _ => Ret (inr false)
          | Ok readyReplicas =>
              if readyReplicas != default 1 (sts_Replicas sts)
              then Ret (inr false) else Ret (inl tt)
          end
      end
    else Ret (inl tt)) in
  match o with
  | inr b => Ret b
  | inl _ => Ret true
  end.

End Masters.

(** ** Credentials *)

Section Credentials.

Definition user_credentials_secret (cr : OpenSearchCluster) : option string :=
  match sp_Security (cl_Spec cr) with
  | Some s =>
      match sec_Config s with
      | Some c => if sc_AdminCredentialsSecret c != "" then Some (sc_AdminCredentialsSecret c)
                  else None
      | None => None
      end
  | None => None
  end.

(** The boolean tells whether the secret is managed by the operator. *)
Definition EnsureAdminCredentialsSecret (cr : OpenSearchCluster)
    : io (result Secret * bool) :=
  match user_credentials_secret cr with
  | Some name => let! r := GetSecret name (cl_Namespace cr) in Ret (r, false)
  | None =>
      let generatedName := GeneratedAdminCredentialsSecretName cr in
      let! r := GetSecret generatedName (cl_Namespace cr) in
      match r with
      | Ok secret => Ret (Ok secret, true)
      | Err e =>
          if negb (IsNotFound e) then Ret (Err e, true)
          else
            let! randomPassword := ask (Local_ RandText) in
            let adminSecret :=
              mkSecret generatedName (cl_Namespace cr) ∅ ∅
                {["username" := "admin"; "password" := randomPassword]} "" "" [] in
            let! (_, (_, ce)) := CreateSecret adminSecret in
            match ce with
            | Some e => Ret (Err e, true)
            | None =>
                let! r := GetSecret generatedName (cl_Namespace cr) in
                Ret (r, true)
            end
      end
  end.

Definition UsernameAndPassword (cr : OpenSearchCluster) : io (result (string * string)) :=
  let generated := GeneratedAdminCredentialsSecretName cr in
  let secretName := default generated (user_credentials_secret cr) in
  let! r := GetSecret secretName (cl_Namespace cr) in
  let! cred :=
    match r with
    | Ok s => Ret (Ok s)
    | Err e =>
        if IsNotFound e && (secretName == generated) then
          let! (r', _) := EnsureAdminCredentialsSecret cr in Ret r'
        else Ret (Err e)
    end in
  match cred with
  | Err e => Ret (Err e)
  | Ok credentialsSecret =>
      match secret_Data credentialsSecret !! "username",
            secret_Data credentialsSecret !! "password" with
      | Some username, Some password => Ret (Ok (username, password))
      | _, _ => Ret (Err (OtherErr "username or password field missing"))
      end
  end.

End Credentials.

(** ** Footprints *)

Lemma only_listPods `{LabelLib} cr np : only reads (listPodsForNodePool cr np).
Proof. unfold listPodsForNodePool. only_auto. Qed.
#[export] Hint Resolve only_listPods : only.

Lemma only_CountRunningPods `{LabelLib} cr np : only reads (CountRunningPodsForNodePool cr np).
Proof. unfold CountRunningPodsForNodePool. only_auto. Qed.
#[export] Hint Resolve only_CountRunningPods : only.

Lemma only_ReadyReplicas `{LabelLib} cr np : only reads (ReadyReplicasForNodePool cr np).
Proof. unfold ReadyReplicasForNodePool. only_auto. Qed.

Lemma only_GetPodWithOlderRevision sts : only reads (GetPodWithOlderRevision sts).
Proof. unfold GetPodWithOlderRevision. only_auto. Qed.
#[export] Hint Resolve only_ReadyReplicas only_GetPodWithOlderRevision : only.

Lemma only_WorkingPod sts : only reads (WorkingPodForRollingRestart sts).
Proof. unfold WorkingPodForRollingRestart. only_auto. Qed.

Lemma only_AllMastersReady `{HcVersion} `{LabelLib} cr : only reads (AllMastersReady cr).
Proof. unfold AllMastersReady. only_auto. Qed.

Lemma only_CheckVersionConstraint `{Semver} R cr c d : only R (CheckVersionConstraint cr c d).
Proof. unfold CheckVersionConstraint. only_auto. Qed.
#[export] Hint Resolve only_WorkingPod only_AllMastersReady only_CheckVersionConstraint : only.

Lemma only_EnsureAdmin cr : only reads_or_secret (EnsureAdminCredentialsSecret cr).
Proof. unfold EnsureAdminCredentialsSecret. only_auto. Qed.
#[export] Hint Resolve only_EnsureAdmin : only.

Lemma only_UsernameAndPassword cr : only reads_or_secret (UsernameAndPassword cr).
Proof. unfold UsernameAndPassword. only_auto. Qed.
#[export] Hint Resolve only_UsernameAndPassword : only.

(** ** Rules *)

(** The number of ready pods of the pool, as it was listed. *)
Definition ready_pods (h : ohist) (cr : OpenSearchCluster) (np : NodePool) (n : Z) : Prop :=
  exists pods,
    saw h (List_ KPod (cl_Namespace cr)
             [(ClusterLabel, cl_Name cr); (NodePoolLabel, np_Component np)]) (Ok pods) /\
    n = wrap32 (Z.of_nat (length (filter (λ p, terminating p = false /\ podReady p = true)
                                     pods))).

Lemma ready_pods_extends h h' cr np n :
  extends h h' -> ready_pods h cr np n -> ready_pods h' cr np n.
Proof. intros He (l & H1 & H2). exists l. split; [by eapply saw_extends|done]. Qed.

Lemma wp_ReadyReplicas `{LabelLib} cr np (P : ohist -> req -> Prop) Q h :
  (forall q, reads q -> P h q) ->
  (forall h' e, extends h h' -> Q h' (Returned (Err e))) ->
  (forall h' n, extends h h' -> ready_pods h' cr np n -> Q h' (Returned (Ok n))) ->
  wp (ReadyReplicasForNodePool cr np) P Q h.
Proof.
  intros HP He Hn. unfold ReadyReplicasForNodePool, CountRunningPodsForNodePool,
    listPodsForNodePool, ListPods. do 2 wp_step.
  destruct (NewRequirement ClusterLabel _); [repeat wp_step; by apply He|].
  destruct (NewRequirement NodePoolLabel _); [repeat wp_step; by apply He|].
  wp_step; [by apply HP|]. wp_step. destruct r as [pods|e]; repeat wp_step.
  - apply Hn; [auto with go|]. exists pods. split; [apply saw_here|done].
  - apply He. auto with go.
Qed.

(** The pod of the lowest ordinal whose revision is not the update revision. *)
Definition outdated_pod (h : ohist) (sts : StatefulSet) (pod : Pod) : Prop :=
  exists i rev, 0 <= i < default 1 (sts_Replicas sts) /\
    saw h (Get KPod (ReplicaHostName sts i) (sts_Namespace sts)) (Ok pod) /\
    pod_Labels pod !! stsRevisionLabel = Some rev /\ rev <> sts_UpdateRevision sts /\
    (forall j, 0 <= j < i -> exists p,
       saw h (Get KPod (ReplicaHostName sts j) (sts_Namespace sts)) (Ok p) /\
       pod_Labels p !! stsRevisionLabel = Some (sts_UpdateRevision sts)).

Lemma outdated_pod_extends h h' sts pod :
  extends h h' -> outdated_pod h sts pod -> outdated_pod h' sts pod.
Proof.
  intros He (i & rev & Hi & Hs & Hl & Hr & Hj). exists i, rev.
  split_and!; [lia|lia|by eapply saw_extends|done|done|].
  intros j Hlt. destruct (Hj j Hlt) as (p & Hp & Hpl). exists p.
  split; [by eapply saw_extends|done].
Qed.

(** Every replica was seen at the update revision. *)
Definition all_updated (h : ohist) (sts : StatefulSet) : Prop :=
  forall j, 0 <= j < default 1 (sts_Replicas sts) -> exists p,
    saw h (Get KPod (ReplicaHostName sts j) (sts_Namespace sts)) (Ok p) /\
    pod_Labels p !! stsRevisionLabel = Some (sts_UpdateRevision sts).

Lemma seqZ_split m (i : Z) seen rest :
  seqZ 0 m = seen ++ i :: rest -> i = Z.of_nat (length seen) /\ 0 <= i < m.
Proof.
  intros Hs. assert (seqZ 0 m !! length seen = Some i) as Hl.
  { rewrite Hs, lookup_app_r, Nat.sub_diag by lia. done. }
  apply lookup_seqZ in Hl. lia.
Qed.

Lemma wp_GetPodWithOlderRevision sts (P : ohist -> req -> Prop) Q h :
  (forall h' q, extends h h' -> reads q -> P h' q) ->
  (forall h' e, extends h h' -> Q h' (Returned (Err e))) ->
  (forall h', extends h h' -> all_updated h' sts -> Q h' (Returned (Ok None))) ->
  (forall h' pod, extends h h' -> outdated_pod h' sts pod -> Q h' (Returned (Ok (Some pod)))) ->
  wp (GetPodWithOlderRevision sts) P Q h.
Proof.
  intros HP He Hn Hs. unfold GetPodWithOlderRevision. wp_step.
  apply (wp_for_range (λ rest _ h', extends h h' /\ exists seen,
    seqZ 0 (default 1 (sts_Replicas sts)) = seen ++ rest /\
    forall j, 0 <= j < Z.of_nat (length seen) -> exists p,
      saw h' (Get KPod (ReplicaHostName sts j) (sts_Namespace sts)) (Ok p) /\
      pod_Labels p !! stsRevisionLabel = Some (sts_UpdateRevision sts))).
  - split; [reflexivity|]. exists []. split; [done|]. simpl. lia.
  - intros i rest [] h1 (H1 & seen & Hseq & Hj). destruct (seqZ_split _ _ _ _ Hseq) as [Hi Hr].
    unfold GetPod. wp_step; [by apply HP|]. destruct r as [pod|e];
      [|repeat wp_step; apply He; auto with go].
    destruct (pod_Labels pod !! stsRevisionLabel) as [rev|] eqn:El;
      [|repeat wp_step; apply He; auto with go].
    case_bool_decide as Hrev; cbn [negb]; repeat wp_step.
    + split; [auto with go|]. exists (seen ++ [i]). split; [by rewrite <- app_assoc|].
      intros j Hlt. rewrite length_app in Hlt. simpl in Hlt.
      destruct (decide (j = i)) as [->|Hne]; [exists pod; split; [apply saw_here|congruence]|].
      destruct (Hj j) as (p & Hp & Hpl); [lia|]. exists p. split; [by apply saw_there|done].
    + apply Hs; [auto with go|]. exists i, rev. split_and!; [lia|lia|apply saw_here|done|done|].
      intros j Hlt. destruct (Hj j) as (p & Hp & Hpl); [lia|]. exists p.
      split; [by apply saw_there|done].
  - intros [] h1 (H1 & seen & Hseq & Hj). wp_step. wp_step. apply Hn; [done|].
    intros j Hlt. apply Hj. rewrite app_nil_r in Hseq.
    rewrite <- Hseq, length_seqZ. lia.
Qed.

Lemma wp_WorkingPod sts (P : ohist -> req -> Prop) Q h :
  (forall h' q, extends h h' -> reads q -> P h' q) ->
  (forall h' e, extends h h' -> Q h' (Returned (Err e))) ->
  (forall h' pod, extends h h' -> outdated_pod h' sts pod -> Q h' (Returned (Ok (pod_Name pod)))) ->
  wp (WorkingPodForRollingRestart sts) P Q h.
Proof.
  intros HP He Hs. unfold WorkingPodForRollingRestart. wp_step.
  apply wp_GetPodWithOlderRevision; [done| | |]; intros; repeat wp_step; auto.
Qed.

(** A cluster-manager pool was seen with all its replicas ready. *)
Definition manager_ready `{HcVersion} (h : ohist) (cr : OpenSearchCluster) (np : NodePool) : Prop :=
  ContainsString (MapClusterRoles (np_Roles np) (specVersion cr))
    (ResolveClusterManagerRole (specVersion cr)) = true ->
  exists sts k, saw h (Get KStatefulSet (StsName cr np) (cl_Namespace cr)) (Ok sts) /\
    ready_pods h cr np k /\ k = default 1 (sts_Replicas sts).

Lemma wp_AllMastersReady `{HcVersion} `{LabelLib} cr (P : ohist -> req -> Prop) Q h :
  (forall h' q, extends h h' -> reads q -> P h' q) ->
  (forall h', extends h h' -> Q h' (Returned false)) ->
  (forall h', extends h h' -> Forall (manager_ready h' cr) (nodePools cr) ->
     Q h' (Returned true)) ->
  wp (AllMastersReady cr) P Q h.
Proof.
  intros HP Hf Ht. unfold AllMastersReady. wp_step.
  assert (Hext : forall h1 h2 l, extends h1 h2 -> Forall (manager_ready h1 cr) l ->
    Forall (manager_ready h2 cr) l).
  { intros h1 h2 l He Hl. eapply Forall_impl; [exact Hl|]. intros np Hm Hr.
    destruct (Hm Hr) as (sts & k & H1 & H2 & H3). exists sts, k.
    split_and!; [by eapply saw_extends|by eapply ready_pods_extends|done]. }
  apply (wp_for_range (λ rest _ h', extends h h' /\ exists seen,
           nodePools cr = seen ++ rest /\ Forall (manager_ready h' cr) seen)).
  - split; [reflexivity|]. by exists [].
  - intros np rest [] h1 (H1 & seen & Hsp & Hs).
    assert (Hnext : forall h2, extends h1 h2 -> manager_ready h2 cr np ->
      extends h h2 /\ exists seen, nodePools cr = seen ++ rest /\
        Forall (manager_ready h2 cr) seen).
    { intros h2 H2 Hm. split; [by etransitivity|]. exists (seen ++ [np]).
      rewrite <- app_assoc. split; [done|]. apply Forall_app. split; [by eapply Hext|].
      by constructor. }
    cbv zeta. destruct (ContainsString _ _) eqn:Ec.
    + wp_step; [by apply HP|]. destruct r as [sts|e]; [|repeat wp_step; apply Hf; auto with go].
      set (h2 := _ :: h1). assert (extends h1 h2) by (subst h2; auto with go).
      wp_step. apply wp_ReadyReplicas.
      { intros. apply HP; [by etransitivity|done]. }
      { intros h3 e H3. repeat wp_step. apply Hf. by do 2 (etransitivity; [|eassumption]). }
      intros h3 k H3 Hk. wp_step. case_bool_decide as Heq; cbn [negb].
      * wp_step. apply Hnext; [by etransitivity|]. intros _. exists sts, k.
        split_and!; [|done|done]. eapply saw_extends; [exact H3|apply saw_here].
      * repeat wp_step. apply Hf. by do 2 (etransitivity; [|eassumption]).
    + wp_step. apply Hnext; [reflexivity|]. intros Hc. congruence.
  - intros [] h1 (H1 & seen & Hsp & Hs). rewrite app_nil_r in Hsp. wp_step. wp_step.
    apply Ht; [done|]. by rewrite Hsp.
Qed.
