(* ===== verification/OsClient.v ===== *)
(** * OsClient: the OpenSearch HTTP client

    Models [opensearch-gateway/services/os_client.go]: one definition per method, each an HTTP
    exchange followed by the checks the method makes on the answer.  Some methods test
    [IsError] before decoding, some do not: the model keeps the difference. *)

From S2P Require Import Prelude Prog Resources Api K8sClient.

Definition AdditionalSystemIndices : list string :=
  [".opendistro-alerting-config"; ".opendistro-alerting-alert*";
   ".opendistro-anomaly-results*"; ".opendistro-anomaly-detector*";
   ".opendistro-anomaly-checkpoints"; ".opendistro-anomaly-detection-state";
   ".opendistro-reports-*"; ".opendistro-notifications-*"; ".opendistro-notebooks";
   ".opensearch-observability"; ".opendistro-asynchronous-search-response*";
   ".replication-metadata-store"].

(** [fmt.Errorf("... %w: %s", ErrX, resp)]. *)
Definition ErrClusterAllocationExplainGetFailed (resp : string) : err :=
  OtherErr ("get error cluster allocation explain failed: " +:+ resp).
Definition ErrClusterHealthGetFailed (resp : string) : err :=
  OtherErr ("get error cluster health failed: " +:+ resp).
Definition ErrClusterSettingsGetFailed (resp : string) : err :=
  OtherErr ("get error cluster settings failed: " +:+ resp).
Definition ErrClusterSettingsPutFailed (resp : string) : err :=
  OtherErr ("put error cluster settings failed: " +:+ resp).
Definition ErrCatIndicesFailed (resp : string) : err :=
  OtherErr ("cat indices failed: " +:+ resp).

(** Exchanges whose answer is decoded whatever its status. *)
Definition os_decode (client : OsClusterClient) (op : os_op) : io (result (os_ty op)) :=
  let! r := ask (OsDo client op) in
  match r with
  | Err e => Ret (Err e)
  | Ok res => Ret (hr_Body res)
  end.

Definition MainPage (client : OsClusterClient) : io (result unit) := os_decode client OpInfo.

(** Build the client, ping the cluster, and read its main page when the ping succeeds (a failure of
    that last step is ignored; nothing reads the page). *)
Definition NewOsClusterClientFromConfig (url username password : string) (tls : option ClientTLS)
    : io (result OsClusterClient) :=
  let! r := ask (OsNewClient url username password tls) in
  match r with
  | Err e => Ret (Err e)
  | Ok _ =>
      let client := mkOsClient url username password tls in
      let! ping := ask (OsDo client OpPing) in
      match ping with
      | Err e => Ret (Err e)
      | Ok pingRes =>
          if hr_StatusCode pingRes == 200
          then do! MainPage client in Ret (Ok client)
          else Ret (Ok client)
      end
  end.

(** The address, the credentials and the TLS configuration are the configuration of the library's
    client; a transport of the caller's own is used in tests only. *)
Definition NewOsClusterClient (url username password : string) (tls : option ClientTLS)
    : io (result OsClusterClient) :=
  let! r := NewOsClusterClientFromConfig url username password tls in
  match r with
  | Err e => Ret (Err e)
  | Ok client => Ret (Ok client)
  end.

(** Exchanges that report an error status before decoding. *)
Definition os_checked (client : OsClusterClient) (op : os_op) (failed : string -> err)
    : io (result (os_ty op)) :=
  let! r := ask (OsDo client op) in
  match r with
  | Err e => Ret (Err e)
  | Ok res => if hr_IsError res then Ret (Err (failed (hr_String res))) else Ret (hr_Body res)
  end.

Definition GetHealth (client : OsClusterClient) : io (result ClusterHealthResponse) :=
  os_decode client OpHealth.
Definition client_GetClusterHealth (client : OsClusterClient) : io (result ClusterHealthResponse) :=
  os_checked client OpClusterHealth ErrClusterHealthGetFailed.
Definition CatIndices (client : OsClusterClient) : io (result (list CatIndicesResponse)) :=
  os_decode client (OpCatIndices []).
Definition CatShards (client : OsClusterClient) (headers : list string)
    : io (result (list CatShardsResponse)) := os_decode client (OpCatShards [] headers).
Definition CatNamedIndicesShards (client : OsClusterClient) (headers indices : list string)
    : io (result (list CatShardsResponse)) := os_decode client (OpCatShards indices headers).
Definition GetAllocationExplain (client : OsClusterClient) (index : string) (shard : Z)
    (primary : bool) : io (result AllocationExplainResponse) :=
  os_checked client (OpAllocationExplain index shard primary)
    ErrClusterAllocationExplainGetFailed.
Definition GetClusterSettings (client : OsClusterClient)
    : io (result ClusterSettingsResponse) :=
  os_checked client OpGetSettings ErrClusterSettingsGetFailed.
Definition GetFlatClusterSettings (client : OsClusterClient)
    : io (result FlatClusterSettingsResponse) :=
  os_checked client OpGetFlatSettings ErrClusterSettingsGetFailed.
Definition PutClusterSettings (client : OsClusterClient) (settings : ClusterSettingsResponse)
    : io (result ClusterSettingsResponse) :=
  os_checked client (OpPutSettings settings) ErrClusterSettingsPutFailed.

Definition IndexExists (client : OsClusterClient) (indexName : string) : io (result bool) :=
  let! r := ask (OsDo client (OpCatIndices [indexName])) in
  match r with
  | Err e => Ret (Err e)
  | Ok res =>
      if hr_StatusCode res == 404 then Ret (Ok false)
      else if hr_IsError res then Ret (Err (ErrCatIndicesFailed (hr_String res)))
      else Ret (Ok true)
  end.

(** ** Rules: an exchange leaves exactly one event in the history. *)

(** The value [r] is what the (unchecked) exchange [op] yields when answered [a]. *)
Definition decoded {A} (a : result (HttpResp A)) : result A :=
  match a with Err e => Err e | Ok res => hr_Body res end.
Definition checked {A} (failed : string -> err) (a : result (HttpResp A)) : result A :=
  match a with
  | Err e => Err e
  | Ok res => if hr_IsError res then Err (failed (hr_String res)) else hr_Body res
  end.

Lemma wp_os_decode client op (P : ohist -> req -> Prop) Q h :
  P h (OsDo client op) ->
  (forall a, Q (Ev (OsDo client op) a :: h) (Returned (decoded a))) ->
  wp (os_decode client op) P Q h.
Proof.
  intros HP HQ. unfold os_decode. wp_step; [done|]. specialize (HQ r).
  destruct r; by wp_step.
Qed.

Lemma wp_os_checked client op failed (P : ohist -> req -> Prop) Q h :
  P h (OsDo client op) ->
  (forall a, Q (Ev (OsDo client op) a :: h) (Returned (checked failed a))) ->
  wp (os_checked client op failed) P Q h.
Proof.
  intros HP HQ. unfold os_checked. wp_step; [done|]. specialize (HQ r).
  destruct r as [res|]; simpl in *; [destruct (hr_IsError res)|]; by wp_step.
Qed.

Lemma only_os_decode client op : os_reads op -> only reads (os_decode client op).
Proof.
  intros H. unfold os_decode. apply only_bind; [by apply only_call|]. only_auto.
Qed.
Lemma only_os_checked client op f : os_reads op -> only reads (os_checked client op f).
Proof.
  intros H. unfold os_checked. apply only_bind; [by apply only_call|]. only_auto.
Qed.
Lemma only_os_checked_quiet client op f : only quiet (os_checked client op f).
Proof. unfold os_checked. only_auto. Qed.

#[export] Hint Extern 2 (only reads (GetHealth _)) => by apply only_os_decode : only.
#[export] Hint Extern 2 (only reads (CatIndices _)) => by apply only_os_decode : only.
#[export] Hint Extern 2 (only reads (CatShards _ _)) => by apply only_os_decode : only.
#[export] Hint Extern 2 (only reads (CatNamedIndicesShards _ _ _)) =>
  by apply only_os_decode : only.
#[export] Hint Extern 2 (only reads (GetAllocationExplain _ _ _ _)) =>
  by apply only_os_checked : only.
#[export] Hint Extern 2 (only reads (GetClusterSettings _)) => by apply only_os_checked : only.
#[export] Hint Extern 2 (only reads (GetFlatClusterSettings _)) =>
  by apply only_os_checked : only.
#[export] Hint Extern 2 (only quiet (PutClusterSettings _ _)) =>
  apply only_os_checked_quiet : only.

Lemma only_IndexExists client i : only reads (IndexExists client i).
Proof. unfold IndexExists. only_auto. Qed.
Lemma only_NewOsClusterClient u n p t : only reads (NewOsClusterClient u n p t).
Proof. unfold NewOsClusterClient, NewOsClusterClientFromConfig, MainPage, os_decode. only_auto. Qed.
#[export] Hint Resolve only_IndexExists only_NewOsClusterClient : only.
