(* ===== verification/OsData.v ===== *)
(** * OsData: allocation settings, drain checks and restart checks

    Models [opensearch-gateway/services/os_data_service.go] (cluster settings, shard
    allocation, the checks before a pod is deleted, stuck-shard detection, removal of
    unsupported settings). *)

From S2P Require Import Prelude Prog Resources Api K8sClient Helpers OsClient.

Definition ClusterSettingsExcludeBrokenPath : list string :=
  ["cluster"; "routing"; "allocation"; "exclude"; "_name"].

Definition AllocationPrimaries : string := "primaries".
Definition AllocationAll : string := "all".
Definition AllocationNone : string := "none".

(** ** Shards on a node *)

Definition HasIndicesWithNoReplica (service : OsClusterClient) : io (bool * option err) :=
  let! response := CatIndices service in
  match response with
  | Err e => Ret (false, Some e)
  | Ok l => Ret (existsb (λ index, (ci_Rep index == "") || (ci_Rep index == "0")) l, None)
  end.

(** The source node of a [_cat/shards] node column such as
    ["data-1 -> 10.0.0.1 4kGSH data-8"]. *)
Definition extractNodeName (fullNodeName : string) : string :=
  if decide (fullNodeName = "") then ""
  else
    let trimmed := TrimSpace fullNodeName in
    match Fields trimmed with
    | f :: _ => f
    | [] => trimmed
    end.

Definition hasShardsOnNodeFromResponse (response : list CatShardsResponse) (nodeName : string)
    : bool :=
  existsb (λ shardsData, extractNodeName (sh_NodeName shardsData) == nodeName) response.

Definition HasShardsOnNode (service : OsClusterClient) (nodeName : string)
    : io (bool * option err) :=
  let! response := CatShards service [] in
  match response with
  | Err e => Ret (false, Some e)
  | Ok l => Ret (hasShardsOnNodeFromResponse l nodeName, None)
  end.

Definition HasIndexPrimariesOnNode (service : OsClusterClient) (nodeName : string)
    (indices : list string) : io (bool * option err) :=
  let! response := CatNamedIndicesShards service [] indices in
  match response with
  | Err e => Ret (false, Some e)
  | Ok l =>
      Ret (existsb (λ s,
             ((sh_PrimaryOrReplica s == "p") && (sh_State s != "STARTED")) ||
             ((extractNodeName (sh_NodeName s) == nodeName) && (sh_PrimaryOrReplica s == "p"))) l,
           None)
  end.

(** ** The allocation exclude list *)

Definition createClusterSettingsResponseWithExcludeName (exclude : string)
    : ClusterSettingsResponse :=
  let val := if exclude != "" then JStr exclude else JNull in
  mkSettings []
    [("cluster", JObj [("routing", JObj [("allocation", JObj [("exclude",
       JObj [("_name", val)])])])])].

Definition createClusterSettingsAllocationEnable (enable : string) : ClusterSettingsResponse :=
  mkSettings []
    [("cluster", JObj [("routing", JObj [("allocation", JObj [("enable", JStr enable)])])])].

(** The value of [cluster.routing.allocation.exclude._name] among the transient settings. *)
Definition exclude_setting (response : ClusterSettingsResponse) : option json :=
  FindByPath (JObj (cset_Transient response)) ClusterSettingsExcludeBrokenPath.

(** The new value of the setting when a node is added to the current one. *)
Definition excludeAppended (val node : string) : string :=
  let valArr := Split val "," in
  Join (if existsb (λ name, name == node) valArr then valArr else valArr ++ [node]) ",".

(** The node names of a value of the setting, and the value without one of them. *)
Definition excludedNames (val : string) : list string :=
  filter (λ n, n <> "") (TrimSpace <$> Split val ",").
Definition excludeRemoved (val node : string) : string :=
  Join (filter (λ n, n <> "" /\ n <> node) (TrimSpace <$> Split val ",")) ",".

Definition typeAssertPanic {A} : io A :=
  Panic "interface conversion: interface {} is not string".

Definition AppendExcludeNodeHost (service : OsClusterClient) (nodeNameToExclude : string)
    : io (bool * option err) :=
  let! r := GetClusterSettings service in
  match r with
  | Err e => Ret (false, Some e)
  | Ok response =>
      let! valAsString :=
        match exclude_setting response with
        | None => Ret nodeNameToExclude
        | Some (JStr s) =>
            if s != "" then Ret (excludeAppended s nodeNameToExclude) else Ret nodeNameToExclude
        | Some _ => typeAssertPanic
        end in
      let settings := createClusterSettingsResponseWithExcludeName valAsString in
      let! p := PutClusterSettings service settings in
      match p with
      | Err e => Ret (false, Some e)
      | Ok _ => Ret (true, None)
      end
  end.

Definition GetExcludedNodeNames (service : OsClusterClient) : io (result (list string)) :=
  let! r := GetClusterSettings service in
  match r with
  | Err e => Ret (Err e)
  | Ok response =>
      match exclude_setting response with
      | None => Ret (Ok [])
      | Some (JStr s) => if s == "" then Ret (Ok []) else Ret (Ok (excludedNames s))
      | Some _ => typeAssertPanic
      end
  end.

Definition RemoveExcludeNodeHost (service : OsClusterClient) (nodeNameToExclude : string)
    : io (bool * option err) :=
  let! r := GetClusterSettings service in
  match r with
  | Err e => Ret (false, Some e)
  | Ok response =>
      match exclude_setting response with
      | None => Ret (true, None)
      | Some (JStr s) =>
          if s == "" then Ret (true, None)
          else
            let settings :=
              createClusterSettingsResponseWithExcludeName
                (excludeRemoved s nodeNameToExclude) in
            let! p := PutClusterSettings service settings in
            match p with
            | Err e => Ret (false, Some e)
            | Ok _ => Ret (true, None)
            end
      | Some _ => typeAssertPanic
      end
  end.

Definition SetClusterShardAllocation (service : OsClusterClient) (enableType : string)
    : io (option err) :=
  let! p := PutClusterSettings service (createClusterSettingsAllocationEnable enableType) in
  Ret (err_of p).

(** ** Stuck shards *)

Definition explain_stuck (explain : AllocationExplainResponse) : bool :=
  let isUnassignedAndCannotAllocate :=
    (ex_CurrentState explain == "unassigned") && (ex_CanAllocate explain == "no") in
  let isAssignedOrStarted :=
    (ex_CurrentState explain == "assigned") || (ex_CurrentState explain == "started") in
  let isAssignedButCannotMove :=
    isAssignedOrStarted && (ex_CanRemainOnCurrentNode explain == "no") &&
    (ex_CanMoveToOtherNode explain == "no") in
  isUnassignedAndCannotAllocate || isAssignedButCannotMove.

Definition explain_version_mismatch (explain : AllocationExplainResponse) : bool :=
  existsb (λ nd, (nd_Decision nd == "no") &&
      existsb (λ d, (ad_Decision d == "NO") && (ad_Decider d == "node_version"))
        (nd_Deciders nd))
    (ex_NodeAllocationDecisions explain).

(** The text of the number scanner's own error is left out of the message. *)
Definition DetectShardStuckVersionMismatch (service : OsClusterClient)
    (shard : CatShardsResponse) : io (result bool) :=
  match (if sh_Shard shard != "" then Sscanf_d (sh_Shard shard) else Some 0) with
  | None =>
      Ret (Err (OtherErr ("could not parse shard number for " +:+ sh_Index shard +:+ "[" +:+
                          sh_Shard shard +:+ "]")))
  | Some shardNum =>
      let! r := GetAllocationExplain service (sh_Index shard) shardNum
                  (sh_PrimaryOrReplica shard == "p") in
      match r with
      | Err e =>
          Ret (Err (OtherErr ("could not get allocation explain for " +:+ sh_Index shard +:+
                              "[" +:+ Itoa shardNum +:+ "]: " +:+ Error e)))
      | Ok explain =>
          if negb (explain_stuck explain) then Ret (Ok false)
          else Ret (Ok (explain_version_mismatch explain))
      end
  end.

(** The two loops of [CheckClusterRestartOnYellow]: over the shards of an index that is
    yellow, and over the indices. *)
Definition countStuckReplica (service : OsClusterClient) (shard : CatShardsResponse)
    (stuckReplicasCount : Z) : io (Z + result bool) :=
  if (sh_State shard == "UNASSIGNED") && (sh_PrimaryOrReplica shard == "r") then
    let! r := DetectShardStuckVersionMismatch service shard in
    match r with
    | Err e => Ret (inr (Err e))
    | Ok isStuck =>
        Ret (inl (if (isStuck : bool) then stuckReplicasCount + 1 else stuckReplicasCount))
    end
  else Ret (inl stuckReplicasCount).

Definition countIndexStuckReplicas (service : OsClusterClient) (entry : string * string)
    (stuckReplicasCount : Z) : io (Z + result bool) :=
  let '(index, indexStatus) := entry in
  if indexStatus == "yellow" then
    let! r := CatNamedIndicesShards service [] [index] in
    match r with
    | Err e => Ret (inr (Err e))
    | Ok shards => for_range shards stuckReplicasCount (countStuckReplica service)
    end
  else Ret (inl stuckReplicasCount).

Definition CheckClusterRestartOnYellow (service : OsClusterClient)
    (health : ClusterHealthResponse) : io (result bool) :=
  if ch_Status health != "yellow" then Ret (Ok false)
  else if bool_decide (ch_RelocatingShards health > 0) ||
          bool_decide (ch_InitializingShards health > 0)
  then Ret (Ok false)
  else
    let! o := for_range (ch_Indices health) 0 (countIndexStuckReplicas service) in
    match o with
    | inr r => Ret r
    | inl stuckReplicasCount => Ret (Ok (ch_UnassignedShards health == stuckReplicasCount))
    end.

(** One turn of the loop of [CheckPodSafeToDelete]: counts the shards whose node column is
    exactly [nodeName], and those of them that are replicas stuck by a version mismatch. *)
Definition countNodeShard (service : OsClusterClient) (nodeName : string)
    (shard : CatShardsResponse) (counts : Z * Z) : io (Z * Z + result bool) :=
  let '(nodeShardsCount, nodeStuckReplicasCount) := counts in
  if sh_NodeName shard == nodeName then
    let nodeShardsCount := nodeShardsCount + 1 in
    if sh_PrimaryOrReplica shard == "r" then
      let! r := DetectShardStuckVersionMismatch service shard in
      match r with
      | Err e => Ret (inr (Err e))
      | Ok isStuck =>
          Ret (inl (nodeShardsCount,
                    if (isStuck : bool) then nodeStuckReplicasCount + 1
                    else nodeStuckReplicasCount))
      end
    else Ret (inl (nodeShardsCount, nodeStuckReplicasCount))
  else Ret (inl (nodeShardsCount, nodeStuckReplicasCount)).

Definition CheckPodSafeToDelete (service : OsClusterClient) (nodeName : string)
    : io (result bool) :=
  let! r := CatShards service [] in
  match r with
  | Err e => Ret (Err e)
  | Ok shards =>
      let! o := for_range shards (0, 0) (countNodeShard service nodeName) in
      match o with
      | inr r => Ret r
      | inl (nodeShardsCount, nodeStuckReplicasCount) =>
          Ret (Ok (nodeStuckReplicasCount == nodeShardsCount))
      end
  end.

(** ** Before a pod is restarted *)

(** The part of [CheckClusterStatusForRestart] after the health has been found insufficient:
    without draining, shard allocation is switched back on so that the cluster recovers. *)
Definition waitForGreen (service : OsClusterClient) (drainNodes : bool)
    : io (bool * string * option err) :=
  if drainNodes then
    Ret (false, "cluster is not green and drain nodes is enabled", None)
  else
    let! fs := GetFlatClusterSettings service in
    match fs with
    | Err e => Ret (false, "could not fetch cluster settings", Some e)
    | Ok flatSettings =>
        if fl_AllocationEnable flatSettings == AllocationAll then
          Ret (false, "waiting for health to be green", None)
        else
          let! e := SetClusterShardAllocation service AllocationAll in
          match e with
          | Some e => Ret (false, "failed to set shard allocation", Some e)
          | None => Ret (false, "enabled shard allocation", None)
          end
    end.

Definition CheckClusterStatusForRestart (service : OsClusterClient) (drainNodes : bool)
    : io (bool * string * option err) :=
  let! r := GetHealth service in
  match r with
  | Err e => Ret (false, "failed to fetch health", Some e)
  | Ok health =>
      if ch_Status health == "green" then Ret (true, "", None)
      else
        let! yellow :=
          if ch_Status health == "yellow" then CheckClusterRestartOnYellow service health
          else Ret (Ok false) in
        match yellow with
        | Err e => Ret (false, "", Some e)
        | Ok true => Ret (true, "", None)
        | Ok false => waitForGreen service drainNodes
        end
  end.

Definition ReactivateShardAllocation (service : OsClusterClient) : io (option err) :=
  let! fs := GetFlatClusterSettings service in
  match fs with
  | Err e => Ret (Some e)
  | Ok flatSettings =>
      if fl_AllocationEnable flatSettings == AllocationAll then Ret None
      else SetClusterShardAllocation service AllocationAll
  end.

Definition systemIndices : list string :=
  [".kibana_1"; ".opendistro_security"] ++ AdditionalSystemIndices.

Definition GetExistingSystemIndices (service : OsClusterClient) : io (result (list string)) :=
  let! o := for_range systemIndices [] (fun systemIndex existing =>
    let! r := IndexExists service systemIndex in
    match r with
    | Err e => Ret (inr e)
    | Ok exists_ => Ret (inl (if (exists_ : bool) then existing ++ [systemIndex] else existing))
    end) in
  match o with
  | inr e => Ret (Err e)
  | inl existing => Ret (Ok existing)
  end.

Definition PreparePodForDelete (service : OsClusterClient) (podName : string)
    (drainNode : bool) (nodeCount : Z) : io (bool * option err) :=
  if drainNode then
    let! (_, e) := AppendExcludeNodeHost service podName in
    match e with
    | Some e => Ret (false, Some e)
    | None =>
        if nodeCount == 2 then
          let! r := GetExistingSystemIndices service in
          match r with
          | Err e => Ret (false, Some e)
          | Ok indices =>
              let! (systemPrimaries, e) := HasIndexPrimariesOnNode service podName indices in
              match e with
              | Some e => Ret (false, Some e)
              | None => Ret (negb systemPrimaries, None)
              end
          end
        else
          let! r := CheckPodSafeToDelete service podName in
          match r with
          | Err e => Ret (false, Some e)
          | Ok safeToDelete => Ret (safeToDelete, None)
          end
    end
  else
    let! e := SetClusterShardAllocation service AllocationPrimaries in
    match e with
    | Some e => Ret (false, Some e)
    | None => Ret (true, None)
    end.

(** ** Settings removed by newer versions *)

Section Unsupported.
Context `{SV : Semver}.

Definition removedSettings_3_0_0 : list string :=
  ["archived.opendistro.index_state_management.metadata_service.enabled";
   "archived.opendistro.index_state_management.metadata_migration.status";
   "archived.opendistro.index_state_management.template_migration.control";
   "archived.plugins.index_state_management.metadata_service.enabled";
   "archived.plugins.index_state_management.metadata_migration.status";
   "archived.plugins.index_state_management.template_migration.control"].

(** The map of removed settings has a single entry, for version 3.0.0. *)
Definition DetermineUnsupportedClusterSettings (newVersion : string)
    : result ClusterSettingsResponse :=
  match NewVersion newVersion with
  | Err e => Err e
  | Ok new =>
      match NewConstraint ">= 3.0.0" with
      | Err e => Err e
      | Ok newerThanMin =>
          if ConstraintCheck newerThanMin new
          then let nulls := (λ settingName, (settingName, JNull)) <$> removedSettings_3_0_0 in
               Ok (mkSettings nulls nulls)
          else Ok (mkSettings [] [])
      end
  end.

Definition DeleteUnsupportedClusterSettings (service : OsClusterClient) (newVersion : string)
    : io (option err) :=
  match DetermineUnsupportedClusterSettings newVersion with
  | Err e => Ret (Some e)
  | Ok settingsToDelete =>
      match cset_Persistent settingsToDelete, cset_Transient settingsToDelete with
      | [], [] => Ret None
      | _, _ =>
          let! r := PutClusterSettings service settingsToDelete in
          Ret (err_of r)
      end
  end.

End Unsupported.

(** ** Footprints *)

Lemma only_HasShardsOnNode s n : only reads (HasShardsOnNode s n).
Proof. unfold HasShardsOnNode. only_auto. Qed.
Lemma only_HasIndexPrimaries s n i : only reads (HasIndexPrimariesOnNode s n i).
Proof. unfold HasIndexPrimariesOnNode. only_auto. Qed.
Lemma only_GetExcludedNodeNames s : only reads (GetExcludedNodeNames s).
Proof. unfold GetExcludedNodeNames, typeAssertPanic. only_auto. Qed.
Lemma only_DetectShardStuck s sh : only reads (DetectShardStuckVersionMismatch s sh).
Proof. unfold DetectShardStuckVersionMismatch. only_auto. Qed.
#[export] Hint Resolve only_HasShardsOnNode only_HasIndexPrimaries only_GetExcludedNodeNames
  only_DetectShardStuck : only.

Lemma only_CheckYellow s hl : only reads (CheckClusterRestartOnYellow s hl).
Proof.
  unfold CheckClusterRestartOnYellow, countIndexStuckReplicas, countStuckReplica. only_auto.
Qed.
Lemma only_CheckPodSafeToDelete s n : only reads (CheckPodSafeToDelete s n).
Proof. unfold CheckPodSafeToDelete, countNodeShard. only_auto. Qed.
Lemma only_GetExistingSystemIndices s : only reads (GetExistingSystemIndices s).
Proof. unfold GetExistingSystemIndices. only_auto. Qed.
#[export] Hint Resolve only_CheckYellow only_CheckPodSafeToDelete
  only_GetExistingSystemIndices : only.

Lemma only_AppendExclude s n : only quiet (AppendExcludeNodeHost s n).
Proof. unfold AppendExcludeNodeHost, typeAssertPanic. only_auto. Qed.
Lemma only_RemoveExclude s n : only quiet (RemoveExcludeNodeHost s n).
Proof. unfold RemoveExcludeNodeHost, typeAssertPanic. only_auto. Qed.
Lemma only_SetAllocation s e : only quiet (SetClusterShardAllocation s e).
Proof. unfold SetClusterShardAllocation. only_auto. Qed.
#[export] Hint Resolve only_AppendExclude only_RemoveExclude only_SetAllocation : only.

Lemma only_CheckStatus s d : only quiet (CheckClusterStatusForRestart s d).
Proof. unfold CheckClusterStatusForRestart, waitForGreen. only_auto. Qed.
Lemma only_Reactivate s : only quiet (ReactivateShardAllocation s).
Proof. unfold ReactivateShardAllocation. only_auto. Qed.
Lemma only_Prepare s p d n : only quiet (PreparePodForDelete s p d n).
Proof. unfold PreparePodForDelete. only_auto. Qed.
Lemma only_DeleteUnsupported `{Semver} s v :
  only quiet (DeleteUnsupportedClusterSettings s v).
Proof. unfold DeleteUnsupportedClusterSettings. only_auto. Qed.
#[export] Hint Resolve only_CheckStatus only_Reactivate only_Prepare only_DeleteUnsupported
  : only.

(** ** The exclude list as a set of names *)

(** A node name as Kubernetes gives it: not empty, no comma, no white space. *)
Definition node_name (n : string) : Prop :=
  n <> "" /\ no_char "," n = true /\ no_space n = true.

Lemma trim_left_head c s :
  trim_left (String c s) = String c s \/ is_space c = true.
Proof. simpl. destruct (is_space c); auto. Qed.

Lemma trim_left_fix s : trim_left s = "" \/ exists c t, trim_left s = String c t /\ is_space c = false.
Proof.
  induction s as [|c s IH]; simpl; [by left|]. destruct (is_space c) eqn:E; [done|].
  right. eauto.
Qed.

Lemma trim_right_cons c s : is_space c = false -> exists t, trim_right (String c s) = String c t.
Proof. intros Hc. simpl. rewrite Hc. destruct (trim_right s); eauto. Qed.

Lemma trim_right_idem s : trim_right (trim_right s) = trim_right s.
Proof.
  induction s as [|c s IH]; [done|]. simpl. destruct (trim_right s) as [|d t] eqn:E.
  - destruct (is_space c) eqn:Ec; [done|]. simpl. by rewrite Ec.
  - change (trim_right (String c (String d t)) = String c (String d t)).
    simpl in IH |- *. by rewrite IH.
Qed.

Lemma TrimSpace_idem s : TrimSpace (TrimSpace s) = TrimSpace s.
Proof.
  unfold TrimSpace. destruct (trim_left_fix s) as [->|(c & t & -> & Hc)]; [done|].
  destruct (trim_right_cons c t Hc) as [u Hu]. rewrite Hu. simpl. rewrite Hc.
  rewrite <- Hu. apply trim_right_idem.
Qed.

Lemma excludedNames_Join l :
  Forall (λ n, n <> "" /\ no_char "," n = true) l ->
  excludedNames (Join l ",") = filter (λ n, n <> "") (TrimSpace <$> l).
Proof.
  intros Hf. unfold excludedNames. destruct l as [|x l].
  - done.
  - rewrite Split_Join; [done|done|]. eapply Forall_impl; [exact Hf|]. naive_solver.
Qed.

Lemma excludedNames_removed val node :
  excludedNames (excludeRemoved val node) = filter (λ n, n <> node) (excludedNames val).
Proof.
  unfold excludeRemoved. rewrite excludedNames_Join.
  - unfold excludedNames. generalize (Split val ","). intros l.
    induction l as [|x l IH]; [done|].
    rewrite !fmap_cons, !filter_cons.
    destruct (decide (TrimSpace x <> "" /\ TrimSpace x <> node)) as [[H1 H2]|Hn].
    + rewrite fmap_cons, filter_cons, TrimSpace_idem.
      rewrite !decide_True by done. rewrite filter_cons, decide_True by done. by rewrite IH.
    + destruct (decide (TrimSpace x <> "")); [|done].
      rewrite filter_cons, decide_False by tauto. done.
  - apply Forall_forall. intros n. rewrite list_elem_of_filter, list_elem_of_fmap.
    intros [[H1 _] (m & -> & Hm)]. split; [done|].
    apply TrimSpace_no_char. pose proof (Split_pieces val ",") as Hp.
    rewrite Forall_forall in Hp. by apply Hp.
Qed.

Lemma elem_of_excludedNames_appended val node n :
  node_name node ->
  n ∈ excludedNames (excludeAppended val node) <-> n ∈ excludedNames val \/ n = node.
Proof.
  intros (Hne & Hc & Hs). pose proof (TrimSpace_no_space node Hs) as Ht.
  unfold excludeAppended, excludedNames.
  destruct (existsb (λ name, name == node) (Split val ",")) eqn:E.
  - rewrite Join_Split. split; [by left|]. intros [?| ->]; [done|].
    apply existsb_exists in E as (x & Hx & Hd%bool_decide_eq_true). subst x.
    apply list_elem_of_filter. split; [done|]. apply list_elem_of_fmap.
    exists node. split; [done|]. by apply list_elem_of_In.
  - rewrite Split_Join.
    + rewrite fmap_app, filter_app, elem_of_app. simpl.
      rewrite filter_cons, Ht, decide_True by done. rewrite filter_nil, list_elem_of_singleton.
      done.
    + pose proof (Split_not_nil val ","). by destruct (Split val ",").
    + apply Forall_app. split; [apply Split_pieces|by constructor].
Qed.

Lemma exclude_setting_created v :
  exclude_setting (createClusterSettingsResponseWithExcludeName v) =
    Some (if v != "" then JStr v else JNull).
Proof. done. Qed.

(** ** What the checks establish *)

(** The node names excluded by a settings document. *)
Definition current_excluded (response : ClusterSettingsResponse) : list string :=
  match exclude_setting response with
  | Some (JStr s) => excludedNames s
  | _ => []
  end.

(** OpenSearch accepted a settings document. *)
Definition put_accepted (h : ohist) (c : OsClusterClient) (s : ClusterSettingsResponse) : Prop :=
  exists a res, saw h (OsDo c (OpPutSettings s)) a /\
    checked ErrClusterSettingsPutFailed a = Ok res.

(** OpenSearch accepted an exclude list that names the node (if the name is one Kubernetes
    allows: a comma or a blank in it would split it). *)
Definition exclusion_accepted (h : ohist) (c : OsClusterClient) (node : string) : Prop :=
  exists s, put_accepted h c s /\ (node_name node -> node ∈ current_excluded s).

(** OpenSearch explained that the shard is stuck because of the versions of the nodes. *)
Definition stuck_replica (h : ohist) (c : OsClusterClient) (shard : CatShardsResponse) : Prop :=
  sh_PrimaryOrReplica shard = "r" /\
  exists n a explain,
    saw h (OsDo c (OpAllocationExplain (sh_Index shard) n (sh_PrimaryOrReplica shard == "p"))) a /\
    checked ErrClusterAllocationExplainGetFailed a = Ok explain /\
    explain_stuck explain = true /\ explain_version_mismatch explain = true.

Lemma put_accepted_extends h h' c s : extends h h' -> put_accepted h c s -> put_accepted h' c s.
Proof. intros He (a & res & H1 & H2). exists a, res. split; [by eapply saw_extends|done]. Qed.

Lemma exclusion_accepted_extends h h' c n :
  extends h h' -> exclusion_accepted h c n -> exclusion_accepted h' c n.
Proof. intros He (s & H1 & H2). exists s. split; [by eapply put_accepted_extends|done]. Qed.

Lemma stuck_replica_extends h h' c s : extends h h' -> stuck_replica h c s -> stuck_replica h' c s.
Proof.
  intros He (Hr & n & a & ex & H1 & H2). split; [done|]. exists n, a, ex.
  split; [by eapply saw_extends|done].
Qed.

Lemma wp_PutClusterSettings c s (P : ohist -> req -> Prop) Q h :
  P h (OsDo c (OpPutSettings s)) ->
  (forall a, (forall v, checked ErrClusterSettingsPutFailed a = Ok v ->
                put_accepted (Ev (OsDo c (OpPutSettings s)) a :: h) c s) ->
     Q (Ev (OsDo c (OpPutSettings s)) a :: h)
       (Returned (checked ErrClusterSettingsPutFailed a))) ->
  wp (PutClusterSettings c s) P Q h.
Proof.
  intros HP HQ. apply wp_os_checked; [done|]. intros a. apply HQ.
  intros v Hv. exists a, v. split; [apply saw_here|done].
Qed.

Lemma current_excluded_created v :
  current_excluded (createClusterSettingsResponseWithExcludeName v) = excludedNames v.
Proof.
  unfold current_excluded. rewrite exclude_setting_created. case_bool_decide; [|done].
  by subst v.
Qed.

Lemma excludedNames_single node : node_name node -> excludedNames node = [node].
Proof.
  intros (Hne & Hc & Hs). unfold excludedNames.
  assert (Split node "," = [node]) as ->.
  { rewrite <- (Split_Join [node] ","); [done|done|by constructor]. }
  simpl. by rewrite filter_cons, TrimSpace_no_space, decide_True.
Qed.

(** The exclude list after an addition: the same names and the node. *)
Lemma wp_AppendExclude c node (P : ohist -> req -> Prop) Q h :
  P h (OsDo c OpGetSettings) ->
  (forall a response s, checked ErrClusterSettingsGetFailed a = Ok response ->
     (node_name node ->
      forall n, n ∈ current_excluded s <-> n ∈ current_excluded response \/ n = node) ->
     P (Ev (OsDo c OpGetSettings) a :: h) (OsDo c (OpPutSettings s))) ->
  (forall h' e, extends h h' -> Q h' (Returned (false, Some e))) ->
  (forall h' m, extends h h' -> Q h' (Panicked m)) ->
  (forall h', extends h h' -> exclusion_accepted h' c node -> Q h' (Returned (true, None))) ->
  wp (AppendExcludeNodeHost c node) P Q h.
Proof.
  intros HG HP He Hm Ht. unfold AppendExcludeNodeHost, GetClusterSettings. wp_step.
  apply wp_os_checked; [done|]. intros a. wp_step.
  destruct (checked _ a) as [response|e] eqn:Ea; [|wp_step; apply He; auto with go].
  set (h1 := _ :: h). assert (extends h h1) as Hh1 by (subst h1; auto with go). wp_step.
  assert (forall v,
    (node_name node -> forall n, n ∈ excludedNames v <-> n ∈ current_excluded response \/ n = node) ->
    wp (let! p := PutClusterSettings c (createClusterSettingsResponseWithExcludeName v) in
        match p with Ok _ => Ret (true, None) | Err e => Ret (false, Some e) end) P Q h1) as Hv.
  { intros v Hv. rewrite <- current_excluded_created in Hv. wp_step.
    apply wp_PutClusterSettings; [by eapply HP|].
    intros b Hb. wp_step. destruct (checked _ b) as [res|e] eqn:Eb; wp_step.
    - apply Ht; [auto with go|]. eexists. split; [by eapply Hb|]. intros Hn. apply Hv; [done|]. by right.
    - apply He. auto with go. }
  unfold current_excluded in Hv.
  destruct (exclude_setting response) as [[]|] eqn:Es; cbn [seq_post typeAssertPanic];
    try (apply wp_panic; by apply Hm).
  - case_bool_decide as Hs; apply wp_ret; cbn [seq_post]; apply Hv; intros Hn n.
    + subst s. rewrite excludedNames_single by done. set_solver.
    + by rewrite elem_of_excludedNames_appended.
  - apply wp_ret. cbn [seq_post]. apply Hv. intros Hn n. rewrite excludedNames_single by done.
    set_solver.
Qed.

(** The exclude list after a removal: the same names without the node. *)
Lemma wp_RemoveExclude c node (P : ohist -> req -> Prop) Q h :
  P h (OsDo c OpGetSettings) ->
  (forall a response s, checked ErrClusterSettingsGetFailed a = Ok response ->
     current_excluded s = filter (λ n, n <> node) (current_excluded response) ->
     P (Ev (OsDo c OpGetSettings) a :: h) (OsDo c (OpPutSettings s))) ->
  (forall h' b e, extends h h' -> (b = true <-> e = None) -> Q h' (Returned (b, e))) ->
  (forall h' m, extends h h' -> Q h' (Panicked m)) ->
  wp (RemoveExcludeNodeHost c node) P Q h.
Proof.
  intros HG HP Hr Hm. unfold RemoveExcludeNodeHost, GetClusterSettings. wp_step.
  apply wp_os_checked; [done|]. intros a. wp_step.
  destruct (checked _ a) as [response|e] eqn:Ea; [|wp_step; apply Hr; auto with go; naive_solver].
  set (h1 := _ :: h). assert (extends h h1) as Hh1 by (subst h1; auto with go).
  destruct (exclude_setting response) as [[]|] eqn:Es; cbn [typeAssertPanic];
    try (apply wp_panic; by apply Hm); [|wp_step; by apply Hr].
  case_bool_decide as Hs; [wp_step; by apply Hr|]. wp_step.
  apply wp_PutClusterSettings.
  - eapply HP; [done|]. rewrite current_excluded_created, excludedNames_removed.
    unfold current_excluded. by rewrite Es.
  - intros b _. wp_step. destruct (checked _ b); wp_step; apply Hr; auto with go; naive_solver.
Qed.

(** [DetectShardStuckVersionMismatch] on a replica. *)
Lemma wp_DetectShardStuck c shard (P : ohist -> req -> Prop) Q h :
  (forall n b, P h (OsDo c (OpAllocationExplain (sh_Index shard) n b))) ->
  (forall h' e, extends h h' -> Q h' (Returned (Err e))) ->
  (forall h' b, extends h h' ->
     (sh_PrimaryOrReplica shard = "r" -> b = true -> stuck_replica h' c shard) ->
     Q h' (Returned (Ok b))) ->
  wp (DetectShardStuckVersionMismatch c shard) P Q h.
Proof.
  intros HP He Hb. unfold DetectShardStuckVersionMismatch, GetAllocationExplain.
  destruct (if sh_Shard shard != "" then Sscanf_d (sh_Shard shard) else Some 0) as [num|];
    [|wp_step; apply He; reflexivity].
  wp_step. apply wp_os_checked; [apply HP|]. intros a. wp_step.
  destruct (checked _ a) as [ex|e] eqn:Ea; [|wp_step; apply He; auto with go].
  destruct (explain_stuck ex) eqn:E1; cbn [negb]; wp_step; apply Hb; auto with go; [|done].
  intros Hr Hm. split; [done|].
  exists num, a, ex. split; [apply saw_here|]. done.
Qed.

Lemma Forall_stuck_extends h h' c l :
  extends h h' -> Forall (stuck_replica h c) l -> Forall (stuck_replica h' c) l.
Proof.
  intros He Hf. eapply Forall_impl; [exact Hf|]. intros s. by apply stuck_replica_extends.
Qed.

(** The shards that the node column places on the node. *)
Definition on_node (nodeName : string) (l : list CatShardsResponse) : list CatShardsResponse :=
  filter (λ s, sh_NodeName s = nodeName) l.

Lemma on_node_snoc node l x :
  on_node node (l ++ [x]) = on_node node l ++ (if decide (sh_NodeName x = node) then [x] else []).
Proof. unfold on_node. rewrite filter_app, filter_cons, filter_nil. done. Qed.

(** The counts after the shards [seen]: the shards on the node, and those found stuck. *)
Definition counts_inv (c : OsClusterClient) (node : string) (seen : list CatShardsResponse)
    (counts : Z * Z) (h : ohist) : Prop :=
  exists stuck,
    counts = (Z.of_nat (length (on_node node seen)), Z.of_nat (length stuck)) /\
    sublist stuck (on_node node seen) /\ Forall (stuck_replica h c) stuck.

Lemma counts_inv_skip c node seen x counts h h' d :
  extends h h' -> counts_inv c node seen counts h ->
  d = (if decide (sh_NodeName x = node) then 1 else 0) ->
  counts_inv c node (seen ++ [x]) (counts.1 + d, counts.2) h'.
Proof.
  intros He (stuck & -> & Hs & Hf) ->. exists stuck. rewrite on_node_snoc. repeat split.
  - rewrite length_app. simpl. f_equal. case_decide; simpl; lia.
  - by apply sublist_inserts_r.
  - by eapply Forall_stuck_extends.
Qed.

Lemma counts_inv_stuck c node seen x counts h h' :
  extends h h' -> counts_inv c node seen counts h ->
  sh_NodeName x = node -> stuck_replica h' c x ->
  counts_inv c node (seen ++ [x]) (counts.1 + 1, counts.2 + 1) h'.
Proof.
  intros He (stuck & -> & Hs & Hf) Hn Hx. exists (stuck ++ [x]).
  rewrite on_node_snoc, decide_True by done. repeat split.
  - rewrite !length_app. simpl. f_equal; lia.
  - by apply sublist_app.
  - apply Forall_app. split; [by eapply Forall_stuck_extends|by constructor].
Qed.

Lemma wp_countNodeShard c node x seen counts (P : ohist -> req -> Prop) Q h :
  (forall n b, P h (OsDo c (OpAllocationExplain (sh_Index x) n b))) ->
  counts_inv c node seen counts h ->
  (forall h' e, extends h h' -> Q h' (Returned (inr (Err e)))) ->
  (forall h' counts', extends h h' -> counts_inv c node (seen ++ [x]) counts' h' ->
     Q h' (Returned (inl counts'))) ->
  wp (countNodeShard c node x counts) P Q h.
Proof.
  intros HP Hi He Hn. destruct counts as [cnt stk]. unfold countNodeShard.
  destruct (bool_decide_reflect (sh_NodeName x = node)) as [Hx|Hx].
  - assert (Hskip : forall h', extends h h' -> Q h' (Returned (inl (cnt + 1, stk)))).
    { intros h' Hh. apply Hn; [done|].
      eapply (counts_inv_skip _ _ _ _ (cnt, stk)); [done|done|]. by rewrite decide_True. }
    destruct (bool_decide_reflect (sh_PrimaryOrReplica x = "r")) as [Hr|Hr];
      [|wp_step; by apply Hskip].
    wp_step. apply wp_DetectShardStuck; [done|intros h' e Hh; wp_step; by apply He|].
    intros h' [|] Hh Hb; wp_step; wp_step; [|by apply Hskip].
    apply Hn; [done|]. apply (counts_inv_stuck _ _ _ _ (cnt, stk) h); auto.
  - wp_step. apply Hn; [reflexivity|]. rewrite <- (Z.add_0_r cnt).
    eapply (counts_inv_skip _ _ _ _ (cnt, stk)); [reflexivity|done|]. by rewrite decide_False.
Qed.

(** A pod is reported safe only when every shard on it is a stuck replica. *)
Lemma wp_CheckPodSafeToDelete c node (P : ohist -> req -> Prop) Q h :
  (forall h' q, extends h h' -> reads q -> P h' q) ->
  (forall h' e, extends h h' -> Q h' (Returned (Err e))) ->
  (forall h', extends h h' -> Q h' (Returned (Ok false))) ->
  (forall h' a shards, extends h h' -> saw h' (OsDo c (OpCatShards [] [])) a ->
     decoded a = Ok shards -> Forall (stuck_replica h' c) (on_node node shards) ->
     Q h' (Returned (Ok true))) ->
  wp (CheckPodSafeToDelete c node) P Q h.
Proof.
  intros HP He Hf Ht. unfold CheckPodSafeToDelete, CatShards. wp_step.
  apply wp_os_decode; [apply HP; [reflexivity|done]|]. intros a. wp_step.
  destruct (decoded a) as [shards|e] eqn:Ea; [|wp_step; apply He; auto with go].
  set (h1 := _ :: h). assert (extends h h1) as H1 by (subst h1; auto with go). wp_step.
  apply (wp_for_range (λ rest counts h', extends h1 h' /\
           exists seen, shards = seen ++ rest /\ counts_inv c node seen counts h')).
  - split; [reflexivity|]. exists []. split; [done|]. by exists [].
  - intros x xs counts h' (Hx & seen & Hsh & Hi).
    eapply wp_countNodeShard; [|exact Hi| |].
    + intros n b. apply HP; [by etransitivity|done].
    + intros h2 e H2. repeat wp_step. apply He. by do 2 (etransitivity; [|eassumption]).
    + intros h2 counts' H2 Hi'. split; [by etransitivity|]. exists (seen ++ [x]).
      by rewrite <- app_assoc.
  - intros counts h' (Hx & seen & Hsh & stuck & -> & Hs & Hst). rewrite app_nil_r in Hsh.
    subst seen. wp_step. wp_step. assert (extends h h') by (by etransitivity).
    case_bool_decide as Heq; [|by apply Hf].
    eapply Ht; [done|eapply saw_extends; [exact Hx|apply saw_here]|done|].
    by rewrite <- (sublist_same_length _ _ Hs ltac:(lia)).
Qed.

(** The number of stuck replicas counted so far is backed by explanations. *)
Definition stuck_inv (c : OsClusterClient) (n : Z) (h : ohist) : Prop :=
  exists stuck, n = Z.of_nat (length stuck) /\ Forall (stuck_replica h c) stuck.

Lemma stuck_inv_extends c n h h' : extends h h' -> stuck_inv c n h -> stuck_inv c n h'.
Proof. intros He (l & -> & Hl). exists l. split; [done|]. by eapply Forall_stuck_extends. Qed.

Lemma wp_countStuckReplica c shard n (P : ohist -> req -> Prop) Q h :
  (forall h' q, extends h h' -> reads q -> P h' q) -> stuck_inv c n h ->
  (forall h' e, extends h h' -> Q h' (Returned (inr (Err e)))) ->
  (forall h' n', extends h h' -> stuck_inv c n' h' -> Q h' (Returned (inl n'))) ->
  wp (countStuckReplica c shard n) P Q h.
Proof.
  intros HP Hi He Hn. unfold countStuckReplica.
  destruct (_ && _) eqn:E; [|wp_step; by apply Hn].
  apply andb_true_iff in E as [_ Er%bool_decide_eq_true].
  wp_step. apply wp_DetectShardStuck.
  - intros k b. by apply HP.
  - intros h' e Hh. wp_step. by apply He.
  - intros h' [|] Hh Hb; wp_step; wp_step; apply Hn; [done| |done|by eapply stuck_inv_extends].
    destruct Hi as (l & -> & Hl). exists (shard :: l). split; [simpl; lia|].
    constructor; [by apply Hb|by eapply Forall_stuck_extends].
Qed.

Lemma wp_countIndex c entry n (P : ohist -> req -> Prop) Q h :
  (forall h' q, extends h h' -> reads q -> P h' q) -> stuck_inv c n h ->
  (forall h' e, extends h h' -> Q h' (Returned (inr (Err e)))) ->
  (forall h' n', extends h h' -> stuck_inv c n' h' -> Q h' (Returned (inl n'))) ->
  wp (countIndexStuckReplicas c entry n) P Q h.
Proof.
  intros HP Hi He Hn. destruct entry as [index st]. unfold countIndexStuckReplicas.
  destruct (st == "yellow"); [|wp_step; by apply Hn].
  unfold CatNamedIndicesShards. wp_step. apply wp_os_decode; [by apply HP|]. intros a. wp_step.
  set (h1 := _ :: h). assert (extends h h1) as H1 by (subst h1; auto with go).
  destruct (decoded a) as [shards|e]; [|wp_step; by apply He].
  apply (wp_for_range (λ _ n h', extends h h' /\ stuck_inv c n h')).
  - split; [done|by eapply stuck_inv_extends].
  - intros x xs k h2 [H2 Hk]. apply wp_countStuckReplica; [|done| |].
    + intros h' q Hh. apply HP. by etransitivity.
    + intros h' e Hh. wp_step. apply He. by etransitivity.
    + intros h' k' Hh Hk'. split; [by etransitivity|done].
  - intros k h2 [H2 Hk]. by apply Hn.
Qed.

(** The cluster may be restarted on: it is green, or it is yellow, no shard moves, and every
    unassigned shard is accounted for by a replica stuck on a version mismatch. *)
Definition restart_allowed (h : ohist) (c : OsClusterClient) : Prop :=
  exists a health, saw h (OsDo c OpHealth) a /\ decoded a = Ok health /\
    (ch_Status health = "green" \/
     (ch_Status health = "yellow" /\ ch_RelocatingShards health <= 0 /\
      ch_InitializingShards health <= 0 /\ stuck_inv c (ch_UnassignedShards health) h)).

Lemma restart_allowed_extends h h' c : extends h h' -> restart_allowed h c -> restart_allowed h' c.
Proof.
  intros He (a & hl & H1 & H2 & H3). exists a, hl. split; [by eapply saw_extends|].
  split; [done|]. destruct H3 as [?|(?&?&?&?)]; [by left|right].
  split_and!; try done. by eapply stuck_inv_extends.
Qed.

Lemma wp_CheckYellow c health (P : ohist -> req -> Prop) Q h :
  (forall h' q, extends h h' -> reads q -> P h' q) ->
  (forall h' e, extends h h' -> Q h' (Returned (Err e))) ->
  (forall h' b, extends h h' ->
     (b = true -> ch_Status health = "yellow" /\ ch_RelocatingShards health <= 0 /\
        ch_InitializingShards health <= 0 /\ stuck_inv c (ch_UnassignedShards health) h') ->
     Q h' (Returned (Ok b))) ->
  wp (CheckClusterRestartOnYellow c health) P Q h.
Proof.
  intros HP He Hb. unfold CheckClusterRestartOnYellow.
  case_bool_decide as Hy; cbn [negb]; [|wp_step; by apply Hb].
  destruct (_ || _) eqn:Em; [wp_step; by apply Hb|].
  apply orb_false_iff in Em as [Hr%bool_decide_eq_false Hi%bool_decide_eq_false].
  wp_step. apply (wp_for_range (λ _ n h', extends h h' /\ stuck_inv c n h')).
  - split; [reflexivity|]. by exists [].
  - intros x xs n h2 [H2 Hn]. apply wp_countIndex; [|done| |].
    + intros h' q Hh. apply HP. by etransitivity.
    + intros h' e Hh. repeat wp_step. apply He. by etransitivity.
    + intros h' k' Hh Hk'. split; [by etransitivity|done].
  - intros n h2 [H2 Hn]. wp_step. wp_step. apply Hb; [done|].
    intros Hu%bool_decide_eq_true. rewrite Hu. split_and!; [done|lia|lia|done].
Qed.

Lemma wp_SetAllocation c v (P : ohist -> req -> Prop) Q h :
  P h (OsDo c (OpPutSettings (createClusterSettingsAllocationEnable v))) ->
  (forall h' e, extends h h' ->
     (e = None -> put_accepted h' c (createClusterSettingsAllocationEnable v)) ->
     Q h' (Returned e)) ->
  wp (SetClusterShardAllocation c v) P Q h.
Proof.
  intros HP HQ. unfold SetClusterShardAllocation. wp_step. apply wp_PutClusterSettings; [done|].
  intros a Ha. wp_step. wp_step. apply HQ; [auto with go|].
  destruct (checked _ a) eqn:E; [by eauto|done].
Qed.

Lemma wp_waitForGreen c drain (P : ohist -> req -> Prop) Q h :
  (forall h' q, extends h h' -> no_workload q -> P h' q) ->
  (forall h' msg e, extends h h' -> Q h' (Returned (false, msg, e))) ->
  wp (waitForGreen c drain) P Q h.
Proof.
  intros HP HQ. unfold waitForGreen. destruct drain; [wp_step; by apply HQ|].
  unfold GetFlatClusterSettings. wp_step. apply wp_os_checked; [by apply HP|].
  intros a. wp_step. destruct (checked _ a) as [flat|e]; [|wp_step; apply HQ; auto with go].
  destruct (_ == _); [wp_step; apply HQ; auto with go|].
  wp_step. apply wp_SetAllocation; [apply HP; [auto with go|done]|].
  intros h' [e|] Hh _; wp_step; wp_step; apply HQ;
    (etransitivity; [|exact Hh]; auto with go).
Qed.

Lemma wp_CheckClusterStatusForRestart c drain (P : ohist -> req -> Prop) Q h :
  (forall h' q, extends h h' -> no_workload q -> P h' q) ->
  (forall h' msg e, extends h h' -> Q h' (Returned (false, msg, e))) ->
  (forall h', extends h h' -> restart_allowed h' c -> Q h' (Returned (true, "", None))) ->
  wp (CheckClusterStatusForRestart c drain) P Q h.
Proof.
  intros HP Hf Ht. unfold CheckClusterStatusForRestart, GetHealth. wp_step.
  apply wp_os_decode; [by apply HP|]. intros a. wp_step.
  set (h1 := _ :: h). assert (extends h h1) as H1 by (subst h1; auto with go).
  destruct (decoded a) as [health|e] eqn:Ea; [|wp_step; by apply Hf].
  assert (saw h1 (OsDo c OpHealth) a) as Hsaw by apply saw_here.
  case_bool_decide as Hg; [wp_step; apply Ht; [done|]; exists a, health; auto|].
  wp_step. case_bool_decide as Hy.
  2:{ wp_step. wp_step. apply wp_waitForGreen; intros; [apply HP|apply Hf]; try done;
        by etransitivity. }
  apply wp_CheckYellow.
  - intros h' q Hh Hq. apply HP; [by etransitivity|by apply reads_no_workload].
  - intros h' e Hh. wp_step. wp_step. apply Hf. by etransitivity.
  - intros h' [|] Hh Hb; wp_step.
    + wp_step. apply Ht; [by etransitivity|]. exists a, health.
      split; [by eapply saw_extends|]. split; [done|]. right. by apply Hb.
    + apply wp_waitForGreen; intros; [apply HP|apply Hf]; try done;
        by do 2 (etransitivity; [|eassumption]).
Qed.

(** ** Before a pod is deleted *)

(** What [PreparePodForDelete] has made sure of when it answers [true]: with draining, the
    node is excluded from allocation and holds nothing that would be lost; without it,
    allocation is restricted to primaries. *)
Definition pod_prepared (h : ohist) (c : OsClusterClient) (pod : string) (drain : bool)
    (nodeCount : Z) : Prop :=
  if drain then
    exclusion_accepted h c pod /\
    (if decide (nodeCount = 2)
     then exists indices a shards, saw h (OsDo c (OpCatShards indices [])) a /\
            decoded a = Ok shards /\
            Forall (λ s, sh_PrimaryOrReplica s = "p" ->
                      sh_State s = "STARTED" /\ extractNodeName (sh_NodeName s) <> pod) shards
     else exists a shards, saw h (OsDo c (OpCatShards [] [])) a /\ decoded a = Ok shards /\
            Forall (stuck_replica h c) (on_node pod shards))
  else put_accepted h c (createClusterSettingsAllocationEnable AllocationPrimaries).

Lemma pod_prepared_extends h h' c p d n :
  extends h h' -> pod_prepared h c p d n -> pod_prepared h' c p d n.
Proof.
  intros He. unfold pod_prepared. destruct d; [|by apply put_accepted_extends].
  intros [H1 H2]. split; [by eapply exclusion_accepted_extends|]. case_decide.
  - destruct H2 as (i & a & l & Hs & Hl). exists i, a, l. split; [by eapply saw_extends|done].
  - destruct H2 as (a & l & Hs & Hd & Hl). exists a, l.
    split_and!; [by eapply saw_extends|done|by eapply Forall_stuck_extends].
Qed.

Lemma wp_HasIndexPrimaries c node indices (P : ohist -> req -> Prop) Q h :
  P h (OsDo c (OpCatShards indices [])) ->
  (forall h' b e, extends h h' ->
     (b = false -> e = None -> exists a shards, saw h' (OsDo c (OpCatShards indices [])) a /\
        decoded a = Ok shards /\
        Forall (λ s, sh_PrimaryOrReplica s = "p" ->
                  sh_State s = "STARTED" /\ extractNodeName (sh_NodeName s) <> node) shards) ->
     Q h' (Returned (b, e))) ->
  wp (HasIndexPrimariesOnNode c node indices) P Q h.
Proof.
  intros HP HQ. unfold HasIndexPrimariesOnNode, CatNamedIndicesShards. wp_step.
  apply wp_os_decode; [done|]. intros a. wp_step.
  destruct (decoded a) as [l|e] eqn:Ea; wp_step; apply HQ; auto with go; [|done].
  intros Hb _. exists a, l. split; [apply saw_here|]. split; [done|].
  apply Forall_forall. intros s Hs Hp. rewrite <- not_true_iff_false, existsb_exists in Hb.
  split; [destruct (decide (sh_State s = "STARTED"))|intros Hn]; try done; destruct Hb;
    exists s; (split; [by apply list_elem_of_In|]).
  - by rewrite !bool_decide_true, bool_decide_false by done.
  - rewrite (bool_decide_true (extractNodeName _ = _)), Hp by done. simpl.
    by rewrite orb_true_r.
Qed.

Lemma wp_GetExistingSystemIndices c (P : ohist -> req -> Prop) Q h :
  (forall h' q, extends h h' -> reads q -> P h' q) ->
  (forall h' r, extends h h' -> Q h' (Returned r)) ->
  (forall h' m, extends h h' -> Q h' (Panicked m)) ->
  wp (GetExistingSystemIndices c) P Q h.
Proof.
  intros HP HQ Hm. apply (wp_only reads); [apply only_GetExistingSystemIndices|done|].
  intros h' [r|m]; auto.
Qed.

Lemma wp_PreparePodForDelete c pod drain n (P : ohist -> req -> Prop) Q h :
  (forall h' q, extends h h' -> no_workload q -> P h' q) ->
  (forall h' e, extends h h' -> Q h' (Returned (false, e))) ->
  (forall h' m, extends h h' -> Q h' (Panicked m)) ->
  (forall h', extends h h' -> pod_prepared h' c pod drain n -> Q h' (Returned (true, None))) ->
  wp (PreparePodForDelete c pod drain n) P Q h.
Proof.
  intros HP Hf Hm Ht. unfold PreparePodForDelete. destruct drain.
  2:{ wp_step. apply wp_SetAllocation; [by apply HP|].
      intros h' [e|] Hh He; wp_step; wp_step; [by apply Hf|]. apply Ht; [done|]. by apply He. }
  wp_step. apply wp_AppendExclude; [by apply HP|intros; apply HP; auto with go; done| | |].
  1,2: intros; repeat wp_step; auto.
  intros h1 H1 Hex. wp_step. case_bool_decide as Hn.
  - wp_step. apply wp_GetExistingSystemIndices.
    + intros h' q Hh Hq. apply HP; [by etransitivity|by apply reads_no_workload].
    + intros h2 [indices|e] H2; wp_step; [|wp_step; apply Hf; by etransitivity].
      wp_step. apply wp_HasIndexPrimaries; [apply HP; [by etransitivity|done]|].
      intros h3 b [e|] H3 Hb; wp_step; wp_step;
        [apply Hf; by do 2 (etransitivity; [|eassumption])|].
      assert (extends h h3) by (by do 2 (etransitivity; [|eassumption])).
      destruct b; [by apply Hf|]. apply Ht; [done|].
      split; [eapply exclusion_accepted_extends; [|done]; by etransitivity|].
      rewrite decide_True by done. exists indices. by apply Hb.
    + intros h2 m H2. wp_step. apply Hm. by etransitivity.
  - wp_step. apply wp_CheckPodSafeToDelete.
    + intros h' q Hh Hq. apply HP; [by etransitivity|by apply reads_no_workload].
    + intros h2 e H2. wp_step. wp_step. apply Hf. by etransitivity.
    + intros h2 H2. wp_step. wp_step. apply Hf. by etransitivity.
    + intros h2 a shards H2 Hs Hd Hl. wp_step. wp_step. apply Ht; [by etransitivity|].
      split; [by eapply exclusion_accepted_extends|]. rewrite decide_False by done. eauto.
Qed.

(** The shard listing of the cluster showed nothing on the node. *)
Definition no_shards (h : ohist) (c : OsClusterClient) (node : string) : Prop :=
  exists a shards, saw h (OsDo c (OpCatShards [] [])) a /\ decoded a = Ok shards /\
    hasShardsOnNodeFromResponse shards node = false.

Lemma no_shards_extends h h' c n : extends h h' -> no_shards h c n -> no_shards h' c n.
Proof. intros He (a & l & H1 & H2). exists a, l. split; [by eapply saw_extends|done]. Qed.

Lemma wp_HasShardsOnNode c node (P : ohist -> req -> Prop) Q h :
  P h (OsDo c (OpCatShards [] [])) ->
  (forall h' b e, extends h h' -> (e <> None -> b = false) ->
     (b = false -> e = None -> no_shards h' c node) -> Q h' (Returned (b, e))) ->
  wp (HasShardsOnNode c node) P Q h.
Proof.
  intros HP HQ. unfold HasShardsOnNode, CatShards. wp_step. apply wp_os_decode; [done|].
  intros a. wp_step. destruct (decoded a) as [l|e] eqn:Ea; wp_step; apply HQ; auto with go; try done.
  intros Hb _. exists a, l. split; [apply saw_here|done].
Qed.

(** What the scaler takes for an empty node: the listing showed nothing on it, or failed. *)
Definition seems_empty (h : ohist) (c : OsClusterClient) (node : string) : Prop :=
  no_shards h c node \/
  exists a e, saw h (OsDo c (OpCatShards [] [])) a /\ decoded a = Err e.

Lemma seems_empty_mono h h' c n : h ⊆ h' -> seems_empty h c n -> seems_empty h' c n.
Proof.
  intros Hs [(a & l & H1 & H2)|(a & e & H1 & H2)]; [left; exists a, l|right; exists a, e];
    (split; [by apply Hs|done]).
Qed.

(** The answer [false] alone leaves open whether the listing succeeded. *)
Lemma wp_HasShardsOnNode' c node (P : ohist -> req -> Prop) Q h :
  P h (OsDo c (OpCatShards [] [])) ->
  (forall ev b e, (b = false -> seems_empty [ev] c node) -> Q (ev :: h) (Returned (b, e))) ->
  wp (HasShardsOnNode c node) P Q h.
Proof.
  intros HP HQ. unfold HasShardsOnNode, CatShards. wp_step. apply wp_os_decode; [done|].
  intros a. wp_step. destruct (decoded a) as [l|e] eqn:Ea; wp_step; apply HQ.
  - intros Hb. left. exists a, l. split; [apply saw_here|done].
  - intros _. right. exists a, e. split; [apply saw_here|done].
Qed.

(** ** The source node of a shard listing's node column *)

Lemma string_app_nil_r s : s +:+ "" = s.
Proof. induction s as [|c s IH]; [done|]. exact (f_equal (String c) IH). Qed.
Lemma string_app_assoc s t u : (s +:+ t) +:+ u = s +:+ (t +:+ u).
Proof. induction s as [|c s IH]; [done|]. exact (f_equal (String c) IH). Qed.
Lemma string_app_cons c s t : String c s +:+ t = String c (s +:+ t).
Proof. done. Qed.

Lemma no_space_app s t : no_space (s +:+ t) = no_space s && no_space t.
Proof.
  induction s as [|c s IH]; [done|]. rewrite string_app_cons. cbn [no_space].
  by rewrite IH, andb_assoc.
Qed.

Lemma Fields_aux_word cur node rest :
  no_space node = true -> Fields_aux cur (node +:+ rest) = Fields_aux (cur +:+ node) rest.
Proof.
  revert cur. induction node as [|c node IH]; intros cur Hn.
  - by rewrite string_app_nil_r.
  - cbn [no_space] in Hn. apply andb_true_iff in Hn as [Hc Hn]. apply negb_true_iff in Hc.
    rewrite string_app_cons. cbn [Fields_aux]. rewrite Hc, IH by done.
    by rewrite string_app_assoc.
Qed.

Lemma trim_right_keeps a c b :
  is_space c = false -> exists t, trim_right (a +:+ String c b) = a +:+ String c t.
Proof.
  intros Hc. induction a as [|x a [t IH]].
  - destruct (trim_right_cons c b Hc) as [t Ht]. by exists t.
  - exists t. rewrite !string_app_cons. cbn [trim_right]. rewrite IH. by destruct a.
Qed.

(** A shard that moves away from a node is listed as ["node -> target"]. *)
Lemma extractNodeName_relocating node rest :
  node_name node -> extractNodeName (node +:+ " -> " +:+ rest) = node.
Proof.
  intros (Hne & _ & Hs). unfold extractNodeName, TrimSpace.
  destruct node as [|c node]; [done|]. rewrite decide_False by done.
  assert (trim_left (String c node +:+ " -> " +:+ rest) = String c node +:+ " -> " +:+ rest) as ->.
  { rewrite string_app_cons. simpl in Hs |- *. apply andb_true_iff in Hs as [Hc _].
    apply negb_true_iff in Hc. by rewrite Hc. }
  assert (String c node +:+ " -> " +:+ rest =
          (String c node +:+ " ") +:+ String "-" ("> " +:+ rest)) as ->.
  { by rewrite string_app_assoc. }
  destruct (trim_right_keeps (String c node +:+ " ") "-" ("> " +:+ rest) eq_refl) as [t ->].
  unfold Fields. rewrite string_app_assoc, Fields_aux_word by done.
  change ("" +:+ String c node) with (String c node).
  change (" " +:+ String "-" t) with (String " " (String "-" t)). cbn [Fields_aux is_space].
  by rewrite bool_decide_false by done.
Qed.

(** ** Theorems *)

(** Every change is a settings document [W] allows. *)
Definition settings_guarded (W : ohist -> OsClusterClient -> ClusterSettingsResponse -> Prop)
    (h : ohist) (q : req) : Prop :=
  match q with OsDo c (OpPutSettings s) => W h c s | _ => reads q end.

(** The document [s] follows an answer with the current settings, and [R] relates the names
    excluded before and after. *)
Definition exclude_step (c : OsClusterClient) (R : list string -> list string -> Prop)
    (h : ohist) (c' : OsClusterClient) (s : ClusterSettingsResponse) : Prop :=
  c' = c /\ exists a response h', h = Ev (OsDo c OpGetSettings) a :: h' /\
    checked ErrClusterSettingsGetFailed a = Ok response /\
    R (current_excluded response) (current_excluded s).

(** Adding a node to the allocation exclusions sends a list with the names OpenSearch has
    answered and the node, and nothing else; the call reports success only when OpenSearch
    has accepted a list that names the node. *)
Theorem append_exclude_exact c node (w : oenv) :
  node_name node ->
  let '(o, h) := run w (AppendExcludeNodeHost c node) [] in
  calls_ok (settings_guarded (exclude_step c (λ before after,
    forall n, n ∈ after <-> n ∈ before \/ n = node))) h /\
  (o = Returned (true, None) ->
   exists s, put_accepted h c s /\ node ∈ current_excluded s).
Proof.
  intros Hn. destruct (run w _ []) as [o h] eqn:E.
  destruct (wp_run w (AppendExcludeNodeHost c node)
    (settings_guarded (exclude_step c (λ before after,
       forall n, n ∈ after <-> n ∈ before \/ n = node)))
    (λ h o, o = Returned (true, None) -> exclusion_accepted h c node)) as [H1 H2].
  - apply wp_AppendExclude; [done| |done|done|done].
    intros a response s Ha Hs. split; [done|]. exists a, response, []. auto.
  - rewrite E in H1, H2. cbn in H1, H2. split; [done|]. intros Ho.
    destruct (H1 Ho) as (s & Hp & Hs). eauto.
Qed.

(** Removing a node from the allocation exclusions sends exactly the other names OpenSearch
    has answered, in their order. *)
Theorem remove_exclude_exact c node (w : oenv) :
  calls_ok (settings_guarded (exclude_step c (λ before after,
    after = filter (λ n, n <> node) before))) (run w (RemoveExcludeNodeHost c node) []).2.
Proof.
  eapply (wp_run w _ _ (λ _ _, True)). apply wp_RemoveExclude; [done| |done|done].
  intros a response s Ha Hs. split; [done|]. exists a, response, []. auto.
Qed.

(** The node column of a shard that is moving away from a node is ["node -> target"].
    [HasShardsOnNode] counts such a shard, but [CheckPodSafeToDelete] compares the whole column
    with the node name: a pod that still holds a primary is reported safe to delete. *)
Theorem relocating_primary_missed c node index shard rest status (w : oenv) :
  node_name node ->
  (forall h, w (OsDo c (OpCatShards [] [])) h =
     Ok (mkResp 200 false status ""
           (Ok [mkShard index shard "p" "RELOCATING" (node +:+ " -> " +:+ rest)]))) ->
  (run w (HasShardsOnNode c node) []).1 = Returned (true, None) /\
  (run w (CheckPodSafeToDelete c node) []).1 = Returned (Ok true).
Proof.
  intros Hn Hw. pose proof (extractNodeName_relocating node rest Hn) as Hx.
  assert (node +:+ " -> " +:+ rest <> node) as Hne.
  { destruct Hn as (_ & _ & Hs). intros E. rewrite <- E, no_space_app in Hs.
    by rewrite andb_false_r in Hs. }
  split; lazy beta iota zeta delta [run bind call HasShardsOnNode CheckPodSafeToDelete CatShards
    os_decode]; rewrite Hw; cbn -[extractNodeName].
  - by rewrite Hx, bool_decide_true.
  - rewrite (bool_decide_false _ Hne). done.
Qed.

(** ** Witnesses *)

Definition sample_client : OsClusterClient := mkOsClient "https://os" "admin" "pw" None.

(** OpenSearch excludes one node, and moves a primary away from [os-nodes-1]. *)
Definition sample_world : oenv := fun q _ =>
  match q return resp q with
  | OsDo _ OpGetSettings =>
      Ok (mkResp 200 false "200 OK" ""
            (Ok (createClusterSettingsResponseWithExcludeName "os-nodes-2")))
  | OsDo _ (OpPutSettings s) => Ok (mkResp 200 false "200 OK" "" (Ok s))
  | OsDo _ (OpCatShards _ _) =>
      Ok (mkResp 200 false "200 OK" ""
            (Ok [mkShard "logs" "0" "p" "RELOCATING" "os-nodes-1 -> 10.0.0.8 id os-nodes-0"]))
  | q' => down q'
  end.

Lemma append_exclude_exact_witness :
  exists s, put_accepted (run sample_world (AppendExcludeNodeHost sample_client "os-nodes-1") []).2
              sample_client s /\ "os-nodes-1" ∈ current_excluded s.
Proof.
  pose proof (append_exclude_exact sample_client "os-nodes-1" sample_world) as H.
  destruct (run sample_world (AppendExcludeNodeHost sample_client "os-nodes-1") [])
    as [o h] eqn:E.
  assert (o = (run sample_world (AppendExcludeNodeHost sample_client "os-nodes-1") []).1) as Ho
    by (rewrite E; reflexivity).
  destruct H as [_ H]; [split; [discriminate|split; reflexivity]|].
  apply H. rewrite Ho. vm_compute. reflexivity.
Defined.

Lemma relocating_primary_missed_witness :
  (run sample_world (HasShardsOnNode sample_client "os-nodes-1") []).1 = Returned (true, None) /\
  (run sample_world (CheckPodSafeToDelete sample_client "os-nodes-1") []).1 = Returned (Ok true).
Proof.
  apply (relocating_primary_missed sample_client "os-nodes-1" "logs" "0" "10.0.0.8 id os-nodes-0"
           "200 OK" sample_world).
  - split; [discriminate|split; reflexivity].
  - intros h. reflexivity.
Defined.
