(* ===== verification/Fixtures.v ===== *)
(** * Fixtures: concrete parameters and worlds

    Concrete functions for the third-party parameters and concrete answers of the API server
    and of OpenSearch.  The examples and witnesses of the other files run the model on them. *)

From S2P Require Import Prelude Prog Resources Api K8sClient Helpers OsClient OsData.

Module Samples.

(** ** Third-party code *)

#[export] Instance retry5 : RetryPolicy := {| RetrySteps := 5 |}.
#[export] Instance no_env : ProcEnv := {| LookupEnv := fun _ => None |}.
#[export] Instance crypto : Crypto :=
  {| X509KeyPair := fun cert key => Ok (cert +:+ key); AppendCertsFromPEM := fun _ => true |}.
#[export] Instance labels : LabelLib := {| NewRequirement := fun _ _ => None |}.
#[export] Instance combiner : Combiner :=
  {| Combine_errs := fun a b =>
       match a, b with
       | None, e | e, None => e
       | Some a, Some b => Some (OtherErr (Error a +:+ "; " +:+ Error b))
       end |}.

Lemma combiner_laws : CombinerLaws.
Proof. split; [by intros [e|]|by intros [e|]|done]. Qed.

(** Versions of the form [major.minor.patch], constraints [>= v] and [< v]. *)
Definition parse_version (s : string) : result (Z * Z * Z) :=
  match Split s "." with
  | [a; b; c] =>
      match Atoi a, Atoi b, Atoi c with
      | Some x, Some y, Some z => Ok (x, y, z)
      | _, _, _ => Err (OtherErr "Invalid Semantic Version")
      end
  | _ => Err (OtherErr "Invalid Semantic Version")
  end.

Definition version_lt (v u : Z * Z * Z) : bool :=
  let '(a, b, c) := v in let '(x, y, z) := u in
  bool_decide (a < x) ||
  ((a == x) && (bool_decide (b < y) || ((b == y) && bool_decide (c < z)))).

Definition drop_chars (n : nat) (s : string) : string := String.substring n (String.length s) s.

#[export] Instance semver : Semver :=
  {| Version := Z * Z * Z;
     Constraint := bool * (Z * Z * Z);
     NewVersion := parse_version;
     LessThan := version_lt;
     IncMajor := fun '(a, _, _) => (a + 1, 0, 0);
     VersionString := fun '(a, b, c) => Itoa a +:+ "." +:+ Itoa b +:+ "." +:+ Itoa c;
     NewConstraint := fun s =>
       if String.prefix ">=" s then
         match parse_version (TrimSpace (drop_chars 2 s)) with
         | Ok v => Ok (true, v) | Err e => Err e end
       else
         match parse_version (TrimSpace (drop_chars 1 s)) with
         | Ok v => Ok (false, v) | Err e => Err e end;
     ConstraintCheck := fun '(ge, v) u => if (ge : bool) then negb (version_lt u v)
                                          else version_lt u v |}.

#[export] Instance hcversion : HcVersion :=
  {| HVersion := Z * Z * Z;
     HNewVersion := parse_version;
     HSegments := fun '(a, b, c) => [a; b; c];
     HGreaterThanOrEqual := fun v u => negb (version_lt v u);
     HLessThan := version_lt;
     HConstraint := Z;
     HNewConstraint := fun s => Ok 2;
     HCheck := fun m '(a, _, _) => bool_decide (m <= a) |}.

#[export] Instance cmp : CmpLib := {| CmpEqual := fun A EqA x y => bool_decide (x = y) |}.

Lemma cmp_laws : CmpLaws.
Proof. split. intros A EqA x y. apply bool_decide_eq_true. Qed.

(** ** A cluster with one pool of three nodes *)

Definition nodes : NodePool := plainNodePool "nodes" 3 ["cluster_manager"; "data"].

Definition plain_general (drain : bool) (config : gmap string string)
    (volumes : list AdditionalVolume) : GeneralConfig :=
  mkGeneral 9200 "2.19.1" "os" drain None [] "" config volumes None None "" None None None false
    "" None ∅ [] "" (mkMonitoring false "" "" "" None ∅ JNull JNull) [] JNull.
Definition dashboards_with (enable : bool) (tls : option DashboardsTlsConfig) : DashboardsConfig :=
  mkDashboards enable None "" "" noResources 1 tls "" ∅ [] [] JNull ∅ None ∅ ∅ "ClusterIP" [] ∅ []
    JNull JNull None None "" "".
Definition no_dashboards : DashboardsConfig := dashboards_with false None.
Definition no_init_helper : InitHelperConfig := mkInitHelper None None noResources.
Definition no_bootstrap : BootstrapConfig :=
  mkBootstrap noResources JNull ∅ None "" ∅ ∅ [] [] [] [] None "0" "" None.
Definition cluster_with (smart drain : bool) (pools : list NodePool)
    (st : ClusterStatus) : OpenSearchCluster :=
  mkCluster "os" "ns" "uid" None []
    (mkClusterSpec (plain_general drain ∅ []) smart None pools no_dashboards no_init_helper
      no_bootstrap) st.

Definition running (cs : list ComponentStatus) : ClusterStatus :=
  mkClusterStatus PhaseRunning cs "2.19.1" true 3 "green" false false.

Definition sts_of (name : string) (replicas : Z) : StatefulSet :=
  mkSts name "ns" {[NodePoolLabel := "nodes"]} (Some replicas) replicas replicas replicas
    replicas "rev1" "rev1" ∅ "" "" [] (Some {[NodePoolLabel := "nodes"]}) "OrderedReady"
    "OnDelete" (mkTemplate ∅ ∅ zeroPodSpec) [] "".

Definition admin_secret : Secret :=
  mkSecret "os-admin-password" "ns" ∅ {["username" := "admin"; "password" := "pw"]} ∅ "1" "Opaque" [].

Definition ok_resp {A} (a : A) : result (HttpResp A) := Ok (mkResp 200 false "200 OK" "" (Ok a)).

(** A world that answers with the cluster [c], the stateful set [s], the shard listing
    [shards] and the health [hl], and accepts every write. *)
Definition world (c : OpenSearchCluster) (s : StatefulSet)
    (shards : result (HttpResp (list CatShardsResponse))) (hl : ClusterHealthResponse)
    : oenv := fun q _ =>
  match q return resp q with
  | Get KCluster _ _ => Ok c
  | Get KStatefulSet _ _ => Ok s
  | Get KSecret _ _ => Ok admin_secret
  | Get KPod name _ =>
      Ok (mkPod name "ns" {[stsRevisionLabel := "rev1"]} None
            [mkPodCondition "Ready" "True"] [] ∅ zeroPodSpec [])
  | List_ KPod _ _ => Ok []
  | List_ KStatefulSet _ _ => Ok [s]
  | Update _ _ => None
  | StatusUpdate _ _ => None
  | Delete _ _ _ _ => None
  | ReconcileResource _ o _ => (o, (None, None))
  | OsNewClient _ _ _ _ => Ok tt
  | OsDo _ OpPing => ok_resp tt
  | OsDo _ OpInfo => ok_resp tt
  | OsDo _ OpHealth => ok_resp hl
  | OsDo _ OpClusterHealth => ok_resp hl
  | OsDo _ (OpCatShards _ _) => shards
  | OsDo _ OpGetSettings => ok_resp (mkSettings [] [])
  | OsDo _ OpGetFlatSettings => ok_resp (mkFlat "all" "")
  | OsDo _ (OpPutSettings _) => ok_resp (mkSettings [] [])
  | q' => down q'
  end.

Definition green : ClusterHealthResponse := mkHealth "green" 0 0 0 0 [].

End Samples.
