(* ===== verification/ReconcilerUtil.v ===== *)
(** * ReconcilerUtil: what the reconcilers share

    Models [pkg/reconcilers/util/util.go] (the client of a cluster, counts over node pools,
    the clean-up of stale allocation exclusions) and the shared parts of
    [pkg/reconcilers/reconcilers.go].  The transport override of the client is a test hook
    and stays at its default. *)

From S2P Require Import Prelude Prog Resources Api K8sClient Helpers OsClient OsData.

Definition clusterKey (c : OpenSearchCluster) : string * string := (cl_Name c, cl_Namespace c).

(** [UpdateOpenSearchClusterStatus(client.ObjectKeyFromObject(r.instance), f)]. *)
Definition updateStatusOf `{RetryPolicy} (c : OpenSearchCluster)
    (f : OpenSearchCluster -> OpenSearchCluster) : io (option err) :=
  UpdateOpenSearchClusterStatus (cl_Name c) (cl_Namespace c) f.

Section Util.
Context `{RP : RetryPolicy} `{PE : ProcEnv} `{CR : Crypto} `{LL : LabelLib}.

(** ** The client of a cluster *)

Definition operator_client_cert (cluster : OpenSearchCluster) : option SecurityConfig :=
  match sp_Security (cl_Spec cluster) with
  | Some s =>
      match sec_Config s with
      | Some c => if sc_OperatorClientCert c == "" then None else Some c
      | None => None
      end
  | None => None
  end.

(** [data, ok := secret.Data[key]; !ok || len(data) == 0]. *)
Definition non_empty_key (s : Secret) (key : string) : option string :=
  match secret_Data s !! key with
  | Some v => if v == "" then None else Some v
  | None => None
  end.

Definition loadOperatorClientTLSConfig (cluster : OpenSearchCluster)
    : io (result (option ClientTLS)) :=
  match operator_client_cert cluster with
  | None => Ret (Ok None)
  | Some config =>
      let secretName := sc_OperatorClientCert config in
      let where_ := cl_Namespace cluster +:+ "/" +:+ secretName in
      let! r := GetSecret secretName (cl_Namespace cluster) in
      match r with
      | Err e => Ret (Err (Wrapped ("failed to get operator client cert secret " +:+ where_
                                    +:+ ": ") e))
      | Ok secret =>
          match non_empty_key secret "tls.crt" with
          | None => Ret (Err (OtherErr ("operator client cert secret " +:+ where_ +:+
                                        " is missing " +:+ Quote "tls.crt")))
          | Some certPEM =>
              match non_empty_key secret "tls.key" with
              | None => Ret (Err (OtherErr ("operator client cert secret " +:+ where_ +:+
                                            " is missing " +:+ Quote "tls.key")))
              | Some keyPEM =>
                  match X509KeyPair certPEM keyPEM with
                  | Err e => Ret (Err (Wrapped ("invalid operator client cert in secret " +:+
                                                where_ +:+ ": ") e))
                  | Ok cert =>
                      let name := sc_OperatorClientServerName config in
                      match non_empty_key secret "ca.crt" with
                      | Some caPEM =>
                          if AppendCertsFromPEM caPEM
                          then Ret (Ok (Some (mkClientTLS cert name (Some caPEM) false)))
                          else Ret (Err (OtherErr ("operator client cert secret " +:+ where_ +:+
                                                   " contains an invalid " +:+ Quote "ca.crt")))
                      | None => Ret (Ok (Some (mkClientTLS cert name None true)))
                      end
                  end
              end
          end
      end
  end.

Definition CreateClientForCluster (cluster : OpenSearchCluster)
    : io (result OsClusterClient) :=
  let! t := loadOperatorClientTLSConfig cluster in
  match t with
  | Err e => Ret (Err e)
  | Ok (Some tlsCfg) => NewOsClusterClient (ClusterURL cluster) "" "" (Some tlsCfg)
  | Ok None =>
      let! u := UsernameAndPassword cluster in
      match u with
      | Err e => Ret (Err e)
      | Ok (username, password) =>
          NewOsClusterClient (ClusterURL cluster) username password None
      end
  end.

(** [(nil, nil)] for a cluster that does not exist. *)
Definition FetchOpensearchCluster (name ns : string) : io (result (option OpenSearchCluster)) :=
  let! r := GetOpenSearchCluster name ns in
  match r with
  | Ok cluster => Ret (Ok (Some cluster))
  | Err e => if IsNotFound e then Ret (Ok None) else Ret (Err e)
  end.

(** ** Counts over the node pools *)

Definition addDataNodes (cr : OpenSearchCluster) (nodePool : NodePool) (count : Z)
    : io (Z + Empty_set) :=
  if HasDataRole nodePool then
    let! r := GetStatefulSet (StsName cr nodePool) (cl_Namespace cr) in
    match r with
    | Ok sts => Ret (inl (wrap32 (count + default 1 (sts_Replicas sts))))
    | Err _ => Ret (inl count)
    end
  else Ret (inl count).

Definition DataNodesCount (cr : OpenSearchCluster) : io Z :=
  let! o := for_range (nodePools cr) 0 (addDataNodes cr) in
  match o with
  | inl count => Ret count
  | inr e => match e with end
  end.

Definition GetClusterHealth (cluster : OpenSearchCluster)
    : io (string * ClusterHealthResponse) :=
  let! c := CreateClientForCluster cluster in
  match c with
  | Err _ => Ret ("unknown", zeroHealth)
  | Ok osClient =>
      let! r := client_GetClusterHealth osClient in
      match r with
      | Err _ => Ret ("unknown", zeroHealth)
      | Ok healthResponse => Ret (ch_Status healthResponse, healthResponse)
      end
  end.

Definition GetSTSForNodePool (nodePool : NodePool) (clusterName clusterNamespace : string)
    : io (result StatefulSet) :=
  GetStatefulSet (clusterName +:+ "-" +:+ np_Component nodePool) clusterNamespace.

Definition addAvailableNodes (cluster : OpenSearchCluster) (nodePool : NodePool) (n : Z)
    : io (Z + Z) :=
  let previousAvailableNodes := st_AvailableNodes (cl_Status cluster) in
  let! r := GetSTSForNodePool nodePool (cl_Name cluster) (cl_Namespace cluster) in
  match r with
  | Err _ => Ret (inr previousAvailableNodes)
  | Ok sts =>
      let! rr := ReadyReplicasForNodePool cluster nodePool in
      match rr with
      | Err _ => Ret (inr previousAvailableNodes)
      | Ok readyReplicas => Ret (inl (wrap32 (n + readyReplicas)))
      end
  end.

Definition GetAvailableOpenSearchNodes (cluster : OpenSearchCluster) : io Z :=
  let! o := for_range (nodePools cluster) 0 (addAvailableNodes cluster) in
  match o with
  | inl availableNodes => Ret availableNodes
  | inr previousAvailableNodes => Ret previousAvailableNodes
  end.

(** ** Stale exclusions *)

(** The part of [isPodStale] for one node pool: whether the pod is one of its replicas. *)
Definition staleInPool (instance : OpenSearchCluster) (podName : string) (pod : Pod)
    (np : NodePool) (_ : unit) : io (unit + result bool) :=
  let! r := GetStatefulSet (StsName instance np) (cl_Namespace instance) in
  match r with
  | Err e => Ret (inr (Err e))
  | Ok sts =>
      let replicas := default 1 (sts_Replicas sts) in
      if existsb (λ ord, ReplicaHostName sts ord == podName) (seqZ 0 replicas) then
        match pod_Labels pod !! stsRevisionLabel with
        | None =>
            Ret (inr (Err (OtherErr ("pod " +:+ podName +:+
                                     " has no controller-revision-hash label"))))
        | Some rev => Ret (inr (Ok (rev == sts_UpdateRevision sts)))
        end
      else Ret (inl tt)
  end.

Definition isPodStale (instance : OpenSearchCluster) (podName : string) : io (result bool) :=
  let! r := GetPod podName (cl_Namespace instance) in
  match r with
  | Err e => if IsNotFound e then Ret (Ok true) else Ret (Err e)
  | Ok pod =>
      let! o := for_range (nodePools instance) tt (staleInPool instance podName pod) in
      match o with
      | inl _ => Ret (Ok true)
      | inr r => Ret r
      end
  end.

(** One excluded name of [CleanStaleExclusionList]. *)
Definition cleanExclusion (instance : OpenSearchCluster) (osClient : OsClusterClient)
    (name : string) (_ : unit) : io (unit + (Result * option err)) :=
  let! s := isPodStale instance name in
  match s with
  | Err e => Ret (inr (noResult, Some e))
  | Ok false => Ret (inl tt)
  | Ok true =>
      let! (ok, e) := RemoveExcludeNodeHost osClient name in
      match e, ok with
      | None, true => Ret (inl tt)
      | _, _ => Ret (inr (requeueIn 10, None))
      end
  end.

Definition CleanStaleExclusionList (instance : OpenSearchCluster) (osClient : OsClusterClient)
    : io (Result * option err) :=
  let! r := GetExcludedNodeNames osClient in
  match r with
  | Err e => Ret (noResult, Some e)
  | Ok excluded =>
      let! o := for_range excluded tt (cleanExclusion instance osClient) in
      match o with
      | inl _ => Ret (noResult, None)
      | inr r => Ret r
      end
  end.

(** ** The component status of a reconciler ([UpdateComponentStatus]) *)

(** The first entry of the component is overwritten; without one the entry is appended. *)
Fixpoint setComponent (status : ComponentStatus) (l : list ComponentStatus)
    : list ComponentStatus :=
  match l with
  | [] => [status]
  | value :: rest =>
      if cs_Component value == cs_Component status then status :: rest
      else value :: setComponent status rest
  end.

Definition UpdateComponentStatus (cluster : OpenSearchCluster)
    (status : option ComponentStatus) : io (option err) :=
  match status with
  | None => Ret None
  | Some status =>
      updateStatusOf cluster (fun instance =>
        with_status (fun st =>
          set_ComponentsStatus (setComponent status (st_ComponentsStatus st)) st) instance)
  end.

(** ** Footprints *)

Lemma only_loadTLS cluster : only reads (loadOperatorClientTLSConfig cluster).
Proof. unfold loadOperatorClientTLSConfig. only_auto. Qed.
#[local] Hint Resolve only_loadTLS : only.

Lemma only_CreateClient cluster : only reads_or_secret (CreateClientForCluster cluster).
Proof. unfold CreateClientForCluster. only_auto. Qed.

Lemma only_DataNodesCount cr : only reads (DataNodesCount cr).
Proof. unfold DataNodesCount, addDataNodes. only_auto. Qed.

Lemma only_isPodStale c p : only reads (isPodStale c p).
Proof. unfold isPodStale, staleInPool. only_auto. Qed.
#[local] Hint Resolve only_isPodStale : only.

Lemma only_CleanStale c os : only quiet (CleanStaleExclusionList c os).
Proof. unfold CleanStaleExclusionList, cleanExclusion. only_auto. Qed.

Lemma only_updateStatusOf c f : only no_workload (updateStatusOf c f).
Proof. unfold updateStatusOf. auto with only. Qed.
#[local] Hint Resolve only_updateStatusOf : only.

Lemma only_UpdateComponentStatus c s : only no_workload (UpdateComponentStatus c s).
Proof. unfold UpdateComponentStatus. only_auto. Qed.

(** ** Rules and lemmas *)

Lemma wp_updateStatusOf c f (P : ohist -> req -> Prop) Q h :
  (forall h', extends h h' -> P h' (Get KCluster (cl_Name c) (cl_Namespace c))) ->
  (forall h' c', extends h h' -> P h' (StatusUpdate KCluster (f c'))) ->
  (forall h' e, extends h h' -> Q h' (Returned e)) ->
  wp (updateStatusOf c f) P Q h.
Proof. intros HG HS HQ. apply wp_UpdateStatus; auto. Qed.

Lemma wp_updateStatusOf_guarded c W f (Q : ohist -> outcome (option err) -> Prop) h :
  (forall h' c', extends h h' -> just_saw h' (Get KCluster (cl_Name c) (cl_Namespace c)) (Ok c') ->
     W h' (f c')) ->
  (forall h' e, extends h h' -> Q h' (Returned e)) ->
  wp (updateStatusOf c f) (status_guarded W) Q h.
Proof.
  intros HW HQ. apply wp_UpdateStatus; [done| |done]. intros h' c' He Hs. by apply HW.
Qed.

(** Setting a component's status keeps the other components' entries and order. *)
Lemma setComponent_others status l :
  filter (λ v, cs_Component v <> cs_Component status) (setComponent status l) =
  filter (λ v, cs_Component v <> cs_Component status) l.
Proof.
  induction l as [|x l IH]; simpl.
  - rewrite filter_cons, decide_False by auto. done.
  - case_bool_decide as E.
    + rewrite !filter_cons, !decide_False by (rewrite ?E; auto). done.
    + rewrite !filter_cons, !decide_True by done. by rewrite IH.
Qed.

Lemma setComponent_found status l :
  FindFirstPartial (setComponent status l) status GetByComponent = (status, true).
Proof.
  induction l as [|x l IH]; simpl.
  - unfold GetByComponent. by rewrite bool_decide_true.
  - case_bool_decide as E; simpl; unfold GetByComponent at 1.
    + by rewrite bool_decide_true.
    + by rewrite bool_decide_false.
Qed.

(** ** Stale exclusions *)

Definition replica_of (sts : StatefulSet) (podName : string) : bool :=
  existsb (λ ord, ReplicaHostName sts ord == podName) (seqZ 0 (default 1 (sts_Replicas sts))).

(** What justifies that an exclusion goes: the pod does not exist; it is a replica of a pool
    and has the pool's current revision; or it is a replica of none of the pools. *)
Definition stale_pod (instance : OpenSearchCluster) (h : ohist) (name : string) : Prop :=
  (exists e, saw h (Get KPod name (cl_Namespace instance)) (Err e) /\ IsNotFound e = true) \/
  (exists pod, saw h (Get KPod name (cl_Namespace instance)) (Ok pod) /\
    ((exists np sts, np ∈ nodePools instance /\
        saw h (Get KStatefulSet (StsName instance np) (cl_Namespace instance)) (Ok sts) /\
        replica_of sts name = true /\
        pod_Labels pod !! stsRevisionLabel = Some (sts_UpdateRevision sts)) \/
     (forall np, np ∈ nodePools instance -> exists sts,
        saw h (Get KStatefulSet (StsName instance np) (cl_Namespace instance)) (Ok sts) /\
        replica_of sts name = false))).

Lemma wp_isPodStale instance name (P : ohist -> req -> Prop) Q h :
  (forall h' q, extends h h' -> reads q -> P h' q) ->
  (forall h' r, extends h h' -> (r = Ok true -> stale_pod instance h' name) -> Q h' (Returned r)) ->
  wp (isPodStale instance name) P Q h.
Proof.
  intros HP HQ. unfold isPodStale, GetPod. wp_step; [by apply HP; [ext|]|].
  destruct r as [pod|e].
  2: { destruct (IsNotFound e) eqn:E; wp_step; apply HQ; [ext| |ext|done]. intros _. left.
       exists e. split; [apply saw_here|done]. }
  set (h1 := _ :: h). assert (extends h h1) as H1 by (subst h1; ext).
  assert (saw h1 (Get KPod name (cl_Namespace instance)) (Ok pod)) as Hpod by apply saw_here.
  wp_step. eapply (wp_for_range (λ rest _ h', extends h1 h' /\
    exists seen, nodePools instance = seen ++ rest /\ forall np, np ∈ seen -> exists sts,
      saw h' (Get KStatefulSet (StsName instance np) (cl_Namespace instance)) (Ok sts) /\
      replica_of sts name = false)).
  - split; [ext|]. exists []. split; [done|]. set_solver.
  - intros np rest [] h2 (H2 & seen & Hs & Hseen). unfold staleInPool, GetStatefulSet.
    wp_step; [by apply HP; [ext|]|]. destruct r as [sts|e]; [|do 4 wp_step; apply HQ; [ext|done]].
    cbv zeta. change (existsb _ _) with (replica_of sts name).
    destruct (replica_of sts name) eqn:Er.
    + destruct (pod_Labels pod !! stsRevisionLabel) as [rev|] eqn:El; do 4 wp_step;
        apply HQ; [ext| |ext|done].
      case_bool_decide as Ev_; [|done]. intros _. right. exists pod.
      split; [by apply (saw_extends h1); [ext|]|]. left. exists np, sts. subst rev.
      split_and!; [rewrite Hs; set_solver|apply saw_here|done|done].
    + wp_step. split; [ext|]. exists (seen ++ [np]). split; [by rewrite <- app_assoc|].
      intros np' [Hin| ->%list_elem_of_singleton]%elem_of_app.
      * destruct (Hseen np' Hin) as (sts' & ? & ?). exists sts'. split; [by apply saw_there|done].
      * exists sts. split; [apply saw_here|done].
  - intros [] h2 (H2 & seen & Hs & Hseen). rewrite app_nil_r in Hs. subst seen. do 2 wp_step.
    apply HQ; [ext|]. intros _. right. exists pod. split; [by eapply saw_extends|by right].
Qed.

(** A settings document that drops one name, whose pod is stale, from those OpenSearch has just
    answered. *)
Definition stale_removal (instance : OpenSearchCluster) (c : OsClusterClient) (h : ohist)
    (c' : OsClusterClient) (s : ClusterSettingsResponse) : Prop :=
  exists name, stale_pod instance h name /\
    exclude_step c (λ before after, after = filter (λ n, n <> name) before) h c' s.

Lemma wp_CleanStale instance c h :
  wp (CleanStaleExclusionList instance c) (settings_guarded (stale_removal instance c))
    (λ _ _, True) h.
Proof.
  assert (forall h q, reads q -> settings_guarded (stale_removal instance c) h q) as Hr.
  { intros h' q Hq. by destruct q as [| | | | | | | | |c' []]. }
  unfold CleanStaleExclusionList. eapply wp_only_bind; [apply only_GetExcludedNodeNames|auto| |done].
  intros h1 [names|e] H1; [|by wp_step]. wp_step.
  apply (wp_for_range (λ _ _ _, True)); [done| |by intros [] h2 _; do 2 wp_step].
  intros name rest [] h2 _. unfold cleanExclusion. wp_step.
  apply wp_isPodStale; [auto|]. intros h3 [[]|e] H3 Hs; wp_step; [|done|by do 4 wp_step].
  wp_step. apply wp_RemoveExclude; [done| | |].
  - intros a response s Ha Hf. exists name. split.
    + destruct (Hs eq_refl) as [(e & He & Hn)|(pod & Hp & Hx)].
      * left. exists e. split; [by apply saw_there|done].
      * right. exists pod. split; [by apply saw_there|].
        destruct Hx as [(np & sts & ? & ? & ?)|Hall].
        -- left. exists np, sts. split_and!; [done|by apply saw_there|naive_solver..].
        -- right. intros np Hnp. destruct (Hall np Hnp) as (sts & ? & ?). exists sts.
           split; [by apply saw_there|done].
    + split; [done|]. exists a, response, h3. auto.
  - intros h4 b e H4 _. wp_step. destruct e, b; repeat wp_step; done.
  - intros h4 m _. by wp_step.
Qed.

(** The clean-up of the allocation exclusions sends only lists that drop one name from those
    OpenSearch has just answered, and only for a pod that is gone, runs the current revision
    of its pool, or belongs to none of the pools. *)
Theorem clean_exclusions_guarded (instance : OpenSearchCluster) c (w : oenv) :
  calls_ok (settings_guarded (stale_removal instance c))
    (run w (CleanStaleExclusionList instance c) []).2.
Proof. eapply wp_run, wp_CleanStale. Qed.

End Util.

#[export] Hint Resolve only_CreateClient only_DataNodesCount only_isPodStale only_CleanStale
  only_updateStatusOf only_UpdateComponentStatus : only.
