(* ===== verification/RContext.v ===== *)
(** * RContext: what the component reconcilers of a cluster share

    Models [ReconcilerContext] of [pkg/reconcilers/reconcilers.go]: the volumes, the settings of
    [opensearch.yml] and the hash of each pool's configuration, which the TLS, security and
    configuration reconcilers collect and the cluster reconciler reads; and
    [GeneralConfig.GetOpenSearchHome]. *)

From S2P Require Import Prelude Prog Resources Api K8sClient.

(** [strings.Join] and [strings.TrimRight] with a one-byte cut set. *)
Fixpoint JoinWith (l : list string) (sep : string) : string :=
  match l with
  | [] => ""
  | [w] => w
  | w :: ws => w +:+ sep +:+ JoinWith ws sep
  end.
Fixpoint TrimRight (s : string) (cut : ascii) : string :=
  match s with
  | EmptyString => ""
  | String c s' =>
      match TrimRight s' cut with
      | EmptyString => if bool_decide (c = cut) then "" else String c ""
      | t => String c t
      end
  end.

Definition DefaultOpenSearchHome : string := "/usr/share/opensearch".
Definition GetOpenSearchHome (g : GeneralConfig) : string :=
  if g_OpenSearchHome g != "" then TrimRight (g_OpenSearchHome g) "/" else DefaultOpenSearchHome.

Record NodePoolHash := mkHash { nh_Component : string; nh_ConfigHash : string }.

Record ReconcilerContext := mkContext {
  rc_Volumes : list Volume;
  rc_VolumeMounts : list VolumeMount;
  rc_NodePoolHashes : list NodePoolHash;
  rc_DashboardsConfig : gmap string string;
  rc_OpenSearchConfig : gmap string string }.

Definition rc_set_config (m : gmap string string) (c : ReconcilerContext) : ReconcilerContext :=
  mkContext (rc_Volumes c) (rc_VolumeMounts c) (rc_NodePoolHashes c) (rc_DashboardsConfig c) m.
Definition rc_set_dashboards (m : gmap string string) (c : ReconcilerContext) : ReconcilerContext :=
  mkContext (rc_Volumes c) (rc_VolumeMounts c) (rc_NodePoolHashes c) m (rc_OpenSearchConfig c).
Definition rc_set_hashes (l : list NodePoolHash) (c : ReconcilerContext) : ReconcilerContext :=
  mkContext (rc_Volumes c) (rc_VolumeMounts c) l (rc_DashboardsConfig c) (rc_OpenSearchConfig c).
Definition rc_set_volumes (vs : list Volume) (ms : list VolumeMount) (c : ReconcilerContext)
    : ReconcilerContext :=
  mkContext vs ms (rc_NodePoolHashes c) (rc_DashboardsConfig c) (rc_OpenSearchConfig c).
(** A volume and its mount are appended. *)
Definition rc_mount (v : Volume) (m : VolumeMount) (c : ReconcilerContext) : ReconcilerContext :=
  rc_set_volumes (rc_Volumes c ++ [v]) (rc_VolumeMounts c ++ [m]) c.

Definition NewReconcilerContext (nodepools : list NodePool) : ReconcilerContext :=
  mkContext [] [] (map (fun p => mkHash (np_Component p) "") nodepools) ∅ ∅.

Definition duplicateKey (what key : string) : io unit :=
  ask (RecordEvent "Warning" "ConfigDuplicateKey"
         ("Config key '" +:+ key +:+ "' already exists in " +:+ what +:+
          " config. Will be overwritten")).

Definition AddConfig (key value : string) (c : ReconcilerContext) : io ReconcilerContext :=
  do! match rc_OpenSearchConfig c !! key with
      | Some _ => duplicateKey "opensearch" key
      | None => Ret tt
      end in
  Ret (rc_set_config (<[key := value]> (rc_OpenSearchConfig c)) c).

Definition AddDashboardsConfig (key value : string) (c : ReconcilerContext)
    : io ReconcilerContext :=
  do! match rc_DashboardsConfig c !! key with
      | Some _ => duplicateKey "dashboards" key
      | None => Ret tt
      end in
  Ret (rc_set_dashboards (<[key := value]> (rc_DashboardsConfig c)) c).

(** Several settings, one after the other. *)
Fixpoint AddConfigs (l : list (string * string)) (c : ReconcilerContext) : io ReconcilerContext :=
  match l with
  | [] => Ret c
  | (k, v) :: l => let! c := AddConfig k v c in AddConfigs l c
  end.

Fixpoint fetchHash (name : string) (l : list NodePoolHash) : option NodePoolHash :=
  match l with
  | [] => None
  | config :: l => if nh_Component config == name then Some config else fetchHash name l
  end.
Definition fetchNodePoolHash (c : ReconcilerContext) (name : string) : option NodePoolHash :=
  fetchHash name (rc_NodePoolHashes c).

Definition replaceNodePoolHash (newConfig : NodePoolHash) (c : ReconcilerContext)
    : ReconcilerContext :=
  rc_set_hashes (map (fun config => if nh_Component config == nh_Component newConfig
                                    then newConfig else config) (rc_NodePoolHashes c)) c.

(** ** Lemmas *)

(** Settings that are added later win. *)
Definition added (l : list (string * string)) (m : gmap string string) : gmap string string :=
  foldl (fun m kv => <[kv.1 := kv.2]> m) m l.

Definition is_event (q : req) : Prop := match q with RecordEvent _ _ _ => True | _ => False end.

Lemma wp_AddConfig k v c P (Q : ohist -> outcome ReconcilerContext -> Prop) h :
  (forall h' q, extends h h' -> is_event q -> P h' q) ->
  (forall h', extends h h' ->
     Q h' (Returned (rc_set_config (<[k := v]> (rc_OpenSearchConfig c)) c))) ->
  wp (AddConfig k v c) P Q h.
Proof.
  intros HP HQ. unfold AddConfig, duplicateKey. destruct (_ !! k).
  - wp_step; [by apply HP|]. wp_step. apply HQ. ext.
  - wp_step. wp_step. apply HQ. ext.
Qed.

Lemma rc_set_config_twice m m' c : rc_set_config m (rc_set_config m' c) = rc_set_config m c.
Proof. done. Qed.

Lemma rc_set_config_same c : rc_set_config (rc_OpenSearchConfig c) c = c.
Proof. by destruct c. Qed.

Lemma wp_AddConfigs l c P (Q : ohist -> outcome ReconcilerContext -> Prop) h :
  (forall h' q, extends h h' -> is_event q -> P h' q) ->
  (forall h', extends h h' ->
     Q h' (Returned (rc_set_config (added l (rc_OpenSearchConfig c)) c))) ->
  wp (AddConfigs l c) P Q h.
Proof.
  revert c h. induction l as [|[k v] l IH]; intros c h HP HQ; cbn [AddConfigs].
  - wp_step. cbn. rewrite <- (rc_set_config_same c) at 1. apply HQ. ext.
  - wp_step. apply wp_AddConfig; [done|]. intros h1 H1. wp_step. apply IH.
    + intros h' q He. apply HP. by etransitivity.
    + intros h' He. cbn [rc_OpenSearchConfig rc_set_config]. rewrite rc_set_config_twice.
      apply HQ. by etransitivity.
Qed.

Lemma only_AddConfig k v c : only is_event (AddConfig k v c).
Proof. unfold AddConfig, duplicateKey. only_auto. Qed.
Lemma only_AddConfigs l c : only is_event (AddConfigs l c).
Proof.
  revert c. induction l as [|[k v] l IH]; intros c; cbn [AddConfigs]; [apply only_ret|].
  apply only_bind; [apply only_AddConfig|done].
Qed.

Lemma fetchHash_spec name l config :
  fetchHash name l = Some config -> nh_Component config = name /\ config ∈ l.
Proof.
  induction l as [|x l IH]; cbn; [done|]. case_bool_decide.
  - intros [= ->]. split; [done|left].
  - intros [? ?]%IH. split; [done|by right].
Qed.

Lemma fetchHash_None name l : fetchHash name l = None <-> name ∉ (nh_Component <$> l).
Proof.
  induction l as [|x l IH]; cbn [fetchHash fmap list_fmap]; [set_solver|].
  case_bool_decide; [split; [done|set_solver]|]. rewrite IH. set_solver.
Qed.

(** Reading a hash back. *)
Lemma fetch_replace config c name :
  fetchNodePoolHash (replaceNodePoolHash config c) name =
    if bool_decide (nh_Component config = name) && bool_decide (is_Some (fetchNodePoolHash c name))
    then Some config else fetchNodePoolHash c name.
Proof.
  unfold fetchNodePoolHash, replaceNodePoolHash. cbn [rc_NodePoolHashes rc_set_hashes].
  induction (rc_NodePoolHashes c) as [|x l IH]; cbn [fetchHash map].
  - rewrite (bool_decide_false (is_Some None)) by apply is_Some_None. by rewrite andb_false_r.
  - destruct (decide (nh_Component x = name)) as [Hx|Hx].
    + rewrite (bool_decide_true (nh_Component x = name)) by done.
      rewrite (bool_decide_true (is_Some _)) by by eexists. rewrite andb_true_r, Hx.
      destruct (decide (nh_Component config = name)) as [Hc|Hc].
      * rewrite (bool_decide_true (name = nh_Component config)) by congruence.
        by rewrite bool_decide_true.
      * rewrite (bool_decide_false (name = nh_Component config)),
          (bool_decide_false (nh_Component config = name)) by congruence.
        by rewrite bool_decide_true.
    + rewrite (bool_decide_false (nh_Component x = name)) by done. rewrite <- IH.
      destruct (bool_decide (nh_Component x = nh_Component config)) eqn:E.
      * apply bool_decide_eq_true in E. by rewrite bool_decide_false by congruence.
      * by rewrite bool_decide_false.
Qed.

Lemma replace_components config c :
  nh_Component <$> rc_NodePoolHashes (replaceNodePoolHash config c) =
  nh_Component <$> rc_NodePoolHashes c.
Proof.
  cbn [replaceNodePoolHash rc_set_hashes rc_NodePoolHashes].
  induction (rc_NodePoolHashes c) as [|x l IH]; cbn; [done|]. f_equal; [|done].
  by case_bool_decide.
Qed.
