(* ===== verification/Scaler.v ===== *)
(** * Scaler: the node-pool scaler

    Models [pkg/reconcilers/scaler.go].  The reconciler's own copy of the cluster, fetched
    when the reconciliation starts, is [instance]; the list [comp] is what its
    [Status.ComponentsStatus] slice shows at a given moment.  It is threaded through the node
    pools, because the branch for a pool that has reached its size passes that very slice to
    [helpers.Replace] and [helpers.RemoveIt], which shift its backing array in place. *)

From S2P Require Import Prelude Prog Resources Api K8sClient Helpers OsClient OsData ReconcilerUtil Fixtures.

Definition scalerStatus (status pool : string) (conditions : list string) : ComponentStatus :=
  mkCS "Scaler" status pool conditions.

(** [r.recorder.AnnotatedEventf(r.instance, annotations, etype, "Scaler", msg)]. *)
Definition scalerEvent (etype msg : string) : io unit := ask (RecordEvent etype "Scaler" msg).

(** [helpers.Replace(current, new, instance.Status.ComponentsStatus)] on the fetched instance,
    and [helpers.RemoveIt]. *)
Definition replaceStatus (current new : ComponentStatus) : OpenSearchCluster -> OpenSearchCluster :=
  with_status (fun st =>
    set_ComponentsStatus (Replace current new (st_ComponentsStatus st)) st).
Definition removeStatus (current : ComponentStatus) : OpenSearchCluster -> OpenSearchCluster :=
  with_status (fun st =>
    set_ComponentsStatus (RemoveIt current (st_ComponentsStatus st)) st).

Section Scaler.
Context `{RP : RetryPolicy} `{PE : ProcEnv} `{CR : Crypto} `{LL : LabelLib} `{CB : Combiner}.
Variable instance : OpenSearchCluster.

Definition smartScaler : bool := sp_SmartScaler (cl_Spec instance).
Definition where_ : string := cl_Namespace instance +:+ "/" +:+ cl_Name instance.

Definition scalerHasExcludeOrDrainInProgress (comp : list ComponentStatus) : bool :=
  existsb (λ cs, (cs_Component cs == "Scaler") &&
                 ((cs_Status cs == "Excluded") || (cs_Status cs == "Drained"))) comp.

(** [*sts.Spec.Replicas] with a stateful set whose pointer is not nil. *)
Definition increaseOneNode (currentSts : StatefulSet) (pool : string)
    : io (bool * option err) :=
  let! n := deref (sts_Replicas currentSts) in
  let currentSts := sts_with_Replicas (Some (wrap32 (n + 1))) currentSts in
  let lastReplicaNodeName := ReplicaHostName currentSts (wrap32 (n + 1)) in
  do! scalerEvent "Normal" ("Start increaseing node " +:+ lastReplicaNodeName +:+ " on " +:+
                            pool +:+ " ") in
  let! (_, (_, e)) := ask (ReconcileResource KStatefulSet currentSts StatePresent) in
  match e with
  | Some e =>
      do! scalerEvent "Normal" ("Failed to add node " +:+ where_) in
      Ret (true, Some e)
  | None =>
      do! scalerEvent "Normal" ("Added new node " +:+ lastReplicaNodeName) in
      Ret (false, None)
  end.

(** The end of [decreaseOneNode], once the replica has been removed. *)
Definition removeExclusion (pool lastReplicaNodeName : string) : io (bool * option err) :=
  let! c := CreateClientForCluster instance in
  match c with
  | Err e =>
      do! ask (RecordEvent "WARN" "failed to remove node exclude"
                 ("Group-" +:+ pool +:+ " . failed to remove node exclude " +:+
                  lastReplicaNodeName)) in
      Ret (true, Some e)
  | Ok clusterClient =>
      let! (success, e) := RemoveExcludeNodeHost clusterClient lastReplicaNodeName in
      do! (if negb success || bool_decide (is_Some e)
           then scalerEvent "Warning" ("Failed to remove node exclude - Group-" +:+ pool +:+
                                       " , node  " +:+ lastReplicaNodeName)
           else Ret tt) in
      Ret (false, e)
  end.

(** The rest of [decreaseOneNode] after the target has been checked: the stateful set loses
    the replica, the status entry goes, and the exclusion is lifted. *)
Definition removeLastReplica (currentStatus : ComponentStatus) (currentSts : StatefulSet)
    (pool : string) (smartDecrease : bool) (n : Z) : io (bool * option err) :=
  let lastReplicaNodeName := ReplicaHostName currentSts (wrap32 (n - 1)) in
  do! scalerEvent "Normal" ("Start to decreaseing node " +:+ lastReplicaNodeName +:+ " on " +:+
                            pool +:+ " ") in
  let! (_, (_, e)) := ask (ReconcileResource KStatefulSet
                        (sts_with_Replicas (Some (wrap32 (n - 1))) currentSts)
                        StatePresent) in
  match e with
  | Some e =>
      do! scalerEvent "Normal" ("Failed to remove node - Group-" +:+ pool +:+
                                " . Failed to remove node " +:+ lastReplicaNodeName) in
      Ret (true, Some e)
  | None =>
      let! e := updateStatusOf instance (removeStatus currentStatus) in
      match e with
      | Some e => Ret (false, Some e)
      | None =>
          if negb smartDecrease then Ret (false, None)
          else removeExclusion pool lastReplicaNodeName
      end
  end.

Definition decreaseOneNode (currentStatus : ComponentStatus) (currentSts : StatefulSet)
    (pool : string) (smartDecrease : bool) : io (bool * option err) :=
  let! n := deref (sts_Replicas currentSts) in
  let lastReplicaNodeName := ReplicaHostName currentSts (wrap32 (n - 1)) in
  match cs_Conditions currentStatus with
  | targetNodeName :: _ =>
      if lastReplicaNodeName != targetNodeName then
        do! updateStatusOf instance
              (replaceStatus currentStatus (scalerStatus "Running" pool [])) in
        Ret (true, Some (OtherErr ("target node mismatch during decrease: excluded/drained " +:+
                                   targetNodeName +:+ " but would remove " +:+
                                   lastReplicaNodeName +:+ ", reset to Running")))
      else removeLastReplica currentStatus currentSts pool smartDecrease n
  | [] => removeLastReplica currentStatus currentSts pool smartDecrease n
  end.

Definition excludeNode (currentStatus : ComponentStatus) (currentSts : StatefulSet)
    (pool : string) : io (option err) :=
  let! c := CreateClientForCluster instance in
  match c with
  | Err e =>
      do! scalerEvent "Warning" "Failed to create os client for scaling" in
      Ret (Some e)
  | Ok clusterClient =>
      let! n := deref (sts_Replicas currentSts) in
      let lastReplicaNodeName := ReplicaHostName currentSts (wrap32 (n - 1)) in
      let! (excluded, e) := AppendExcludeNodeHost clusterClient lastReplicaNodeName in
      match e with
      | Some e => Ret (Some e)
      | None =>
          if (excluded : bool) then
            do! scalerEvent "Normal" ("Finished to Exclude " +:+ where_) in
            let! e := updateStatusOf instance
                        (replaceStatus currentStatus
                           (scalerStatus "Excluded" pool [lastReplicaNodeName])) in
            match e with
            | Some e =>
                do! scalerEvent "Warning" "Failed to update operator status" in
                Ret (Some e)
            | None => Ret None
            end
          else
            do! scalerEvent "Normal" ("Start sacle " +:+ where_ +:+ " from " +:+ Itoa n +:+
                                      " to " +:+ Itoa (wrap32 (n - 1))) in
            let! e := updateStatusOf instance
                        (replaceStatus currentStatus (scalerStatus "Running" pool [])) in
            match e with
            | Some e =>
                do! scalerEvent "Warning" ("Group-" +:+ pool +:+
                      " . failed to remove node exclude " +:+ lastReplicaNodeName) in
                Ret (Some e)
            | None => Ret None
            end
      end
  end.

Definition drainNode (currentStatus : ComponentStatus) (currentSts : StatefulSet)
    (pool : string) : io (option err) :=
  let! n := deref (sts_Replicas currentSts) in
  let expectedNodeName := ReplicaHostName currentSts (wrap32 (n - 1)) in
  let lastReplicaNodeName := hd expectedNodeName (cs_Conditions currentStatus) in
  if lastReplicaNodeName != expectedNodeName then
    do! updateStatusOf instance (replaceStatus currentStatus (scalerStatus "Running" pool [])) in
    Ret (Some (OtherErr ("target node mismatch during drain: excluded " +:+
                         lastReplicaNodeName +:+ " but last replica is " +:+
                         expectedNodeName +:+ ", reset to Running")))
  else
    let! c := CreateClientForCluster instance in
    match c with
    | Err e => Ret (Some e)
    | Ok clusterClient =>
        let! (nodeNotEmpty, e) := HasShardsOnNode clusterClient lastReplicaNodeName in
        if (nodeNotEmpty : bool) then Ret e
        else
          let! e := updateStatusOf instance
                      (replaceStatus currentStatus
                         (scalerStatus "Drained" pool [lastReplicaNodeName])) in
          match e with
          | Some e =>
              do! scalerEvent "Warning" "Failed to update operator status" in
              Ret (Some e)
          | None => Ret None
          end
    end.

(** The closure of the branch for a pool of the desired size: [s] is the slice of the
    reconciler's own instance, which the closure shifts in place. *)
Definition settleStatus (currentStatus : ComponentStatus) (nodePool : NodePool)
    (readyReplicas : Z) (s : list ComponentStatus) (c : OpenSearchCluster)
    : list ComponentStatus * OpenSearchCluster :=
  if readyReplicas != np_Replicas nodePool then
    let waiting := scalerStatus "Waiting" (np_Component nodePool) [] in
    (Replace_view currentStatus waiting s,
     with_status (set_ComponentsStatus (Replace currentStatus waiting s)) c)
  else
    (RemoveIt_view currentStatus s,
     with_status (set_ComponentsStatus (RemoveIt currentStatus s)) c).

(** What is done when the size of the pool differs from the desired one by [diff]. *)
Definition scaleNodePool (nodePool : NodePool) (currentSts : StatefulSet)
    (currentStatus : ComponentStatus) (found : bool) (diff : Z) : io (bool * option err) :=
  let pool := np_Component nodePool in
  if negb found || (cs_Status currentStatus == "Running") ||
     (cs_Status currentStatus == "Waiting")
  then
    let! e := updateStatusOf instance
                (replaceStatus currentStatus (scalerStatus "Running" pool [])) in
    match e with
    | Some e =>
        do! scalerEvent "Warning" "Failed to update status" in
        Ret (true, Some e)
    | None =>
        if bool_decide (diff > 0) then
          do! scalerEvent "Normal" "Starting to scaling" in
          if negb smartScaler then
            let! r := decreaseOneNode currentStatus currentSts pool smartScaler in
            do! scalerEvent "Normal" "Notice - your SmartScaler is not enabled" in
            do! scalerEvent "Normal" "Starting to decrease node" in
            Ret r
          else
            let! e := excludeNode currentStatus currentSts pool in
            Ret (true, e)
        else increaseOneNode currentSts pool
    end
  else if cs_Status currentStatus == "Excluded" then
    do! scalerEvent "Normal" ("Start to Exclude " +:+ where_) in
    let! e := drainNode currentStatus currentSts pool in
    Ret (true, e)
  else if cs_Status currentStatus == "Drained" then
    do! scalerEvent "Normal" ("Start to Drain " +:+ where_) in
    decreaseOneNode currentStatus currentSts pool smartScaler
  else Ret (false, None).

Definition reconcileNodePool (comp : list ComponentStatus) (nodePool : NodePool)
    : io (list ComponentStatus * (bool * option err)) :=
  let! r := GetStatefulSet (StsName instance nodePool) (cl_Namespace instance) in
  match r with
  | Err e => Ret (comp, (false, Some e))
  | Ok currentSts =>
      let! rr := ReadyReplicasForNodePool instance nodePool in
      match rr with
      | Err e => Ret (comp, (false, Some e))
      | Ok readyReplicas =>
          let currentSts := sts_with_ReadyReplicas readyReplicas currentSts in
          let componentStatus := scalerStatus "Running" (np_Component nodePool) [] in
          let '(currentStatus, found) :=
            FindFirstPartial comp componentStatus GetByDescriptionAndComponent in
          let! n := deref (sts_Replicas currentSts) in
          let desireReplicaDiff := wrap32 (n - np_Replicas nodePool) in
          if desireReplicaDiff == 0 then
            if (found : bool) then
              let! (comp', e) :=
                UpdateOpenSearchClusterStatusS (cl_Name instance) (cl_Namespace instance)
                  (settleStatus currentStatus nodePool readyReplicas) comp in
              Ret (comp', (false, e))
            else Ret (comp, (false, None))
          else
            let! res := scaleNodePool nodePool currentSts currentStatus found
                          desireReplicaDiff in
            Ret (comp, res)
      end
  end.

Definition nodePoolsReady : io (bool * option err) :=
  let! o := for_range (nodePools instance) tt (fun nodePool _ =>
    let! r := GetStatefulSet (StsName instance nodePool) (cl_Namespace instance) in
    match r with
    | Err e => Ret (inr (false, Some e))
    | Ok currentSts =>
        let! n := deref (sts_Replicas currentSts) in
        if sts_AvailableReplicas currentSts != n then Ret (inr (false, None))
        else Ret (inl tt)
    end) in
  match o with
  | inr r => Ret r
  | inl _ => Ret (true, None)
  end.

Definition removeStatefulSet (sts : StatefulSet) : io (option Result * option err) :=
  if negb smartScaler then
    let! (_, r) := ask (ReconcileResource KStatefulSet sts StateAbsent) in Ret r
  else
    let! c := CreateClientForCluster instance in
    match c with
    | Err e =>
        do! scalerEvent "Warning" "Failed to create os client" in
        Ret (None, Some e)
    | Ok clusterClient =>
        do! scalerEvent "Normal" "Finished os client for scaling " in
        let workingOrdinal := wrap32 (default 1 (sts_Replicas sts) - 1) in
        let lastReplicaNodeName := ReplicaHostName sts workingOrdinal in
        let! (_, e) := AppendExcludeNodeHost clusterClient lastReplicaNodeName in
        match e with
        | Some e => Ret (None, Some e)
        | None =>
            let! (nodeNotEmpty, e) := HasShardsOnNode clusterClient lastReplicaNodeName in
            match e with
            | Some e =>
                do! scalerEvent "Warning" "Failed to check shards on node" in
                Ret (None, Some e)
            | None =>
                if (nodeNotEmpty : bool) then Ret (Some (requeueIn 15), None)
                else if workingOrdinal == 0 then
                  let! (_, (result, e)) := ask (ReconcileResource KStatefulSet sts StateAbsent) in
                  match e with
                  | Some e => Ret (result, Some e)
                  | None =>
                      let! (_, e) := RemoveExcludeNodeHost clusterClient lastReplicaNodeName in
                      Ret (result, e)
                  end
                else
                  let! (_, (result, e)) :=
                    ask (ReconcileResource KStatefulSet
                           (sts_with_Replicas (Some workingOrdinal) sts) StatePresent) in
                  match e with
                  | Some e => Ret (result, Some e)
                  | None =>
                      let! (_, e) := RemoveExcludeNodeHost clusterClient lastReplicaNodeName in
                      do! scalerEvent "Normal" "Finished scaling" in
                      Ret (result, e)
                  end
            end
        end
    end.

Definition cleanupStatefulSets (result : CombinedResult) : io CombinedResult :=
  let! r := ListStatefulSets (cl_Namespace instance) [(ClusterLabel, cl_Name instance)] in
  match r with
  | Err e => Ret (CombineResult result (Some noResult) (Some e))
  | Ok items =>
      let! o := for_range items result (fun sts result =>
        if negb (STSInNodePools sts (nodePools instance)) then
          let! (sub, e) := removeStatefulSet sts in
          Ret (inl (CombineResult result sub e) : _ + Empty_set)
        else Ret (inl result)) in
      match o with
      | inl result => Ret result
      | inr e => match e with end
      end
  end.

(** The loop over the node pools: the slice, the last [requeue], the combined results. *)
Definition reconcilePools
    : io (list ComponentStatus * bool * CombinedResult + Empty_set) :=
  for_range (nodePools instance)
    (componentsStatus instance, false, emptyCombined)
    (fun nodePool '(comp, _, results) =>
      let! (comp', (requeue, e)) := reconcileNodePool comp nodePool in
      let results' :=
        match e with
        | Some _ => CombineResult results (Some (mkResult requeue 0)) e
        | None => results
        end in
      Ret (inl (comp', requeue, results'))).

Definition finishScaler (results : CombinedResult) : io CombinedResult :=
  let! (ready, e) := nodePoolsReady in
  match e with
  | Some e => Ret (CombineResult results (Some noResult) (Some e))
  | None =>
      if negb ready then Ret (CombineResult results (Some (requeueIn 15)) None)
      else cleanupStatefulSets results
  end.

(** The second half of [Reconcile]; the slice is part of the result, because later reconcilers
    share the instance. *)
Definition scalePools : io (list ComponentStatus * (Result * option err)) :=
  let! o := reconcilePools in
  match o with
  | inr e => match e with end
  | inl (comp, requeue, results) =>
      let! results := finishScaler (CombineResult results (Some (mkResult requeue 0)) None) in
      Ret (comp, (c_Result results, c_Err results))
  end.

Definition ScalerReconcile : io (list ComponentStatus * (Result * option err)) :=
  let comp := componentsStatus instance in
  if smartScaler && negb (scalerHasExcludeOrDrainInProgress comp) then
    let! c := CreateClientForCluster instance in
    match c with
    | Err _ => scalePools
    | Ok clusterClient =>
        let! (res, e) := CleanStaleExclusionList instance clusterClient in
        match e with
        | Some e => Ret (comp, (noResult, Some e))
        | None => if Requeue res then Ret (comp, (res, None)) else scalePools
        end
    end
  else scalePools.

End Scaler.

(** ** Footprints *)

Lemma only_scalerEvent R t m : (forall r s u, R (RecordEvent r s u)) -> only R (scalerEvent t m).
Proof. intros H. apply only_call, H. Qed.
#[export] Hint Extern 2 (only _ (scalerEvent _ _)) => by apply only_scalerEvent : only.

Section ScalerProofs.
Context `{RP : RetryPolicy} `{PE : ProcEnv} `{CR : Crypto} `{LL : LabelLib} `{CB : Combiner}.
Variable instance : OpenSearchCluster.

Lemma only_excludeNode cs sts pool : only no_workload (excludeNode instance cs sts pool).
Proof. unfold excludeNode. only_auto. Qed.
Lemma only_drainNode cs sts pool : only no_workload (drainNode instance cs sts pool).
Proof. unfold drainNode. only_auto. Qed.
Lemma only_removeExclusion pool n : only no_workload (removeExclusion instance pool n).
Proof. unfold removeExclusion. only_auto. Qed.
Lemma only_nodePoolsReady : only reads (nodePoolsReady instance).
Proof. unfold nodePoolsReady. only_auto. Qed.
#[local] Hint Resolve only_excludeNode only_drainNode only_removeExclusion
  only_nodePoolsReady : only.

(** ** What the scaler may do to stateful sets *)

(** The pool's scale-down has drained the node. *)
Definition drained (pool : NodePool) (node : string) : Prop :=
  exists e, e ∈ componentsStatus instance /\ cs_Component e = "Scaler" /\
    cs_Description e = np_Component pool /\ cs_Status e = "Drained" /\
    (cs_Conditions e = [] \/ head (cs_Conditions e) = Some node).

(** A resize: one replica more when the pool is too small, or one less, and then only without
    the smart scaler or when the node that goes has been drained. *)
Definition pool_resize (h : ohist) (o : StatefulSet) (s : DesiredState) : Prop :=
  s = StatePresent /\ exists pool sts n r,
    pool ∈ nodePools instance /\
    saw h (Get KStatefulSet (StsName instance pool) (cl_Namespace instance)) (Ok sts) /\
    sts_Replicas sts = Some n /\
    ((wrap32 (n - np_Replicas pool) < 0 /\
      o = sts_with_Replicas (Some (wrap32 (n + 1))) (sts_with_ReadyReplicas r sts)) \/
     (wrap32 (n - np_Replicas pool) <> 0 /\
      o = sts_with_Replicas (Some (wrap32 (n - 1))) (sts_with_ReadyReplicas r sts) /\
      (smartScaler instance = false \/ drained pool (ReplicaHostName sts (wrap32 (n - 1)))))).

(** Every pool of the specification was seen with all its replicas available. *)
Definition pools_ready (h : ohist) : Prop :=
  Forall (λ pool, exists sts,
    saw h (Get KStatefulSet (StsName instance pool) (cl_Namespace instance)) (Ok sts) /\
    sts_Replicas sts = Some (sts_AvailableReplicas sts)) (nodePools instance).

(** A removal: of a stateful set of the cluster that belongs to no pool, when the pools are
    ready; with the smart scaler one replica at a time, excluded and empty. *)
Definition pool_removal (h : ohist) (o : StatefulSet) (s : DesiredState) : Prop :=
  pools_ready h /\ exists items sts,
    saw h (List_ KStatefulSet (cl_Namespace instance) [(ClusterLabel, cl_Name instance)])
      (Ok items) /\
    sts ∈ items /\ STSInNodePools sts (nodePools instance) = false /\
    let ord := wrap32 (default 1 (sts_Replicas sts) - 1) in
    if smartScaler instance then
      (exists c, exclusion_accepted h c (ReplicaHostName sts ord) /\
                 no_shards h c (ReplicaHostName sts ord)) /\
      (if decide (ord = 0) then o = sts /\ s = StateAbsent
       else o = sts_with_Replicas (Some ord) sts /\ s = StatePresent)
    else o = sts /\ s = StateAbsent.

Definition scaler_change (h : ohist) (o : StatefulSet) (s : DesiredState) : Prop :=
  pool_resize h o s \/ pool_removal h o s.

Lemma pools_ready_extends h h' : extends h h' -> pools_ready h -> pools_ready h'.
Proof.
  intros He Hf. eapply Forall_impl; [exact Hf|]. intros p (sts & H1 & H2).
  exists sts. split; [by eapply saw_extends|done].
Qed.

Lemma wp_increase W sts pool h :
  (forall n h', sts_Replicas sts = Some n -> extends h h' ->
     W h' (sts_with_Replicas (Some (wrap32 (n + 1))) sts) StatePresent) ->
  wp (increaseOneNode instance sts pool) (sts_guarded W) (λ _ _, True) h.
Proof.
  intros HW. unfold increaseOneNode. wp_step. apply wp_deref; [|done].
  intros n Hn. wp_step. wp_skip h1. wp_step; [by apply HW|].
  destruct r as [? [? [e|]]]; wp_done.
Qed.

Lemma wp_decrease W cs sts pool smart h :
  (forall n h', sts_Replicas sts = Some n -> extends h h' ->
     cs_Conditions cs = [] \/
       head (cs_Conditions cs) = Some (ReplicaHostName sts (wrap32 (n - 1))) ->
     W h' (sts_with_Replicas (Some (wrap32 (n - 1))) sts) StatePresent) ->
  wp (decreaseOneNode instance cs sts pool smart) (sts_guarded W) (λ _ _, True) h.
Proof.
  intros HW. unfold decreaseOneNode. wp_step. apply wp_deref; [|done].
  intros n Hn. wp_step.
  assert (Hgo : cs_Conditions cs = [] \/
       head (cs_Conditions cs) = Some (ReplicaHostName sts (wrap32 (n - 1))) ->
    wp (removeLastReplica instance cs sts pool smart n) (sts_guarded W) (λ _ _, True) h).
  { intros Hc. unfold removeLastReplica. wp_skip h2. wp_step; [by apply HW|].
    destruct r as [? [? [e|]]]; wp_done. }
  destruct (cs_Conditions cs) as [|t ts] eqn:Ec; [apply Hgo; by left|].
  case_bool_decide as Ht; cbn [negb]; [|wp_done].
  apply Hgo. right. by rewrite Ht.
Qed.

(** The views of the reconciler's slice hold old entries and [Waiting] ones. *)
Definition view_ok (comp : list ComponentStatus) : Prop :=
  forall e, e ∈ comp ->
    e ∈ componentsStatus instance \/ exists p, e = scalerStatus "Waiting" p [].

Lemma wp_scaleNodePool pool sts cs found diff h W :
  diff <> 0 ->
  (forall n h', sts_Replicas sts = Some n -> extends h h' -> diff < 0 ->
     W h' (sts_with_Replicas (Some (wrap32 (n + 1))) sts) StatePresent) ->
  (forall n h', sts_Replicas sts = Some n -> extends h h' ->
     smartScaler instance = false \/
       (found = true /\ cs_Status cs = "Drained" /\
        (cs_Conditions cs = [] \/
         head (cs_Conditions cs) = Some (ReplicaHostName sts (wrap32 (n - 1))))) ->
     W h' (sts_with_Replicas (Some (wrap32 (n - 1))) sts) StatePresent) ->
  wp (scaleNodePool instance pool sts cs found diff) (sts_guarded W) (λ _ _, True) h.
Proof.
  intros Hd Hinc Hdec. unfold scaleNodePool.
  destruct (negb found || _ || _) eqn:E.
  - wp_skip h1. destruct a as [e|]; [wp_done|].
    destruct (bool_decide_reflect (diff > 0)) as [Hp|Hp].
    + wp_skip h2. destruct (smartScaler instance) eqn:Es; cbn [negb]; [wp_done|].
      wp_step. eapply wp_mono; [done| |apply wp_decrease].
      * intros h3 [r|m] _; wp_step; [wp_done|done].
      * intros n h3 Hn H3 _. apply Hdec; [done| |by left].
        by do 2 (etransitivity; [|eassumption]).
    + apply wp_increase. intros n h2 Hn H2. apply Hinc; [done|by etransitivity|lia].
  - apply orb_false_iff in E as [[E _]%orb_false_iff _]. apply negb_false_iff in E.
    destruct (cs_Status cs == "Excluded"); [wp_skip h1; wp_done|].
    destruct (bool_decide_reflect (cs_Status cs = "Drained")) as [Hdr|Hdr]; [|wp_done].
    wp_skip h1. apply wp_decrease. intros n h2 Hn H2 Hc.
    apply Hdec; [done|by etransitivity|]. right. done.
Qed.
Lemma RemoveIt_view_elem cs l e : e ∈ RemoveIt_view cs l -> e ∈ l.
Proof.
  unfold RemoveIt_view. destruct (existsb _ l); [|done].
  rewrite elem_of_app. intros [H|H].
  - eapply elem_of_sublist; [exact H|apply RemoveIt_sublist].
  - eapply elem_of_sublist; [exact H|apply sublist_drop].
Qed.

Lemma Replace_view_elem cs new l e : e ∈ Replace_view cs new l -> e ∈ l \/ e = new.
Proof.
  unfold Replace_view, Replace. destruct (existsb _ l); [|by left].
  rewrite elem_of_app, list_elem_of_singleton. intros [H|H]; [left|by right].
  eapply elem_of_sublist; [exact H|apply RemoveIt_sublist].
Qed.

Lemma settleStatus_view cs pool r s c :
  view_ok s -> view_ok (settleStatus cs pool r s c).1.
Proof.
  intros Hv e. unfold settleStatus. case_bool_decide; simpl; intros He.
  - apply RemoveIt_view_elem in He. by apply Hv.
  - apply Replace_view_elem in He as [He| ->]; [by apply Hv|right; by eexists].
Qed.

Definition view_post (h : ohist) (o : outcome (list ComponentStatus * (bool * option err)))
    : Prop :=
  match o with Returned (comp, _) => view_ok comp | Panicked _ => True end.

Lemma wp_reconcileNodePool comp pool h :
  pool ∈ nodePools instance -> view_ok comp ->
  wp (reconcileNodePool instance comp pool) (sts_guarded scaler_change) view_post h.
Proof.
  intros Hpool Hv. unfold reconcileNodePool, GetStatefulSet. wp_step; [done|].
  destruct r as [sts|e]; [|by wp_step].
  set (h1 := _ :: h). assert (saw h1 (Get KStatefulSet (StsName instance pool)
    (cl_Namespace instance)) (Ok sts)) as Hs by apply saw_here.
  eapply (wp_only_bind reads); [auto with only|auto using sts_guarded_no_workload,
    reads_no_workload| |done].
  intros h2 [r|e] H2; [|by wp_step].
  destruct (FindFirstPartial _ _ _) as [cs found] eqn:Ef. wp_step.
  apply wp_deref; [|done]. cbn [sts_with_ReadyReplicas sts_Replicas]. intros n Hn. wp_step.
  case_bool_decide as Hd.
  - destruct found; [|by wp_step]. wp_step.
    apply (wp_UpdateStatusS view_ok); [done|by intros; apply settleStatus_view|done|done|].
    intros h' s e Hs' _. wp_step. by wp_step.
  - wp_step. eapply wp_mono; [done| |apply wp_scaleNodePool; [exact Hd| |]].
    + intros h3 [r'|m] _; wp_step; [by wp_step|done].
    + cbn [sts_with_ReadyReplicas sts_Replicas]. intros n' h3 Hn' H3 Hneg. left. split; [done|].
      assert (n' = n) as -> by congruence. exists pool, sts, n, r.
      split_and!; [done|by do 2 (eapply saw_extends; [eassumption|])|done|by left].
    + cbn [sts_with_ReadyReplicas sts_Replicas]. intros n' h3 Hn' H3 Hc. left. split; [done|].
      assert (n' = n) as -> by congruence. exists pool, sts, n, r.
      split_and!; [done|by do 2 (eapply saw_extends; [eassumption|])|done|right].
      split_and!; [done|done|]. destruct Hc as [?|(-> & Hdr & Hc)]; [by left|right].
      apply FindFirst_found in Ef as [Hin [= Hc1 Hc2]].
      destruct (Hv _ Hin) as [Hin'|[p ->]]; [|done]. exists cs. by split_and!.
Qed.

Lemma wp_removeStatefulSet h items sts :
  pools_ready h ->
  saw h (List_ KStatefulSet (cl_Namespace instance) [(ClusterLabel, cl_Name instance)])
    (Ok items) ->
  sts ∈ items -> STSInNodePools sts (nodePools instance) = false ->
  wp (removeStatefulSet instance sts) (sts_guarded scaler_change) (λ _ _, True) h.
Proof.
  intros Hr Hs Hin Hp. unfold removeStatefulSet.
  assert (Hrm : forall h' o s, extends h h' ->
    (let ord := wrap32 (default 1 (sts_Replicas sts) - 1) in
     if smartScaler instance then
      (exists c, exclusion_accepted h' c (ReplicaHostName sts ord) /\
                 no_shards h' c (ReplicaHostName sts ord)) /\
      (if decide (ord = 0) then o = sts /\ s = StateAbsent
       else o = sts_with_Replicas (Some ord) sts /\ s = StatePresent)
     else o = sts /\ s = StateAbsent) -> scaler_change h' o s).
  { intros h' o s He Hx. right. split; [by eapply pools_ready_extends|]. exists items, sts.
    split_and!; [by eapply saw_extends|done|done|done]. }
  destruct (smartScaler instance) eqn:Es; cbn [negb].
  2:{ wp_step; [apply Hrm; [reflexivity|done]|]. destruct r. by wp_step. }
  wp_skip h1. destruct a as [c|e]; [|wp_done]. wp_skip h2.
  wp_step. apply wp_AppendExclude; [done|done|by intros; repeat wp_step|by intros; repeat wp_step|].
  intros h3 H3 Hex. wp_step. wp_step. apply wp_HasShardsOnNode; [done|].
  intros h4 b e H4 _ Hno. wp_step. destruct e as [e|]; [wp_done|].
  destruct b; [wp_done|].
  assert (extends h h4) as He4 by (by do 4 (etransitivity; [|eassumption])).
  assert (exists c, exclusion_accepted h4 c
      (ReplicaHostName sts (wrap32 (default 1 (sts_Replicas sts) - 1))) /\
    no_shards h4 c (ReplicaHostName sts (wrap32 (default 1 (sts_Replicas sts) - 1)))) as Hev.
  { exists c. split; [eapply exclusion_accepted_extends; [exact H4|exact Hex]|by apply Hno]. }
  case_bool_decide as Ho.
  - wp_step; [apply Hrm; [done|]; cbv zeta; by rewrite ?Es, decide_True|].
    destruct r as [? [? [e|]]]; wp_done.
  - wp_step; [apply Hrm; [done|]; cbv zeta; by rewrite ?Es, decide_False|].
    destruct r as [? [? [e|]]]; wp_done.
Qed.

Lemma wp_nodePoolsReady (Q : ohist -> outcome (bool * option err) -> Prop) h :
  (forall h' b e, extends h h' -> (b = true -> pools_ready h') -> Q h' (Returned (b, e))) ->
  (forall h' m, extends h h' -> Q h' (Panicked m)) ->
  wp (nodePoolsReady instance) (sts_guarded scaler_change) Q h.
Proof.
  intros HQ Hm. unfold nodePoolsReady. wp_step.
  apply (wp_for_range (λ rest _ h', extends h h' /\ exists seen,
    nodePools instance = seen ++ rest /\ Forall (λ pool, exists sts,
      saw h' (Get KStatefulSet (StsName instance pool) (cl_Namespace instance)) (Ok sts) /\
      sts_Replicas sts = Some (sts_AvailableReplicas sts)) seen)).
  - split; [reflexivity|]. by exists [].
  - intros pool rest [] h1 (H1 & seen & Hsp & Hf). unfold GetStatefulSet. wp_step; [done|].
    destruct r as [sts|e]; [|repeat wp_step; apply HQ; [auto with go|done]].
    wp_step. apply wp_deref; [|intros; repeat wp_step; apply Hm; auto with go].
    intros n Hn. wp_step. case_bool_decide as Ha; cbn [negb].
    + wp_step. split; [auto with go|]. exists (seen ++ [pool]). rewrite <- app_assoc.
      split; [done|]. apply Forall_app. split.
      * eapply Forall_impl; [exact Hf|]. intros p (s & ? & ?). exists s. auto with go.
      * constructor; [|done]. exists sts. split; [apply saw_here|]. by rewrite Hn, Ha.
    + repeat wp_step. apply HQ; [auto with go|done].
  - intros [] h1 (H1 & seen & Hsp & Hf). rewrite app_nil_r in Hsp. wp_step. wp_step.
    apply HQ; [done|]. intros _. unfold pools_ready. by rewrite Hsp.
Qed.

Lemma wp_finishScaler results h :
  wp (finishScaler instance results) (sts_guarded scaler_change) (λ _ _, True) h.
Proof.
  unfold finishScaler. wp_step. apply wp_nodePoolsReady; [|done].
  intros h1 [|] [e|] H1 Hr; wp_step; cbn [negb]; try wp_done.
  unfold cleanupStatefulSets, ListStatefulSets. wp_step; [done|].
  destruct r as [items|e]; [|wp_done]. wp_step.
  set (h2 := _ :: h1). assert (pools_ready h2) by (eapply pools_ready_extends; [|by apply Hr];
    subst h2; auto with go).
  apply (wp_for_range (λ rest _ h', extends h2 h' /\ exists seen, items = seen ++ rest)).
  - split; [reflexivity|]. by exists [].
  - intros sts rest res h3 (H3 & seen & Hit).
    assert (Hnext : forall h' (st : CombinedResult), extends h2 h' -> extends h2 h' /\
      exists seen, items = seen ++ rest).
    { intros h' st He. split; [done|]. exists (seen ++ [sts]). by rewrite <- app_assoc. }
    destruct (STSInNodePools sts _) eqn:Ei; cbn [negb]; [wp_step; by apply Hnext|].
    wp_step. eapply wp_mono_ext; [done| |eapply (wp_removeStatefulSet _ items); [| | |done]].
    + intros h4 [[sub e]|m] H4 _; wp_step; [wp_step|done]. apply Hnext; [done|by etransitivity].
    + by eapply pools_ready_extends.
    + eapply saw_extends; [exact H3|]. apply saw_here.
    + rewrite Hit. set_solver.
  - intros res h3 _. wp_step. by wp_step.
Qed.

Lemma wp_scalePools h :
  wp (scalePools instance) (sts_guarded scaler_change) (λ _ _, True) h.
Proof.
  unfold scalePools, reconcilePools. wp_step.
  apply (wp_for_range (λ rest s _, view_ok s.1.1 /\ (forall p, p ∈ rest -> p ∈ nodePools instance))).
  - split; [|done]. by left.
  - intros pool rest [[comp rq] results] h1 [Hv Hr]. wp_step.
    eapply wp_mono; [done| |apply wp_reconcileNodePool; [apply Hr; constructor|done]].
    intros h2 [[comp' [rq' e]]|m] Hc; wp_step; [|done]. wp_step.
    split; [done|]. intros p Hp. apply Hr. by constructor.
  - intros [[comp rq] results] h1 _. wp_step. wp_step.
    eapply wp_mono; [done| |apply wp_finishScaler].
    intros h2 [res|m] _; wp_step; [by wp_step|done].
Qed.

Lemma wp_ScalerReconcile h :
  wp (ScalerReconcile instance) (sts_guarded scaler_change) (λ _ _, True) h.
Proof.
  unfold ScalerReconcile. cbv zeta. destruct (_ && _); [|apply wp_scalePools].
  wp_skip h1. destruct a as [c|e]; [|apply wp_scalePools].
  wp_skip h2. destruct a as [res [e|]]; [wp_done|].
  destruct (Requeue res); [wp_done|apply wp_scalePools].
Qed.

(** ** Sizes *)

(** A stateful set of that name was read, or listed, with [n] replicas. *)
Definition seen_size (h : ohist) (name : string) (n : Z) : Prop :=
  exists sts, sts_Name sts = name /\ default 1 (sts_Replicas sts) = n /\
    ((exists nm ns, saw h (Get KStatefulSet nm ns) (Ok sts)) \/
     (exists ns l items, saw h (List_ KStatefulSet ns l) (Ok items) /\ sts ∈ items)).

Lemma scaler_change_step h o :
  scaler_change h o StatePresent ->
  exists n m, (seen_size h (sts_Name o) n /\ sts_Replicas o = Some m) /\
    (1 <= n < 2 ^ 31 -> Forall (λ p, 0 <= np_Replicas p < 2 ^ 31) (nodePools instance) ->
     (m = n - 1 /\ 0 <= m) \/
     (m = n + 1 /\ exists p, p ∈ nodePools instance /\ m <= np_Replicas p)).
Proof.
  assert (Hw : forall z, - 2 ^ 31 <= z < 2 ^ 31 -> wrap32 z = z) by (intros; by apply wrap32_id).
  intros [(_ & pool & sts & n & r & Hp & Hs & Hn & Hd)|
          (_ & items & sts & Hs & Hin & _ & Hr)]; cbv zeta in *.
  - assert (seen_size h (sts_Name sts) n).
    { exists sts. rewrite Hn. eauto 6. }
    destruct Hd as [[Hneg ->]|(Hne & -> & _)];
      [exists n, (wrap32 (n + 1))|exists n, (wrap32 (n - 1))]; (split; [done|]); intros H1 H2;
      rewrite Forall_forall in H2; specialize (H2 _ Hp).
    + rewrite (Hw (n - np_Replicas pool)) in Hneg by lia. rewrite Hw by lia. right.
      split; [done|]. exists pool. split; [done|lia].
    + rewrite Hw by lia. left. lia.
  - destruct (smartScaler instance); [|by destruct Hr].
    destruct Hr as [_ Hr]. case_decide; [by destruct Hr|]. destruct Hr as [-> _].
    exists (default 1 (sts_Replicas sts)), (wrap32 (default 1 (sts_Replicas sts) - 1)).
    split; [split; [|done]; exists sts; eauto 8|]. intros H1 _. rewrite Hw by lia. left. lia.
Qed.

End ScalerProofs.

(** ** Theorems *)

Section ScalerTheorems.
Context `{RP : RetryPolicy} `{PE : ProcEnv} `{CR : Crypto} `{LL : LabelLib} `{CB : Combiner}.

(** C1: whatever the API server and OpenSearch answer, every change the scaler makes to a
    stateful set is one of: one replica more for a pool that is too small; one replica less,
    and then only with the smart scaler off or with the pool's status entry saying that
    exactly this node has been drained; or the removal (with the smart scaler: of the last,
    excluded and shard-free replica) of a stateful set that belongs to no pool, once every
    pool was seen with all replicas available.  It touches no other workload. *)
Theorem scaler_changes_guarded (instance : OpenSearchCluster) (w : oenv) :
  calls_ok (sts_guarded (scaler_change instance)) (run w (ScalerReconcile instance) []).2.
Proof. eapply wp_run, wp_ScalerReconcile. Qed.

(** Sizes move one step at a time and do not overflow: every stateful set the scaler
    resizes was seen with some size [n]; if [n] is positive and the desired sizes are not
    negative (both 32-bit), the new size differs from [n] by exactly one, is not negative, and
    exceeds [n] only up to the desired size of a pool. *)
Theorem resize_one_step (instance : OpenSearchCluster) (w : oenv) :
  calls_ok (λ h q,
    match q with
    | ReconcileResource KStatefulSet o StatePresent =>
        exists n m, (seen_size h (sts_Name o) n /\ sts_Replicas o = Some m) /\
          (1 <= n < 2 ^ 31 -> Forall (λ p, 0 <= np_Replicas p < 2 ^ 31) (nodePools instance) ->
           (m = n - 1 /\ 0 <= m) \/
           (m = n + 1 /\ exists p, p ∈ nodePools instance /\ m <= np_Replicas p))
    | _ => True
    end) (run w (ScalerReconcile instance) []).2.
Proof.
  eapply calls_ok_mono; [|eapply wp_run, wp_ScalerReconcile]. intros h q Hq.
  destruct q as [| | | | |[] o []| | | |]; try done. by apply scaler_change_step.
Qed.

(** With the smart scaler, a stateful set without replicas that belongs to no pool is
    never deleted: every change asked for sets its size to minus one. *)
Theorem orphan_empty_set_kept (instance : OpenSearchCluster) sts (w : oenv) :
  smartScaler instance = true -> sts_Replicas sts = Some 0 ->
  calls_ok (sts_guarded (λ _ o s, o = sts_with_Replicas (Some (-1)) sts /\ s = StatePresent))
    (run w (removeStatefulSet instance sts) []).2.
Proof.
  intros Hs Hn. eapply wp_run. unfold removeStatefulSet. rewrite Hs, Hn. cbn [negb default].
  change (wrap32 (0 - 1)) with (-1). cbn [default].
  wp_skip h1 as [c|e]; [|wp_done]. wp_skip h2. wp_skip h3 as [? [e|]]; [wp_done|].
  wp_skip h4 as [[|] [e|]]; [wp_done|wp_done|wp_done|].
  rewrite (bool_decide_false (-1 = 0)) by lia. wp_step; [done|].
  destruct r as [? [? [e|]]]; wp_done.
Qed.

(** When a conflict makes the status update of a pool that waits for its pods run again,
    the second attempt writes the pool's [Waiting] entry twice: the first attempt has already
    replaced the entry in the slice of the reconciler's own instance, which the second one
    starts from. *)
Theorem settle_retry_duplicates cs (pool : NodePool) ready comp c c' :
  unique_entries comp -> cs ∈ comp ->
  entry_key cs = ("Scaler", np_Component pool) -> cs_Status cs <> "Waiting" ->
  ready <> np_Replicas pool ->
  let comp1 := (settleStatus cs pool ready comp c).1 in
  let waiting := scalerStatus "Waiting" (np_Component pool) [] in
  let written := componentsStatus (settleStatus cs pool ready comp1 c').2 in
  written = RemoveIt cs comp ++ [waiting; waiting] /\ ~ unique_entries written.
Proof.
  intros Hu Hin Hk Hw Hr comp1 waiting written.
  assert (written = RemoveIt cs comp ++ [waiting; waiting]) as ->.
  { subst written comp1. unfold settleStatus. rewrite bool_decide_false by done.
    change (Replace cs waiting (Replace_view cs waiting comp) =
            RemoveIt cs comp ++ [waiting; waiting]).
    rewrite Replace_view_found by done. unfold Replace at 1.
    rewrite RemoveIt_noop; [unfold Replace; by rewrite <- app_assoc|].
    apply Replace_no_more; [done|done|]. by apply not_eq_sym. }
  split; [done|]. unfold unique_entries. rewrite fmap_app, NoDup_app.
  intros (_ & _ & Hd). apply NoDup_cons in Hd as [Hd _]. apply Hd. constructor.
Qed.

(** The status written for a pool that has reached its size does not depend on the
    fetched cluster: an entry recorded since the reconciliation started is lost. *)
Theorem settle_overwrites_fetched cs (pool : NodePool) ready comp c e :
  e ∈ componentsStatus c -> e ∉ comp -> cs_Status e <> "Waiting" ->
  e ∉ componentsStatus (settleStatus cs pool ready comp c).2.
Proof.
  intros _ Hn Hw. unfold settleStatus. case_bool_decide; cbn; intros He; apply Hn.
  - eapply elem_of_sublist; [exact He|apply RemoveIt_sublist].
  - unfold Replace in He. apply elem_of_app in He as [He|He].
    + eapply elem_of_sublist; [exact He|apply RemoveIt_sublist].
    + apply list_elem_of_singleton in He as ->. done.
Qed.

(** A pool whose scale-down has drained a node loses that node even when it has become too
    small in the meantime: the [Drained] branch does not look at the desired size again. *)
Theorem drained_shrinks_undersized (instance : OpenSearchCluster) (pool : NodePool) sts cs n
    (w : oenv) :
  sts_Replicas sts = Some n -> 1 <= n < 2 ^ 31 -> n < np_Replicas pool ->
  cs_Status cs = "Drained" -> cs_Conditions cs = [ReplicaHostName sts (n - 1)] ->
  exists r, saw (run w (scaleNodePool instance pool sts cs true
                          (wrap32 (n - np_Replicas pool))) []).2
              (ReconcileResource KStatefulSet (sts_with_Replicas (Some (n - 1)) sts)
                 StatePresent) r.
Proof.
  intros Hn Hr _ Hs Hc. unfold scaleNodePool, decreaseOneNode. cbv zeta. rewrite Hs, Hn, Hc.
  change ("Drained" == "Running") with false. change ("Drained" == "Waiting") with false.
  change ("Drained" == "Excluded") with false. change ("Drained" == "Drained") with true.
  lazy beta iota zeta delta [run bind call deref scalerEvent negb orb].
  rewrite (wrap32_id (n - 1)) by (unfold in_int32; lia).
  rewrite (bool_decide_true (ReplicaHostName sts (n - 1) = _)) by done.
  unfold removeLastReplica. rewrite (wrap32_id (n - 1)) by (unfold in_int32; lia).
  lazy beta iota zeta delta [run bind call scalerEvent negb].
  eexists. eapply saw_extends; [|apply saw_here]. apply run_extends.
Qed.

End ScalerTheorems.

(** ** Witnesses and examples *)

Import Fixtures.Samples.

Lemma drained_shrinks_undersized_witness :
  let cs := scalerStatus "Drained" "nodes" ["os-nodes-1"] in
  let c := cluster_with true false [nodes] (running [cs]) in
  let w := world c (sts_of "os-nodes" 2) (ok_resp []) green in
  exists r, saw (run w (scaleNodePool c nodes (sts_of "os-nodes" 2) cs true (-1)) []).2
              (ReconcileResource KStatefulSet
                 (sts_with_Replicas (Some 1) (sts_of "os-nodes" 2)) StatePresent) r.
Proof.
  intros cs c w.
  destruct (drained_shrinks_undersized c nodes (sts_of "os-nodes" 2) cs 2 w) as [r Hr];
    [reflexivity|lia|reflexivity|reflexivity|reflexivity|].
  exists r. exact Hr.
Defined.

Lemma orphan_empty_set_kept_witness :
  calls_ok (sts_guarded (λ _ o s,
      o = sts_with_Replicas (Some (-1)) (sts_of "os-old" 0) /\ s = StatePresent))
    (run (world (cluster_with true false [nodes] (running [])) (sts_of "os-old" 0)
            (ok_resp []) green)
       (removeStatefulSet (cluster_with true false [nodes] (running [])) (sts_of "os-old" 0))
       []).2.
Proof. apply orphan_empty_set_kept; reflexivity. Defined.

Lemma settle_retry_duplicates_witness :
  let cs := scalerStatus "Running" "nodes" [] in
  let c := cluster_with true false [nodes] (running [cs]) in
  ~ unique_entries (componentsStatus
      (settleStatus cs nodes 2 (settleStatus cs nodes 2 [cs] c).1 c).2).
Proof.
  intros cs c. apply (settle_retry_duplicates cs nodes 2 [cs] c c).
  - apply NoDup_singleton.
  - constructor.
  - reflexivity.
  - discriminate.
  - discriminate.
Defined.

Lemma settle_overwrites_fetched_witness :
  let cs := scalerStatus "Running" "b" [] in
  let e := scalerStatus "Excluded" "a" ["os-a-2"] in
  e ∉ componentsStatus (settleStatus cs nodes 3 [cs]
        (cluster_with true false [nodes] (running [e; cs]))).2.
Proof.
  intros cs e. apply (settle_overwrites_fetched cs nodes 3 [cs] _ e).
  - constructor.
  - intros H%list_elem_of_singleton. discriminate.
  - discriminate.
Defined.

(** A shard listing that fails is taken for an empty node: the node is marked [Drained],
    and no error is reported. *)
Theorem drain_ignores_listing_error :
  let cs := scalerStatus "Excluded" "nodes" ["os-nodes-2"] in
  let c := cluster_with true false [nodes] (running [cs]) in
  let w := world c (sts_of "os-nodes" 3) (Err (OtherErr "i/o timeout")) green in
  let '(o, h) := run w (drainNode c cs (sts_of "os-nodes" 3) "nodes") [] in
  o = Returned None /\
  saw h (StatusUpdate KCluster
           (replaceStatus cs (scalerStatus "Drained" "nodes" ["os-nodes-2"]) c)) None.
Proof. vm_compute. split; [reflexivity|]. constructor. Qed.
