(* ===== verification/ScaleDown.v ===== *)
(** * ScaleDown: the scale-down protocol of a node pool

    The scaler of [pkg/reconcilers/scaler.go] keeps the progress of a resize in the status of
    the cluster, one entry per pool.  This file states the protocol as an abstract step
    relation on such an entry, shows that every status write of the scaler is one of its
    steps, and follows the protocol over any number of reconciliations, up to the removal of
    a drained node. *)

From S2P Require Import Prelude Prog Resources Api K8sClient Helpers OsClient OsData ReconcilerUtil Fixtures Scaler.

(** ** The protocol *)

(** The last replica of a stateful set of [n] replicas, the only one that can be removed. *)
Definition last_node (sts : StatefulSet) (n : Z) : string :=
  ReplicaHostName sts (wrap32 (n - 1)).

(** No scale-down is under way: there is no entry, or it says so. *)
Definition idle (entry : option ComponentStatus) : Prop :=
  match entry with
  | None => True
  | Some e => cs_Status e = "Running" \/ cs_Status e = "Waiting"
  end.

(** The entry's target, if it names one, is the given node. *)
Definition targets (e : ComponentStatus) (node : string) : Prop :=
  cs_Conditions e = [] \/ head (cs_Conditions e) = Some node.

(** The steps of the entry of a pool whose stateful set [sts] has [n] replicas.  [h0] is the
    history at the start of the reconciliation, [h] the one at the step. *)
Inductive scale_step (smart : bool) (h0 h : ohist) (pool : NodePool) (sts : StatefulSet) (n : Z)
    : option ComponentStatus -> option ComponentStatus -> Prop :=
| step_start entry :
    idle entry -> wrap32 (n - np_Replicas pool) <> 0 ->
    scale_step smart h0 h pool sts n entry (Some (scalerStatus "Running" (np_Component pool) []))
| step_exclude entry client :
    idle entry -> smart = true -> 0 < wrap32 (n - np_Replicas pool) ->
    exclusion_accepted h client (last_node sts n) ->
    scale_step smart h0 h pool sts n entry
      (Some (scalerStatus "Excluded" (np_Component pool) [last_node sts n]))
| step_drain e client l :
    cs_Status e = "Excluded" -> wrap32 (n - np_Replicas pool) <> 0 -> targets e (last_node sts n) ->
    h = l ++ h0 -> seems_empty l client (last_node sts n) ->
    scale_step smart h0 h pool sts n (Some e)
      (Some (scalerStatus "Drained" (np_Component pool) [last_node sts n]))
| step_reset e :
    ~ targets e (last_node sts n) -> wrap32 (n - np_Replicas pool) <> 0 ->
    scale_step smart h0 h pool sts n (Some e)
      (Some (scalerStatus "Running" (np_Component pool) []))
| step_removed entry o r :
    (smart = false /\ idle entry /\ 0 < wrap32 (n - np_Replicas pool)) \/
    (exists e, entry = Some e /\ cs_Status e = "Drained" /\ targets e (last_node sts n)) ->
    saw h (ReconcileResource KStatefulSet (sts_with_Replicas (Some (wrap32 (n - 1))) sts)
             StatePresent) (o, (r, None)) ->
    scale_step smart h0 h pool sts n entry None
| step_waiting e :
    wrap32 (n - np_Replicas pool) = 0 -> sts_ReadyReplicas sts <> np_Replicas pool ->
    scale_step smart h0 h pool sts n (Some e)
      (Some (scalerStatus "Waiting" (np_Component pool) []))
| step_done e :
    wrap32 (n - np_Replicas pool) = 0 -> sts_ReadyReplicas sts = np_Replicas pool ->
    scale_step smart h0 h pool sts n (Some e) None.

(** The entry that the code looks for when there is none, and a step on a list of entries. *)
Definition entry_or_new (pool : NodePool) (entry : option ComponentStatus) : ComponentStatus :=
  default (scalerStatus "Running" (np_Component pool) []) entry.
Definition move (pool : NodePool) (entry entry' : option ComponentStatus)
    (s : list ComponentStatus) : list ComponentStatus :=
  match entry' with
  | Some new => Replace (entry_or_new pool entry) new s
  | None => RemoveIt (entry_or_new pool entry) s
  end.

Lemma targets_dec e node : targets e node \/ ~ targets e node.
Proof.
  unfold targets. destruct (cs_Conditions e) as [|t ts]; [by left; left|].
  destruct (decide (t = node)) as [->|Hn]; [by left; right|right]. intros [?|[=]]; congruence.
Qed.

Lemma targets_hd e node : hd node (cs_Conditions e) = node <-> targets e node.
Proof.
  unfold targets. destruct (cs_Conditions e) as [|t ts]; simpl; [naive_solver|].
  split; [intros ->; by right|intros [?|[=]]; congruence].
Qed.

Section Protocol.
Context `{RP : RetryPolicy} `{PE : ProcEnv} `{CR : Crypto} `{LL : LabelLib} `{CB : Combiner}.
Variable instance : OpenSearchCluster.
(** The history at the start of the reconciliation. *)
Variable h0 : ohist.

(** An entry of the reconciler's own copy of the status for the pool, or none. *)
Definition entry_seen (pool : NodePool) (entry : option ComponentStatus) : Prop :=
  forall e, entry = Some e ->
    (e ∈ componentsStatus instance \/ exists p, e = scalerStatus "Waiting" p []) /\
    entry_key e = ("Scaler", np_Component pool).

Definition pool_seen (h : ohist) (pool : NodePool) (sts : StatefulSet) (n : Z) : Prop :=
  pool ∈ nodePools instance /\ sts_Replicas sts = Some n /\
  exists seen r,
    saw h (Get KStatefulSet (StsName instance pool) (cl_Namespace instance)) (Ok seen) /\
    sts = sts_with_ReadyReplicas r seen.

(** The list of the reconciler's own instance: as it was read, and as each closure that settled a
    pool has left it, since these shift it in place. *)
Inductive own_view : list ComponentStatus -> Prop :=
| own_read : own_view (componentsStatus instance)
| own_settled s cs pool ready c :
    own_view s -> entry_key cs = ("Scaler", np_Component pool) ->
    own_view (settleStatus cs pool ready s c).1.

Lemma own_view_ok s : own_view s -> view_ok instance s.
Proof. induction 1; [by intros e; left|by apply settleStatus_view]. Qed.

(** A status write that is a step: on the list just fetched, or, for a pool that has reached
    its size, on the reconciler's own list. *)
Definition protocol_write (h : ohist) (o : OpenSearchCluster) : Prop :=
  exists pool sts n entry entry' c s,
    pool_seen h pool sts n /\ entry_seen pool entry /\
    scale_step (smartScaler instance) h0 h pool sts n entry entry' /\
    just_saw h (Get KCluster (cl_Name instance) (cl_Namespace instance)) (Ok c) /\
    (s = componentsStatus c \/ wrap32 (n - np_Replicas pool) = 0 /\ own_view s) /\
    o = with_status (set_ComponentsStatus (move pool entry entry' s)) c.

Abbreviation follows := (status_guarded protocol_write).

Lemma pool_seen_extends h h' pool sts n :
  extends h h' -> pool_seen h pool sts n -> pool_seen h' pool sts n.
Proof.
  intros He (Hp & Hn & seen & r & Hs & Heq). split_and!; [done|done|].
  exists seen, r. split; [by eapply saw_extends|done].
Qed.

Lemma wp_write pool sts n entry entry' f (Q : ohist -> outcome (option err) -> Prop) h :
  pool_seen h pool sts n -> entry_seen pool entry ->
  (forall c, f c = with_status (set_ComponentsStatus (move pool entry entry' (componentsStatus c))) c) ->
  (forall h', extends h h' -> scale_step (smartScaler instance) h0 h' pool sts n entry entry') ->
  (forall h' e, extends h h' -> Q h' (Returned e)) ->
  wp (updateStatusOf instance f) follows Q h.
Proof.
  intros Hp Hen Hf Hs HQ. apply wp_updateStatusOf_guarded; [|done]. intros h' c He Hc.
  exists pool, sts, n, entry, entry', c, (componentsStatus c).
  split_and!; [by eapply pool_seen_extends|done|by apply Hs|done|by left|apply Hf].
Qed.

(** ** The operations follow the protocol *)

Lemma wp_removeLastReplica pool sts n entry smart h :
  pool_seen h pool sts n -> entry_seen pool entry ->
  (forall h' o r, extends h h' ->
     saw h' (ReconcileResource KStatefulSet (sts_with_Replicas (Some (wrap32 (n - 1))) sts)
               StatePresent) (o, (r, None)) ->
     scale_step (smartScaler instance) h0 h' pool sts n entry None) ->
  wp (removeLastReplica instance (entry_or_new pool entry) sts (np_Component pool) smart n)
    follows (λ _ _, True) h.
Proof.
  intros Hp Hen Hs. unfold removeLastReplica. wp_status skip h1 as _. wp_step; [done|].
  destruct r as [o [r [e|]]]; [wp_status done|]. wp_step.
  eapply (wp_write pool sts n entry None); [|done|done| |].
  - eapply pool_seen_extends; [|exact Hp]. ext.
  - intros h2 H2. eapply (Hs h2 o r); [ext|]. eapply saw_extends; [exact H2|]. apply saw_here.
  - intros h2 [e|] H2; wp_step; [by wp_step|]. destruct smart; [|by wp_step].
    unfold removeExclusion. wp_status done.
Qed.

Lemma wp_decreaseOneNode pool sts n entry smart h :
  pool_seen h pool sts n -> entry_seen pool entry -> wrap32 (n - np_Replicas pool) <> 0 ->
  (targets (entry_or_new pool entry) (last_node sts n) ->
   (smartScaler instance = false /\ idle entry /\ 0 < wrap32 (n - np_Replicas pool)) \/
   (exists e, entry = Some e /\ cs_Status e = "Drained" /\ targets e (last_node sts n))) ->
  wp (decreaseOneNode instance (entry_or_new pool entry) sts (np_Component pool) smart)
    follows (λ _ _, True) h.
Proof.
  intros Hp Hen Hd Ht. unfold decreaseOneNode. wp_step. apply wp_deref; [|done].
  intros n' Hn'. destruct (Hp) as (_ & Hn & _). assert (n' = n) as -> by congruence. wp_step.
  assert (Hgo : targets (entry_or_new pool entry) (last_node sts n) ->
    wp (removeLastReplica instance (entry_or_new pool entry) sts (np_Component pool) smart n)
      follows (λ _ _, True) h).
  { intros Hx. apply wp_removeLastReplica; [done|done|]. intros h' o r _ Hs.
    eapply step_removed; [by apply Ht|exact Hs]. }
  destruct (cs_Conditions (entry_or_new pool entry)) as [|t ts] eqn:Ec; [apply Hgo; by left|].
  case_bool_decide as Hx; cbn [negb]; [apply Hgo; right; by rewrite Ec, <- Hx|].
  destruct entry as [e|]; [|done]. wp_step.
  eapply (wp_write pool sts n (Some e) (Some _)); [done|done|done| |by intros; repeat wp_step].
  intros h' _. apply step_reset; [|done]. cbn in Ec. unfold targets. rewrite Ec.
  intros [?|[= ->]]; done.
Qed.

Lemma wp_excludeNode pool sts n entry h :
  pool_seen h pool sts n -> entry_seen pool entry -> idle entry ->
  smartScaler instance = true -> 0 < wrap32 (n - np_Replicas pool) ->
  wp (excludeNode instance (entry_or_new pool entry) sts (np_Component pool))
    follows (λ _ _, True) h.
Proof.
  intros Hp Hen Hi Hsm Hd. unfold excludeNode. wp_status skip h1 as [client|e]; [|wp_status done].
  wp_step. apply wp_deref; [|done]. intros n' Hn'. destruct (Hp) as (_ & Hn & _).
  assert (n' = n) as -> by congruence. wp_step. wp_step.
  apply wp_AppendExclude; [done|done|by intros; repeat wp_step|by intros; repeat wp_step|].
  intros h2 H2 Hex. wp_step. wp_status skip h3 as _. wp_step.
  eapply (wp_write pool sts n entry (Some _)); [|done|done| |].
  - eapply pool_seen_extends; [|exact Hp]. ext.
  - intros h4 H4. eapply step_exclude; [done|done|done|].
    eapply exclusion_accepted_extends; [|exact Hex]. ext.
  - intros h4 [e|] H4; wp_step; [wp_status done|by wp_step].
Qed.

Lemma wp_drainNode pool sts n e h :
  extends h0 h -> pool_seen h pool sts n -> entry_seen pool (Some e) ->
  cs_Status e = "Excluded" -> wrap32 (n - np_Replicas pool) <> 0 ->
  wp (drainNode instance e sts (np_Component pool)) follows (λ _ _, True) h.
Proof.
  intros H0 Hp Hen Hx Hd. unfold drainNode. wp_step. apply wp_deref; [|done].
  intros n' Hn'. destruct (Hp) as (_ & Hn & _). assert (n' = n) as -> by congruence. wp_step.
  fold (last_node sts n). case_bool_decide as Ht; cbn [negb].
  - wp_status skip h1 as [client|err]; [|by wp_step]. wp_step.
    apply wp_HasShardsOnNode'; [done|]. intros ev b err Hb. wp_step. destruct b; [by wp_step|].
    wp_step. eapply (wp_write pool sts n (Some e) (Some (scalerStatus "Drained" _ [last_node sts n])));
      [eapply pool_seen_extends; [|exact Hp]; ext|done|by rewrite Ht| |].
    + intros h2 [l ->]. assert (extends h0 h1) as [l1 ->] by ext.
      eapply (step_drain _ _ _ _ _ _ _ client (l ++ ev :: l1)); [done|done|by apply targets_hd|
        by rewrite <- app_assoc|].
      eapply seems_empty_mono; [|rewrite Ht in Hb; by apply Hb]. set_solver.
    + intros h2 [err'|] H2; wp_step; [wp_status done|by wp_step].
  - wp_step. eapply (wp_write pool sts n (Some e) (Some _)); [done|done|done| |by intros; repeat wp_step].
    intros h1 _. apply step_reset; [|done]. by rewrite <- targets_hd.
Qed.

Lemma wp_scaleNodePool_protocol pool sts n cs (found : bool) h :
  let entry := if found then Some cs else None in
  extends h0 h -> pool_seen h pool sts n -> entry_seen pool entry -> cs = entry_or_new pool entry ->
  wrap32 (n - np_Replicas pool) <> 0 ->
  wp (scaleNodePool instance pool sts cs found (wrap32 (n - np_Replicas pool)))
    follows (λ _ _, True) h.
Proof.
  intros entry H0 Hp Hen Hcs Hd. unfold scaleNodePool.
  destruct (negb found || _ || _) eqn:E.
  - assert (Hi : idle entry).
    { subst entry. destruct found; [|done]. simpl in E. apply orb_true_iff in E as [E|E];
        apply bool_decide_eq_true in E; [by left|by right]. }
    wp_step. eapply (wp_write pool sts n entry (Some _)); [done|done| | |].
    + intros c. by rewrite Hcs.
    + intros h1 _. by apply step_start.
    + intros h1 [e|] H1; wp_step; [wp_status done|].
      assert (pool_seen h1 pool sts n) as Hp1 by (by eapply pool_seen_extends).
      destruct (bool_decide_reflect (wrap32 (n - np_Replicas pool) > 0)) as [Hpos|Hpos].
      2:{ unfold increaseOneNode. wp_status done. }
      wp_status skip h2 as _. assert (pool_seen h2 pool sts n) as Hp2 by (by eapply pool_seen_extends).
      rewrite Hcs. destruct (smartScaler instance) eqn:Es; cbn [negb]; wp_step.
      * eapply wp_mono; [done| |apply (wp_excludeNode _ _ n); auto; lia].
        intros h3 [e|m] _; wp_step; [by wp_step|done].
      * eapply wp_mono; [done| |apply (wp_decreaseOneNode _ _ n); try done].
        -- intros h3 [r|m] _; wp_step; [wp_status done|done].
        -- intros _. left. split_and!; [done|done|lia].
  - apply orb_false_iff in E as [[E _]%orb_false_iff _]. apply negb_false_iff in E. subst found.
    subst entry. destruct (bool_decide_reflect (cs_Status cs = "Excluded")) as [Hx|Hx].
    + wp_status skip h1 as _. wp_step.
      eapply wp_mono; [done| |apply (wp_drainNode _ _ n); [ext| |done|done|done]].
      * intros h2 [e|m] _; wp_step; [by wp_step|done].
      * by eapply pool_seen_extends.
    + destruct (bool_decide_reflect (cs_Status cs = "Drained")) as [Hdr|Hdr]; [|wp_status done].
      wp_status skip h1 as _. rewrite Hcs. apply (wp_decreaseOneNode _ _ n);
        [by eapply pool_seen_extends|done|done|]. intros Ht. right. by exists cs.
Qed.

(** The closure of a pool that has reached its size. *)
Lemma settle_protocol h pool sts n cs s c :
  pool_seen h pool sts n -> entry_seen pool (Some cs) -> wrap32 (n - np_Replicas pool) = 0 ->
  own_view s ->
  just_saw h (Get KCluster (cl_Name instance) (cl_Namespace instance)) (Ok c) ->
  protocol_write h (settleStatus cs pool (sts_ReadyReplicas sts) s c).2.
Proof.
  intros Hp Hen Hd Hv Hc. unfold settleStatus. case_bool_decide as Hr; cbn [negb snd].
  - exists pool, sts, n, (Some cs), None, c, s. split_and!; try done; [by apply step_done|by right].
  - exists pool, sts, n, (Some cs), (Some (scalerStatus "Waiting" (np_Component pool) [])), c, s.
    split_and!; try done; [by apply step_waiting|by right].
Qed.

Definition own_post (h : ohist) (o : outcome (list ComponentStatus * (bool * option err))) : Prop :=
  match o with Returned (comp, _) => own_view comp | Panicked _ => True end.

Lemma wp_reconcileNodePool_protocol comp pool h :
  extends h0 h -> pool ∈ nodePools instance -> own_view comp ->
  wp (reconcileNodePool instance comp pool) follows own_post h.
Proof.
  intros H0 Hpool Hv. unfold reconcileNodePool, GetStatefulSet. wp_step; [done|].
  destruct r as [seen|e]; [|by wp_step].
  eapply (wp_only_bind reads); [auto with only| | |done].
  { intros h' q _ Hq. by apply status_guarded_no_status, quiet_no_status, reads_quiet. }
  intros h2 [r|e] H2; [|by wp_step].
  destruct (FindFirstPartial _ _ _) as [cs found] eqn:Ef. wp_step.
  apply wp_deref; [|done]. intros n Hn. wp_step.
  assert (Hp : pool_seen h2 pool (sts_with_ReadyReplicas r seen) n).
  { split_and!; [done|done|]. exists seen, r. split; [|done].
    eapply saw_extends; [exact H2|apply saw_here]. }
  assert (Hcs : let entry := if found then Some cs else None in
    entry_seen pool entry /\ cs = entry_or_new pool entry).
  { destruct found; [|by apply FindFirst_not_found in Ef as [-> _]]. split; [|done].
    intros e [= <-]. apply FindFirst_found in Ef as [Hin Hk]. split; [by apply (own_view_ok comp)|exact Hk]. }
  destruct Hcs as [Hen Hcs]. case_bool_decide as Hd.
  - destruct found; [|by wp_step]. wp_step.
    apply (wp_UpdateStatusS own_view); [done| |done| |].
    + intros s c Hs. apply own_settled; [done|]. by apply (Hen cs).
    + intros h' s c Hs He Hc. eapply (settle_protocol h' pool (sts_with_ReadyReplicas r seen) n);
        [by eapply pool_seen_extends|done|done|done|done].
    + intros h' s e Hs' _. wp_step. by wp_step.
  - wp_step. eapply wp_mono; [done| |eapply (wp_scaleNodePool_protocol pool _ n cs found);
      [ext|done|done|done|done]].
    intros h3 [r'|m] _; wp_step; [by wp_step|done].
Qed.

Lemma only_finishScaler results : only no_status (finishScaler instance results).
Proof.
  unfold finishScaler, cleanupStatefulSets, removeStatefulSet, nodePoolsReady. only_auto.
Qed.

Lemma wp_scalePools_protocol h :
  extends h0 h -> wp (scalePools instance) follows (λ _ _, True) h.
Proof.
  intros H0. unfold scalePools, reconcilePools. wp_step.
  apply (wp_for_range (λ rest s h', extends h0 h' /\ own_view s.1.1 /\
    (forall p, p ∈ rest -> p ∈ nodePools instance))).
  - split_and!; [done|constructor|done].
  - intros pool rest [[comp rq] results] h1 (H1 & Hv & Hr). wp_step.
    eapply wp_mono_ext; [done| |apply wp_reconcileNodePool_protocol; [done|apply Hr; constructor|done]].
    intros h2 [[comp' [rq' e]]|m] H2 Hc; wp_step; [|done]. wp_step.
    split_and!; [ext|done|]. intros p Hp. apply Hr. by constructor.
  - intros [[comp rq] results] h1 _. wp_step.
    eapply wp_status_skip; [apply only_finishScaler|by auto with go|intros h2 a _; by wp_step].
Qed.

Lemma wp_ScalerReconcile_protocol :
  wp (ScalerReconcile instance) follows (λ _ _, True) h0.
Proof.
  unfold ScalerReconcile. cbv zeta. destruct (_ && _); [|by apply wp_scalePools_protocol].
  wp_status skip h1 as [c|e]; [|by apply wp_scalePools_protocol].
  wp_status skip h2 as [res [e|]]; [by wp_step|].
  destruct (Requeue res); [by wp_step|apply wp_scalePools_protocol; ext].
Qed.

End Protocol.

(** ** The protocol over many reconciliations *)

(** OpenSearch accepted the exclusion of the node, and later a shard listing showed nothing on
    it, or failed. *)
Definition emptied (h : ohist) (node : string) : Prop :=
  exists l h1, h = l ++ h1 /\ (exists client, exclusion_accepted h1 client node) /\
    exists client, seems_empty l client node.

(** What the history says of an entry of the scaler. *)
Definition backed (h : ohist) (e : ComponentStatus) : Prop :=
  cs_Component e = "Scaler" ->
  ((cs_Status e = "Running" \/ cs_Status e = "Waiting") /\ cs_Conditions e = []) \/
  (cs_Status e = "Excluded" /\ exists node, cs_Conditions e = [node] /\
     exists client, exclusion_accepted h client node) \/
  (cs_Status e = "Drained" /\ exists node, cs_Conditions e = [node] /\ emptied h node).

(** A status that was read holds entries of the scaler only if the operator wrote them. *)
Definition served (h : ohist) : Prop :=
  forall name ns c h1, extends (Ev (Get KCluster name ns) (Ok c) :: h1) h ->
    forall e, e ∈ componentsStatus c -> cs_Component e = "Scaler" ->
    exists o r, saw h1 (StatusUpdate KCluster o) r /\ e ∈ componentsStatus o.

(** What the other parts of the operator do: their status writes keep the entries of the
    scaler they have read. *)
Definition keeps_entries (h : ohist) (q : req) : Prop :=
  match q with
  | StatusUpdate KCluster o =>
      forall e, e ∈ componentsStatus o -> cs_Component e = "Scaler" ->
      exists name ns c, saw h (Get KCluster name ns) (Ok c) /\ e ∈ componentsStatus c
  | _ => True
  end.

Lemma emptied_extends h h' node : extends h h' -> emptied h node -> emptied h' node.
Proof.
  intros [k ->] (l & h1 & -> & Hex & client & He). exists (k ++ l), h1.
  split_and!; [by rewrite app_assoc|done|]. exists client.
  eapply seems_empty_mono; [|exact He]. set_solver.
Qed.

Lemma backed_extends h h' e : extends h h' -> backed h e -> backed h' e.
Proof.
  intros He Hb Hc. destruct (Hb Hc) as [?|[(Hs & node & Hn & client & Hx)|(Hs & node & Hn & Hx)]].
  - by left.
  - right; left. split; [done|]. exists node. split; [done|]. exists client.
    by eapply exclusion_accepted_extends.
  - right; right. split; [done|]. exists node. split; [done|]. by eapply emptied_extends.
Qed.

(** A backed entry that is being drained names its node. *)
Lemma backed_target h e node :
  backed h e -> cs_Component e = "Scaler" -> targets e node ->
  (cs_Status e = "Excluded" -> exists client, exclusion_accepted h client node) /\
  (cs_Status e = "Drained" -> emptied h node).
Proof.
  intros Hb Hc Ht. unfold targets in Ht.
  destruct (Hb Hc) as [[[-> | ->] _]|[(-> & n & Hn & Hx)|(-> & n & Hn & Hx)]]; [done|done| |];
    rewrite Hn in Ht; destruct Ht as [|[= ->]]; done.
Qed.

(** Steps lead from backed entries to backed entries. *)
Lemma step_backed smart h0 h pool sts n entry e :
  extends h0 h -> scale_step smart h0 h pool sts n entry (Some e) ->
  (forall e0, entry = Some e0 -> backed h0 e0 /\ cs_Component e0 = "Scaler") ->
  backed h e.
Proof.
  intros He Hs Hb _. inversion Hs as [? Hi|? client Hi Hsm Hd Hex|e0 client l Hx _ Ht Hl Hem|
    e0 Hr|?|e0 Hw Hr|?]; subst; simpl.
  - left. auto.
  - right; left. eauto.
  - right; right. split; [done|]. eexists. split; [done|].
    destruct (Hb e0) as [Hb0 Hc0]; [done|].
    destruct (backed_target h0 e0 (last_node sts n)) as [Hex _]; [done..|].
    exists l, h0. split_and!; [done|by apply Hex|by exists client].
  - left. auto.
  - left. auto.
Qed.

Lemma served_extends h h' : extends h h' -> served h' -> served h.
Proof. intros He Hs name ns c h1 H1. eapply (Hs name ns). by etransitivity. Qed.

Lemma saw_split h q (r : resp q) : saw h q r -> exists h1, extends (Ev q r :: h1) h.
Proof. intros (l1 & l2 & ->)%list_elem_of_split. exists l2. by exists l1. Qed.

Lemma calls_ok_extends (P : ohist -> req -> Prop) h h' :
  extends h h' -> calls_ok P h' -> calls_ok P h.
Proof. intros [l ->]. induction l as [|e l IH]; simpl; [done|]. intros [_ ?]. auto. Qed.

Definition written_backed (h : ohist) (q : req) : Prop :=
  match q with
  | StatusUpdate KCluster o => forall e, e ∈ componentsStatus o -> backed h e
  | _ => True
  end.

(** The entries of a status that was read are backed, if the written ones are. *)
Lemma read_backed h name ns c e :
  calls_ok written_backed h -> served h -> saw h (Get KCluster name ns) (Ok c) ->
  e ∈ componentsStatus c -> backed h e.
Proof.
  intros Hok Hs Hc He Hk. destruct (saw_split _ _ _ Hc) as [h1 H1].
  destruct (Hs name ns c h1 H1 e He Hk) as (o & r & Ho & Heo).
  destruct (saw_split _ _ _ Ho) as [h2 H2].
  assert (extends (Ev (StatusUpdate KCluster o) r :: h2) h) as H3.
  { etransitivity; [exact H2|]. etransitivity; [|exact H1]. auto with go. }
  apply (calls_ok_extends _ _ _ H3) in Hok as [Hw _].
  eapply (backed_extends h2); [|by apply Hw|done]. etransitivity; [|exact H3]. auto with go.
Qed.

Section Operation.
Context `{RP : RetryPolicy} `{PE : ProcEnv} `{CR : Crypto} `{LL : LabelLib} `{CB : Combiner}.

(** The cluster was read. *)
Definition was_read (h : ohist) (instance : OpenSearchCluster) : Prop :=
  saw h (Get KCluster (cl_Name instance) (cl_Namespace instance)) (Ok instance).

(** The histories of the operator: reconciliations of the scaler, each on a cluster read
    before, between requests of the other parts. *)
Inductive operated : ohist -> Prop :=
| operated_start : operated []
| operated_other h q r : operated h -> keeps_entries h q -> operated (Ev q r :: h)
| operated_scale h instance w :
    operated h -> was_read h instance -> operated (run w (ScalerReconcile instance) h).2.

(** A status write is a step of the protocol or keeps the entries. *)
Definition legal (h : ohist) (q : req) : Prop :=
  match q with
  | StatusUpdate KCluster o =>
      keeps_entries h q \/
      exists instance h0, extends h0 h /\ was_read h0 instance /\ protocol_write instance h0 h o
  | _ => True
  end.

Lemma operated_legal h : operated h -> calls_ok legal h.
Proof.
  induction 1 as [|h q r _ IH Hq|h instance w _ IH Hr]; [done| |].
  - split; [|done]. destruct q as [| | |[]| | | | | |]; try done. by left.
  - eapply wp_sound; [|exact IH]. eapply wp_mono_ext; [| |apply (wp_ScalerReconcile_protocol instance h)];
      [|by intros].
    intros h' q He Hq. destruct q as [| | |[]| | | | | |]; try done.
    right. by exists instance, h.
Qed.

Lemma move_elem pool entry entry' s e :
  e ∈ move pool entry entry' s -> e ∈ s \/ entry' = Some e.
Proof.
  assert (Hr : forall cs, e ∈ RemoveIt cs s -> e ∈ s).
  { intros cs H. eapply elem_of_sublist; [exact H|apply RemoveIt_sublist]. }
  destruct entry' as [new|]; simpl; [|eauto]. unfold Replace.
  rewrite elem_of_app, list_elem_of_singleton. intros [H| ->]; eauto.
Qed.

Lemma legal_backed h : calls_ok legal h -> served h -> calls_ok written_backed h.
Proof.
  induction h as [|[q r] h IH]; [done|]. intros [Hl Hok] Hs.
  assert (served h) as Hs' by (eapply served_extends; [|exact Hs]; auto with go).
  specialize (IH Hok Hs'). split; [|done]. cbn [ev_req] in *.
  destruct q as [| | |[] o| | | | | |]; try done. intros e He.
  destruct Hl as [Hk|(instance & h0 & H0 & Hr & Hw)].
  - intros Hc. destruct (Hk e He Hc) as (name & ns & c & Hg & Hec). by eapply read_backed.
  - destruct Hw as (pool & sts & n & entry & entry' & c & s & _ & Hen & Hst & Hg & Hsl & ->).
    assert (Hin : forall e, e ∈ componentsStatus instance -> backed h0 e).
    { intros e' He'. eapply read_backed; [by eapply calls_ok_extends|by eapply served_extends|
        exact Hr|done]. }
    assert (Hwait : forall h' p, backed h' (scalerStatus "Waiting" p [])) by (left; auto).
    apply (move_elem pool entry entry' s) in He as [He| ->].
    + destruct Hsl as [-> |[_ Hv%own_view_ok]]; [by eapply read_backed; [..|apply just_saw_saw|]|].
      destruct (Hv e He) as [Hi|[p ->]]; [|done]. eapply backed_extends; [exact H0|by apply Hin].
    + eapply step_backed; [exact H0|exact Hst|]. intros e0 ->.
      destruct (Hen e0 eq_refl) as [Hsrc [= Hk _]]. split; [|done].
      destruct Hsrc as [Hi|[p ->]]; [by apply Hin|done].
Qed.

(** A change of a stateful set, where a pool shrinks under the smart scaler only by a node
    that was emptied. *)
Definition safe_change (instance : OpenSearchCluster) (h : ohist) (o : StatefulSet)
    (s : DesiredState) : Prop :=
  (s = StatePresent /\ exists pool sts n,
     pool_seen instance h pool sts n /\
     ((wrap32 (n - np_Replicas pool) < 0 /\ o = sts_with_Replicas (Some (wrap32 (n + 1))) sts) \/
      (o = sts_with_Replicas (Some (wrap32 (n - 1))) sts /\
       (smartScaler instance = true -> emptied h (last_node sts n))))) \/
  pool_removal instance h o s.

Lemma scaler_change_safe instance h0 h o s :
  (forall e, e ∈ componentsStatus instance -> backed h0 e) -> extends h0 h ->
  scaler_change instance h o s -> safe_change instance h o s.
Proof.
  intros Hb He [(-> & pool & sts & n & r & Hp & Hs & Hn & Hc)|Hr]; [left|by right].
  split; [done|]. exists pool, (sts_with_ReadyReplicas r sts), n. split.
  { split_and!; [done|done|]. by exists sts, r. }
  destruct Hc as [?|(_ & -> & Hd)]; [by left|right]. split; [done|]. intros Hsm.
  destruct Hd as [?|(e & Hin & Hk & _ & Hst & Ht)]; [congruence|].
  eapply emptied_extends; [exact He|].
  by eapply (backed_target h0 e (ReplicaHostName sts (wrap32 (n - 1)))); [apply Hb| | |].
Qed.

(** What [P] asks of the requests made since [h0]. *)
Definition since (h0 : ohist) (P : ohist -> req -> Prop) (h : ohist) (q : req) : Prop :=
  extends h0 h -> P h q.

Lemma calls_since h0 P : calls_ok (since h0 P) h0.
Proof.
  assert (Hgo : forall h, (length h <= length h0)%nat -> calls_ok (since h0 P) h).
  { induction h as [|e h IH]; [done|]. simpl. intros Hl. split; [|apply IH; lia].
    intros [l ->]. rewrite length_app in Hl. lia. }
  by apply Hgo.
Qed.

(** ** Theorems *)

(** C17: the scaler implements the scale-down protocol: each of its status writes is a step of
    [scale_step] on the entry of one pool.  It is made on the list of the cluster just fetched or,
    once the pool has reached its size, on the list of the reconciler's own instance as the pools
    that were settled before left it (which replaces the fetched list as a whole); every other field
    of the status is written as it was fetched. *)
Theorem scaler_follows_protocol (instance : OpenSearchCluster) (w : oenv) :
  calls_ok (status_guarded (protocol_write instance [])) (run w (ScalerReconcile instance) []).2.
Proof. eapply wp_run, wp_ScalerReconcile_protocol. Qed.

(** C18: over any number of reconciliations, with the other parts of the operator between
    them, every entry of the scaler that is written is backed by what happened before: an
    entry that says [Excluded] names one node whose exclusion OpenSearch accepted, one that
    says [Drained] names one node that was excluded and of which a later shard listing showed
    nothing or failed.  Premise: the scaler's entries that are read were written before. *)
Theorem entries_backed h : operated h -> served h -> calls_ok written_backed h.
Proof. intros Ho Hs. by apply legal_backed; [apply operated_legal|]. Qed.

(** C2: so the smart scaler removes a node of a pool only after OpenSearch accepted its
    exclusion and a later shard listing showed nothing on it or failed, however many
    reconciliations lie between and whatever the API server and OpenSearch answered. *)
Theorem shrink_after_drain h (instance : OpenSearchCluster) (w : oenv) :
  operated h -> served h -> was_read h instance ->
  calls_ok (since h (sts_guarded (safe_change instance))) (run w (ScalerReconcile instance) h).2.
Proof.
  intros Ho Hs Hr. eapply wp_sound; [|apply calls_since].
  eapply wp_mono_ext; [| |apply (wp_ScalerReconcile instance h)]; [|by intros].
  intros h' q He Hq _. destruct q as [| | | | |[] o s| | | |]; try done.
  eapply scaler_change_safe; [|exact He|exact Hq]. intros e Hin.
  eapply read_backed; [by apply legal_backed; [apply operated_legal|]|done|exact Hr|done].
Qed.

End Operation.

(** ** Witnesses and examples *)

Import Fixtures.Samples.

(** Checking [served] by evaluation. *)
Definition written_entries (ev : event resp) : list ComponentStatus :=
  match ev with
  | Ev (StatusUpdate KCluster o) _ => componentsStatus o
  | _ => []
  end.
Definition read_entries (ev : event resp) : list ComponentStatus :=
  let '(Ev q r) := ev in
  match q return resp q -> list ComponentStatus with
  | Get KCluster _ _ => fun r => match r with Ok c => componentsStatus c | Err _ => [] end
  | _ => fun _ => []
  end r.
Fixpoint servedb (h : ohist) : bool :=
  match h with
  | [] => true
  | ev :: h1 =>
      forallb (λ e, (cs_Component e != "Scaler") ||
                    existsb (λ ev1, bool_decide (e ∈ written_entries ev1)) h1) (read_entries ev)
      && servedb h1
  end.

Lemma servedb_served h : servedb h = true -> served h.
Proof.
  intros Hb name ns c h1 [l ->] e He Hk.
  assert (servedb (Ev (Get KCluster name ns) (Ok c) :: h1) = true) as Hx.
  { revert Hb. clear. induction l as [|ev l IH]; [done|].
    change (servedb ((ev :: l) ++ ?x)) with
      (forallb (λ e, (cs_Component e != "Scaler") ||
          existsb (λ ev1, bool_decide (e ∈ written_entries ev1)) (l ++ x)) (read_entries ev)
       && servedb (l ++ x)).
    by intros [_ ?]%andb_true_iff; apply IH. }
  apply andb_true_iff in Hx as [Hx _]. rewrite forallb_forall in Hx.
  specialize (Hx e ltac:(by apply list_elem_of_In)). cbn beta in Hx.
  rewrite Hk, bool_decide_true in Hx by done. simpl in Hx.
  apply existsb_exists in Hx as ([q r] & Hin & Hw%bool_decide_eq_true).
  destruct q as [| | |[] o| | | | | |]; try by apply not_elem_of_nil in Hw.
  exists o, r. split; [by apply list_elem_of_In|done].
Qed.

(** An API server that keeps the status that was written last. *)
Fixpoint stored (c : OpenSearchCluster) (h : ohist) : OpenSearchCluster :=
  match h with
  | [] => c
  | Ev (StatusUpdate KCluster o) _ :: _ => o
  | _ :: h' => stored c h'
  end.
Definition keeping (c : OpenSearchCluster) (s : StatefulSet) : oenv := fun q h =>
  world (stored c h) s (ok_resp []) green q h.

(** One reconciliation: the cluster is read, then the scaler runs. *)
Definition read_cluster (c : OpenSearchCluster) : req := Get KCluster (cl_Name c) (cl_Namespace c).
Definition read_then (c : OpenSearchCluster) (h : ohist) : ohist :=
  Ev (read_cluster c) (Ok (stored c h)) :: h.
Definition round (c : OpenSearchCluster) (s : StatefulSet) (h : ohist) : ohist :=
  (run (keeping c s) (ScalerReconcile (stored c h)) (read_then c h)).2.

Definition two_nodes : NodePool := plainNodePool "nodes" 2 ["cluster_manager"; "data"].
Definition shrinking (cs : list ComponentStatus) : OpenSearchCluster :=
  cluster_with true false [two_nodes] (running cs).

(** The rounds that exclude and drain a node, the cluster they leave, and the history after it
    is read again. *)
Definition drain_rounds : ohist :=
  let c := shrinking [] in round c (sts_of "os-nodes" 3) (round c (sts_of "os-nodes" 3) []).
Definition drained_cluster : OpenSearchCluster := stored (shrinking []) drain_rounds.
Definition drained_history : ohist := read_then (shrinking []) drain_rounds.

Example drained_entry :
  componentsStatus drained_cluster = [scalerStatus "Drained" "nodes" ["os-nodes-2"]].
Proof. vm_compute. reflexivity. Qed.

Lemma read_then_was_read c h :
  cl_Name (stored c h) = cl_Name c -> cl_Namespace (stored c h) = cl_Namespace c ->
  was_read (read_then c h) (stored c h).
Proof. intros Hn Hns. unfold was_read. rewrite Hn, Hns. apply saw_here. Qed.

Lemma round_operated c s h :
  operated h -> cl_Name (stored c h) = cl_Name c -> cl_Namespace (stored c h) = cl_Namespace c ->
  operated (round c s h).
Proof.
  intros Ho Hn Hns. apply operated_scale; [by apply operated_other|].
  by apply read_then_was_read.
Qed.

Lemma drained_operated : operated drained_history.
Proof.
  unfold drained_history, read_then. apply operated_other; [|exact I].
  unfold drain_rounds. cbv zeta.
  apply round_operated; [|vm_compute; reflexivity|vm_compute; reflexivity].
  apply round_operated; [apply operated_start|reflexivity|reflexivity].
Qed.

Lemma drained_served : served drained_history.
Proof. apply servedb_served. vm_compute. reflexivity. Qed.

Lemma entries_backed_witness :
  existsb (λ ev, bool_decide (scalerStatus "Drained" "nodes" ["os-nodes-2"] ∈ written_entries ev))
    drained_history = true /\
  calls_ok written_backed drained_history.
Proof.
  split; [vm_compute; reflexivity|].
  apply entries_backed; [exact drained_operated|exact drained_served].
Defined.

Lemma shrink_after_drain_witness :
  let h := (run (keeping (shrinking []) (sts_of "os-nodes" 3)) (ScalerReconcile drained_cluster)
              drained_history).2 in
  existsb (λ ev, match ev with
                 | Ev (ReconcileResource KStatefulSet o StatePresent) _ =>
                     bool_decide (sts_Replicas o = Some 2)
                 | _ => false
                 end) h = true /\
  calls_ok (since drained_history (sts_guarded (safe_change drained_cluster))) h.
Proof.
  intros h. split; [vm_compute; reflexivity|].
  apply shrink_after_drain; [exact drained_operated|exact drained_served|].
  apply (read_then_was_read (shrinking []) drain_rounds); vm_compute; reflexivity.
Defined.

(** A scale-down that starts while the entry says [Waiting] leaves two entries for the pool:
    the entry is looked up again under its old status after it was changed to [Running]. *)
Theorem waiting_scale_down_duplicates :
  let c := shrinking [scalerStatus "Waiting" "nodes" []] in
  componentsStatus (stored c (round c (sts_of "os-nodes" 3) [])) =
  [scalerStatus "Running" "nodes" []; scalerStatus "Excluded" "nodes" ["os-nodes-2"]].
Proof. vm_compute. reflexivity. Qed.
