(* ===== verification/Upgrade.v ===== *)
(** * Upgrade: the version upgrade of a cluster

    Models [pkg/reconcilers/upgrade.go]: validation of the requested version, the order in
    which node pools are upgraded, the upgrade of one pod of the working pool, and the
    component statuses that record the progress. *)

From S2P Require Import Prelude Prog Resources Api K8sClient Helpers OsClient OsData ReconcilerUtil Fixtures.

Definition ErrVersionDowngrade : err := OtherErr "version requested is downgrade".
Definition ErrMajorVersionJump : err :=
  OtherErr "version request is more than 1 major version ahead".
Definition ErrUnexpectedStatus : err := OtherErr "unexpected upgrade status".

Definition componentNameUpgrader : string := "Upgrader".
Definition upgradeStatusPending : string := "Pending".
Definition upgradeStatusInProgress : string := "Upgrading".
Definition upgradeStatusFinished : string := "Finished".

Definition upgraderStatus (status pool : string) (conditions : list string)
    : ComponentStatus := mkCS componentNameUpgrader status pool conditions.

Definition upgradeEvent (etype msg : string) : io unit := ask (RecordEvent etype "Upgrade" msg).

(** ** The next node pool *)

Section Order.
Variable instance : OpenSearchCluster.

(** [FindFirstPartial] for the pool's upgrade entry. *)
Definition findUpgradeEntry (pool : NodePool) : ComponentStatus * bool :=
  FindFirstPartial (componentsStatus instance) (upgraderStatus "" (np_Component pool) [])
    GetByDescriptionAndComponent.

Fixpoint findInProgress (pools : list NodePool) : NodePool * bool :=
  match pools with
  | [] => (zeroNodePool, false)
  | nodePool :: rest =>
      let '(currentStatus, found) := findUpgradeEntry nodePool in
      if found && (cs_Status currentStatus == upgradeStatusInProgress)
      then (nodePool, true) else findInProgress rest
  end.

Fixpoint findNextPool (pools : list NodePool) : NodePool * bool :=
  match pools with
  | [] => (zeroNodePool, false)
  | nodePool :: rest =>
      let '(_, found) := findUpgradeEntry nodePool in
      if negb found then (nodePool, true) else findNextPool rest
  end.

(** The three groups of pools, in the order of the specification. *)
Definition dataNodes : list NodePool :=
  filter (λ p, HasDataRole p = true /\ HasManagerRole p = false) (nodePools instance).
Definition dataAndMasterNodes : list NodePool :=
  filter (λ p, HasDataRole p = true /\ HasManagerRole p = true) (nodePools instance).
Definition otherNodes : list NodePool :=
  filter (λ p, HasDataRole p = false) (nodePools instance).

(** One group: the pool in progress, else the first one without an entry, else the rest of
    the search. *)
Definition findInGroup (pools : list NodePool) (rest : NodePool * ComponentStatus)
    : NodePool * ComponentStatus :=
  let '(pool, found) := findInProgress pools in
  if (found : bool) then (pool, upgraderStatus upgradeStatusInProgress (np_Component pool) [])
  else
    let '(pool, found) := findNextPool pools in
    if (found : bool) then (pool, upgraderStatus upgradeStatusPending (np_Component pool) [])
    else rest.

Definition findNextNodePoolForUpgrade : NodePool * ComponentStatus :=
  findInGroup dataNodes
    (findInGroup dataAndMasterNodes
       (findInGroup otherNodes
          (zeroNodePool, upgraderStatus upgradeStatusFinished "" []))).

End Order.

(** ** Status updates *)

(** The closure of [setComponentConditions]; [conditions] is the captured variable, which it
    overwrites after having built the new entry. *)
Definition setConditions (component : string) (conditions : list string)
    (instance : OpenSearchCluster) : list string * OpenSearchCluster :=
  let currentStatus := upgraderStatus upgradeStatusInProgress component [] in
  let '(componentStatus, found) :=
    FindFirstPartial (componentsStatus instance) currentStatus GetByDescriptionAndComponent in
  let newStatus := upgraderStatus upgradeStatusInProgress component conditions in
  (if (found : bool) then cs_Conditions componentStatus ++ conditions else conditions,
   with_status (fun st =>
     set_ComponentsStatus (Replace componentStatus newStatus (st_ComponentsStatus st)) st)
     instance).

(** The closure that starts the upgrade of a pool. *)
Definition startPool (componentStatus : ComponentStatus) : OpenSearchCluster -> OpenSearchCluster :=
  with_status (fun st =>
    set_ComponentsStatus (st_ComponentsStatus st ++
      [mkCS (cs_Component componentStatus) upgradeStatusInProgress
            (cs_Description componentStatus) (cs_Conditions componentStatus)]) st).

(** The closure that records the end of the upgrade of a pool. *)
Definition finishPool (component : string) : OpenSearchCluster -> OpenSearchCluster :=
  with_status (fun st =>
    set_ComponentsStatus
      (Replace (upgraderStatus upgradeStatusInProgress component [])
         (upgraderStatus "Upgraded" component []) (st_ComponentsStatus st)) st).

(** The entries of the pools are removed one after the other. *)
Definition removeUpgradeEntry (l : list ComponentStatus) (pool : NodePool)
    : list ComponentStatus :=
  let '(currentStatus, found) :=
    FindFirstPartial l (upgraderStatus "" (np_Component pool) []) GetByDescriptionAndComponent in
  if (found : bool) then RemoveIt currentStatus l else l.

(** The closure that ends the upgrade of the cluster. *)
Definition finishUpgrade (instance : OpenSearchCluster) : OpenSearchCluster :=
  with_status (fun st =>
    set_ComponentsStatus
      (fold_left removeUpgradeEntry (nodePools instance) (st_ComponentsStatus st))
      (set_Phase PhaseRunning (set_StatusVersion (specVersion instance) st))) instance.

(** ** The reconciler *)

Section Upgrade.
Context `{RP : RetryPolicy} `{PE : ProcEnv} `{CR : Crypto} `{LL : LabelLib} `{SV : Semver}.
Variable instance : OpenSearchCluster.

Definition validateUpgrade : io (option err) :=
  match NewVersion (st_Version (cl_Status instance)) with
  | Err e => Ret (Some e)
  | Ok existing =>
      match NewVersion (specVersion instance) with
      | Err e => Ret (Some e)
      | Ok new =>
          if LessThan new existing then
            do! upgradeEvent "Error" "Invalid version: specified version is a downgrade" in
            Ret (Some ErrVersionDowngrade)
          else
            let nextMajor := IncMajor (IncMajor existing) in
            match NewConstraint ("< " +:+ VersionString nextMajor) with
            | Err e => Ret (Some e)
            | Ok upgradeConstraint =>
                if negb (ConstraintCheck upgradeConstraint new) then
                  do! upgradeEvent "Error" ("Invalid version: specified version is more than 1 "
                        +:+ "major version greater than existing") in
                  Ret (Some ErrMajorVersionJump)
                else Ret None
            end
      end
  end.

(** A failed status update is only logged. *)
Definition setComponentConditions (conditions : list string) (component : string) : io unit :=
  let! (_, _) := UpdateOpenSearchClusterStatusS (cl_Name instance) (cl_Namespace instance)
                   (setConditions component) conditions in
  Ret tt.

(** The part of [doNodePoolUpgrade] that deletes the working pod. *)
Definition restartWorkingPod (osClient : OsClusterClient) (component : string)
    (sts : StatefulSet) (dataCount : Z) : io (option err) :=
  let conditions := ["preparing for pod delete"] in
  let! w := WorkingPodForRollingRestart sts in
  match w with
  | Err e =>
      do! setComponentConditions (conditions ++ ["Could not find working pod"]) component in
      Ret (Some e)
  | Ok workingPod =>
      let! (ready, e) := PreparePodForDelete osClient workingPod (drainDataNodes instance)
                           dataCount in
      match e with
      | Some e =>
          do! setComponentConditions (conditions ++ ["Could not prepare pod for delete"])
                component in
          Ret (Some e)
      | None =>
          if negb ready then
            do! setComponentConditions (conditions ++ ["Waiting for node to drain"])
                  component in
            Ret None
          else
            let! e := DeletePod workingPod (sts_Namespace sts) in
            match e with
            | Some e =>
                do! setComponentConditions (conditions ++ ["Could not delete pod"]) component in
                Ret (Some e)
            | None =>
                do! setComponentConditions (conditions ++ ["Deleted pod " +:+ workingPod])
                      component in
                if drainDataNodes instance then
                  let! (_, e) := RemoveExcludeNodeHost osClient workingPod in Ret e
                else Ret None
            end
      end
  end.

Definition doNodePoolUpgrade (osClient : OsClusterClient) (pool : NodePool)
    : io (option err) :=
  let component := np_Component pool in
  let! r := GetStatefulSet (StsName instance pool) (cl_Namespace instance) in
  match r with
  | Err e => Ret (Some e)
  | Ok sts =>
      let! rr := ReadyReplicasForNodePool instance pool in
      match rr with
      | Err e => Ret (Some e)
      | Ok readyReplicas =>
          let sts := sts_with_ReadyReplicas readyReplicas sts in
          let! dataCount := DataNodesCount instance in
          if bool_decide (sts_ReadyReplicas sts < default 1 (sts_Replicas sts)) then
            do! setComponentConditions ["Waiting for all pods to be ready"] component in
            Ret None
          else
            let! e := DeleteUnsupportedClusterSettings osClient (specVersion instance) in
            match e with
            | Some e =>
                do! setComponentConditions ["Could not delete unsupported cluster settings"]
                      component in
                Ret (Some e)
            | None =>
                let! (ready, condition, e) :=
                  CheckClusterStatusForRestart osClient (drainDataNodes instance) in
                match e with
                | Some e =>
                    do! setComponentConditions ["Could not check opensearch cluster status"]
                          component in
                    Ret (Some e)
                | None =>
                    if negb ready then
                      do! setComponentConditions [condition] component in
                      Ret None
                    else if sts_UpdatedReplicas sts == default 1 (sts_Replicas sts) then
                      let! e := ReactivateShardAllocation osClient in
                      match e with
                      | Some e => Ret (Some e)
                      | None =>
                          do! upgradeEvent "Normal" ("Finished upgrade of node pool '" +:+
                                                     component +:+ "'") in
                          updateStatusOf instance (finishPool component)
                      end
                    else restartWorkingPod osClient component sts dataCount
                end
            end
      end
  end.

(** The switch over the state of the working node pool. *)
Definition upgradeNextPool (osClient : OsClusterClient) : io (Result * option err) :=
  let '(nodePool, componentStatus) := findNextNodePoolForUpgrade instance in
  if cs_Status componentStatus == upgradeStatusPending then
    let! e := updateStatusOf instance (startPool componentStatus) in
    do! upgradeEvent "Normal" ("Starting upgrade of node pool '" +:+
                               cs_Description componentStatus +:+ "'") in
    Ret (requeueIn 15, e)
  else if cs_Status componentStatus == upgradeStatusInProgress then
    let! e := doNodePoolUpgrade osClient nodePool in
    Ret (requeueIn 30, e)
  else if cs_Status componentStatus == upgradeStatusFinished then
    let! e := updateStatusOf instance finishUpgrade in
    do! upgradeEvent "Normal" ("Finished upgrade - NewVersion: " +:+ specVersion instance) in
    Ret (noResult, e)
  else Ret (noResult, Some ErrUnexpectedStatus).

(** After validation: client, clean-up of stale exclusions, next pool. *)
Definition continueUpgrade : io (Result * option err) :=
  let! c := CreateClientForCluster instance in
  match c with
  | Err e => Ret (noResult, Some e)
  | Ok osClient =>
      if drainDataNodes instance then
        let! (res, e) := CleanStaleExclusionList instance osClient in
        match e with
        | Some e => Ret (noResult, Some e)
        | None => if Requeue res then Ret (res, None) else upgradeNextPool osClient
        end
      else upgradeNextPool osClient
  end.

Definition UpgradeReconcile : io (Result * option err) :=
  let status := cl_Status instance in
  if specVersion instance == st_Version status then
    if st_Phase status == PhaseUpgrading then
      let! e := updateStatusOf instance (with_status (set_Phase PhaseRunning)) in
      Ret (noResult, e)
    else Ret (noResult, None)
  else if negb (st_Initialized status) then Ret (requeueIn 10, None)
  else
    let! v := validateUpgrade in
    match v with
    | Some e =>
        do! upgradeEvent "Normal" ("Failed to validation version, currentVersion: " +:+
              st_Version status +:+ " , requestedVersion: " +:+ specVersion instance) in
        Ret (noResult, Some e)
    | None =>
        if st_Phase status != PhaseUpgrading then
          let! e := updateStatusOf instance (with_status (set_Phase PhaseUpgrading)) in
          match e with
          | Some e => Ret (noResult, Some e)
          | None => continueUpgrade
          end
        else continueUpgrade
    end.

End Upgrade.

(** ** Footprints *)

Lemma only_upgradeEvent R t m : (forall r s u, R (RecordEvent r s u)) -> only R (upgradeEvent t m).
Proof. intros H. apply only_call, H. Qed.
#[export] Hint Extern 2 (only _ (upgradeEvent _ _)) => by apply only_upgradeEvent : only.

Section UpgradeProofs.
Context `{RP : RetryPolicy} `{PE : ProcEnv} `{CR : Crypto} `{LL : LabelLib} `{SV : Semver}.
Variable instance : OpenSearchCluster.

Lemma only_validateUpgrade : only reads (validateUpgrade instance).
Proof. unfold validateUpgrade. only_auto. Qed.
Lemma only_setComponentConditions cs c :
  only no_workload (setComponentConditions instance cs c).
Proof. unfold setComponentConditions. only_auto. Qed.
#[local] Hint Resolve only_validateUpgrade only_setComponentConditions : only.

(** ** The deletion of pods *)

(** The working pool of the upgrade: in progress, and the next one in the upgrade order. *)
Definition working_pool (pool : NodePool) : Prop :=
  findNextNodePoolForUpgrade instance =
    (pool, upgraderStatus upgradeStatusInProgress (np_Component pool) []).

(** When the upgrade deletes a pod: it is an outdated pod of the working pool, all replicas of
    the pool are ready, the cluster may be restarted on, and the pod has been prepared. *)
Definition upgrade_delete (h : ohist) (name ns : string) : Prop :=
  exists pool sts c pod n k,
    working_pool pool /\
    saw h (Get KStatefulSet (StsName instance pool) (cl_Namespace instance)) (Ok sts) /\
    ns = sts_Namespace sts /\ name = pod_Name pod /\ outdated_pod h sts pod /\
    ready_pods h instance pool k /\ default 1 (sts_Replicas sts) <= k /\
    restart_allowed h c /\ pod_prepared h c name (drainDataNodes instance) n.

Lemma outdated_pod_ready h sts pod r :
  outdated_pod h (sts_with_ReadyReplicas r sts) pod -> outdated_pod h sts pod.
Proof. done. Qed.

Lemma wp_restartWorkingPod W c comp sts n h :
  (forall h' pod, extends h h' -> outdated_pod h' sts pod ->
     pod_prepared h' c (pod_Name pod) (drainDataNodes instance) n ->
     W h' (pod_Name pod) (sts_Namespace sts)) ->
  wp (restartWorkingPod instance c comp sts n) (pod_guarded W) (λ _ _, True) h.
Proof.
  intros HW. unfold restartWorkingPod. wp_step. apply wp_WorkingPod.
  - intros. by apply pod_guarded_no_workload, reads_no_workload.
  - intros h1 e H1. wp_step. wp_done.
  - intros h1 pod H1 Hpod. wp_step. wp_step. apply wp_PreparePodForDelete.
    + intros. by apply pod_guarded_no_workload.
    + intros h2 [e|] H2; wp_step; cbn [negb]; wp_done.
    + done.
    + intros h2 H2 Hprep. wp_step. cbn [negb]. unfold DeletePod. wp_step.
      { apply HW; [by etransitivity|by eapply outdated_pod_extends|done]. }
      destruct r; wp_done.
Qed.

Lemma wp_doNodePoolUpgrade c pool h :
  working_pool pool ->
  wp (doNodePoolUpgrade instance c pool) (pod_guarded upgrade_delete) (λ _ _, True) h.
Proof.
  intros Hw. unfold doNodePoolUpgrade, GetStatefulSet. wp_step; [done|].
  destruct r as [sts|e]; [|wp_done]. set (h1 := _ :: h).
  assert (saw h1 (Get KStatefulSet (StsName instance pool) (cl_Namespace instance)) (Ok sts))
    as Hs by apply saw_here.
  wp_step. apply wp_ReadyReplicas; [|by intros; repeat wp_step|].
  { intros. by apply pod_guarded_no_workload, reads_no_workload. }
  intros h2 k H2 Hk. wp_step. wp_skip h3 as n.
  destruct (bool_decide_reflect (sts_ReadyReplicas (sts_with_ReadyReplicas k sts) <
    default 1 (sts_Replicas (sts_with_ReadyReplicas k sts)))) as [|Hready]; [wp_done|].
  cbn in Hready. wp_skip h4 as [e|]; [wp_done|].
  wp_step. apply wp_CheckClusterStatusForRestart.
  { intros. by apply pod_guarded_no_workload. }
  { intros h5 msg [e|] H5; wp_step; cbn [negb]; wp_done. }
  intros h5 H5 Hok. wp_step. cbn [negb].
  destruct (_ == _); [wp_done|]. apply wp_restartWorkingPod.
  intros h6 pod H6 Hpod Hprep.
  assert (extends h2 h6) by (by do 3 (etransitivity; [|eassumption])).
  exists pool, sts, c, pod, n, k.
  split_and!; try done.
  - eapply saw_extends; [|exact Hs]. by etransitivity.
  - by eapply ready_pods_extends.
  - lia.
  - eapply restart_allowed_extends; [exact H6|exact Hok].
Qed.

Lemma findInGroup_status pools rest pool cs :
  findInGroup instance pools rest = (pool, cs) ->
  cs_Status cs = upgradeStatusInProgress ->
  cs = upgraderStatus upgradeStatusInProgress (np_Component pool) [] \/ rest = (pool, cs).
Proof.
  unfold findInGroup. destruct (findInProgress instance pools) as [p [|]].
  { intros [= <- <-] _. by left. }
  destruct (findNextPool instance pools) as [p' [|]]; [|by right].
  by intros [= <- <-].
Qed.

Lemma findNext_in_progress pool cs :
  findNextNodePoolForUpgrade instance = (pool, cs) ->
  cs_Status cs = upgradeStatusInProgress -> working_pool pool.
Proof.
  intros Hf Hs. unfold working_pool. rewrite Hf. f_equal. unfold findNextNodePoolForUpgrade in Hf.
  do 3 (apply findInGroup_status in Hf as [?|Hf]; [done| |done]).
  by injection Hf as <- <-.
Qed.

Lemma wp_upgradeNextPool c h :
  wp (upgradeNextPool instance c) (pod_guarded upgrade_delete) (λ _ _, True) h.
Proof.
  unfold upgradeNextPool. destruct (findNextNodePoolForUpgrade instance) as [pool cs] eqn:Ef.
  destruct (cs_Status cs == upgradeStatusPending); [wp_done|].
  destruct (bool_decide_reflect (cs_Status cs = upgradeStatusInProgress)) as [Hs|];
    [|destruct (_ == _); wp_done].
  wp_step. eapply wp_mono; [done| |apply wp_doNodePoolUpgrade; by eapply findNext_in_progress].
  intros h1 [e|m] _; wp_step; [by wp_step|done].
Qed.

Lemma wp_continueUpgrade h :
  wp (continueUpgrade instance) (pod_guarded upgrade_delete) (λ _ _, True) h.
Proof.
  unfold continueUpgrade. wp_skip h1 as [c|e]; [|wp_done].
  destruct (drainDataNodes instance); [|apply wp_upgradeNextPool].
  wp_skip h2 as [res [e|]]; [wp_done|]. destruct (Requeue res); [wp_done|].
  apply wp_upgradeNextPool.
Qed.

Lemma wp_UpgradeReconcile h :
  wp (UpgradeReconcile instance) (pod_guarded upgrade_delete) (λ _ _, True) h.
Proof.
  unfold UpgradeReconcile. cbv zeta. destruct (_ == _); [destruct (_ == _); wp_done|].
  destruct (negb _); [wp_done|]. wp_skip h1 as [e|]; [wp_done|].
  destruct (negb _); [|apply wp_continueUpgrade].
  wp_skip h2 as [e|]; [wp_done|apply wp_continueUpgrade].
Qed.

(** ** The order of the pools *)

(** The pool has not been started, is in progress, or is done. *)
Definition pool_unstarted (p : NodePool) : Prop := (findUpgradeEntry instance p).2 = false.
Definition pool_in_progress (p : NodePool) : Prop :=
  (findUpgradeEntry instance p).2 = true /\
  cs_Status (findUpgradeEntry instance p).1 = upgradeStatusInProgress.
Definition pool_done (p : NodePool) : Prop :=
  (findUpgradeEntry instance p).2 = true /\
  cs_Status (findUpgradeEntry instance p).1 <> upgradeStatusInProgress.

(** What choosing [p] in state [cs] among the pools of one group means. *)
Definition chosen (pools : list NodePool) (p : NodePool) (cs : ComponentStatus) : Prop :=
  p ∈ pools /\
  ((cs = upgraderStatus upgradeStatusInProgress (np_Component p) [] /\ pool_in_progress p) \/
   (cs = upgraderStatus upgradeStatusPending (np_Component p) [] /\ pool_unstarted p /\
    Forall (λ q, ~ pool_in_progress q) pools)).

Lemma findInProgress_spec pools :
  match findInProgress instance pools with
  | (p, true) => p ∈ pools /\ pool_in_progress p
  | (_, false) => Forall (λ q, ~ pool_in_progress q) pools
  end.
Proof.
  induction pools as [|x l IH]; simpl; [constructor|].
  destruct (findUpgradeEntry instance x) as [cs found] eqn:Ex.
  assert (Hx : pool_in_progress x <-> found = true /\ cs_Status cs = upgradeStatusInProgress)
    by (unfold pool_in_progress; by rewrite Ex).
  destruct (_ && _) eqn:E.
  - apply andb_true_iff in E as [-> Hs%bool_decide_eq_true].
    split; [constructor|by apply Hx].
  - destruct (findInProgress instance l) as [p [|]]; [destruct IH; split; [by constructor|done]|].
    constructor; [|done]. rewrite Hx. intros [-> Hs]. by rewrite bool_decide_true in E.
Qed.

Lemma findNextPool_spec pools :
  match findNextPool instance pools with
  | (p, true) => p ∈ pools /\ pool_unstarted p
  | (_, false) => Forall (λ q, ~ pool_unstarted q) pools
  end.
Proof.
  induction pools as [|x l IH]; simpl; [constructor|].
  destruct (findUpgradeEntry instance x) as [cs found] eqn:Ex. destruct found; simpl.
  - destruct (findNextPool instance l) as [p [|]]; [destruct IH; split; [by constructor|done]|].
    constructor; [|done]. unfold pool_unstarted. by rewrite Ex.
  - split; [constructor|]. unfold pool_unstarted. by rewrite Ex.
Qed.

Lemma findInGroup_spec pools rest p cs :
  findInGroup instance pools rest = (p, cs) ->
  chosen pools p cs \/ (Forall pool_done pools /\ rest = (p, cs)).
Proof.
  unfold findInGroup. pose proof (findInProgress_spec pools) as H1.
  destruct (findInProgress instance pools) as [q [|]].
  { intros [= <- <-]. left. destruct H1. split; [done|by left]. }
  pose proof (findNextPool_spec pools) as H2. destruct (findNextPool instance pools) as [q' [|]].
  { intros [= <- <-]. left. destruct H2. split; [done|by right]. }
  intros ->. right. split; [|done]. rewrite Forall_forall in *. intros x Hx.
  specialize (H1 x Hx). specialize (H2 x Hx). unfold pool_in_progress, pool_unstarted in *.
  split; [by destruct (findUpgradeEntry instance x).2|]. intros Hc. apply H1.
  split; [by destruct (findUpgradeEntry instance x).2|done].
Qed.

(** The upgrade order: pools that only hold data, then pools that hold data and are cluster
    managers, then the others; a later group waits for the earlier ones to be done. *)
Lemma findNext_ordered p cs :
  findNextNodePoolForUpgrade instance = (p, cs) ->
  chosen (dataNodes instance) p cs \/
  (Forall pool_done (dataNodes instance) /\ chosen (dataAndMasterNodes instance) p cs) \/
  (Forall pool_done (dataNodes instance) /\ Forall pool_done (dataAndMasterNodes instance) /\
   chosen (otherNodes instance) p cs) \/
  (Forall pool_done (nodePools instance) /\ p = zeroNodePool /\
   cs = upgraderStatus upgradeStatusFinished "" []).
Proof.
  intros H. apply findInGroup_spec in H as [?|[H1 H]]; [by left|right].
  apply findInGroup_spec in H as [?|[H2 H]]; [by left|right].
  apply findInGroup_spec in H as [?|[H3 H]]; [by left|right].
  split; [|by injection H as <- <-]. rewrite Forall_forall in *. intros x Hx.
  destruct (HasDataRole x) eqn:Ed; [destruct (HasManagerRole x) eqn:Em|].
  - apply H2, list_elem_of_filter. done.
  - apply H1, list_elem_of_filter. done.
  - apply H3, list_elem_of_filter. done.
Qed.

(** ** One pod at a time *)

Lemma once_doNodePoolUpgrade c pool : once deletes_pod (doNodePoolUpgrade instance c pool).
Proof. unfold doNodePoolUpgrade, restartWorkingPod, DeletePod. once_auto. Qed.

Lemma once_continueUpgrade : once deletes_pod (continueUpgrade instance).
Proof.
  unfold continueUpgrade, upgradeNextPool.
  apply once_bind_l; [never|]. intros [c|e]; [|exact I].
  assert (once deletes_pod (upgradeNextPool instance c)) as Hn.
  { unfold upgradeNextPool. destruct (findNextNodePoolForUpgrade instance) as [pool cs].
    destruct (_ == _); [apply once_never; never|]. destruct (_ == _).
    - apply once_bind_r; [apply once_doNodePoolUpgrade|intros e; never].
    - destruct (_ == _); apply once_never; never. }
  destruct (drainDataNodes instance); [|exact Hn].
  apply once_bind_l; [never|]. intros [res [e|]]; [exact I|].
  destruct (Requeue res); [exact I|exact Hn].
Qed.

Lemma once_UpgradeReconcile : once deletes_pod (UpgradeReconcile instance).
Proof.
  unfold UpgradeReconcile. cbv zeta.
  destruct (_ == _); [destruct (_ == _); [apply once_never; never|exact I]|].
  destruct (negb _); [exact I|]. apply once_bind_l; [never|]. intros [e|].
  { apply once_never. never. }
  destruct (negb _); [|apply once_continueUpgrade].
  apply once_bind_l; [never|]. intros [e|]; [exact I|apply once_continueUpgrade].
Qed.

(** ** The version in the status *)

(** A status write of the upgrade keeps the version, or ends the upgrade of a cluster all of
    whose pools are done. *)
Definition version_write (h : ohist) (o : OpenSearchCluster) : Prop :=
  exists c, just_saw h (Get KCluster (cl_Name instance) (cl_Namespace instance)) (Ok c) /\
    (st_Version (cl_Status o) = st_Version (cl_Status c) \/
     (Forall pool_done (nodePools instance) /\ o = finishUpgrade c)).

Lemma wp_keep_version f (Q : ohist -> outcome (option err) -> Prop) h :
  (forall c, st_Version (cl_Status (f c)) = st_Version (cl_Status c)) ->
  (forall h' e, extends h h' -> Q h' (Returned e)) ->
  wp (updateStatusOf instance f) (status_guarded version_write) Q h.
Proof.
  intros Hf HQ. apply wp_updateStatusOf_guarded; [|done]. intros h' c He Hc.
  exists c. split; [done|]. left. apply Hf.
Qed.

Lemma wp_setConditions_version cs comp h :
  wp (setComponentConditions instance cs comp) (status_guarded version_write) (λ _ _, True) h.
Proof.
  unfold setComponentConditions. wp_step.
  apply (wp_UpdateStatusS (λ _, True)); [done|done|done| |by intros; repeat wp_step].
  intros h' s c _ He Hc. exists c. split; [done|]. left.
  unfold setConditions. by destruct (FindFirstPartial _ _ _).
Qed.

Lemma wp_setConditions_bind {B} cs comp (k : unit -> io B) h :
  (forall h', wp (k tt) (status_guarded version_write) (λ _ _, True) h') ->
  wp (bind (setComponentConditions instance cs comp) k) (status_guarded version_write)
    (λ _ _, True) h.
Proof.
  intros Hk. wp_step. eapply wp_mono; [done| |apply wp_setConditions_version].
  intros h' [[]|m] _; wp_step; [apply Hk|done].
Qed.


Ltac vstep :=
  first
    [ apply wp_setConditions_bind; intros ?
    | wp_status done
    | eapply wp_status_skip; [solve [auto with only]|by auto with go|intros ? ? ?]
    | progress cbv beta zeta
    | lazymatch goal with |- wp (match ?x with _ => _ end) _ _ _ => destruct x end ].

Lemma wp_doNodePoolUpgrade_version c pool h :
  wp (doNodePoolUpgrade instance c pool) (status_guarded version_write) (λ _ _, True) h.
Proof.
  unfold doNodePoolUpgrade, restartWorkingPod. repeat vstep.
  by apply wp_keep_version.
Qed.

Lemma wp_upgradeNextPool_version c h :
  wp (upgradeNextPool instance c) (status_guarded version_write) (λ _ _, True) h.
Proof.
  unfold upgradeNextPool. destruct (findNextNodePoolForUpgrade instance) as [pool cs] eqn:Ef.
  destruct (_ == _).
  { wp_step. apply wp_keep_version; [done|]. intros h1 e H1. wp_step. wp_status done. }
  destruct (_ == _).
  { wp_step. eapply wp_mono; [done| |apply wp_doNodePoolUpgrade_version].
    intros h1 [e|m] _; wp_step; [by wp_step|done]. }
  destruct (bool_decide_reflect (cs_Status cs = upgradeStatusFinished)) as [Hs|];
    [|by wp_step].
  wp_step. apply wp_updateStatusOf_guarded; [|intros h1 e H1; wp_step; wp_status done].
  intros h1 c' H1 Hc. exists c'. split; [done|]. right. split; [|done].
  apply findNext_ordered in Ef as [Hx|[[_ Hx]|[(_ & _ & Hx)|[? _]]]]; try done;
    by destruct Hx as [_ [[-> _]|[-> _]]].
Qed.

Lemma wp_UpgradeReconcile_version h :
  wp (UpgradeReconcile instance) (status_guarded version_write) (λ _ _, True) h.
Proof.
  unfold UpgradeReconcile. cbv zeta.
  destruct (_ == _).
  { destruct (_ == _); [|by wp_step]. wp_step. apply wp_keep_version; [done|].
    intros h1 e H1. wp_step. by wp_step. }
  destruct (negb _); [by wp_step|]. wp_status skip h1 as [e|]; [wp_status done|].
  assert (Hgo : forall h2, wp (continueUpgrade instance) (status_guarded version_write)
                             (λ _ _, True) h2).
  { intros h2. unfold continueUpgrade. wp_status skip h3 as [c|e]; [|by wp_step].
    destruct (drainDataNodes instance); [|apply wp_upgradeNextPool_version].
    wp_status skip h4 as [res [e|]]; [by wp_step|]. destruct (Requeue res); [by wp_step|].
    apply wp_upgradeNextPool_version. }
  destruct (negb _); [|apply Hgo]. wp_step. apply wp_keep_version; [done|].
  intros h2 [e|] H2; wp_step; [by wp_step|apply Hgo].
Qed.

End UpgradeProofs.

(** ** The end of an upgrade *)

Lemma removeUpgradeEntry_sublist l p : sublist (removeUpgradeEntry l p) l.
Proof.
  unfold removeUpgradeEntry. destruct (FindFirstPartial _ _ _) as [cs [|]];
    [apply RemoveIt_sublist|done].
Qed.

Lemma removeUpgradeEntry_unique l p :
  unique_entries l -> unique_entries (removeUpgradeEntry l p).
Proof.
  intros Hu. eapply sublist_NoDup; [exact Hu|]. apply fmap_sublist, removeUpgradeEntry_sublist.
Qed.

(** The entry of the pool is gone, the entries of other components stay. *)
Lemma removeUpgradeEntry_gone l p :
  unique_entries l ->
  (componentNameUpgrader, np_Component p) ∉ entry_key <$> removeUpgradeEntry l p.
Proof.
  intros Hu. unfold removeUpgradeEntry.
  destruct (FindFirstPartial _ _ _) as [cs found] eqn:Ef. destruct found.
  - apply FindFirst_found in Ef as [Hin Hk].
    change (componentNameUpgrader, np_Component p) with
      (entry_key (upgraderStatus "" (np_Component p) [])). rewrite <- Hk.
    apply RemoveIt_key; [done|]. exists cs. split; [done|]. by apply ComponentStatusEqual_spec.
  - apply FindFirst_not_found in Ef as [-> Hn]. exact Hn.
Qed.

Lemma removeUpgradeEntry_keeps l p e :
  e ∈ l -> cs_Component e <> componentNameUpgrader -> e ∈ removeUpgradeEntry l p.
Proof.
  intros Hin Hc. unfold removeUpgradeEntry.
  destruct (FindFirstPartial _ _ _) as [cs found] eqn:Ef. destruct found; [|done].
  apply FindFirst_found in Ef as [_ [= Hk _]]. apply elem_of_RemoveIt_ne; [done|].
  apply not_true_is_false. intros [[= He _] _]%ComponentStatusEqual_spec. congruence.
Qed.

Lemma removeEntries_spec pools l :
  unique_entries l ->
  let l' := fold_left removeUpgradeEntry pools l in
  sublist l' l /\
  (forall p, p ∈ pools -> (componentNameUpgrader, np_Component p) ∉ entry_key <$> l') /\
  (forall e, e ∈ l -> cs_Component e <> componentNameUpgrader -> e ∈ l').
Proof.
  revert l. induction pools as [|p pools IH]; intros l Hu; simpl.
  { split; [done|]. split; [by intros p ?%elem_of_nil|done]. }
  destruct (IH (removeUpgradeEntry l p)) as (H1 & H2 & H3); [by apply removeUpgradeEntry_unique|].
  split; [etransitivity; [exact H1|apply removeUpgradeEntry_sublist]|]. split.
  - intros q [->|Hq]%elem_of_cons; [|by apply H2].
    intros Hin. eapply (removeUpgradeEntry_gone l p Hu), elem_of_sublist; [exact Hin|].
    by apply fmap_sublist.
  - intros e He Hc. apply H3; [|done]. by apply removeUpgradeEntry_keeps.
Qed.

(** ** Theorems *)

Section UpgradeTheorems.
Context `{RP : RetryPolicy} `{PE : ProcEnv} `{CR : Crypto} `{LL : LabelLib} `{SV : Semver}.

(** C3: whatever the servers answer, the upgrade deletes a pod only when it is the outdated
    pod of lowest ordinal of the pool whose turn it is, all replicas of that pool are ready,
    OpenSearch is green (or yellow only because of replicas that cannot be allocated to older
    nodes), and the pod was prepared: excluded from allocation and holding nothing that would
    be lost when nodes are drained, allocation restricted to primaries otherwise.  It changes
    no other workload. *)
Theorem upgrade_deletes_guarded (instance : OpenSearchCluster) (w : oenv) :
  calls_ok (pod_guarded (upgrade_delete instance)) (run w (UpgradeReconcile instance) []).2.
Proof. eapply wp_run, wp_UpgradeReconcile. Qed.

(** C15: pools are upgraded in order: data-only pools, then pools with data and cluster-manager
    roles, then all others.  A pool is worked on, or started, only when every pool of the
    earlier groups is done, and started only when no pool of its group is in progress; the
    upgrade finishes only when every pool is done. *)
Theorem upgrade_order (instance : OpenSearchCluster) :
  let '(p, cs) := findNextNodePoolForUpgrade instance in
  chosen instance (dataNodes instance) p cs \/
  (Forall (pool_done instance) (dataNodes instance) /\
   chosen instance (dataAndMasterNodes instance) p cs) \/
  (Forall (pool_done instance) (dataNodes instance) /\
   Forall (pool_done instance) (dataAndMasterNodes instance) /\
   chosen instance (otherNodes instance) p cs) \/
  (Forall (pool_done instance) (nodePools instance) /\ p = zeroNodePool /\
   cs = upgraderStatus upgradeStatusFinished "" []).
Proof.
  destruct (findNextNodePoolForUpgrade instance) as [p cs] eqn:E. by apply findNext_ordered.
Qed.

(** One reconciliation of the upgrade deletes at most one pod. *)
Theorem upgrade_one_pod (instance : OpenSearchCluster) (w : oenv) :
  (count_calls deletes_pod (run w (UpgradeReconcile instance) []).2 <= 1)%nat.
Proof. apply (once_count deletes_pod), once_UpgradeReconcile. Qed.

(** C16: the upgrade reconciler writes the recorded version only to end an upgrade all of whose pools
    are done; every other status write of it keeps the version of the cluster it has just fetched.
    (The version of a cluster that has none yet is recorded by the cluster reconciler.) *)
Theorem upgrade_version_guarded (instance : OpenSearchCluster) (w : oenv) :
  calls_ok (status_guarded (version_write instance)) (run w (UpgradeReconcile instance) []).2.
Proof. eapply wp_run, wp_UpgradeReconcile_version. Qed.

(** A downgrade, and a version two major versions ahead, are refused: the reconciler
    returns the error and does nothing but record events. *)
Theorem upgrade_refuses_version (instance : OpenSearchCluster) (w : oenv) existing new :
  specVersion instance <> st_Version (cl_Status instance) ->
  st_Initialized (cl_Status instance) = true ->
  NewVersion (st_Version (cl_Status instance)) = Ok existing ->
  NewVersion (specVersion instance) = Ok new ->
  (LessThan new existing = true \/
   exists c, NewConstraint ("< " +:+ VersionString (IncMajor (IncMajor existing))) = Ok c /\
     ConstraintCheck c new = false) ->
  let '(o, h) := run w (UpgradeReconcile instance) [] in
  o = Returned (noResult, Some (if LessThan new existing then ErrVersionDowngrade
                                else ErrMajorVersionJump)) /\
  Forall (λ e, exists t m, ev_req e = RecordEvent t "Upgrade" m) h.
Proof.
  intros Hv Hi He Hn Hbad. unfold UpgradeReconcile, validateUpgrade. cbv zeta.
  rewrite bool_decide_false, Hi, He, Hn by done. cbn [negb].
  destruct (LessThan new existing) eqn:El.
  - cbn. split; [done|]. repeat constructor; eauto.
  - destruct Hbad as [?|(c & -> & ->)]; [done|]. cbn. split; [done|]. repeat constructor; eauto.
Qed.

(** The write that ends an upgrade records the requested version, sets the phase to
    running, removes the upgrade entry of every pool and keeps the entries of all other
    components; if the cluster's upgrade entries all belong to its pools, no upgrade is in
    progress any more. *)
Theorem finish_clears_entries (c : OpenSearchCluster) :
  unique_entries (componentsStatus c) ->
  let c' := finishUpgrade c in
  st_Version (cl_Status c') = specVersion c /\ st_Phase (cl_Status c') = PhaseRunning /\
  unique_entries (componentsStatus c') /\
  (forall e, e ∈ componentsStatus c -> cs_Component e <> componentNameUpgrader ->
     e ∈ componentsStatus c') /\
  ((forall e, e ∈ componentsStatus c -> cs_Component e = componentNameUpgrader ->
      exists p, p ∈ nodePools c /\ cs_Description e = np_Component p) ->
   IsUpgradeInProgress (cl_Status c') = false).
Proof.
  intros Hu c'. destruct (removeEntries_spec (nodePools c) _ Hu) as (H1 & H2 & H3).
  split_and!; [done|done| |done|].
  { eapply sublist_NoDup; [exact Hu|]. by apply fmap_sublist. }
  intros Hall. apply not_true_is_false. intros (e & He%list_elem_of_In & _)%existsb_exists.
  apply elem_of_FindAllPartial in He as [Hin Hc]. cbn in Hin, Hc.
  destruct (Hall e) as (p & Hp & Hd); [by eapply elem_of_sublist|done|].
  apply (H2 p Hp), list_elem_of_fmap. exists e. split; [|done].
  unfold entry_key. by rewrite Hc, <- Hd.
Qed.

(** [setComponentConditions] means to extend the conditions of the pool's entry, but the
    entry it writes holds only the new ones; the old ones are put in front only when a
    conflict makes the update run a second time. *)
Theorem setConditions_drops_old (c c' : OpenSearchCluster) (pool : string) old new :
  let e := upgraderStatus upgradeStatusInProgress pool in
  unique_entries (componentsStatus c) -> e old ∈ componentsStatus c ->
  let '(kept, first) := setConditions pool new c in
  componentsStatus first = RemoveIt (e old) (componentsStatus c) ++ [e new] /\
  kept = old ++ new /\
  (e old ∈ componentsStatus c' -> unique_entries (componentsStatus c') ->
   componentsStatus (setConditions pool kept c').2 =
     RemoveIt (e old) (componentsStatus c') ++ [e (old ++ new)]).
Proof.
  intros e Hu Hin. unfold setConditions.
  rewrite (FindFirst_elem _ _ (e old)) by done. cbn. split_and!; [done|done|].
  intros Hin' Hu'. by rewrite (FindFirst_elem _ _ (e old)) by done.
Qed.

End UpgradeTheorems.

(** ** Witnesses *)

Import Fixtures.Samples.

Definition downgraded : OpenSearchCluster :=
  cluster_with false false [nodes] (mkClusterStatus PhaseRunning [] "3.1.0" true 3 "green" false false).

Lemma upgrade_refuses_version_witness :
  let w := world downgraded (sts_of "os-nodes" 3) (ok_resp []) green in
  (run w (UpgradeReconcile downgraded) []).1 = Returned (noResult, Some ErrVersionDowngrade).
Proof.
  intros w.
  pose proof (upgrade_refuses_version downgraded w (3, 1, 0) (2, 19, 1)) as H.
  destruct (run w (UpgradeReconcile downgraded) []) as [o h].
  destruct H as [-> _]; [discriminate|reflexivity|vm_compute; reflexivity|
    vm_compute; reflexivity|left; vm_compute; reflexivity|vm_compute; reflexivity].
Defined.

Lemma finish_clears_entries_witness :
  let c := cluster_with false false [nodes]
             (mkClusterStatus PhaseUpgrading
                [upgraderStatus "Upgraded" "nodes" []; mkCS "RollingRestart" "Finished" "" []]
                "2.18.0" true 3 "green" false false) in
  componentsStatus (finishUpgrade c) = [mkCS "RollingRestart" "Finished" "" []] /\
  IsUpgradeInProgress (cl_Status (finishUpgrade c)) = false.
Proof.
  intros c. split; [reflexivity|].
  apply (finish_clears_entries c).
  - apply (bool_decide_unpack (NoDup (entry_key <$> componentsStatus c))). reflexivity.
  - intros e He Hc. exists nodes. split; [constructor|].
    apply elem_of_cons in He as [->|He]; [reflexivity|].
    apply list_elem_of_singleton in He as ->. discriminate.
Defined.

Lemma setConditions_drops_old_witness :
  let e := upgraderStatus upgradeStatusInProgress "nodes" in
  let c := cluster_with false false [nodes] (running [e ["Waiting for node to drain"]]) in
  componentsStatus (setConditions "nodes" ["Deleted pod os-nodes-0"] c).2 =
    [e ["Deleted pod os-nodes-0"]].
Proof.
  intros e c.
  pose proof (setConditions_drops_old c c "nodes" ["Waiting for node to drain"]
                ["Deleted pod os-nodes-0"]) as H.
  destruct (setConditions "nodes" ["Deleted pod os-nodes-0"] c) as [kept first] eqn:E.
  destruct H as [H _]; [apply NoDup_singleton|constructor|exact H].
Defined.
