(* ===== verification/RollingRestart.v ===== *)
(** * RollingRestart: restarting outdated pods one at a time

    Models [pkg/reconcilers/rollingRestart.go]: the readiness pass over the node pools, the
    candidates of a restart and their order, the cluster-manager quorum, and the restart of
    one pod. *)

From S2P Require Import Prelude Prog Resources Api K8sClient Helpers OsClient OsData ReconcilerUtil Fixtures.

Definition rrComponentName : string := "RollingRestart".
Definition statusInProgress : string := "InProgress".
Definition statusFinished : string := "Finished".

Record candidate := mkCandidate {
  ca_podName : string;
  ca_podNS : string;
  ca_sts : StatefulSet;
  ca_nodePool : NodePool;
  ca_isMaster : bool;
  ca_ordinal : Z }.

Definition restartEvent (msg : string) : io unit :=
  ask (RecordEvent "Normal" "RollingRestart" msg).

(** ** The order of candidates *)

(** The [less] function passed to [sort.Slice]. *)
Definition candidateLess (a b : candidate) : bool :=
  if negb (Bool.eqb (ca_isMaster a) (ca_isMaster b)) then
    negb (ca_isMaster a) && ca_isMaster b
  else if sts_Name (ca_sts a) != sts_Name (ca_sts b) then
    String.ltb (sts_Name (ca_sts a)) (sts_Name (ca_sts b))
  else bool_decide (ca_ordinal a > ca_ordinal b).

(** [sort.Slice] on up to twelve elements is an insertion sort; beyond that only sortedness
    is promised, which is all the theorems below use. *)
Fixpoint insertCandidate (x : candidate) (l : list candidate) : list candidate :=
  match l with
  | [] => [x]
  | y :: l' => if candidateLess x y then x :: y :: l' else y :: insertCandidate x l'
  end.
Definition sortCandidates (l : list candidate) : list candidate :=
  fold_left (fun sorted x => insertCandidate x sorted) l [].

(** [strings.Split] returns at least one piece. *)
Definition parseOrdinalFromName (name : string) : Z :=
  match last (Split name "-") with
  | None => -1
  | Some part => default (-1) (Atoi part)
  end.

(** More than half (rounded up) of the cluster managers are ready.  Go's [/] truncates. *)
Definition minRequired (totalMasters : Z) : Z := Z.quot (wrap32 (totalMasters + 1)) 2.
Definition quorumUnsafe (totalMasters readyMasters : Z) : bool :=
  bool_decide (readyMasters <= minRequired totalMasters).

Section RollingRestart.
Context `{RP : RetryPolicy} `{PE : ProcEnv} `{CR : Crypto} `{LL : LabelLib}.
Variable instance : OpenSearchCluster.

Definition rrUpdateStatus (status : string) : io (option err) :=
  UpdateComponentStatus instance (Some (mkCS rrComponentName status "" [])).

Definition findStatus : option ComponentStatus :=
  let '(found, ok) := FindFirstPartial (componentsStatus instance)
                        (mkCS rrComponentName "" "" []) GetByComponent in
  if (ok : bool) then Some found else None.

(** One pool of the readiness pass.  [UdateObjectStatus] reads the stateful set again, and the
    closure reads the update revision from that same object. *)
Definition checkPool (nodePool : NodePool) (pendingUpdate : bool)
    : io (bool + (Result * option err)) :=
  let! r := GetStatefulSet (StsName instance nodePool) (cl_Namespace instance) in
  match r with
  | Err e => Ret (inr (noResult, Some e))
  | Ok sts =>
      let! rr := ReadyReplicasForNodePool instance nodePool in
      match rr with
      | Err e => Ret (inr (mkResult true 0, Some e))
      | Ok readyReplicas =>
          let sts := sts_with_ReadyReplicas readyReplicas sts in
          let! (sts, pendingUpdate, e) :=
            if (sts_UpdateRevision sts != "") &&
               (sts_UpdatedReplicas sts != default 1 (sts_Replicas sts))
            then Ret (sts, true, None)
            else if (sts_UpdateRevision sts != "") &&
                    (sts_CurrentRevision sts != sts_UpdateRevision sts)
            then
              let! (sts', e) := UdateObjectStatus KStatefulSet sts
                    (fun s => sts_with_CurrentRevision (sts_UpdateRevision s) s) in
              Ret (sts', pendingUpdate, e)
            else Ret (sts, pendingUpdate, None) in
          match e with
          | Some e => Ret (inr (noResult, Some e))
          | None =>
              if sts_ReadyReplicas sts != default 1 (sts_Replicas sts)
              then Ret (inr (requeueIn 10, None))
              else Ret (inl pendingUpdate)
          end
      end
  end.

(** One pool of the search for candidates. *)
Definition addCandidate (np : NodePool) (candidates : list candidate)
    : io (list candidate + (Result * option err)) :=
  let! r := GetStatefulSet (StsName instance np) (cl_Namespace instance) in
  match r with
  | Err e => Ret (inr (noResult, Some e))
  | Ok sts =>
      if (sts_UpdateRevision sts == "") ||
         (sts_UpdatedReplicas sts == default 1 (sts_Replicas sts))
      then Ret (inl candidates)
      else
        let! p := GetPodWithOlderRevision sts in
        match p with
        | Err e => Ret (inr (noResult, Some e))
        | Ok None => Ret (inl candidates)
        | Ok (Some pod) =>
            Ret (inl (candidates ++
              [mkCandidate (pod_Name pod) (pod_Namespace pod) sts np (HasManagerRole np)
                 (parseOrdinalFromName (pod_Name pod))]))
        end
  end.

Definition countMaster (np : NodePool) (counts : Z * Z) : io (Z * Z + err) :=
  if negb (HasManagerRole np) then Ret (inl counts)
  else
    let! r := GetStatefulSet (StsName instance np) (cl_Namespace instance) in
    match r with
    | Err e => Ret (inr e)
    | Ok sts =>
        let total := wrap32 (counts.1 + default 1 (sts_Replicas sts)) in
        let! rr := ReadyReplicasForNodePool instance np in
        match rr with
        | Err e => Ret (inr e)
        | Ok readyReplicas => Ret (inl (total, wrap32 (counts.2 + readyReplicas)))
        end
    end.

Definition countMasters : io (result (Z * Z)) :=
  let! o := for_range (nodePools instance) (0, 0) countMaster in
  match o with
  | inl counts => Ret (Ok counts)
  | inr e => Ret (Err e)
  end.

Definition restartSpecificPod (osClient : OsClusterClient) (c : candidate)
    : io (Result * option err) :=
  let! dataCount := DataNodesCount instance in
  let! (ready, _, e) := CheckClusterStatusForRestart osClient (drainDataNodes instance) in
  match e with
  | Some e => Ret (noResult, Some e)
  | None =>
      if negb ready then Ret (requeueIn 10, None)
      else
        let! (ready, e) := PreparePodForDelete osClient (ca_podName c)
                             (drainDataNodes instance) dataCount in
        match e with
        | Some e => Ret (noResult, Some e)
        | None =>
            if negb ready then Ret (requeueIn 10, None)
            else
              let! e := DeletePod (ca_podName c) (ca_podNS c) in
              match e with
              | Some e => Ret (noResult, Some e)
              | None =>
                  if drainDataNodes instance then
                    let! (ok, e) := RemoveExcludeNodeHost osClient (ca_podName c) in
                    match e, ok with
                    | None, true => Ret (noResult, None)
                    | _, _ => Ret (requeueIn 10, None)
                    end
                  else Ret (noResult, None)
              end
        end
  end.

(** The restart of the chosen candidate, and the delay before the next one. *)
Definition restartNext (osClient : OsClusterClient) (next : candidate)
    : io (Result * option err) :=
  let! (res, e) := restartSpecificPod osClient next in
  match e with
  | Some e => Ret (noResult, Some e)
  | None => if Requeue res then Ret (res, None) else Ret (requeueIn 10, None)
  end.

(** The choice among the sorted candidates: a cluster manager only if the quorum is safe. *)
Definition chooseCandidate (osClient : OsClusterClient) (candidates : list candidate)
    : io (Result * option err) :=
  match candidates with
  | [] => Ret (noResult, None)
  | next :: _ =>
      if ca_isMaster next then
        let! m := countMasters in
        match m with
        | Err e => Ret (noResult, Some e)
        | Ok (totalMasters, readyMasters) =>
            if quorumUnsafe totalMasters readyMasters then
              match find (λ c, negb (ca_isMaster c)) candidates with
              | Some c => restartNext osClient c
              | None => Ret (requeueIn 10, None)
              end
            else restartNext osClient next
        end
      else restartNext osClient next
  end.

Definition findCandidates (osClient : OsClusterClient) : io (Result * option err) :=
  let! o := for_range (nodePools instance) [] addCandidate in
  match o with
  | inr r => Ret r
  | inl candidates => chooseCandidate osClient (sortCandidates candidates)
  end.

Definition globalCandidateRollingRestart (osClient : OsClusterClient)
    : io (Result * option err) :=
  if drainDataNodes instance then
    let! (res, e) := CleanStaleExclusionList instance osClient in
    match e with
    | Some e => Ret (noResult, Some e)
    | None => if Requeue res then Ret (res, None) else findCandidates osClient
    end
  else findCandidates osClient.

(** No pod is pending: a restart that was running is over. *)
Definition finishRestart : io (Result * option err) :=
  match findStatus with
  | Some status =>
      if cs_Status status == statusInProgress then
        let! c := CreateClientForCluster instance in
        match c with
        | Err e => Ret (mkResult true 0, Some e)
        | Ok osClient =>
            let! e := ReactivateShardAllocation osClient in
            match e with
            | Some e => Ret (mkResult true 0, Some e)
            | None =>
                do! restartEvent "Rolling restart completed" in
                let! e := rrUpdateStatus statusFinished in
                match e with
                | Some e => Ret (mkResult true 0, Some e)
                | None => Ret (noResult, None)
                end
            end
        end
      else Ret (noResult, None)
  | None => Ret (noResult, None)
  end.

Definition RollingRestartReconcile : io (Result * option err) :=
  let version := st_Version (cl_Status instance) in
  if (version != "") && (version != specVersion instance) then Ret (noResult, None)
  else
    let! o := for_range (nodePools instance) false checkPool in
    match o with
    | inr r => Ret r
    | inl pendingUpdate =>
        if negb pendingUpdate then finishRestart
        else if negb (st_Initialized (cl_Status instance)) then Ret (requeueIn 10, None)
        else
          let! e := rrUpdateStatus statusInProgress in
          match e with
          | Some e => Ret (mkResult true 0, Some e)
          | None =>
              do! restartEvent "Starting rolling restart" in
              let! c := CreateClientForCluster instance in
              match c with
              | Err e => Ret (noResult, Some e)
              | Ok osClient => globalCandidateRollingRestart osClient
              end
          end
    end.

End RollingRestart.

(** ** The order of candidates *)

Lemma candidateLess_irrefl a : candidateLess a a = false.
Proof.
  unfold candidateLess. rewrite Bool.eqb_reflx, bool_decide_true by done. cbn.
  apply bool_decide_eq_false. lia.
Qed.

(** A cluster manager never precedes another node. *)
Lemma candidateLess_master a b :
  candidateLess a b = true -> ca_isMaster a = true -> ca_isMaster b = true.
Proof.
  unfold candidateLess. intros H Ha. rewrite Ha in H. by destruct (ca_isMaster b).
Qed.

Lemma insertCandidate_perm x l : insertCandidate x l ≡ₚ x :: l.
Proof.
  induction l as [|y l IH]; simpl; [done|]. destruct (candidateLess x y); [done|].
  rewrite IH. constructor.
Qed.

Lemma sortCandidates_perm l : sortCandidates l ≡ₚ l.
Proof.
  unfold sortCandidates.
  assert (forall acc, fold_left (fun s x => insertCandidate x s) l acc ≡ₚ l ++ acc) as H.
  { induction l as [|x l IH]; intros acc; simpl; [done|].
    rewrite IH, insertCandidate_perm. by rewrite Permutation_middle. }
  rewrite H. by rewrite app_nil_r.
Qed.

(** Non-masters first: once a cluster manager comes, only cluster managers follow. *)
Definition masters_last (l : list candidate) : Prop :=
  forall i j a b, (i < j)%nat -> l !! i = Some a -> l !! j = Some b ->
    ca_isMaster a = true -> ca_isMaster b = true.

Lemma masters_last_cons x l :
  masters_last (x :: l) <->
  (ca_isMaster x = true -> Forall (λ b, ca_isMaster b = true) l) /\ masters_last l.
Proof.
  split.
  - intros H. split.
    + intros Hx. apply Forall_forall. intros b [j Hj]%list_elem_of_lookup.
      eapply (H 0%nat (S j) x b); [lia|done|done|done].
    + intros i j a b Hij Ha Hb. eapply (H (S i) (S j)); [lia|done|done].
  - intros [H1 H2] [|i] [|j] a b Hij Ha Hb Hm; [lia| |lia|].
    + simpl in *. injection Ha as ->. specialize (H1 Hm). rewrite Forall_forall in H1.
      apply H1. by eapply list_elem_of_lookup_2.
    + eapply (H2 i j); [lia|done|done|done].
Qed.

Lemma insert_masters_last x l : masters_last l -> masters_last (insertCandidate x l).
Proof.
  induction l as [|y l IH]; simpl.
  - intros _ i j a b Hij Ha Hb. destruct j as [|j]; [lia|]. by destruct j.
  - rewrite masters_last_cons. intros [Hy Hl]. destruct (candidateLess x y) eqn:E.
    + rewrite !masters_last_cons. split; [|done]. intros Hx.
      pose proof (candidateLess_master _ _ E Hx) as Hm. constructor; [done|by apply Hy].
    + rewrite masters_last_cons. split; [|by apply IH]. intros Hm. rewrite insertCandidate_perm.
      constructor; [|by apply Hy]. unfold candidateLess in E. rewrite Hm in E.
      by destruct (ca_isMaster x).
Qed.

Lemma sort_masters_last l : masters_last (sortCandidates l).
Proof.
  unfold sortCandidates. assert (masters_last []) as H0 by (intros i j a b _ Ha; done).
  revert H0. generalize (@nil candidate). induction l as [|x l IH]; intros acc Ha; simpl; [done|].
  by apply IH, insert_masters_last.
Qed.

(** ** Ordinals *)

Lemma parseOrdinal_replica sts i :
  0 <= i < 2 ^ 31 -> parseOrdinalFromName (ReplicaHostName sts i) = i.
Proof.
  intros Hi. unfold parseOrdinalFromName, ReplicaHostName.
  change ("-" +:+ Itoa i) with (String "-" (Itoa i)).
  rewrite last_Split_app by (apply Itoa_no_dash; lia). by rewrite Atoi_Itoa by lia.
Qed.

(** ** The quorum *)

Lemma minRequired_eq total : 0 <= total < 2 ^ 31 - 1 -> minRequired total = (total + 1) / 2.
Proof.
  intros Ht. unfold minRequired. rewrite wrap32_id by (unfold in_int32; lia).
  rewrite Z.quot_div_nonneg; lia.
Qed.

(** ** Footprints *)

Lemma only_restartEvent R m : (forall r s u, R (RecordEvent r s u)) -> only R (restartEvent m).
Proof. intros H. apply only_call, H. Qed.
#[export] Hint Extern 2 (only _ (restartEvent _)) => by apply only_restartEvent : only.

Section RollingRestartProofs.
Context `{RP : RetryPolicy} `{PE : ProcEnv} `{CR : Crypto} `{LL : LabelLib}.
Variable instance : OpenSearchCluster.

Lemma only_checkPool np b : only no_workload (checkPool instance np b).
Proof. unfold checkPool. only_auto. Qed.
Lemma only_addCandidate np l : only reads (addCandidate instance np l).
Proof. unfold addCandidate. only_auto. Qed.
Lemma only_countMasters : only reads (countMasters instance).
Proof. unfold countMasters, countMaster. only_auto. Qed.
Lemma only_rrUpdateStatus s : only no_workload (rrUpdateStatus instance s).
Proof. unfold rrUpdateStatus. only_auto. Qed.
#[local] Hint Resolve only_checkPool only_addCandidate only_countMasters
  only_rrUpdateStatus : only.
Lemma only_finishRestart : only no_workload (finishRestart instance).
Proof. unfold finishRestart. only_auto. Qed.
#[local] Hint Resolve only_finishRestart : only.

(** ** Counting cluster managers *)

Definition sum32 (l : list Z) : Z := fold_left (fun a x => wrap32 (a + x)) l 0.

(** The desired and the ready replicas of every cluster-manager pool, as they were seen. *)
Definition pool_counted (h : ohist) (p : NodePool) (c : Z * Z) : Prop :=
  exists sts, saw h (Get KStatefulSet (StsName instance p) (cl_Namespace instance)) (Ok sts) /\
    c.1 = default 1 (sts_Replicas sts) /\ ready_pods h instance p c.2.
Definition masters_counted (h : ohist) (total ready : Z) : Prop :=
  exists counts,
    Forall2 (pool_counted h) (filter (λ p, HasManagerRole p = true) (nodePools instance)) counts /\
    total = sum32 counts.*1 /\ ready = sum32 counts.*2.

Lemma pool_counted_extends h h' p c : extends h h' -> pool_counted h p c -> pool_counted h' p c.
Proof.
  intros He (sts & H1 & H2 & H3). exists sts.
  split_and!; [by eapply saw_extends|done|by eapply ready_pods_extends].
Qed.

Lemma counted_extends h h' ps cs :
  extends h h' -> Forall2 (pool_counted h) ps cs -> Forall2 (pool_counted h') ps cs.
Proof. intros He Hf. eapply Forall2_impl; [exact Hf|]. intros. by eapply pool_counted_extends. Qed.

Lemma masters_counted_extends h h' t r :
  extends h h' -> masters_counted h t r -> masters_counted h' t r.
Proof. intros He (cs & H1 & H2). exists cs. split; [by eapply counted_extends|done]. Qed.

Lemma sum32_snoc l x : sum32 (l ++ [x]) = wrap32 (sum32 l + x).
Proof. unfold sum32. by rewrite fold_left_app. Qed.

Lemma wp_countMasters (P : ohist -> req -> Prop) Q h :
  (forall h' q, extends h h' -> reads q -> P h' q) ->
  (forall h' e, extends h h' -> Q h' (Returned (Err e))) ->
  (forall h' t r, extends h h' -> masters_counted h' t r -> Q h' (Returned (Ok (t, r)))) ->
  wp (countMasters instance) P Q h.
Proof.
  intros HP He Hok. unfold countMasters. wp_step.
  apply (wp_for_range (λ rest st h', extends h h' /\ exists seen counts,
    nodePools instance = seen ++ rest /\
    Forall2 (pool_counted h') (filter (λ p, HasManagerRole p = true) seen) counts /\
    st = (sum32 counts.*1, sum32 counts.*2))).
  - split; [reflexivity|]. exists [], []. split_and!; [done|constructor|done].
  - intros np rest st h1 (H1 & seen & cs & Hsp & Hf & ->). unfold countMaster, GetStatefulSet.
    destruct (HasManagerRole np) eqn:Em; cbn [negb].
    + wp_step; [by apply HP|]. destruct r as [sts|e]; [|repeat wp_step; apply He; auto with go].
      set (h2 := _ :: h1). assert (extends h1 h2) by (subst h2; auto with go).
      wp_step. apply wp_ReadyReplicas.
      { intros. apply HP; [by etransitivity|done]. }
      { intros h3 e H3. repeat wp_step. apply He. by do 2 (etransitivity; [|eassumption]). }
      intros h3 k H3 Hk. repeat wp_step. assert (extends h1 h3) by (by etransitivity).
      split; [by etransitivity|].
      exists (seen ++ [np]), (cs ++ [(default 1 (sts_Replicas sts), k)]).
      split_and!; [by rewrite <- app_assoc| |rewrite !fmap_app; simpl; by rewrite !sum32_snoc].
      rewrite filter_app. apply Forall2_app; [by eapply counted_extends|].
      rewrite filter_cons, decide_True by done. constructor; [|constructor].
      exists sts. split_and!; [|done|done]. eapply saw_extends; [exact H3|apply saw_here].
    + wp_step. split; [done|]. exists (seen ++ [np]), cs.
      split_and!; [by rewrite <- app_assoc| |done].
      rewrite filter_app, filter_cons, decide_False by congruence. by rewrite app_nil_r.
  - intros [t r] h1 (H1 & seen & cs & Hsp & Hf & Heq). injection Heq as -> ->.
    rewrite app_nil_r in Hsp. wp_step. wp_step. apply Hok; [done|]. exists cs.
    by rewrite Hsp.
Qed.

(** ** The deletion of pods *)

(** A candidate: the outdated pod of lowest ordinal of a pool with a pending update. *)
Definition candidate_ok (h : ohist) (c : candidate) : Prop :=
  exists pod, ca_nodePool c ∈ nodePools instance /\
    saw h (Get KStatefulSet (StsName instance (ca_nodePool c)) (cl_Namespace instance))
      (Ok (ca_sts c)) /\
    sts_UpdateRevision (ca_sts c) <> "" /\
    sts_UpdatedReplicas (ca_sts c) <> default 1 (sts_Replicas (ca_sts c)) /\
    outdated_pod h (ca_sts c) pod /\
    ca_podName c = pod_Name pod /\ ca_podNS c = pod_Namespace pod /\
    ca_isMaster c = HasManagerRole (ca_nodePool c).

(** When a pod is deleted: it is a candidate, the cluster may be restarted on, the pod has
    been prepared, and for a cluster manager more than the required number is ready. *)
Definition restart_delete (h : ohist) (name ns : string) : Prop :=
  exists c client n,
    candidate_ok h c /\ name = ca_podName c /\ ns = ca_podNS c /\
    restart_allowed h client /\ pod_prepared h client name (drainDataNodes instance) n /\
    (HasManagerRole (ca_nodePool c) = true ->
     exists total ready, masters_counted h total ready /\ minRequired total < ready).

Lemma candidate_ok_extends h h' c : extends h h' -> candidate_ok h c -> candidate_ok h' c.
Proof.
  intros He (pod & H1 & H2 & H3 & H4 & H5 & H6). exists pod.
  split_and!; try done; [by eapply saw_extends|by eapply outdated_pod_extends| | |]; by destruct H6 as (?&?&?).
Qed.

Lemma wp_restartSpecificPod client c h :
  candidate_ok h c ->
  (HasManagerRole (ca_nodePool c) = true ->
     exists total ready, masters_counted h total ready /\ minRequired total < ready) ->
  wp (restartSpecificPod instance client c) (pod_guarded restart_delete) (λ _ _, True) h.
Proof.
  intros Hc Hq. unfold restartSpecificPod. wp_skip h1 as n.
  wp_step. apply wp_CheckClusterStatusForRestart.
  { intros. by apply pod_guarded_no_workload. }
  { intros h2 msg [e|] H2; wp_step; cbn [negb]; wp_done. }
  intros h2 H2 Hok. wp_step. cbn [negb]. wp_step. apply wp_PreparePodForDelete.
  { intros. by apply pod_guarded_no_workload. }
  { intros h3 [e|] H3; wp_step; cbn [negb]; wp_done. }
  { done. }
  intros h3 H3 Hprep. wp_step. cbn [negb]. unfold DeletePod. wp_step.
  - assert (extends h h3) by (by do 2 (etransitivity; [|eassumption])).
    exists c, client, n. split_and!; [by eapply candidate_ok_extends|done|done| |done|].
    + eapply restart_allowed_extends; [exact H3|exact Hok].
    + intros Hm. destruct (Hq Hm) as (t & r & Ht & Hr). exists t, r.
      split; [by eapply masters_counted_extends|done].
  - destruct r; wp_done.
Qed.

Lemma wp_restartNext client c h :
  candidate_ok h c ->
  (HasManagerRole (ca_nodePool c) = true ->
     exists total ready, masters_counted h total ready /\ minRequired total < ready) ->
  wp (restartNext instance client c) (pod_guarded restart_delete) (λ _ _, True) h.
Proof.
  intros Hc Hq. unfold restartNext. wp_step.
  eapply wp_mono; [done| |by apply wp_restartSpecificPod].
  intros h1 [[res [e|]]|m] _; wp_step; [by wp_step| |done]. destruct (Requeue res); by wp_step.
Qed.

Lemma wp_chooseCandidate client cs h :
  Forall (candidate_ok h) cs ->
  wp (chooseCandidate instance client cs) (pod_guarded restart_delete) (λ _ _, True) h.
Proof.
  intros Hf. unfold chooseCandidate. destruct cs as [|next cs]; [by wp_step|].
  assert (Hnot : forall h' c, extends h h' -> c ∈ next :: cs -> ca_isMaster c = false ->
    wp (restartNext instance client c) (pod_guarded restart_delete) (λ _ _, True) h').
  { intros h' c He Hin Hm. rewrite Forall_forall in Hf.
    pose proof (candidate_ok_extends _ _ _ He (Hf c Hin)) as Hok. apply wp_restartNext; [done|].
    destruct Hok as (pod & _ & _ & _ & _ & _ & _ & _ & Heq). congruence. }
  destruct (ca_isMaster next) eqn:Em; [|apply Hnot; [reflexivity|constructor|done]].
  wp_step. apply wp_countMasters.
  { intros. by apply pod_guarded_no_workload, reads_no_workload. }
  { intros h1 e H1. wp_step. by wp_step. }
  intros h1 t r H1 Hm. wp_step. unfold quorumUnsafe. case_bool_decide as Hq.
  - destruct (find _ _) as [c|] eqn:Ef; [|by wp_step].
    apply find_some in Ef as [Hin Hc%negb_true_iff]. apply Hnot; [done| |done].
    by apply list_elem_of_In.
  - apply wp_restartNext; [|intros _; exists t, r; split; [done|lia]].
    eapply candidate_ok_extends; [done|]. by inversion Hf.
Qed.

Lemma wp_findCandidates client h :
  wp (findCandidates instance client) (pod_guarded restart_delete) (λ _ _, True) h.
Proof.
  unfold findCandidates. wp_step.
  apply (wp_for_range (λ rest cs h', (forall p, p ∈ rest -> p ∈ nodePools instance) /\
                                    Forall (candidate_ok h') cs)).
  - split; [done|constructor].
  - intros np rest cs h1 [Hr Hf]. unfold addCandidate, GetStatefulSet. wp_step; [done|].
    destruct r as [sts|e]; [|by repeat wp_step]. set (h2 := _ :: h1).
    assert (extends h1 h2) by (subst h2; auto with go).
    assert (Hr' : forall p, p ∈ rest -> p ∈ nodePools instance)
      by (intros; apply Hr; by constructor).
    assert (Hkeep : forall h', extends h2 h' -> Forall (candidate_ok h') cs).
    { intros h' He. eapply Forall_impl; [exact Hf|]. intros c Hc.
      eapply candidate_ok_extends; [|exact Hc]. by etransitivity. }
    destruct (_ || _) eqn:Eu; [wp_step; split; [done|by apply Hkeep]|].
    apply orb_false_iff in Eu as [Hu1%bool_decide_eq_false Hu2%bool_decide_eq_false].
    wp_step. apply wp_GetPodWithOlderRevision.
    + intros. by apply pod_guarded_no_workload, reads_no_workload.
    + intros h3 e H3. by repeat wp_step.
    + intros h3 H3 _. repeat wp_step. split; [done|by apply Hkeep].
    + intros h3 pod H3 Hpod. repeat wp_step. split; [done|].
      apply Forall_app. split; [by apply Hkeep|]. constructor; [|done].
      exists pod. cbn. split_and!; try done; [apply Hr; constructor|].
      eapply saw_extends; [exact H3|apply saw_here].
  - intros cs h1 [_ Hf]. wp_step. apply wp_chooseCandidate. by rewrite sortCandidates_perm.
Qed.

Lemma wp_RollingRestartReconcile h :
  wp (RollingRestartReconcile instance) (pod_guarded restart_delete) (λ _ _, True) h.
Proof.
  unfold RollingRestartReconcile. cbv zeta. destruct (_ && _); [by wp_step|].
  eapply wp_skip; [apply only_for_range; intros; auto with only|auto with go|].
  intros h1 [pending|r] H1; [|by wp_step].
  destruct (negb pending); [wp_done|]. destruct (negb _); [by wp_step|].
  wp_skip h2 as [e|]; [by wp_step|]. wp_skip h3. wp_skip h4 as [client|e]; [|by wp_step].
  unfold globalCandidateRollingRestart.
  destruct (drainDataNodes instance); [|apply wp_findCandidates].
  wp_skip h5 as [res [e|]]; [by wp_step|]. destruct (Requeue res); [by wp_step|].
  apply wp_findCandidates.
Qed.

(** ** One pod at a time *)

Lemma once_restartNext client c : once deletes_pod (restartNext instance client c).
Proof. unfold restartNext, restartSpecificPod, DeletePod. once_auto. Qed.

Lemma once_findCandidates client : once deletes_pod (findCandidates instance client).
Proof.
  unfold findCandidates. apply once_bind_l; [never|]. intros [cs|r]; [|exact I].
  unfold chooseCandidate. destruct (sortCandidates cs) as [|next rest]; [exact I|].
  destruct (ca_isMaster next); [|apply once_restartNext].
  apply once_bind_l; [never|]. intros [[t r]|e]; [|exact I].
  destruct (quorumUnsafe t r); [|apply once_restartNext].
  destruct (find _ _); [apply once_restartNext|exact I].
Qed.

Lemma once_RollingRestartReconcile : once deletes_pod (RollingRestartReconcile instance).
Proof.
  unfold RollingRestartReconcile. cbv zeta. destruct (_ && _); [exact I|].
  apply once_bind_l; [never|]. intros [pending|r]; [|exact I].
  destruct (negb pending); [apply once_never; never|]. destruct (negb _); [exact I|].
  apply once_bind_l; [never|]. intros [e|]; [exact I|].
  apply once_bind_l; [never|]. intros _. apply once_bind_l; [never|]. intros [c|e]; [|exact I].
  unfold globalCandidateRollingRestart.
  destruct (drainDataNodes instance); [|apply once_findCandidates].
  apply once_bind_l; [never|]. intros [res [e|]]; [exact I|].
  destruct (Requeue res); [exact I|apply once_findCandidates].
Qed.

End RollingRestartProofs.

Lemma first_manager_all l next rest :
  sortCandidates l = next :: rest -> ca_isMaster next = true ->
  find (λ c, negb (ca_isMaster c)) (sortCandidates l) = None.
Proof.
  intros Hs Hm. pose proof (sort_masters_last l) as Hl. rewrite Hs in *.
  apply masters_last_cons in Hl as [Hf _]. specialize (Hf Hm). rewrite Forall_forall in Hf.
  apply find_none_iff. intros c Hc. apply negb_false_iff.
  apply list_elem_of_In, elem_of_cons in Hc as [->|Hc]; [done|by apply Hf].
Qed.

(** ** Theorems *)

Section RollingRestartTheorems.
Context `{RP : RetryPolicy} `{PE : ProcEnv} `{CR : Crypto} `{LL : LabelLib}.

(** C4: whatever the servers answer, the rolling restart deletes a pod only when it is the
    outdated pod of lowest ordinal of a pool with a pending update, OpenSearch allows a restart
    (green, or yellow only because of stuck replicas), the pod was prepared, and, for a
    cluster manager, strictly more cluster managers are ready than half of them rounded up.
    It changes no other workload. *)
Theorem restart_deletes_guarded (instance : OpenSearchCluster) (w : oenv) :
  calls_ok (pod_guarded (restart_delete instance))
    (run w (RollingRestartReconcile instance) []).2.
Proof. eapply wp_run, wp_RollingRestartReconcile. Qed.

(** A single cluster manager is never restarted: when it is the first candidate, every
    candidate is a cluster manager, and the reconciler only asks to be called again. *)
Theorem single_manager_never_restarted (instance : OpenSearchCluster) c l next rest (w : oenv)
    ready h1 :
  sortCandidates l = next :: rest -> ca_isMaster next = true ->
  run w (countMasters instance) [] = (Returned (Ok (1, ready)), h1) -> ready <= 1 ->
  run w (chooseCandidate instance c (sortCandidates l)) [] = (Returned (requeueIn 10, None), h1).
Proof.
  intros Hs Hm Hc Hr. pose proof (first_manager_all l next rest Hs Hm) as Hf.
  unfold chooseCandidate. rewrite Hs in *. rewrite Hm, run_bind, Hc. unfold quorumUnsafe.
  change (minRequired 1) with 1. rewrite bool_decide_true by done. by rewrite Hf.
Qed.

End RollingRestartTheorems.

(** Sorting reorders the candidates and puts every cluster manager behind every other
    node; so when the first candidate is a cluster manager, all are, and the search for
    another node to restart instead finds none. *)
Theorem candidates_masters_last (l : list candidate) :
  sortCandidates l ≡ₚ l /\ masters_last (sortCandidates l) /\
  (forall next rest, sortCandidates l = next :: rest -> ca_isMaster next = true ->
     find (λ c, negb (ca_isMaster c)) (sortCandidates l) = None).
Proof.
  split; [apply sortCandidates_perm|]. split; [apply sort_masters_last|apply first_manager_all].
Qed.

(** The ordinal parsed from the name of a replica is its ordinal. *)
Theorem parse_replica_ordinal (sts : StatefulSet) (i : Z) :
  0 <= i < 2 ^ 31 -> parseOrdinalFromName (ReplicaHostName sts i) = i.
Proof. apply parseOrdinal_replica. Qed.

(** With an odd number of cluster managers the quorum test keeps a majority: one ready
    cluster manager less is still more than half of them. *)
Theorem quorum_odd_keeps_majority (total ready : Z) :
  0 <= total < 2 ^ 31 - 1 -> Z.odd total = true -> quorumUnsafe total ready = false ->
  total / 2 + 1 <= ready - 1.
Proof.
  intros Ht Ho Hq%bool_decide_eq_false. rewrite minRequired_eq in Hq by done.
  apply Z.odd_spec in Ho as [k ->]. Z.to_euclidean_division_equations. lia.
Qed.

(** With an even number of cluster managers the test is too weak: it lets one be restarted
    when that leaves exactly half of them, which is no majority.  With two, the restart of
    either is allowed. *)
Theorem quorum_even_loses_majority (total : Z) :
  2 <= total < 2 ^ 31 - 1 -> Z.even total = true ->
  exists ready, ready <= total /\ quorumUnsafe total ready = false /\
    ready - 1 < total / 2 + 1.
Proof.
  intros Ht He. apply Z.even_spec in He as [k ->].
  exists (k + 1). unfold quorumUnsafe. rewrite bool_decide_eq_false, minRequired_eq by lia.
  Z.to_euclidean_division_equations. lia.
Qed.

(** ** Witnesses *)

Import Fixtures.Samples.

Lemma parse_replica_ordinal_witness :
  parseOrdinalFromName (ReplicaHostName (sts_of "my-os-nodes" 12) 11) = 11.
Proof. apply parse_replica_ordinal. lia. Defined.

Lemma quorum_odd_keeps_majority_witness : 5 / 2 + 1 <= 4 - 1.
Proof. apply quorum_odd_keeps_majority; [lia|reflexivity|vm_compute; reflexivity]. Defined.

Lemma quorum_even_loses_majority_witness :
  exists ready, ready <= 2 /\ quorumUnsafe 2 ready = false /\ ready - 1 < 2 / 2 + 1.
Proof. apply quorum_even_loses_majority; [lia|reflexivity]. Defined.

(** A cluster whose only cluster manager, ready, has an outdated pod. *)
Definition manager_pool : NodePool := plainNodePool "managers" 1 ["cluster_manager"].
Definition one_manager : OpenSearchCluster :=
  cluster_with false false [manager_pool] (running []).
Definition one_manager_sts : StatefulSet := sts_of "os-managers" 1.
Definition one_manager_world : oenv := fun q h =>
  match q return resp q with
  | List_ KPod _ _ =>
      Ok [mkPod "os-managers-0" "ns" ∅ None [mkPodCondition "Ready" "True"]
            [mkContainerStatus true None] ∅ zeroPodSpec []]
  | q' => world one_manager one_manager_sts (ok_resp []) green q' h
  end.

Lemma single_manager_never_restarted_witness :
  let l := [mkCandidate "os-managers-0" "ns" one_manager_sts manager_pool true 0] in
  (run one_manager_world
     (chooseCandidate one_manager (mkOsClient "https://os" "admin" "pw" None)
        (sortCandidates l)) []).1 = Returned (requeueIn 10, None).
Proof.
  intros l.
  rewrite (single_manager_never_restarted one_manager _ l (hd (mkCandidate "" "" one_manager_sts
             manager_pool false 0) l) [] one_manager_world 1
             (run one_manager_world (countMasters one_manager) []).2);
    [reflexivity|reflexivity|reflexivity|vm_compute; reflexivity|lia].
Defined.
