(* ===== verification/Controller.v ===== *)
(** * Controller: the reconcile loop of an OpenSearchCluster

    Models [controllers/opensearchController.go]: the finalizer, the phases, and the pipeline
    of component reconcilers, which share one in-memory instance and one context and stop at the
    first error or requeue.  The scaler, the upgrade and the rolling restart are named here; the
    component reconcilers that work on the context are the interface [Components], for which
    [Pipeline] has the instance.  The counter of errors is in [Metrics]. *)

From S2P Require Import Prelude Prog Resources Api K8sClient Helpers OsClient OsData ReconcilerUtil RContext Scaler Upgrade RollingRestart Fixtures.

(** A component reconciler: it works on the shared instance and context and may change them. *)
Abbreviation shared := (OpenSearchCluster * ReconcilerContext)%type.
Abbreviation component := (shared -> prog resp (shared * (Result * option err))).

(** The component reconcilers that work on the context, and the deletions. *)
Class Components := {
  tlsReconcile : component;
  securityconfigReconcile : component;
  configReconcile : component;
  clusterReconcile : component;
  dashboardsReconcile : component;
  snapshotrepositoryReconcile : component;
  tlsDelete : component;
  securityconfigDelete : component;
  configDelete : component;
  clusterDelete : component;
  dashboardsDelete : component }.

(** [controllerutil.AddFinalizer] and [RemoveFinalizer]. *)
Class FinalizerLib := {
  AddFinalizer : list string -> string -> list string;
  RemoveFinalizer : list string -> string -> list string }.

(** Documented: the finalizer is present, respectively absent, afterwards, and the others are
    not touched. *)
Class FinalizerLaws `{FL : FinalizerLib} := {
  AddFinalizer_elem : forall l f x, x ∈ AddFinalizer l f <-> x ∈ l \/ x = f;
  RemoveFinalizer_elem : forall l f x, x ∈ RemoveFinalizer l f <-> x ∈ l /\ x <> f }.

Definition myFinalizerName : string := "Opensearch".

(** The pipeline: the result of the first component that fails or asks for a requeue. *)
Fixpoint runComponents (recs : list component) (final : Result) (s : shared)
    : io (Result * option err) :=
  match recs with
  | [] => Ret (final, None)
  | rec :: recs' =>
      let! (s', (result, e)) := rec s in
      match e with
      | Some _ => Ret (result, e)
      | None =>
          if Requeue result then Ret (result, None) else runComponents recs' final s'
      end
  end.

Section Controller.
Context `{RP : RetryPolicy} `{PE : ProcEnv} `{CR : Crypto} `{LL : LabelLib} `{SV : Semver}
  `{HV : HcVersion} `{CB : Combiner} `{CO : Components} `{FL : FinalizerLib}.

Definition withInstance (p : OpenSearchCluster -> io (Result * option err)) : component :=
  fun s => let! r := p s.1 in Ret (s, r).

(** The scaler leaves its slice in the shared instance. *)
Definition scalerComponent : component :=
  fun s =>
    let! (comp, r) := ScalerReconcile s.1 in
    Ret ((with_status (set_ComponentsStatus comp) s.1, s.2), r).

(** The context is made anew for each run of the pipeline. *)
Definition withContext (instance : OpenSearchCluster) : shared :=
  (instance, NewReconcilerContext (nodePools instance)).

Definition deleteExternalResources (instance : OpenSearchCluster) : io (Result * option err) :=
  runComponents
    [tlsDelete; securityconfigDelete; configDelete; clusterDelete; dashboardsDelete]
    noResult (withContext instance).

Definition runningComponents : list component :=
  [tlsReconcile; securityconfigReconcile; configReconcile; clusterReconcile; scalerComponent;
   dashboardsReconcile; withInstance UpgradeReconcile; withInstance RollingRestartReconcile;
   snapshotrepositoryReconcile].

(** The retried updates of [r.Instance]: the object is fetched again, changed and sent. *)
Definition retryUpdate (name ns : string) (f : OpenSearchCluster -> io OpenSearchCluster)
    (send : OpenSearchCluster -> io (option err)) (instance : OpenSearchCluster)
    : io (OpenSearchCluster * option err) :=
  RetryOnConflict (fun instance =>
    let! r := GetOpenSearchCluster name ns in
    match r with
    | Err e => Ret (instance, Some e)
    | Ok fetched =>
        let! instance' := f fetched in
        let! e := send instance' in
        Ret (instance', e)
    end) instance.

Definition sendUpdate (c : OpenSearchCluster) : io (option err) := ask (Update KCluster c).
Definition sendStatus (c : OpenSearchCluster) : io (option err) :=
  ask (StatusUpdate KCluster c).

Definition reconcilePhasePending (instance : OpenSearchCluster) : io (Result * option err) :=
  let! (_, e) := retryUpdate (cl_Name instance) (cl_Namespace instance)
    (fun c => Ret (with_status (fun st => set_ComponentsStatus [] (set_Phase PhaseRunning st)) c))
    sendStatus instance in
  match e with
  | Some e => Ret (noResult, Some e)
  | None => Ret (mkResult true 0, None)
  end.

Definition reconcilePhaseRunning (instance : OpenSearchCluster) : io (Result * option err) :=
  let! (instance, e) :=
    if negb (st_Initialized (cl_Status instance)) then
      retryUpdate (cl_Name instance) (cl_Namespace instance)
        (fun c => let! b := AllMastersReady c in Ret (with_status (set_Initialized b) c))
        sendStatus instance
    else Ret (instance, None) in
  match e with
  | Some e => Ret (noResult, Some e)
  | None => runComponents runningComponents (requeueIn 30) (withContext instance)
  end.

(** The phases; an empty phase counts as pending. *)
Definition reconcilePhase (instance : OpenSearchCluster) : io (Result * option err) :=
  let phase := st_Phase (cl_Status instance) in
  let instance :=
    if phase == "" then with_status (set_Phase PhasePending) instance else instance in
  let phase := st_Phase (cl_Status instance) in
  if phase == PhasePending then reconcilePhasePending instance
  else if (phase == PhaseRunning) || (phase == PhaseUpgrading)
  then reconcilePhaseRunning instance
  else Ret (requeueIn 30, None).

(** A deleted cluster: its resources are deleted, then the finalizer is removed. *)
Definition finalizeCluster (name ns : string) (instance : OpenSearchCluster)
    : io (Result * option err) :=
  if ContainsString (cl_Finalizers instance) myFinalizerName then
    let! (result, e) := deleteExternalResources instance in
    match e with
    | Some e => Ret (result, Some e)
    | None =>
        let! (_, e) := retryUpdate name ns
          (fun c => Ret (with_finalizers (fun l => RemoveFinalizer l myFinalizerName) c))
          sendUpdate instance in
        Ret (noResult, e)
    end
  else Ret (noResult, None).

Definition Reconcile (name ns : string) : io (Result * option err) :=
  let! r := GetOpenSearchCluster name ns in
  match r with
  | Err e =>
      if IsNotFound e then
        let! old := ask (Get KLegacyCluster name ns) in
        match old with
        | Ok _ => Ret (mkResult false 5, None)
        | Err _ => Ret (noResult, None)
        end
      else Ret (noResult, Some e)
  | Ok instance =>
      match cl_DeletionTimestamp instance with
      | Some _ => finalizeCluster name ns instance
      | None =>
          if ContainsString (cl_Finalizers instance) myFinalizerName
          then reconcilePhase instance
          else
            let! (instance, e) := retryUpdate name ns
              (fun c => Ret (with_finalizers (fun l => AddFinalizer l myFinalizerName) c))
              sendUpdate instance in
            match e with
            | Some e => Ret (noResult, Some e)
            | None => reconcilePhase instance
            end
      end
  end.

End Controller.

(** ** The pipeline *)

Lemma runComponents_stop l post final final' i (w : oenv) h res e h1 :
  run w (runComponents l final' i) h = (Returned (res, e), h1) ->
  (e <> None \/ Requeue res = true) -> Requeue final' = false ->
  run w (runComponents (l ++ post) final i) h = (Returned (res, e), h1).
Proof.
  intros Hr Hs Hf. revert i h Hr. induction l as [|rec l IH]; intros i h; simpl.
  { intros [= -> <- <-]. destruct Hs as [?|?]; congruence. }
  rewrite !run_bind. destruct (run w (rec i) h) as [[[i' [r' [e'|]]]|m] h2]; simpl; [done| |done].
  destruct (Requeue r') eqn:Er; [done|]. apply IH.
Qed.

Section ControllerProofs.
Context `{RP : RetryPolicy} `{PE : ProcEnv} `{CR : Crypto} `{LL : LabelLib} `{SV : Semver}.

(** The number of pods deleted so far is unchanged, unless the result stops the pipeline. *)
Definition stop_count (n : nat) (h : ohist) (o : outcome (Result * option err)) : Prop :=
  (count_calls deletes_pod h <= 1 + n)%nat /\
  match o with
  | Returned (res, None) => Requeue res = false -> count_calls deletes_pod h = n
  | _ => True
  end.

Lemma never_stop_count (p : io (Result * option err)) n h :
  only no_workload p -> count_calls deletes_pod h = n ->
  wp p (λ _ _, True) (stop_count n) h.
Proof.
  intros Hp Hn. eapply wp_mono; [done| |apply (wp_count_never deletes_pod)].
  - intros h' o Ho. simpl in Ho. split; [lia|]. destruct o as [[res [e|]]|m]; try done. lia.
  - by apply only_no_pod_delete.
Qed.

Lemma never_bind_count {A} (p : io A) (k : A -> io (Result * option err)) n h :
  only no_workload p -> count_calls deletes_pod h = n ->
  (forall h' a, count_calls deletes_pod h' = n -> wp (k a) (λ _ _, True) (stop_count n) h') ->
  wp (bind p k) (λ _ _, True) (stop_count n) h.
Proof.
  intros Hp Hn Hk. wp_step. eapply wp_mono; [done| |apply (wp_count_never deletes_pod)].
  - intros h' [a|m] Ho; wp_step; [apply Hk; lia|]. split; [lia|done].
  - by apply only_no_pod_delete.
Qed.

Lemma stop_count_upgradeNextPool instance c n h :
  count_calls deletes_pod h = n ->
  wp (upgradeNextPool instance c) (λ _ _, True) (stop_count n) h.
Proof.
  intros Hn. unfold upgradeNextPool.
  destruct (findNextNodePoolForUpgrade instance) as [pool cs].
  destruct (_ == _); [apply never_stop_count; [only_auto|done]|].
  destruct (_ == _).
  - wp_step. eapply wp_mono; [done| |apply (wp_count_once deletes_pod)].
    + intros h' [e|m] Ho; wp_step; [wp_step|]; (split; [lia|]); [by destruct e|done].
    + apply once_doNodePoolUpgrade.
  - destruct (_ == _); (apply never_stop_count; [only_auto|done]).
Qed.

Lemma stop_count_upgrade instance n h :
  count_calls deletes_pod h = n ->
  wp (UpgradeReconcile instance) (λ _ _, True) (stop_count n) h.
Proof.
  intros Hn. unfold UpgradeReconcile. cbv zeta.
  destruct (_ == _); [destruct (_ == _); (apply never_stop_count; [only_auto|done])|].
  destruct (negb _); [apply never_stop_count; [only_auto|done]|].
  apply never_bind_count; [apply only_reads_no_workload, only_validateUpgrade|done|].
  intros h1 [e|] H1; [apply never_stop_count; [only_auto|done]|].
  assert (Hgo : forall h2, count_calls deletes_pod h2 = n ->
    wp (continueUpgrade instance) (λ _ _, True) (stop_count n) h2).
  { intros h2 H2. unfold continueUpgrade. apply never_bind_count; [auto with only|done|].
    intros h3 [c|e] H3; [|apply never_stop_count; [only_auto|done]].
    destruct (drainDataNodes instance); [|by apply stop_count_upgradeNextPool].
    apply never_bind_count; [auto with only|done|]. intros h4 [res [e|]] H4;
      [apply never_stop_count; [only_auto|done]|].
    destruct (Requeue res); [apply never_stop_count; [only_auto|done]|].
    by apply stop_count_upgradeNextPool. }
  destruct (negb _); [|by apply Hgo]. apply never_bind_count; [auto with only|done|].
  intros h2 [e|] H2; [apply never_stop_count; [only_auto|done]|by apply Hgo].
Qed.

Lemma upgrade_then_restart_count s final h :
  wp (runComponents [withInstance UpgradeReconcile; withInstance RollingRestartReconcile] final
        s) (λ _ _, True)
     (λ h' _, (count_calls deletes_pod h' <= 1 + count_calls deletes_pod h)%nat) h.
Proof.
  cbn [runComponents]. unfold withInstance. do 2 wp_step.
  eapply wp_mono; [done| |by apply stop_count_upgrade].
  intros h1 [[res [e|]]|m] [Hle Hst]; repeat wp_step; try done; try lia.
  specialize (Hst eq_refl). rewrite <- Hst.
  eapply wp_mono; [done| |apply (wp_count_once deletes_pod), once_RollingRestartReconcile].
  intros h2 [[res' [e'|]]|m] Ho; repeat wp_step; done.
Qed.

End ControllerProofs.

(** ** Theorems *)

(** The pipeline of component reconcilers stops at the first error or requeue: what comes
    after it is not run, and its result is the result of the reconciliation. *)
Theorem pipeline_stops_first (l post : list component) final i (w : oenv) h res e h1 :
  run w (runComponents l noResult i) h = (Returned (res, e), h1) ->
  (e <> None \/ Requeue res = true) ->
  run w (runComponents (l ++ post) final i) h = (Returned (res, e), h1).
Proof. intros Hr Hs. by eapply runComponents_stop. Qed.

Section ControllerTheorems.
Context `{RP : RetryPolicy} `{PE : ProcEnv} `{CR : Crypto} `{LL : LabelLib} `{SV : Semver}
  `{HV : HcVersion} `{CB : Combiner} `{CO : Components} `{FL : FinalizerLib}.

(** C7: the upgrade and the rolling restart together delete at most one pod per
    reconciliation: a step of the upgrade that deletes a pod stops the pipeline. *)
Theorem one_pod_per_reconcile (s : shared) final (w : oenv) :
  (count_calls deletes_pod
     (run w (runComponents [withInstance UpgradeReconcile; withInstance RollingRestartReconcile]
               final s) []).2 <= 1)%nat.
Proof. exact (proj1 (wp_run w _ _ _ (upgrade_then_restart_count s final []))). Qed.

(** While the resources of a deleted cluster cannot be deleted, the finalizer stays: an
    error of any component ends the reconciliation, which makes no request after it. *)
Theorem finalizer_kept_on_error name ns (instance : OpenSearchCluster) t (w : oenv) res e h1 :
  w (Get KCluster name ns) [] = Ok instance ->
  cl_DeletionTimestamp instance = Some t ->
  ContainsString (cl_Finalizers instance) myFinalizerName = true ->
  run w (deleteExternalResources instance) [Ev (Get KCluster name ns) (Ok instance)] =
    (Returned (res, Some e), h1) ->
  run w (Reconcile name ns) [] = (Returned (res, Some e), h1).
Proof.
  intros Hg Ht Hf Hr. unfold Reconcile, GetOpenSearchCluster. rewrite run_bind.
  change (run w (ask _) []) with (Returned (w (Get KCluster name ns) []),
    [Ev (Get KCluster name ns) (w (Get KCluster name ns) [])]).
  rewrite Hg, Ht. unfold finalizeCluster. by rewrite Hf, run_bind, Hr.
Qed.

(** A component that asks for a requeue (its deletion is still going on) does not keep the
    finalizer: the controller ignores the result and removes the finalizer. *)
Theorem finalizer_ignores_requeue `{FLW : !FinalizerLaws} name ns
    (instance c : OpenSearchCluster) (w : oenv) res h1 :
  RetrySteps <> 0%nat ->
  ContainsString (cl_Finalizers instance) myFinalizerName = true ->
  run w (deleteExternalResources instance) [] = (Returned (res, None), h1) ->
  w (Get KCluster name ns) h1 = Ok c -> (forall h o, w (Update KCluster o) h = None) ->
  Requeue res = true ->
  let '(o, h) := run w (finalizeCluster name ns instance) [] in
  o = Returned (noResult, None) /\
  exists c', saw h (Update KCluster c') None /\ myFinalizerName ∉ cl_Finalizers c'.
Proof.
  intros Hn Hf Hr Hg Hu _. unfold finalizeCluster. rewrite Hf, run_bind, Hr.
  unfold retryUpdate, RetryOnConflict. destruct RetrySteps as [|n]; [done|].
  cbn [retry_loop]. unfold GetOpenSearchCluster, sendUpdate, bind, call. cbn [run].
  rewrite Hg. cbn [run]. rewrite Hu. cbn [run]. split; [done|].
  eexists. split; [apply saw_here|]. cbn. rewrite RemoveFinalizer_elem. naive_solver.
Qed.

End ControllerTheorems.

(** ** Initialization *)

Section Initialized.
Context `{RP : RetryPolicy} `{PE : ProcEnv} `{CR : Crypto} `{LL : LabelLib} `{SV : Semver}
  `{HV : HcVersion}.

(** The controller records that a cluster is initialized only when every cluster-manager
    pool was seen with all its replicas ready. *)
Theorem initialized_when_masters_ready (name ns : string) (instance : OpenSearchCluster)
    (w : oenv) :
  calls_ok (λ h q,
    match q with
    | StatusUpdate KCluster o =>
        st_Initialized (cl_Status o) = true -> Forall (manager_ready h o) (nodePools o)
    | _ => reads q
    end)
    (run w (retryUpdate name ns
              (fun c => let! b := AllMastersReady c in Ret (with_status (set_Initialized b) c))
              sendStatus instance) []).2.
Proof.
  set (P := λ (h : ohist) (q : req), _).
  refine (proj2 (wp_run w _ P (λ _ _, True) _)). unfold retryUpdate, RetryOnConflict.
  apply (wp_retry_loop (λ _ _, True)); [done| |done]. intros i h _.
  unfold GetOpenSearchCluster. wp_step; [done|]. destruct r as [c|e]; [|by wp_step].
  assert (Hsend : forall h' b, (b = true -> Forall (manager_ready h' c) (nodePools c)) ->
    wp (let! e := sendStatus (with_status (set_Initialized b) c) in
        Ret (with_status (set_Initialized b) c, e)) P (retry_post (λ _ _, True) (λ _ _, True)) h').
  { intros h' b Hb. unfold sendStatus. wp_step; [exact Hb|]. wp_step. split; [done|].
    by destruct r. }
  do 2 wp_step. apply wp_AllMastersReady.
  - intros h' q _ Hq. by destruct q as [| | |[]| | | | | |].
  - intros h' _. wp_step. wp_step. wp_step. by apply Hsend.
  - intros h' _ Hm. wp_step. wp_step. wp_step. apply Hsend. done.
Qed.

End Initialized.

(** ** Witnesses *)

Import Fixtures.Samples.

(** Components that do nothing, but for a deletion that is still going on. *)
Definition idle : component := fun i => Ret (i, (noResult, None)).
Definition busy : component := fun i => Ret (i, (requeueIn 10, None)).
Definition failing : component := fun i => Ret (i, (noResult, Some (OtherErr "forbidden"))).

Definition sample_components (clusterDel : component) : Components :=
  {| tlsReconcile := idle; securityconfigReconcile := idle; configReconcile := idle;
     clusterReconcile := idle; dashboardsReconcile := idle; snapshotrepositoryReconcile := idle;
     tlsDelete := idle; securityconfigDelete := idle; configDelete := idle;
     clusterDelete := clusterDel; dashboardsDelete := idle |}.

#[local] Instance finalizers : FinalizerLib :=
  {| AddFinalizer := fun l f => if ContainsString l f then l else l ++ [f];
     RemoveFinalizer := fun l f => filter (λ x, x <> f) l |}.

#[local] Instance finalizers_laws : FinalizerLaws.
Proof.
  split; intros l f x; simpl.
  - destruct (ContainsString l f) eqn:E; [apply ContainsString_spec in E|]; set_solver.
  - rewrite list_elem_of_filter. naive_solver.
Qed.

Definition deleted_cluster : OpenSearchCluster :=
  mkCluster "os" "ns" "uid" (Some "now") [myFinalizerName]
    (cl_Spec (cluster_with false false [nodes] (running []))) (running []).
Definition deleted_world : oenv :=
  world deleted_cluster (sts_of "os-nodes" 3) (ok_resp []) green.

Lemma pipeline_stops_first_witness :
  run deleted_world (runComponents ([idle; busy] ++ [failing]) (requeueIn 30) (withContext deleted_cluster)) [] =
  (Returned (requeueIn 10, None), []).
Proof. apply pipeline_stops_first; [reflexivity|right; reflexivity]. Defined.

Lemma finalizer_kept_on_error_witness :
  let CO := sample_components failing in
  (run deleted_world (Reconcile "os" "ns") []).1 =
  Returned (noResult, Some (OtherErr "forbidden")).
Proof.
  intros CO.
  rewrite (finalizer_kept_on_error "os" "ns" deleted_cluster "now" deleted_world noResult
             (OtherErr "forbidden") [Ev (Get KCluster "os" "ns") (Ok deleted_cluster)]);
    reflexivity.
Defined.

Lemma finalizer_ignores_requeue_witness :
  let CO := sample_components busy in
  (run deleted_world (finalizeCluster "os" "ns" deleted_cluster) []).1 =
  Returned (noResult, None).
Proof.
  intros CO.
  pose proof (finalizer_ignores_requeue "os" "ns" deleted_cluster deleted_cluster deleted_world
                (requeueIn 10) []) as H.
  destruct (run deleted_world (finalizeCluster "os" "ns" deleted_cluster) []) as [o h].
  destruct H as [-> _]; try reflexivity. discriminate.
Defined.
