(* ===== verification/Webhooks.v ===== *)
(** * Webhooks: admission control of custom resources

    Models the validators of [webhook/opensearch_cluster_webhook.go] and of the role, user and
    user-role-binding webhooks.  A validator answers with the error of a rejected request; no
    validator gives a warning. *)

From S2P Require Import Prelude Prog Resources Api K8sClient Helpers OsClient OsData Fixtures.

(** ** OpenSearchCluster *)

(** The loop of [validateNodePoolComponentUniqueness] from index [i] on. *)
Fixpoint checkComponents (i : Z) (seen : gset string) (pools : list NodePool) : option err :=
  match pools with
  | [] => None
  | p :: rest =>
      let component := np_Component p in
      if component == "" then
        Some (OtherErr ("node pool at index " +:+ Itoa i +:+ " has an empty component name"))
      else if bool_decide (component ∈ seen) then
        Some (OtherErr ("duplicate node pool component name '" +:+ component +:+
              "': each node pool must have a unique component name (used for K8s resource " +:+
              "naming)"))
      else checkComponents (i + 1) ({[component]} ∪ seen) rest
  end.

Definition validateNodePoolComponentUniqueness (cluster : OpenSearchCluster) : option err :=
  checkComponents 0 ∅ (nodePools cluster).

(** The storage class of a pool; none and the empty one are the same. *)
Definition storageClass (p : NodePool) : string :=
  match np_Persistence p with
  | Some per =>
      match per_PVC per with
      | Some pvc => default "" (pvs_StorageClassName pvc)
      | None => ""
      end
  | None => ""
  end.

(** A later pool with the same name overwrites an earlier one. *)
Definition poolsByComponent (pools : list NodePool) : gmap string NodePool :=
  fold_left (fun m p => <[np_Component p := p]> m) pools ∅.

Fixpoint checkStorageClasses (oldNodePools : gmap string NodePool) (pools : list NodePool)
    : option err :=
  match pools with
  | [] => None
  | p :: rest =>
      match oldNodePools !! np_Component p with
      | None => checkStorageClasses oldNodePools rest
      | Some old =>
          if storageClass old != storageClass p then
            Some (OtherErr ("storage class cannot be changed for node pool '" +:+
                  np_Component p +:+ "' (was '" +:+ storageClass old +:+
                  "', attempting to change to '" +:+ storageClass p +:+
                  "'). Storage class is immutable in StatefulSets. Please delete the cluster " +:+
                  "and recreate it with the new storage class"))
          else checkStorageClasses oldNodePools rest
      end
  end.

Definition validateStorageClassChanges (oldCluster newCluster : OpenSearchCluster)
    : option err :=
  checkStorageClasses (poolsByComponent (nodePools oldCluster)) (nodePools newCluster).

(** Explicitly enabled, but without certificates. *)
Definition tlsIncomplete (side : option TlsSide) : bool :=
  match side with
  | Some t => (tl_Enabled t == Some true) && negb (tl_Generate t) && (tl_Secret t == "")
  | None => false
  end.
Definition tlsGenerates (side : option TlsSide) : bool :=
  match side with Some t => tl_Generate t | None => false end.

Definition adminSecretGiven (s : Security) : bool :=
  match sec_Config s with Some c => sc_AdminSecret c != "" | None => false end.

Section Validators.
Context `{SV : Semver}.

Definition validateTlsConfig (cluster : OpenSearchCluster) : io (option err) :=
  match sp_Security (cl_Spec cluster) with
  | None => Ret None
  | Some security =>
      match sec_Tls security with
      | None => Ret None
      | Some tlsConfig =>
          if tlsIncomplete (tls_Transport tlsConfig) then
            Ret (Some (OtherErr
              "transport TLS is enabled but neither generate nor secret is provided"))
          else if tlsIncomplete (tls_Http tlsConfig) then
            Ret (Some (OtherErr "HTTP TLS is enabled but neither generate nor secret is provided"))
          else
            let! enabled := IsSecurityPluginEnabled cluster in
            if (enabled : bool) then
              if adminSecretGiven security then Ret None
              else
                let! changed := SecurityChangeVersion cluster in
                if (changed : bool) then
                  if tlsGenerates (tls_Http tlsConfig) then Ret None
                  else Ret (Some (OtherErr
                    "admin secret name is not provided but http.tls generate is not true"))
                else
                  if tlsGenerates (tls_Transport tlsConfig) then Ret None
                  else Ret (Some (OtherErr
                    "admin secret name is not provided but transport.tls generate is not true"))
            else Ret None
      end
  end.

Definition ClusterValidateCreate (cluster : OpenSearchCluster) : io (option err) :=
  match validateNodePoolComponentUniqueness cluster with
  | Some e => Ret (Some e)
  | None => validateTlsConfig cluster
  end.

Definition ClusterValidateUpdate (oldCluster newCluster : OpenSearchCluster)
    : io (option err) :=
  match cl_DeletionTimestamp newCluster with
  | Some _ => Ret None
  | None =>
      match validateNodePoolComponentUniqueness newCluster with
      | Some e => Ret (Some e)
      | None =>
          match validateStorageClassChanges oldCluster newCluster with
          | Some e => Ret (Some e)
          | None => validateTlsConfig newCluster
          end
      end
  end.

End Validators.

(** ** Resources that refer to a cluster *)

(** The new API group is asked first, then the old one. *)
Definition validateClusterReference (ref ns : string) : io (option err) :=
  let! r := ask (Get KCluster ref ns) in
  match r with
  | Ok _ => Ret None
  | Err _ =>
      let! old := ask (Get KLegacyCluster ref ns) in
      match old with
      | Ok _ => Ret None
      | Err e => Ret (Some (Wrapped ("referenced OpenSearch cluster '" +:+ ref +:+
                                     "' not found: ") e))
      end
  end.

Definition validateClusterReferenceUnchanged (kindName old new : string) : option err :=
  if old != new
  then Some (OtherErr ("cannot change the cluster " +:+ kindName +:+ " refers to"))
  else None.

(** [if err := check; err != nil { return nil, err }]. *)
Definition orElse (e e' : option err) : option err :=
  match e with Some _ => e | None => e' end.

Definition validatePermissions (role : OpensearchRole) : option err :=
  match rol_ClusterPermissions role, rol_IndexPermissions role, rol_TenantPermissions role with
  | [], [], [] => Some (OtherErr ("at least one of clusterPermissions, indexPermissions, or " +:+
                                  "tenantPermissions must be defined"))
  | _, _, _ => None
  end.

Definition RoleValidateCreate (role : OpensearchRole) : io (option err) :=
  let! e := validateClusterReference (rol_OpensearchRef role) (rol_Namespace role) in
  Ret (orElse e (validatePermissions role)).
Definition RoleValidateUpdate (oldRole newRole : OpensearchRole) : option err :=
  orElse (validateClusterReferenceUnchanged "a role" (rol_OpensearchRef oldRole)
            (rol_OpensearchRef newRole))
    (validatePermissions newRole).

Definition validatePasswordReference (user : OpensearchUser) : option err :=
  if usr_PasswordFromName user == "" then
    Some (OtherErr "passwordFrom.name must be specified")
  else if usr_PasswordFromKey user == "" then
    Some (OtherErr "passwordFrom.key must be specified")
  else None.

Definition UserValidateCreate (user : OpensearchUser) : io (option err) :=
  let! e := validateClusterReference (usr_OpensearchRef user) (usr_Namespace user) in
  Ret (orElse e (validatePasswordReference user)).
Definition UserValidateUpdate (oldUser newUser : OpensearchUser) : option err :=
  orElse (validateClusterReferenceUnchanged "a user" (usr_OpensearchRef oldUser)
            (usr_OpensearchRef newUser))
    (validatePasswordReference newUser).

Definition validateRoles (binding : OpensearchUserRoleBinding) : option err :=
  match urb_Roles binding with
  | [] => Some (OtherErr "roles cannot be empty")
  | _ => None
  end.
Definition validateSubjects (binding : OpensearchUserRoleBinding) : option err :=
  match urb_Users binding, urb_BackendRoles binding with
  | [], [] => Some (OtherErr "at least one of users or backendRoles must be specified")
  | _, _ => None
  end.

Definition BindingValidateCreate (binding : OpensearchUserRoleBinding) : io (option err) :=
  let! e := validateClusterReference (urb_OpensearchRef binding) (urb_Namespace binding) in
  Ret (orElse e (orElse (validateRoles binding) (validateSubjects binding))).
Definition BindingValidateUpdate (oldBinding newBinding : OpensearchUserRoleBinding)
    : option err :=
  orElse (validateClusterReferenceUnchanged "a user role binding" (urb_OpensearchRef oldBinding)
            (urb_OpensearchRef newBinding))
    (orElse (validateRoles newBinding) (validateSubjects newBinding)).

(** ** Lemmas *)

Lemma checkComponents_spec i seen pools :
  checkComponents i seen pools = None <->
  NoDup (np_Component <$> pools) /\ (forall p, p ∈ pools ->
    np_Component p <> "" /\ np_Component p ∉ seen).
Proof.
  revert i seen. induction pools as [|p rest IH]; intros i seen; simpl.
  { split; [|done]. intros _. split; [constructor|by intros p ?%elem_of_nil]. }
  rewrite NoDup_cons, list_elem_of_fmap. case_bool_decide as He.
  { split; [done|]. intros [_ Hp]. destruct (Hp p); [constructor|done]. }
  case_bool_decide as Hs.
  { split; [done|]. intros [_ Hp]. destruct (Hp p); [constructor|done]. }
  rewrite IH. split.
  - intros [Hn Hp]. split; [split; [|done]|].
    + intros (q & Hq & Hin). destruct (Hp q Hin) as [_ Hx]. set_solver.
    + intros q [->|Hq]%elem_of_cons; [done|]. destruct (Hp q Hq). set_solver.
  - intros [[Hni Hn] Hp]. split; [done|]. intros q Hq.
    destruct (Hp q) as [H1 H2]; [by constructor|]. split; [done|].
    assert (np_Component p <> np_Component q) by (intros Heq; apply Hni; eauto). set_solver.
Qed.

Lemma poolsByComponent_spec pools (m : gmap string NodePool) :
  NoDup (np_Component <$> pools) ->
  forall k p, fold_left (fun m p => <[np_Component p := p]> m) pools m !! k = Some p <->
    (p ∈ pools /\ np_Component p = k) \/ ((k ∉ np_Component <$> pools) /\ m !! k = Some p).
Proof.
  revert m. induction pools as [|q rest IH]; intros m Hn k p; simpl.
  { split; [|set_solver]. intros H. right. split; [apply not_elem_of_nil|done]. }
  apply NoDup_cons in Hn as [Hq Hn]. rewrite IH by done.
  rewrite elem_of_cons, not_elem_of_cons. destruct (decide (k = np_Component q)) as [->|Hk].
  - rewrite lookup_insert_eq. split.
    + intros [[H1 H2]|[H1 [= <-]]]; [left; auto|left; auto].
    + intros [[[->|Hp] Hc]|[[Hc _] _]]; [by right| |done]. left. auto.
  - rewrite lookup_insert_ne by done. split.
    + intros [[H1 H2]|[H1 H2]]; [left; auto|right; auto].
    + intros [[[->|Hp] Hc]|[[Hc H1] H2]]; [done|by left|by right].
Qed.

Lemma checkStorageClasses_spec m pools :
  checkStorageClasses m pools = None <->
  forall p old, p ∈ pools -> m !! np_Component p = Some old -> storageClass old = storageClass p.
Proof.
  induction pools as [|q rest IH]; simpl; [split; [by intros _ p old ?%elem_of_nil|done]|].
  destruct (m !! np_Component q) as [old|] eqn:E.
  - case_bool_decide as Hs; simpl; [|split; [done|]].
    + rewrite IH. split.
      * intros H p o [->|Hp]%elem_of_cons Ho; [congruence|eauto].
      * intros H p o Hp. apply H. by constructor.
    + intros H. destruct Hs. apply H; [constructor|done].
  - rewrite IH. split.
    + intros H p o [->|Hp]%elem_of_cons Ho; [congruence|eauto].
    + intros H p o Hp. apply H. by constructor.
Qed.

(** The exchange was a read that found its object. *)
Definition found (e : event resp) : bool :=
  match ev_req e as q return resp q -> bool with
  | Get _ _ _ => fun r => match r with Ok _ => true | Err _ => false end
  | _ => fun _ => false
  end (ev_resp e).

Lemma not_found_saw (h : ohist) e :
  e ∈ h -> found e = true -> Forall (λ e, found e = false) h -> False.
Proof. intros Hin He Hf. rewrite Forall_forall in Hf. specialize (Hf e Hin). congruence. Qed.

(** The cluster a resource refers to was found under the new or the old API group. *)
Definition cluster_found (h : ohist) (ref ns : string) : Prop :=
  (exists c, saw h (Get KCluster ref ns) (Ok c)) \/
  (exists c, saw h (Get KLegacyCluster ref ns) (Ok c)).

(** A creation is accepted exactly when the cluster is found and the other checks pass. *)
Lemma reference_then_spec ref ns (e' : option err) (w : oenv) :
  let '(o, h) := run w (let! e := validateClusterReference ref ns in Ret (orElse e e')) [] in
  o = Returned None <-> cluster_found h ref ns /\ e' = None.
Proof.
  unfold validateClusterReference, cluster_found, bind, call. cbn [run].
  destruct (w (Get KCluster _ _) []) as [c|e] eqn:E1; cbn [run].
  - cbn [orElse]. split.
    + intros [= ->]. split; [|done]. left. exists c. apply saw_here.
    + by intros [_ ->].
  - destruct (w (Get KLegacyCluster _ _) _) as [c|e2] eqn:E2; cbn [run orElse].
    + split.
      * intros [= ->]. split; [|done]. right. exists c. apply saw_here.
      * by intros [_ ->].
    + split; [done|].
      intros [[[c Hc]|[c Hc]] _]; exfalso; apply (not_found_saw _ _ Hc eq_refl);
        by repeat constructor.
Qed.

Lemma unchanged_spec kindName old new (e' : option err) :
  orElse (validateClusterReferenceUnchanged kindName old new) e' = None <->
  old = new /\ e' = None.
Proof. unfold validateClusterReferenceUnchanged. case_bool_decide; cbn; naive_solver. Qed.

Lemma uniqueness_spec cluster :
  validateNodePoolComponentUniqueness cluster = None <->
  NoDup (np_Component <$> nodePools cluster) /\ ("" ∉ np_Component <$> nodePools cluster).
Proof.
  unfold validateNodePoolComponentUniqueness. rewrite checkComponents_spec. split.
  - intros [Hn Hp]. split; [done|]. intros (p & He & Hin)%list_elem_of_fmap.
    by destruct (Hp p Hin).
  - intros [Hn He]. split; [done|]. intros p Hp. split; [|set_solver].
    intros Hc. apply He, list_elem_of_fmap. eauto.
Qed.

Lemma storage_spec old new :
  NoDup (np_Component <$> nodePools old) ->
  validateStorageClassChanges old new = None <->
  (forall p q, p ∈ nodePools new -> q ∈ nodePools old ->
     np_Component p = np_Component q -> storageClass q = storageClass p).
Proof.
  intros Hold. unfold validateStorageClassChanges, poolsByComponent.
  rewrite checkStorageClasses_spec. split.
  - intros H p q Hp Hq Hc. apply H; [done|]. apply poolsByComponent_spec; [done|]. by left.
  - intros H p q Hp Hq. apply poolsByComponent_spec in Hq as [[H1 H2]|[_ H2]];
      [by apply H|by rewrite lookup_empty in H2|done].
Qed.

(** ** Theorems *)

(** A cluster passes the node-pool check if and only if its component names are pairwise
    different and none is empty; so its stateful sets have pairwise different names. *)
Theorem components_unique_iff (cluster : OpenSearchCluster) :
  (validateNodePoolComponentUniqueness cluster = None <->
   NoDup (np_Component <$> nodePools cluster) /\ "" ∉ np_Component <$> nodePools cluster) /\
  (validateNodePoolComponentUniqueness cluster = None ->
   NoDup (StsName cluster <$> nodePools cluster)).
Proof.
  split; [apply uniqueness_spec|]. rewrite uniqueness_spec. intros [Hn _].
  assert (StsName cluster <$> nodePools cluster =
    (λ n, cl_Name cluster +:+ "-" +:+ n) <$> (np_Component <$> nodePools cluster)) as ->
    by (by rewrite <- list_fmap_compose).
  apply NoDup_fmap_2_strong; [|done]. intros x y _ _ Heq. by apply app_inj_l, app_inj_l in Heq.
Qed.

(** A cluster whose pools had pairwise different names can be updated only to one with
    pairwise different, non-empty names in which every pool that existed keeps its storage
    class; conversely such an update is accepted when the TLS settings are. *)
Theorem update_keeps_storage_class `{SV : Semver} (old new : OpenSearchCluster) :
  NoDup (np_Component <$> nodePools old) -> cl_DeletionTimestamp new = None ->
  let ok := NoDup (np_Component <$> nodePools new) /\
            ("" ∉ np_Component <$> nodePools new) /\
            (forall p q, p ∈ nodePools new -> q ∈ nodePools old ->
               np_Component p = np_Component q -> storageClass q = storageClass p) in
  (ok -> ClusterValidateUpdate old new = validateTlsConfig new) /\
  (ClusterValidateUpdate old new = Ret None -> ok).
Proof.
  intros Hold Hd. unfold ClusterValidateUpdate. rewrite Hd. cbv zeta.
  pose proof (uniqueness_spec new) as Hu. pose proof (storage_spec old new Hold) as Hs.
  split.
  - intros (H1 & H2 & H3). rewrite (proj2 Hu), (proj2 Hs) by done. done.
  - destruct (validateNodePoolComponentUniqueness new); [done|].
    destruct (validateStorageClassChanges old new); [done|]. intros _.
    destruct (proj1 Hu eq_refl). split_and!; [done|done|by apply Hs].
Qed.

(** When the TLS settings of a cluster are accepted, a side that is explicitly enabled has
    certificates (generated or from a secret), and a cluster with the security plugin has an
    admin secret or generated certificates on the side that its version uses. *)
Theorem accepted_tls_has_certificates `{SV : Semver} (cluster : OpenSearchCluster) security
    tls :
  sp_Security (cl_Spec cluster) = Some security -> sec_Tls security = Some tls ->
  validateTlsConfig cluster = Ret None ->
  (forall side, side = tls_Transport tls \/ side = tls_Http tls ->
     forall t, side = Some t -> tl_Enabled t = Some true ->
     tl_Generate t = true \/ tl_Secret t <> "") /\
  (forall changed, SecurityChangeVersion cluster = Ret changed ->
     let side := if (changed : bool) then tls_Http tls else tls_Transport tls in
     tls_side_enabled side = true ->
     adminSecretGiven security = true \/ tlsGenerates side = true).
Proof.
  intros Hs Ht. unfold validateTlsConfig. rewrite Hs, Ht.
  destruct (tlsIncomplete (tls_Transport tls)) eqn:E1; [done|].
  destruct (tlsIncomplete (tls_Http tls)) eqn:E2; [done|]. intros Hv. split.
  - intros side Hside t Hst He. assert (tlsIncomplete side = false) as Hi
      by (destruct Hside; subst side; congruence).
    rewrite Hst in Hi. cbn in Hi. rewrite bool_decide_true in Hi by done. cbn in Hi.
    destruct (tl_Generate t); [by left|right]. by apply bool_decide_eq_false in Hi.
  - intros changed Hch Hen.
    unfold IsSecurityPluginEnabled, IsHttpTlsEnabled, IsTransportTlsEnabled, cluster_tls in Hv.
    rewrite Hch, Hs, Ht in Hv. unfold bind in Hv.
    destruct changed; rewrite Hen in Hv; cbn in Hv;
      (destruct (adminSecretGiven security); [by left|right]);
      destruct (tlsGenerates _); done.
Qed.

(** A user-role binding is accepted on creation if and only if the cluster it refers to is
    found under the new or the old API group, it names a role, and it names a user or a
    backend role; an update is accepted only if it also keeps the cluster reference. *)
Theorem binding_admission (old b : OpensearchUserRoleBinding) (w : oenv) :
  let members := urb_Roles b <> [] /\ (urb_Users b <> [] \/ urb_BackendRoles b <> []) in
  let '(o, h) := run w (BindingValidateCreate b) [] in
  (o = Returned None <->
   cluster_found h (urb_OpensearchRef b) (urb_Namespace b) /\ members) /\
  (BindingValidateUpdate old b = None <->
   urb_OpensearchRef old = urb_OpensearchRef b /\ members).
Proof.
  assert (Hsub : orElse (validateRoles b) (validateSubjects b) = None <->
    urb_Roles b <> [] /\ (urb_Users b <> [] \/ urb_BackendRoles b <> [])).
  { unfold validateRoles, validateSubjects. destruct (urb_Roles b), (urb_Users b),
      (urb_BackendRoles b); cbn; naive_solver. }
  cbv zeta. unfold BindingValidateUpdate, BindingValidateCreate.
  pose proof (reference_then_spec (urb_OpensearchRef b) (urb_Namespace b)
                (orElse (validateRoles b) (validateSubjects b)) w) as H.
  destruct (run _ _ _). by rewrite <- Hsub, unchanged_spec.
Qed.

(** ** Witnesses *)

Import Fixtures.Samples.

Definition tls_cluster : OpenSearchCluster :=
  mkCluster "os" "ns" "uid" None []
    (mkClusterSpec (plain_general false ∅ []) false
       (Some (mkSecurity (Some (mkTlsConfig None (Some (mkTlsSide (Some true) true "" "" false 0 None false [] [] None)))) None))
       [nodes] no_dashboards no_init_helper no_bootstrap) (running []).

Lemma update_keeps_storage_class_witness :
  ClusterValidateUpdate tls_cluster tls_cluster = validateTlsConfig tls_cluster.
Proof.
  apply (update_keeps_storage_class tls_cluster tls_cluster).
  - apply NoDup_singleton.
  - reflexivity.
  - split_and!.
    + apply NoDup_singleton.
    + intros H%list_elem_of_singleton. discriminate.
    + intros p q Hp%list_elem_of_singleton Hq%list_elem_of_singleton _. by subst.
Defined.

Lemma accepted_tls_has_certificates_witness :
  validateTlsConfig tls_cluster = Ret None /\
  forall t, tls_Http (mkTlsConfig None (Some (mkTlsSide (Some true) true "" "" false 0 None false [] [] None))) = Some t ->
    tl_Enabled t = Some true -> tl_Generate t = true \/ tl_Secret t <> "".
Proof.
  split; [vm_compute; reflexivity|].
  apply (accepted_tls_has_certificates (SV := semver) tls_cluster _ _ eq_refl eq_refl
           ltac:(vm_compute; reflexivity)).
  by right.
Defined.
