(* ===== verification/ManagedCR.v ===== *)
(** * ManagedCR: what the reconcilers of OpenSearch's own objects have in common

    Users, roles, role bindings, tenants, action groups, templates and policies are custom
    resources that refer to a cluster.  Their reconcilers fetch the cluster, check and record
    that it manages the resource, wait until it runs, create a client, change OpenSearch over
    HTTP, and record the outcome in a deferred status update.  This file holds the shared
    code (repeated in each file of [pkg/reconcilers]), the HTTP requests of
    [opensearch-gateway/services/http_request.go] with the checks the services make of the
    answers, and the rules to reason about guarded changes of OpenSearch. *)

From S2P Require Import Prelude Prog Resources Api K8sClient Helpers OsClient OsData ReconcilerUtil.

(** ** HTTP requests *)

Definition doHTTPGet (client : OsClusterClient) (path : string) (p : payload)
    : io (result (HttpResp (payload_ty p))) := ask (OsDo client (OpHttp "GET" path NoBody p)).
Definition doHTTPHead (client : OsClusterClient) (path : string) : io (result (HttpResp unit)) :=
  ask (OsDo client (OpHttp "HEAD" path NoBody PNone)).
Definition doHTTPPut (client : OsClusterClient) (path : string) (b : body)
    : io (result (HttpResp unit)) := ask (OsDo client (OpHttp "PUT" path b PNone)).
Definition doHTTPPost (client : OsClusterClient) (path : string) (b : body)
    : io (result (HttpResp unit)) := ask (OsDo client (OpHttp "POST" path b PNone)).
Definition doHTTPDelete (client : OsClusterClient) (path : string)
    : io (result (HttpResp unit)) := ask (OsDo client (OpHttp "DELETE" path NoBody PNone)).

Definition apiError (status : string) : err := OtherErr ("response from API is " +:+ status).

(** What the services make of an answer: existence, success of a write, of a deletion. *)
Definition existsAnswer (r : result (HttpResp unit)) : result bool :=
  match r with
  | Err e => Err e
  | Ok resp =>
      if hr_StatusCode resp == 404 then Ok false
      else if hr_IsError resp then Err (apiError (hr_Status resp))
      else Ok true
  end.
Definition writeAnswer (failed : string) (r : result (HttpResp unit)) : option err :=
  match r with
  | Err e => Some e
  | Ok resp => if hr_IsError resp then Some (OtherErr (failed +:+ hr_String resp)) else None
  end.
Definition deleteAnswer (r : result (HttpResp unit)) : option err :=
  match r with
  | Err e => Some e
  | Ok resp => if hr_IsError resp then Some (apiError (hr_Status resp)) else None
  end.

(** ** The common parts of [Reconcile] and [Delete] *)

(** The fields every such resource has, and the words for it in messages. *)
Record CRops (k : kind) := mkCRops {
  cr_ref : obj k -> string;
  cr_ns : obj k -> string;
  cr_managed : obj k -> option string;
  cr_set_managed : string -> obj k -> obj k;
  cr_word : string }.
Arguments cr_ref {k}.
Arguments cr_ns {k}.
Arguments cr_managed {k}.
Arguments cr_set_managed {k}.
Arguments cr_word {k}.

(** Named results and reason of a body that has returned. *)
Record done_with := mkDone { d_result : Result; d_err : option err; d_reason : string }.

Definition stopWith (etype reason_ : string) (res : Result) (e : option err) (reason : string)
    : io done_with :=
  do! ask (RecordEvent etype reason_ reason) in Ret (mkDone res e reason).

(** The state most deferred functions record: later assignments overwrite earlier ones. *)
Definition deferredState (d : done_with) (state : string) : string :=
  let state := match d_err d with Some _ => "ERROR" | None => state end in
  let state := if Requeue (d_result d) && (RequeueAfter (d_result d) == 10)
               then "PENDING" else state in
  match d_err d with
  | None => if RequeueAfter (d_result d) == 30 then "CREATED" else state
  | Some _ => state
  end.

Section Common.
Context `{RP : RetryPolicy} `{PE : ProcEnv} `{CR : Crypto}.

(** A client of the cluster, once the cluster is running; [failed] is the result when the client
    cannot be created. *)
Definition ready_client {A} (failed : Result) (cluster : OpenSearchCluster) (instance : A)
    : io (A * (done_with + OsClusterClient)) :=
  if st_Phase (cl_Status cluster) != PhaseRunning then
    let! d := stopWith "Normal" "OpensearchPending" (requeueIn 10) None
                "waiting for opensearch cluster status to be running" in
    Ret (instance, inl d)
  else
    let! os := CreateClientForCluster cluster in
    match os with
    | Err e =>
        let! d := stopWith "Warning" "OpensearchError" failed (Some e)
                    "error creating opensearch client" in
        Ret (instance, inl d)
    | Ok osClient => Ret (instance, inr osClient)
    end.

(** From the start of [Reconcile] to the creation of the client: the resource may be fetched
    again; either the body is done, or it goes on with a client. *)
Definition preamble {k} (ops : CRops k) (instance : obj k)
    : io (obj k * (done_with + OsClusterClient)) :=
  let! c := FetchOpensearchCluster (cr_ref ops instance) (cr_ns ops instance) in
  match c with
  | Err e =>
      let! d := stopWith "Warning" "OpensearchError" noResult (Some e)
                  "error fetching opensearch cluster" in
      Ret (instance, inl d)
  | Ok None =>
      let! d := stopWith "Normal" "OpensearchPending" (requeueIn 10) None
                  "waiting for opensearch cluster to exist" in
      Ret (instance, inl d)
  | Ok (Some cluster) =>
      let! (instance, mismatch, e) :=
        match cr_managed ops instance with
        | Some uid => Ret (instance, negb (bool_decide (uid = cl_UID cluster)), None)
        | None =>
            let! (instance, e) := UdateObjectStatus k instance
                                    (cr_set_managed ops (cl_UID cluster)) in
            Ret (instance, false, e)
        end in
      if (mismatch : bool) then
        let reason := "cannot change the cluster " +:+ cr_word ops +:+ " refers to" in
        let! d := stopWith "Warning" "OpensearchRefMismatch" noResult (Some (OtherErr reason))
                    reason in
        Ret (instance, inl d)
      else
        match e with
        | Some e =>
            let! d := stopWith "Warning" "StatusUpdateError" noResult (Some e)
                        ("failed to update status: " +:+ Error e) in
            Ret (instance, inl d)
        | None => ready_client noResult cluster instance
        end
  end.

(** The body and the deferred status update, whose own error is only logged; the deferred
    function sees the named results and the reason ([returned]) and other variables of the
    body. *)
Definition withDeferred {k D} (returned : D -> done_with) (body : io (obj k * D))
    (setState : D -> obj k -> obj k) : io (Result * option err) :=
  let! (instance, d) := body in
  do! UdateObjectStatus k instance (setState d) in
  Ret (d_result (returned d), d_err (returned d)).

(** The beginning of [Delete]: nothing to do when the cluster is gone or going. *)
Definition deleteClient (ref ns : string) : io (result (option OsClusterClient)) :=
  let! c := FetchOpensearchCluster ref ns in
  match c with
  | Err e => Ret (Err e)
  | Ok None => Ret (Ok None)
  | Ok (Some cluster) =>
      match cl_DeletionTimestamp cluster with
      | Some _ => Ret (Ok None)
      | None =>
          let! os := CreateClientForCluster cluster in
          match os with
          | Err e => Ret (Err e)
          | Ok osClient => Ret (Ok (Some osClient))
          end
      end
  end.

End Common.

(** ** Guarded changes of OpenSearch's resources *)

(** Requests that leave OpenSearch alone. *)
Definition no_api (q : req) : Prop :=
  match q with OsDo _ op => os_reads op | _ => True end.

(** Every change of OpenSearch's resources is one [W] allows. *)
Definition api_guarded (W : ohist -> OsClusterClient -> os_op -> Prop) (h : ohist) (q : req)
    : Prop :=
  match q with OsDo c op => os_reads op \/ W h c op | _ => True end.

Lemma api_guarded_no_api W h q : no_api q -> api_guarded W h q.
Proof. destruct q; simpl; auto. Qed.
Lemma reads_or_secret_no_api q : reads_or_secret q -> no_api q.
Proof. by destruct q. Qed.
#[export] Hint Resolve api_guarded_no_api : go.

Lemma only_secret_no_api {A} (p : io A) : only reads_or_secret p -> only no_api p.
Proof. apply only_mono, reads_or_secret_no_api. Qed.
Lemma only_reads_no_api {A} (p : io A) : only reads p -> only no_api p.
Proof. intros Hp. by apply only_secret_no_api, only_reads_secret. Qed.
#[export] Hint Extern 8 (only no_api _) => apply only_reads_no_api : only.
#[export] Hint Extern 9 (only no_api _) => apply only_secret_no_api : only.
#[export] Hint Extern 2 (os_reads (OpHttp "GET" _ _ _)) => by left : only.

Lemma only_UdateStatus_api `{RetryPolicy} k o f : only no_api (UdateObjectStatus k o f).
Proof. apply only_retry_loop. intros s1. only_auto. Qed.
Lemma only_FetchCluster n ns : only reads (FetchOpensearchCluster n ns).
Proof. unfold FetchOpensearchCluster. only_auto. Qed.
Lemma only_stopWith t r res e m : only reads (stopWith t r res e m).
Proof. unfold stopWith. only_auto. Qed.
Lemma only_HTTPGet c path p : only reads (doHTTPGet c path p).
Proof. intros h. split; [by left|done]. Qed.
Lemma only_HTTPHead c path : only reads (doHTTPHead c path).
Proof. intros h. split; [by right|done]. Qed.
#[export] Hint Resolve only_UdateStatus_api only_FetchCluster only_stopWith only_HTTPGet
  only_HTTPHead : only.
(** A program without changes, in front of a continuation and at the end. *)
Lemma wp_api_skip {A B} (p : io A) (f : A -> io B) W h :
  only no_api p ->
  (forall h' a, extends h h' -> wp (f a) (api_guarded W) (λ _ _, True) h') ->
  wp (bind p f) (api_guarded W) (λ _ _, True) h.
Proof. intros Hp Hf. eapply wp_only_bind; [exact Hp|by auto with go|auto|auto]. Qed.
Lemma wp_api_end {A} (p : io A) W h :
  only no_api p -> wp p (api_guarded W) (λ _ _, True) h.
Proof. intros Hp. eapply wp_only; [exact Hp|by auto with go|auto]. Qed.

(** A program with guarded changes, in front of a continuation. *)
Lemma wp_after {A B} (p : io A) (f : A -> io B) W h :
  wp p (api_guarded W) (λ _ _, True) h ->
  (forall h' a, extends h h' -> wp (f a) (api_guarded W) (λ _ _, True) h') ->
  wp (bind p f) (api_guarded W) (λ _ _, True) h.
Proof.
  intros Hp Hf. apply wp_bind. eapply wp_mono_ext; [done| |exact Hp].
  intros h' [a|m] He _; [by apply Hf|done].
Qed.

Tactic Notation "api_skip" ident(h) "as" simple_intropattern(a) :=
  apply wp_api_skip; [solve [only_auto]|intros h a ?].
Ltac api_done := apply wp_api_end; solve [only_auto].

(** ** What the histories show *)

(** The API server answers a request for a name with an object of that name. *)
Definition named (k : kind) (h : ohist) : Prop :=
  forall n ns o, saw h (Get k n ns) (Ok o) -> obj_name k o = n /\ obj_namespace k o = ns.

(** The resource as the reconciler knows it: the one it was given or one it has read. *)
Definition current {k} (instance : obj k) (h : ohist) (i : obj k) : Prop :=
  i = instance \/ saw h (Get k (obj_name k instance) (obj_namespace k instance)) (Ok i).

(** The client [c] is one of the cluster the resource refers to, seen running, and the cluster
    is the one that manages the resource. *)
Definition attached `{ProcEnv} {k} (ops : CRops k) (instance : obj k) (h : ohist) (c : OsClusterClient)
    : Prop :=
  exists cluster,
    saw h (Get KCluster (cr_ref ops instance) (cr_ns ops instance)) (Ok cluster) /\
    st_Phase (cl_Status cluster) = PhaseRunning /\ os_URL c = ClusterURL cluster /\
    (forall uid, cr_managed ops instance = Some uid -> uid = cl_UID cluster).

(** The client [c] is one of the cluster that a resource refers to, which is not being deleted. *)
Definition live_client `{ProcEnv} (h : ohist) (ref ns : string) (c : OsClusterClient) : Prop :=
  exists cluster, saw h (Get KCluster ref ns) (Ok cluster) /\ cl_DeletionTimestamp cluster = None /\
    os_URL c = ClusterURL cluster.
Lemma live_client_extends `{ProcEnv} h h' ref ns c :
  extends h h' -> live_client h ref ns c -> live_client h' ref ns c.
Proof. intros He (cluster & ? & ?). exists cluster. split; [by eapply saw_extends|done]. Qed.

(** OpenSearch has answered that it has no such resource. *)
Definition absent (h : ohist) (c : OsClusterClient) (path : string) : Prop :=
  exists m p resp, (m = "GET" \/ m = "HEAD") /\
    saw h (OsDo c (OpHttp m path NoBody p)) (Ok resp) /\ hr_StatusCode resp = 404.

(** OpenSearch has answered a request for the resource without an error. *)
Definition present (h : ohist) (c : OsClusterClient) (path : string) : Prop :=
  exists m p resp, (m = "GET" \/ m = "HEAD") /\
    saw h (OsDo c (OpHttp m path NoBody p)) (Ok resp) /\
    hr_StatusCode resp <> 404 /\ hr_IsError resp = false.

(** OpenSearch has accepted a request. *)
Definition accepted (h : ohist) (c : OsClusterClient) (op : os_op) : Prop :=
  exists resp, saw h (OsDo c op) (Ok resp) /\ hr_IsError resp = false.

(** The cluster is gone, or going. *)
Definition cluster_gone (h : ohist) (ref ns : string) : Prop :=
  (exists e, saw h (Get KCluster ref ns) (Err e) /\ IsNotFound e = true) \/
  (exists cluster, saw h (Get KCluster ref ns) (Ok cluster) /\
     is_Some (cl_DeletionTimestamp cluster)).

Lemma named_extends k h h' : extends h h' -> named k h' -> named k h.
Proof. intros He Hn n ns o Ho. eapply Hn, saw_extends; eauto. Qed.
Lemma current_extends {k} (i0 i : obj k) h h' : extends h h' -> current i0 h i -> current i0 h' i.
Proof. intros He [->|H]; [by left|right]. by eapply saw_extends. Qed.
Lemma attached_extends `{ProcEnv} {k} ops (i : obj k) h h' c :
  extends h h' -> attached ops i h c -> attached ops i h' c.
Proof.
  intros He (cl & H1 & H2). exists cl. split; [by eapply saw_extends|done].
Qed.
Lemma absent_extends h h' c path : extends h h' -> absent h c path -> absent h' c path.
Proof.
  intros He (m & p & resp & Hm & H1 & H2). exists m, p, resp.
  split_and!; [done|by eapply saw_extends|done].
Qed.

(** ** Rules *)

(** Ends that record an event. *)
Ltac api_post HQ := unfold stopWith; do 2 wp_step; [done|]; do 3 wp_step; apply HQ; ext.

Section Rules.
Context `{RP : RetryPolicy} `{PE : ProcEnv} `{CR : Crypto}.

Lemma wp_NewClient_url url u p t h :
  wp (NewOsClusterClient url u p t) (λ _ _, True)
    (λ _ o, forall c, o = Returned (Ok c) -> os_URL c = url) h.
Proof.
  unfold NewOsClusterClient, NewOsClusterClientFromConfig, MainPage, os_decode. repeat (wp_step; try done); by intros c [= <-].
Qed.

Lemma wp_CreateClient_url cluster h :
  wp (CreateClientForCluster cluster) (λ _ _, True)
    (λ _ o, forall c, o = Returned (Ok c) -> os_URL c = ClusterURL cluster) h.
Proof.
  unfold CreateClientForCluster. apply wp_bind. eapply wp_mono; [done| |apply wp_true].
  intros h1 [[[t|]|e]|m] _; cbn [seq_post]; [apply wp_NewClient_url| |by wp_step|done].
  apply wp_bind. eapply wp_mono; [done| |apply wp_true].
  intros h2 [[[u p]|e]|m] _; cbn [seq_post]; [apply wp_NewClient_url|by wp_step|done].
Qed.

Lemma wp_CreateClient cluster W (Q : ohist -> outcome (result OsClusterClient) -> Prop) h :
  (forall h' r, extends h h' -> (forall c, r = Ok c -> os_URL c = ClusterURL cluster) ->
     Q h' (Returned r)) ->
  (forall h' m, extends h h' -> Q h' (Panicked m)) ->
  wp (CreateClientForCluster cluster) (api_guarded W) Q h.
Proof.
  intros HQ Hm. eapply wp_mono_ext;
    [| |apply wp_conj; [exact (only_secret_no_api _ (only_CreateClient cluster) h)
                       |apply wp_CreateClient_url]].
  - intros h' q _ [H _]. by apply api_guarded_no_api.
  - intros h' [r|m] He [_ H]; [|by apply Hm]. apply HQ; [done|]. intros c ->. by apply H.
Qed.

Lemma wp_stop {A B} t r res e m (i : A) W (Q : ohist -> outcome (A * (done_with + B)) -> Prop) h :
  (forall h' d, extends h h' -> Q h' (Returned (i, inl d))) ->
  wp (let! d := stopWith t r res e m in Ret (i, inl d)) (api_guarded W) Q h.
Proof. intros HQ. unfold stopWith. do 2 wp_step; [done|]. do 3 wp_step. auto with go. Qed.

Lemma wp_ready_client {A} failed cluster (i : A) W
    (Q : ohist -> outcome (A * (done_with + OsClusterClient)) -> Prop) h :
  (forall h' d, extends h h' -> Q h' (Returned (i, inl d))) ->
  (forall h' c, extends h h' -> os_URL c = ClusterURL cluster ->
     st_Phase (cl_Status cluster) = PhaseRunning -> Q h' (Returned (i, inr c))) ->
  (forall h' m, extends h h' -> Q h' (Panicked m)) ->
  wp (ready_client failed cluster i) (api_guarded W) Q h.
Proof.
  intros Hl Hr Hm. unfold ready_client. case_bool_decide as E; cbn [negb]; [|by apply wp_stop].
  wp_step. apply wp_CreateClient; [|auto]. intros h1 [c|e] H1 Hc; wp_step.
  - wp_step. apply Hr; auto.
  - apply wp_stop. intros h2 d H2. apply Hl. by etrans.
Qed.

(** After the preamble the body has a client of the right cluster, and the resource is the
    given one or the one read when the managing cluster was recorded. *)
Lemma wp_preamble {k} (ops : CRops k) instance W
    (Q : ohist -> outcome (obj k * (done_with + OsClusterClient)) -> Prop) h :
  (forall h' i d, extends h h' -> Q h' (Returned (i, inl d))) ->
  (forall h' i c, extends h h' -> attached ops instance h' c ->
     (exists i0, current instance h' i0 /\ (i = i0 \/ exists uid, i = cr_set_managed ops uid i0)) ->
     Q h' (Returned (i, inr c))) ->
  (forall h' m, extends h h' -> Q h' (Panicked m)) ->
  wp (preamble ops instance) (api_guarded W) Q h.
Proof.
  intros Hl Hr Hm. unfold preamble, FetchOpensearchCluster, GetOpenSearchCluster.
  wp_step. wp_step; [done|].
  destruct r as [cl|e]; [|destruct (IsNotFound e)]; wp_step; wp_step;
    [|apply wp_stop; intros; apply Hl; ext|apply wp_stop; intros; apply Hl; ext].
  set (h1 := Ev _ _ :: h). assert (extends h h1) as H1 by (subst h1; auto with go).
  assert (forall h' i, extends h1 h' ->
    (forall uid, cr_managed ops instance = Some uid -> uid = cl_UID cl) ->
    (exists i0, current instance h' i0 /\ (i = i0 \/ exists uid, i = cr_set_managed ops uid i0)) ->
    wp (ready_client noResult cl i) (api_guarded W) Q h') as Hready.
  { intros h' i He Hu (i0 & Hi0 & Hi).
    apply wp_ready_client; [intros; apply Hl; ext| |intros; apply Hm; ext].
    intros h2 c H2 Hc Hp. apply Hr; [ext| |].
    - exists cl. split_and!; [|done|done|done].
      apply (saw_extends h1); [ext|subst h1; auto with go].
    - exists i0. split; [by eapply current_extends|done]. }
  wp_step. destruct (cr_managed ops instance) as [uid|] eqn:Em.
  - wp_step. wp_step. case_bool_decide as E; cbn [negb].
    + apply Hready; [ext|by intros ? [= <-]|]. exists instance. split; [by left|by left].
    + apply wp_stop. intros; apply Hl; ext.
  - wp_step. apply wp_UdateObjectStatus; [done|done|]. intros h2 o e H2 Ho. do 3 wp_step.
    destruct e as [e|]; [apply wp_stop; intros; apply Hl; ext|].
    destruct (Ho eq_refl) as (c & Hc & ->). apply Hready; [done|done|].
    exists c. split; [by right|]. right. by eexists.
Qed.

(** What the answer to an existence check shows. *)
Lemma existsAnswer_shows m c path (r : result (HttpResp unit)) h :
  (m = "GET" \/ m = "HEAD") -> saw h (OsDo c (OpHttp m path NoBody PNone)) r ->
  (existsAnswer r = Ok false -> absent h c path) /\
  (existsAnswer r = Ok true -> present h c path).
Proof.
  intros Hm Hs. destruct r as [resp|e]; [|done]. simpl.
  case_bool_decide as E; [|destruct (hr_IsError resp) eqn:E']; (split; intros [=]);
    exists m, PNone, resp; split_and!; done.
Qed.

(** What an existence check shows when it returns. *)
Definition exists_post (c : OsClusterClient) (path : string) (h : ohist)
    (o : outcome (result bool)) : Prop :=
  exists res, o = Returned res /\
    (res = Ok false -> absent h c path) /\ (res = Ok true -> present h c path).

Lemma wp_exists_request m c path h :
  (m = "GET" \/ m = "HEAD") ->
  wp (let! r := ask (OsDo c (OpHttp m path NoBody PNone)) in Ret (existsAnswer r))
    (λ _ q, reads q) (exists_post c path) h.
Proof.
  intros Hm. wp_step; [done|]. wp_step. eexists. split; [done|].
  eapply existsAnswer_shows; [exact Hm|apply saw_here].
Qed.

Lemma wp_exists_guarded (p : io (result bool)) c path W (Q : _ -> _ -> Prop) h :
  wp p (λ _ q, reads q) (exists_post c path) h ->
  (forall h' res, extends h h' -> (res = Ok false -> absent h' c path) ->
     (res = Ok true -> present h' c path) -> Q h' (Returned res)) ->
  wp p (api_guarded W) Q h.
Proof.
  intros Hp HQ. eapply wp_mono_ext; [| |exact Hp].
  - intros h' q _ Hq. destruct q; simpl in *; auto.
  - intros h' o He (res & -> & Ha & Hr). by apply HQ.
Qed.

Lemma wp_withDeferred {k D} (returned : D -> done_with) (body : io (obj k * D)) setState W h :
  wp body (api_guarded W) (λ _ _, True) h ->
  wp (withDeferred returned body setState) (api_guarded W) (λ _ _, True) h.
Proof.
  intros Hb. unfold withDeferred. apply wp_bind. eapply wp_mono; [done| |exact Hb].
  intros h' [[i d]|m] _; [|done]. cbn [seq_post]. api_skip h1 as e. by wp_step.
Qed.

Lemma wp_deleteClient ref ns W (Q : ohist -> outcome (result (option OsClusterClient)) -> Prop) h :
  (forall h' r, extends h h' ->
     (forall c, r = Ok (Some c) -> live_client h' ref ns c) ->
     Q h' (Returned r)) ->
  (forall h' m, extends h h' -> Q h' (Panicked m)) ->
  wp (deleteClient ref ns) (api_guarded W) Q h.
Proof.
  intros HQ Hm. unfold deleteClient, FetchOpensearchCluster, GetOpenSearchCluster.
  wp_step. wp_step; [done|].
  destruct r as [cl|e]; [|destruct (IsNotFound e); do 3 wp_step; apply HQ; [ext|done|ext|done]].
  do 2 wp_step. destruct (cl_DeletionTimestamp cl) eqn:Ed; [wp_step; apply HQ; [ext|done]|].
  wp_step. apply wp_CreateClient; [|intros; apply Hm; ext].
  intros h1 [c|e] H1 Hc; do 2 wp_step; apply HQ; [ext| |ext|done].
  intros ? [= <-]. exists cl. split_and!; [|done|auto].
  eapply saw_extends; [exact H1|apply saw_here].
Qed.

Lemma wp_deleteClient_gone ref ns h :
  wp (deleteClient ref ns) (λ _ _, True)
    (λ h' o, o = Returned (Ok None) -> cluster_gone h' ref ns) h.
Proof.
  unfold deleteClient, FetchOpensearchCluster, GetOpenSearchCluster.
  wp_step. wp_step; [done|]. destruct r as [cl|e].
  - do 2 wp_step. destruct (cl_DeletionTimestamp cl) as [t|] eqn:Ed.
    + wp_step. intros _. right. exists cl. split; [apply saw_here|by exists t].
    + wp_step. eapply wp_mono; [done| |apply wp_true]. intros h' [[c|e]|m] _; wp_step; [by wp_step|by wp_step|done].
  - destruct (IsNotFound e) eqn:En; do 3 wp_step; [|done].
    intros _. left. exists e. split; [apply saw_here|done].
Qed.

(** A deletion without an error was accepted. *)
Lemma wp_deleteAnswer c path h :
  wp (let! r := doHTTPDelete c path in Ret (deleteAnswer r)) (λ _ _, True)
    (λ h' o, o = Returned None -> accepted h' c (OpHttp "DELETE" path NoBody PNone)) h.
Proof.
  unfold doHTTPDelete. wp_step; [done|]. wp_step. destruct r as [resp|e]; cbn [deleteAnswer]; [|done].
  destruct resp as [code [] st str b]; cbn; [done|]. intros _.
  eexists. split; [apply saw_here|done].
Qed.

End Rules.

(** ** Status updates

    Every status update of a kind writes what a known change makes of the object read before
    it. *)
#[global] Instance kind_eq_dec : EqDecision kind.
Proof. solve_decision. Defined.

Lemma StatusUpdate_inj k (o o' : obj k) : StatusUpdate k o = StatusUpdate k o' -> o = o'.
Proof.
  intros H. injection H. apply Eqdep_dec.inj_pair2_eq_dec, kind_eq_dec.
Qed.

Section StatusWrites.
Context `{RP : RetryPolicy} `{PE : ProcEnv} `{CR : Crypto} {k : kind}.

Definition status_from (F : (obj k -> obj k) -> Prop) (h : ohist) (q : req) : Prop :=
  forall o, q = StatusUpdate k o ->
  exists n ns i f, saw h (Get k n ns) (Ok i) /\ F f /\ o = f i.

Definition no_update (q : req) : Prop :=
  match q with StatusUpdate _ _ => False | _ => True end.

Lemma status_from_no_update F h q : no_update q -> status_from F h q.
Proof. intros Hq o ->. done. Qed.

Lemma always_no_update {A} F (p : io A) : only no_update p -> always (status_from F) p.
Proof. intros Hp. eapply always_only; [exact Hp|]. intros. by apply status_from_no_update. Qed.

Lemma reads_or_secret_no_update q : reads_or_secret q -> no_update q.
Proof. by destruct q. Qed.
Lemma always_secret {A} F (p : io A) : only reads_or_secret p -> always (status_from F) p.
Proof.
  intros Hp. apply always_no_update. eapply only_mono; [|exact Hp]. apply reads_or_secret_no_update.
Qed.
Lemma always_reads {A} F (p : io A) : only reads p -> always (status_from F) p.
Proof. intros Hp. by apply always_secret, only_reads_secret. Qed.

Lemma always_UdateStatus (F : (obj k -> obj k) -> Prop) (o : obj k) f :
  F f -> always (status_from F) (UdateObjectStatus k o f).
Proof.
  intros Hf h. apply wp_UdateObjectStatus; [|intros h' c He Hc|done].
  - intros h' _. by apply status_from_no_update.
  - intros o' Ho%StatusUpdate_inj. subst o'. apply just_saw_saw in Hc. eexists _, _, c, f. by split_and!.
Qed.

Lemma always_status_call F q : no_update q -> forall h, status_from F h q.
Proof. intros Hq h. by apply status_from_no_update. Qed.

#[local] Hint Resolve always_UdateStatus always_secret always_reads : always.
#[local] Hint Extern 1 (status_from _ _ _) => apply status_from_no_update; exact I : always.
#[local] Hint Resolve only_CreateClient only_FetchCluster only_stopWith : always.

Lemma always_preamble (ops : CRops k) (F : (obj k -> obj k) -> Prop) instance :
  (forall uid, F (cr_set_managed ops uid)) -> always (status_from F) (preamble ops instance).
Proof. intros HF. unfold preamble, ready_client. always_auto. Qed.

(** The deferred update, when what the body returns is known. *)
Lemma ensures_withDeferred {D} (F : (obj k -> obj k) -> Prop) (R : D -> Prop)
    (returned : D -> done_with) (body : io (obj k * D)) setState :
  ensures (status_from F) (λ r, R r.2) body -> (forall d, R d -> F (setState d)) ->
  always (status_from F) (withDeferred returned body setState).
Proof.
  intros Hb HF. unfold withDeferred.
  apply (always_ensures _ (λ _, True)). eapply ensures_bind; [exact Hb|].
  intros [i d] Hd. cbn in Hd. apply ensures_after; [by apply always_UdateStatus, HF|].
  intros _. by apply ensures_ret.
Qed.

Lemma always_withDeferred {D} (F : (obj k -> obj k) -> Prop) (returned : D -> done_with)
    (body : io (obj k * D)) setState :
  always (status_from F) body -> (forall d, F (setState d)) ->
  always (status_from F) (withDeferred returned body setState).
Proof. intros Hb HF. unfold withDeferred. always_auto. Qed.

End StatusWrites.
#[export] Hint Resolve always_UdateStatus always_secret always_reads : always.
#[export] Hint Extern 1 (status_from _ _ _) => apply status_from_no_update; exact I : always.
#[export] Hint Resolve only_CreateClient only_FetchCluster only_stopWith : always.
