(* ===== verification/Owned.v ===== *)
(** * Owned: reconciling a resource that OpenSearch did not have before

    Roles, tenants, action groups, index templates and component templates are reconciled in
    the same way ([pkg/reconcilers/role.go], [tenant.go], [actiongroup.go],
    [indextemplate.go], [componenttemplate.go]): find out once whether OpenSearch already has
    the resource, leave it alone if it does, and otherwise compare and write it; delete it
    only if it was not there before.  The code is the same up to names; [OwnedOps] holds
    what differs, [OwnedLaws] what the gateway promises about it, and the guard theorem is
    proved once against that interface. *)

From S2P Require Import Prelude Prog Resources Api K8sClient Helpers OsClient OsData ReconcilerUtil ManagedCR.

(** The name in OpenSearch ([ow_target]) is computed once, before the resource may be read
    again; the calls get it and the resource as it is by then. *)
Record OwnedOps (k : kind) := mkOwned {
  ow_cr : CRops k;
  ow_start : obj k -> io unit;
  ow_target : obj k -> string;
  ow_existing : obj k -> option bool;
  ow_set_existing : bool -> obj k -> obj k;
  ow_exists : OsClusterClient -> string -> obj k -> io (result bool);
  ow_nameCheck : string -> obj k -> option (string * string);
  ow_shouldUpdate : OsClusterClient -> string -> obj k -> io (result bool);
  ow_write : OsClusterClient -> string -> obj k -> io (option err);
  ow_remove : OsClusterClient -> string -> obj k -> io (option err);
  ow_existsMsg : string;
  ow_checkFailed : string;
  ow_compareFailed : string;
  ow_writeFailed : string;
  ow_written : string;
  ow_setState : string -> done_with -> obj k -> obj k }.
Arguments ow_cr {k}.
Arguments ow_start {k}.
Arguments ow_target {k}.
Arguments ow_existing {k}.
Arguments ow_set_existing {k}.
Arguments ow_exists {k}.
Arguments ow_nameCheck {k}.
Arguments ow_shouldUpdate {k}.
Arguments ow_write {k}.
Arguments ow_remove {k}.
Arguments ow_existsMsg {k}.
Arguments ow_checkFailed {k}.
Arguments ow_compareFailed {k}.
Arguments ow_writeFailed {k}.
Arguments ow_written {k}.
Arguments ow_setState {k}.

(** The deferred state of tenants, action groups and templates. *)
Definition ownedState (existsMsg : string) (d : done_with) (state : string) : string :=
  if d_reason d == existsMsg then "IGNORED" else deferredState d state.

Section Owned.
Context `{RP : RetryPolicy} `{PE : ProcEnv} `{CR : Crypto}.
Context {k : kind} (ops : OwnedOps k).

(** The resource does not belong to somebody else: compare and write it. *)
Definition syncOwned (osClient : OsClusterClient) (name : string) (instance : obj k)
    : io done_with :=
  let! s := ow_shouldUpdate ops osClient name instance in
  match s with
  | Err e =>
      stopWith "Warning" "OpensearchAPIError" noResult (Some e) (ow_compareFailed ops)
  | Ok false => Ret (mkDone (requeueIn 30) None "")
  | Ok true =>
      let! e := ow_write ops osClient name instance in
      let reason := match e with Some _ => ow_writeFailed ops | None => "" end in
      do! match e with
          | Some _ => ask (RecordEvent "Warning" "OpensearchAPIError" reason)
          | None => Ret tt
          end in
      do! ask (RecordEvent "Normal" "OpensearchAPIUpdated" (ow_written ops)) in
      Ret (mkDone (requeueIn 30) e reason)
  end.

(** Whether the resource was there before the operator: found out once and recorded. *)
Definition checkExisting (osClient : OsClusterClient) (name : string) (instance : obj k)
    : io (obj k * option done_with) :=
  match ow_existing ops instance with
  | Some _ => Ret (instance, None)
  | None =>
      let! x := ow_exists ops osClient name instance in
      match x with
      | Err e =>
          let! d := stopWith "Warning" "OpensearchAPIError" noResult (Some e)
                      (ow_checkFailed ops) in
          Ret (instance, Some d)
      | Ok exists_ =>
          let! (instance, e) := UdateObjectStatus k instance (ow_set_existing ops exists_) in
          match e with
          | Some e =>
              let! d := stopWith "Warning" "StatusUpdateError" noResult (Some e)
                          ("failed to update status: " +:+ Error e) in
              Ret (instance, Some d)
          | None => Ret (instance, None)
          end
      end
  end.

(** The body of [Reconcile]; the name is empty until it has been computed. *)
Definition ownedBody (instance : obj k) : io (obj k * (string * done_with)) :=
  do! ow_start ops instance in
  let! (instance, p) := preamble (ow_cr ops) instance in
  match p with
  | inl d => Ret (instance, ("", d))
  | inr osClient =>
      let name := ow_target ops instance in
      let! (instance, stop) := checkExisting osClient name instance in
      match stop with
      | Some d => Ret (instance, (name, d))
      | None =>
          let! existing := deref (ow_existing ops instance) in
          if (existing : bool) then
            Ret (instance, (name, mkDone noResult None (ow_existsMsg ops)))
          else
            match ow_nameCheck ops name instance with
            | Some (reason_, reason) =>
                let! d := stopWith "Warning" reason_ noResult (Some (OtherErr reason)) reason in
                Ret (instance, (name, d))
            | None =>
                let! d := syncOwned osClient name instance in Ret (instance, (name, d))
            end
      end
  end.

Definition ownedReconcile (instance : obj k) : io (Result * option err) :=
  withDeferred (k := k) snd (ownedBody instance) (fun nd => ow_setState ops nd.1 nd.2).

Definition ownedDelete (instance : obj k) : io (option err) :=
  match ow_existing ops instance with
  | None => Ret None
  | Some true => Ret None
  | Some false =>
      let! c := deleteClient (cr_ref (ow_cr ops) instance) (cr_ns (ow_cr ops) instance) in
      match c with
      | Err e => Ret (Some e)
      | Ok None => Ret None
      | Ok (Some osClient) =>
          let name := ow_target ops instance in
          let! x := ow_exists ops osClient name instance in
          match x with
          | Err e => Ret (Some e)
          | Ok false => Ret None
          | Ok true => ow_remove ops osClient name instance
          end
      end
  end.

End Owned.

(** ** The interface to the gateway

    [path n m] is where OpenSearch has the resource with target [n] of the custom resource
    named [m], [doc i] the document written for [i]. *)
Class OwnedLaws {k} (ops : OwnedOps k) (path : string -> string -> string) (doc : obj k -> body) := {
  ow_start_reads : forall i, only reads (ow_start ops i);
  ow_exists_reads : forall c n i h,
    wp (ow_exists ops c n i) (λ _ q, reads q) (exists_post c (path n (obj_name k i))) h;
  ow_shouldUpdate_reads : forall c n i, only reads (ow_shouldUpdate ops c n i);
  ow_write_puts : forall c n i, only (λ q, q = OsDo c (OpHttp "PUT" (path n (obj_name k i)) (doc i) PNone))
                                     (ow_write ops c n i);
  ow_remove_deletes : forall c n i, only (λ q, q = OsDo c (OpHttp "DELETE" (path n (obj_name k i)) NoBody PNone))
                                         (ow_remove ops c n i);
  ow_remove_ok : forall c n i h,
    wp (ow_remove ops c n i) (λ _ _, True) (λ h' o, o = Returned None ->
      accepted h' c (OpHttp "DELETE" (path n (obj_name k i)) NoBody PNone)) h;
  (** The status fields are not part of the name, the document or each other. *)
  ow_managed_name : forall uid i, obj_name k (cr_set_managed (ow_cr ops) uid i) = obj_name k i;
  ow_managed_ns : forall uid i, obj_namespace k (cr_set_managed (ow_cr ops) uid i) = obj_namespace k i;
  ow_managed_doc : forall uid i, doc (cr_set_managed (ow_cr ops) uid i) = doc i;
  ow_managed_target : forall uid i, ow_target ops (cr_set_managed (ow_cr ops) uid i) = ow_target ops i;
  ow_managed_existing : forall uid i,
    ow_existing ops (cr_set_managed (ow_cr ops) uid i) = ow_existing ops i;
  ow_managed_check : forall uid n i,
    ow_nameCheck ops n (cr_set_managed (ow_cr ops) uid i) = ow_nameCheck ops n i;
  ow_existing_name : forall b i, obj_name k (ow_set_existing ops b i) = obj_name k i;
  ow_existing_doc : forall b i, doc (ow_set_existing ops b i) = doc i;
  ow_existing_check : forall b n i,
    ow_nameCheck ops n (ow_set_existing ops b i) = ow_nameCheck ops n i;
  ow_existing_set : forall b i, ow_existing ops (ow_set_existing ops b i) = Some b }.

Section OwnedProofs.
Context `{RP : RetryPolicy} `{PE : ProcEnv} `{CR : Crypto}.
Context {k : kind} {ops : OwnedOps k} {path : string -> string -> string} {doc : obj k -> body}.
Context {L : OwnedLaws ops path doc}.

(** The only write, to the running cluster that the resource refers to: the document of the
    resource [i] under the target of the resource [i0], both as the reconciler knows them, when [i]
    records that OpenSearch did not have it before or OpenSearch has said so; provided that the API
    server answered every request for a resource with the one that was asked for. *)
Definition owned_write (instance : obj k) (h : ohist) (c : OsClusterClient) (op : os_op) : Prop :=
  attached (ow_cr ops) instance h c /\
  (named k h ->
  exists i0 i, current instance h i0 /\ current instance h i /\
    let p := path (ow_target ops i0) (obj_name k instance) in
    op = OpHttp "PUT" p (doc i) PNone /\
    ow_nameCheck ops (ow_target ops i0) i = None /\
    (ow_existing ops i = Some false \/ absent h c p)).

(** The only deletion, on the cluster that the resource refers to, in whatever phase it is and
    whichever cluster manages the resource, unless it is being deleted. *)
Definition owned_delete (instance : obj k) (h : ohist) (c : OsClusterClient) (op : os_op) : Prop :=
  let p := path (ow_target ops instance) (obj_name k instance) in
  live_client h (cr_ref (ow_cr ops) instance) (cr_ns (ow_cr ops) instance) c /\
  op = OpHttp "DELETE" p NoBody PNone /\
  ow_existing ops instance = Some false /\ present h c p.

Lemma wp_ow_exists c n i W (Q : ohist -> outcome (result bool) -> Prop) h :
  (forall h' res, extends h h' ->
     (res = Ok false -> absent h' c (path n (obj_name k i))) ->
     (res = Ok true -> present h' c (path n (obj_name k i))) -> Q h' (Returned res)) ->
  wp (ow_exists ops c n i) (api_guarded W) Q h.
Proof. apply wp_exists_guarded, ow_exists_reads. Qed.

Lemma wp_ow_only {A} (p : io A) c op W h :
  only (λ q, q = OsDo c op) p -> (forall h', extends h h' -> W h' c op) ->
  wp p (api_guarded W) (λ _ _, True) h.
Proof. intros Hp HW. eapply wp_only; [done| |done]. intros h' q He ->. right. auto. Qed.

Lemma wp_syncOwned c n i W h :
  (forall h', extends h h' -> W h' c (OpHttp "PUT" (path n (obj_name k i)) (doc i) PNone)) ->
  wp (syncOwned ops c n i) (api_guarded W) (λ _ _, True) h.
Proof.
  intros HW. unfold syncOwned.
  apply wp_api_skip; [apply only_reads_no_api, ow_shouldUpdate_reads|].
  intros h1 [[]|e] H1; [|by wp_step|api_done].
  apply wp_after; [|intros h2 e H2; api_done].
  eapply wp_ow_only; [apply ow_write_puts|]. intros; apply HW; ext.
Qed.

(** The resource as the body goes on with it: a known one but for its status. *)
Definition owned_view (instance : obj k) (h : ohist) (i : obj k) : Prop :=
  exists i0, current instance h i0 /\ obj_name k i = obj_name k i0 /\
    obj_namespace k i = obj_namespace k i0 /\ doc i = doc i0 /\
    (forall n, ow_nameCheck ops n i = ow_nameCheck ops n i0).

Lemma preamble_view instance h i0 i :
  current instance h i0 -> (i = i0 \/ exists uid, i = cr_set_managed (ow_cr ops) uid i0) ->
  owned_view instance h i /\ ow_existing ops i = ow_existing ops i0 /\
  ow_target ops i = ow_target ops i0.
Proof.
  intros Hc Hi. split_and!; [exists i0; split; [done|]| |]; destruct Hi as [->|[uid ->]];
    split_and?; intros; by rewrite ?ow_managed_name, ?ow_managed_ns, ?ow_managed_doc,
      ?ow_managed_check, ?ow_managed_existing, ?ow_managed_target.
Qed.

Lemma current_name instance h i :
  named k h -> current instance h i -> obj_name k i = obj_name k instance /\
  obj_namespace k i = obj_namespace k instance.
Proof. intros Hn [->|H]; [done|]. by apply Hn in H. Qed.

Lemma owned_view_name instance h i :
  named k h -> owned_view instance h i ->
  obj_name k i = obj_name k instance /\ obj_namespace k i = obj_namespace k instance.
Proof. intros Hn (i0 & Hc & -> & -> & _). by eapply current_name. Qed.

(** What the recorded flag is based on. *)
Definition owned_known (instance : obj k) (h : ohist) (c : OsClusterClient) (n : string)
    (i : obj k) : Prop :=
  named k h -> obj_name k i = obj_name k instance /\
  exists i1, current instance h i1 /\ doc i = doc i1 /\
    (forall m, ow_nameCheck ops m i = ow_nameCheck ops m i1) /\
    (ow_existing ops i = Some false ->
     ow_existing ops i1 = Some false \/ absent h c (path n (obj_name k instance))).

Lemma wp_checkExisting c n instance i0 i W (Q : ohist -> outcome (_ * option done_with) -> Prop) h :
  current instance h i0 ->
  (i = i0 \/ exists uid, i = cr_set_managed (ow_cr ops) uid i0) ->
  (forall h' i d, extends h h' -> Q h' (Returned (i, Some d))) ->
  (forall h' i, extends h h' -> owned_known instance h' c n i -> is_Some (ow_existing ops i) ->
     Q h' (Returned (i, None))) ->
  wp (checkExisting ops c n i) (api_guarded W) Q h.
Proof.
  intros Hc Hi Hs Hn. unfold checkExisting.
  destruct (preamble_view instance h i0 i Hc Hi) as (Hv & Hex & _).
  destruct (ow_existing ops i) as [b|] eqn:Eb.
  { wp_step. apply Hn; [ext| |by rewrite Eb]. intros Hnm. split; [by eapply owned_view_name|].
    exists i0. split_and!; [done|..]; [..|rewrite Eb; intros [= ->]; by left];
      destruct Hi as [->|[uid ->]]; intros; by rewrite ?ow_managed_doc, ?ow_managed_check. }
  wp_step. apply wp_ow_exists. intros h1 x H1 Hab _. wp_step.
  destruct x as [x|e]; [|api_post Hs].
  wp_step. apply wp_UdateObjectStatus; [done|done|]. intros h2 o e H2 Ho. wp_step.
  destruct e as [e|]; [api_post Hs|]. wp_step. destruct (Ho eq_refl) as (i1 & H & ->).
  apply Hn; [ext| |by rewrite ow_existing_set]. intros Hnm.
  destruct (owned_view_name instance h i) as [E1 E2];
    [by eapply named_extends; [|exact Hnm]; ext|done|].
  rewrite E1, E2 in H. assert (current instance h2 i1) as Hc1 by (by right).
  rewrite ow_existing_name. split; [by eapply current_name|]. exists i1.
  split_and!; [done|apply ow_existing_doc|intros; apply ow_existing_check|].
  rewrite ow_existing_set. intros [= ->]. right. rewrite <- E1. apply (absent_extends h1); auto.
Qed.

Lemma wp_ownedReconcile (instance : obj k) h :
  wp (ownedReconcile ops instance) (api_guarded (owned_write instance)) (λ _ _, True) h.
Proof.
  apply wp_withDeferred. unfold ownedBody.
  apply wp_api_skip; [apply only_reads_no_api, ow_start_reads|]. intros h0 _ H0. wp_step.
  apply wp_preamble; [by intros; do 2 wp_step| |done].
  intros h1 i c H1 Ha (i0 & Hc0 & Hi). do 2 wp_step.
  destruct (preamble_view instance h1 i0 i Hc0 Hi) as (_ & _ & Ht). rewrite Ht.
  eapply wp_checkExisting; [done|done|by intros; do 2 wp_step|].
  intros h2 i2 H2 Hk [b Eb]. wp_step. rewrite Eb. cbn [deref]. do 3 wp_step.
  destruct b; [by wp_step|]. destruct (ow_nameCheck _ _ _) as [[r m]|] eqn:En; [api_done|].
  apply wp_after; [|intros h' d _; by wp_step]. apply wp_syncOwned.
  intros h3 H3. split; [by eapply attached_extends; [|done]; ext|]. intros Hn.
  destruct Hk as (Enm & i1 & Hc1 & Ed & Ec & Hex); [by eapply named_extends|].
  exists i0, i1. split; [by eapply current_extends; [|done]; ext|].
  split; [by eapply current_extends|]. rewrite Enm, Ed. split_and!; [done|by rewrite <- Ec|].
  destruct (Hex Eb) as [?|Hab]; [by left|right]. by eapply absent_extends.
Qed.

Lemma wp_ownedDelete (instance : obj k) h :
  wp (ownedDelete ops instance) (api_guarded (owned_delete instance)) (λ _ _, True) h.
Proof.
  unfold ownedDelete. destruct (ow_existing ops instance) as [[]|] eqn:E; [by wp_step| |by wp_step].
  wp_step. apply wp_deleteClient; [|done].
  intros h1 [[c|]|e] H1 Hc; wp_step; [|by wp_step|by wp_step].
  cbv zeta. wp_step. apply wp_ow_exists.
  intros h2 [[]|e] H2 _ Hp; wp_step; [|by wp_step|by wp_step].
  eapply wp_ow_only; [apply ow_remove_deletes|]. intros h3 H3.
  split_and!; [by eapply live_client_extends; [|by apply Hc]; ext|done|done|].
  destruct (Hp eq_refl) as (m & p & resp & Hm & Hs & Hr). exists m, p, resp.
  split_and!; [done|by eapply saw_extends|apply Hr..].
Qed.

(** What a successful [Delete] means: the resource was not the operator's, or its cluster is
    going, or OpenSearch does not have it (any more). *)
Definition owned_gone (instance : obj k) (h : ohist) : Prop :=
  let p := path (ow_target ops instance) (obj_name k instance) in
  ow_existing ops instance <> Some false \/
  cluster_gone h (cr_ref (ow_cr ops) instance) (cr_ns (ow_cr ops) instance) \/
  exists c, absent h c p \/ accepted h c (OpHttp "DELETE" p NoBody PNone).

Lemma wp_ownedDelete_gone (instance : obj k) h :
  wp (ownedDelete ops instance) (λ _ _, True)
    (λ h' o, o = Returned None -> owned_gone instance h') h.
Proof.
  unfold ownedDelete, owned_gone.
  destruct (ow_existing ops instance) as [[]|] eqn:E; [by wp_step; left| |by wp_step; left].
  wp_step. eapply wp_mono; [done| |apply wp_deleteClient_gone].
  intros h1 [[[c|]|e]|m] H1; [|wp_step; wp_step; intros _; right; left; auto|by do 2 wp_step|done].
  wp_step. cbv zeta. wp_step. eapply wp_mono; [done| |apply ow_exists_reads].
  intros h2 [[[]|e]|m] Hx; [| |by do 2 wp_step|done]; wp_step.
  - eapply wp_mono; [done| |apply ow_remove_ok]. intros h3 o Ho Er. right. right. exists c. auto.
  - wp_step. intros _. right. right. exists c. left. destruct Hx as (res & [= <-] & Hx & _). auto.
Qed.

(** The status updates: the managing cluster, what the existence check has said, the state. *)
Inductive owned_change : (obj k -> obj k) -> Prop :=
| oc_managed uid : owned_change (cr_set_managed (ow_cr ops) uid)
| oc_existing b : owned_change (ow_set_existing ops b)
| oc_state n d : owned_change (ow_setState ops n d).

Lemma always_ownedReconcile (instance : obj k) :
  always (status_from owned_change) (ownedReconcile ops instance).
Proof.
  pose proof (ow_start_reads instance) as Hs. pose proof ow_shouldUpdate_reads as Hu.
  assert (forall c n i, only reads (ow_exists ops c n i)) as He.
  { intros c n i h. eapply wp_mono; [..|apply ow_exists_reads]; done. }
  assert (forall c n i, always (status_from owned_change) (ow_write ops c n i)) as Hw.
  { intros c n i. apply always_no_update. eapply only_mono; [|apply ow_write_puts].
    by intros q ->. }
  pose proof oc_managed. pose proof oc_existing. pose proof oc_state.
  apply always_withDeferred; [|done]. unfold ownedBody, checkExisting, syncOwned.
  apply always_bind; [by apply always_reads|intros _].
  apply always_bind; [by apply always_preamble|]. unfold deref.
  intros [i [d|c]]; always_auto.
Qed.

End OwnedProofs.
Arguments owned_write {PE k} ops path doc.
Arguments owned_delete {PE k} ops path.
Arguments owned_gone {k} ops path.
