(* ===== verification/Security.v ===== *)
(** * Security: users, roles and role bindings

    Models the security part of [opensearch-gateway/services] ([os_security_service.go] and the
    request helpers of [os_client.go]) and the reconcilers [pkg/reconcilers/role.go],
    [users.go] and [userrolebinding.go], with status updates enabled.  A reconciler's deferred
    function runs after its body and gets the named results and the reason. *)

From S2P Require Import Prelude Prog Resources Api K8sClient Helpers OsClient OsData ReconcilerUtil Fixtures ManagedCR Owned.

Definition K8sAttributeField : string := "k8s-uid".
Definition K8sAttributeSecretVersionField : string := "secret-version".
Definition ROLES : string := "roles".
Definition INTERNALUSERS : string := "internalusers".
Definition ROLESMAPPING : string := "rolesmapping".

(** ** The security API *)

Definition generateAPIPath (resource name : string) : string :=
  "/_plugins/_security/api/" +:+ resource +:+ "/" +:+ name.

Definition GetSecurityResource (service : OsClusterClient) (resource name : string)
    (p : payload) : io (result (HttpResp (payload_ty p))) :=
  doHTTPGet service (generateAPIPath resource name) p.
Definition PutSecurityResource (service : OsClusterClient) (resource name : string) (b : body)
    : io (result (HttpResp unit)) := doHTTPPut service (generateAPIPath resource name) b.
Definition DeleteSecurityResource (service : OsClusterClient) (resource name : string)
    : io (result (HttpResp unit)) := doHTTPDelete service (generateAPIPath resource name).

(** The existence checks of users, roles and role mappings. *)
Definition resourceExists (service : OsClusterClient) (resource name : string)
    : io (result bool) :=
  let! r := GetSecurityResource service resource name PNone in Ret (existsAnswer r).

Definition UserExists (service : OsClusterClient) (username : string) : io (result bool) :=
  resourceExists service INTERNALUSERS username.
Definition RoleExists (service : OsClusterClient) (rolename : string) : io (result bool) :=
  resourceExists service ROLES rolename.
Definition RoleMappingExists (service : OsClusterClient) (rolename : string)
    : io (result bool) := resourceExists service ROLESMAPPING rolename.

(** [PUT] with an error message of its own, and [DELETE]. *)
Definition putResource (service : OsClusterClient) (resource name what : string) (b : body)
    : io (option err) :=
  let! r := PutSecurityResource service resource name b in
  Ret (writeAnswer ("failed to create " +:+ what +:+ ": ") r).
Definition deleteResource (service : OsClusterClient) (resource name : string)
    : io (option err) :=
  let! r := DeleteSecurityResource service resource name in Ret (deleteAnswer r).

Definition CreateOrUpdateUser (service : OsClusterClient) (username : string) (user : UserReq)
    : io (option err) := putResource service INTERNALUSERS username "user" (UserBody user).
Definition DeleteUser (service : OsClusterClient) (username : string) : io (option err) :=
  deleteResource service INTERNALUSERS username.
Definition CreateOrUpdateRole (service : OsClusterClient) (rolename : string) (role : RoleReq)
    : io (option err) := putResource service ROLES rolename "role" (RoleBody role).
Definition DeleteRole (service : OsClusterClient) (rolename : string) : io (option err) :=
  deleteResource service ROLES rolename.
Definition CreateOrUpdateRoleMapping (service : OsClusterClient) (rolename : string)
    (mapping : RoleMapping) : io (option err) :=
  putResource service ROLESMAPPING rolename "role mapping" (MappingBody mapping).
Definition DeleteRoleMapping (service : OsClusterClient) (rolename : string)
    : io (option err) := deleteResource service ROLESMAPPING rolename.

(** Zero values, read for a key that a decoded map does not have. *)
Definition zeroUser : UserReq := mkUserReq "" [] [] ∅.
Definition zeroRole : RoleReq := mkRoleReq [] [] [].
Definition zeroMapping : RoleMapping := mkMapping [] [] [].

Section Services.
Context `{CL : CmpLib}.

Definition ShouldUpdateUser (service : OsClusterClient) (username : string) (user : UserReq)
    : io (result bool) :=
  let! r := GetSecurityResource service INTERNALUSERS username PUsers in
  match r with
  | Err e => Ret (Err e)
  | Ok resp =>
      if hr_StatusCode resp == 404 then Ret (Ok true)
      else if hr_IsError resp then Ret (Err (apiError (hr_Status resp)))
      else
        let user := mkUserReq "" (ur_OpendistroSecurityRoles user) (ur_BackendRoles user)
                      (ur_Attributes user) in
        match hr_Body resp with
        | Err e => Ret (Err e)
        | Ok userResponse =>
            let existing := default zeroUser ((userResponse : gmap string UserReq) !! username) in
            match ur_Attributes existing !! K8sAttributeField with
            | None =>
                Ret (Err (OtherErr "user resource not currently managed by kubernetes"))
            | Some existingUID =>
                if existingUID != default "" (ur_Attributes user !! K8sAttributeField) then
                  Ret (Err (OtherErr "kubernetes resource conflict; uids don't match"))
                else if CmpEqual user existing then Ret (Ok false)
                else Ret (Ok true)
            end
        end
  end.

Definition UserUIDMatches (service : OsClusterClient) (username uid : string)
    : io (result bool) :=
  let! r := GetSecurityResource service INTERNALUSERS username PUsers in
  match r with
  | Err e => Ret (Err e)
  | Ok resp =>
      if hr_IsError resp then Ret (Err (apiError (hr_Status resp)))
      else
        match hr_Body resp with
        | Err e => Ret (Err e)
        | Ok userResponse =>
            let existing := default zeroUser ((userResponse : gmap string UserReq) !! username) in
            match ur_Attributes existing !! K8sAttributeField with
            | Some existingUID => Ret (Ok (existingUID == uid))
            | None => Ret (Ok false)
            end
        end
  end.

(** Compare a document with the entry of that name in the answer. *)
Definition entryDiffers {A} `{EqDecision A} (zero x : A) (name : string)
    (r : result (HttpResp (gmap string A))) : result bool :=
  match r with
  | Err e => Err e
  | Ok resp =>
      if hr_StatusCode resp == 404 then Ok true
      else if hr_IsError resp then Err (apiError (hr_Status resp))
      else
        match hr_Body resp with
        | Err e => Err e
        | Ok entries =>
            if CmpEqual x (default zero (entries !! name)) then Ok false else Ok true
        end
  end.

Definition ShouldUpdateRole (service : OsClusterClient) (rolename : string) (role : RoleReq)
    : io (result bool) :=
  let! r := GetSecurityResource service ROLES rolename PRoles in
  Ret (entryDiffers zeroRole role rolename r).

End Services.

Definition FetchExistingRoleMapping (service : OsClusterClient) (rolename : string)
    : io (result RoleMapping) :=
  let! r := GetSecurityResource service ROLESMAPPING rolename PMappings in
  match r with
  | Err e => Ret (Err e)
  | Ok resp =>
      if hr_IsError resp then Ret (Err (apiError (hr_Status resp)))
      else
        match hr_Body resp with
        | Err e => Ret (Err e)
        | Ok mappingResp =>
            Ret (Ok (default zeroMapping ((mappingResp : gmap string RoleMapping) !! rolename)))
        end
  end.

(** ** Roles *)

Definition rol_update (state : string) (reason : string) (existing : option bool)
    (managed : option string) (r : OpensearchRole) : OpensearchRole :=
  mkRoleCR (rol_Name r) (rol_Namespace r) (rol_OpensearchRef r) (rol_ClusterPermissions r)
    (rol_IndexPermissions r) (rol_TenantPermissions r) state reason existing managed.

Definition roleOps : CRops KRole :=
  mkCRops KRole rol_OpensearchRef rol_Namespace rol_ManagedCluster
    (fun uid r => rol_update (rol_State r) (rol_Reason r) (rol_ExistingRole r) (Some uid) r)
    "a role".

Definition set_ExistingRole (b : bool) (r : OpensearchRole) : OpensearchRole :=
  rol_update (rol_State r) (rol_Reason r) (Some b) (rol_ManagedCluster r) r.

Definition opensearchRoleExists : string := "role already exists in Opensearch; not modifying".

(** The deferred function: later assignments overwrite earlier ones. *)
Definition roleState (d : done_with) (state : string) : string :=
  let state := match d_err d with Some _ => "ERROR" | None => state end in
  let state := if Requeue (d_result d) && (RequeueAfter (d_result d) == 10)
               then "PENDING" else state in
  let state := match d_err d with
               | None => if Requeue (d_result d) then "CREATED" else state
               | Some _ => state
               end in
  if d_reason d == opensearchRoleExists then "IGNORED" else state.

Definition setRoleState (d : done_with) (r : OpensearchRole) : OpensearchRole :=
  rol_update (roleState d (rol_State r)) (d_reason d) (rol_ExistingRole r)
    (rol_ManagedCluster r) r.

Definition roleRequest (r : OpensearchRole) : RoleReq :=
  mkRoleReq (rol_ClusterPermissions r) (rol_IndexPermissions r) (rol_TenantPermissions r).

Section Role.
Context `{RP : RetryPolicy} `{PE : ProcEnv} `{CR : Crypto} `{CL : CmpLib}.

Definition roleOwned : OwnedOps KRole :=
  mkOwned KRole roleOps (fun _ => Ret tt) rol_Name rol_ExistingRole set_ExistingRole
    (fun c _ i => RoleExists c (rol_Name i))
    (fun _ _ => None)
    (fun c _ i => ShouldUpdateRole c (rol_Name i) (roleRequest i))
    (fun c _ i => CreateOrUpdateRole c (rol_Name i) (roleRequest i))
    (fun c _ i => DeleteRole c (rol_Name i))
    opensearchRoleExists
    "failed to get user status from Opensearch API"
    "failed to get role status from Opensearch API"
    "failed to update role with Opensearch API"
    "role updated in opensearch"
    (fun _ => setRoleState).

Definition RoleReconcile (instance : OpensearchRole) : io (Result * option err) :=
  ownedReconcile roleOwned instance.
Definition RoleDelete (instance : OpensearchRole) : io (option err) :=
  ownedDelete roleOwned instance.

End Role.

(** ** Users *)

Definition usr_update (state reason : string) (managed : option string) (u : OpensearchUser)
    : OpensearchUser :=
  mkUser (usr_Name u) (usr_Namespace u) (usr_UID u) (usr_OpensearchRef u)
    (usr_PasswordFromName u) (usr_PasswordFromKey u) (usr_OpendistroSecurityRoles u)
    (usr_BackendRoles u) (usr_Attributes u) state reason managed.

Definition userOps : CRops KUser :=
  mkCRops KUser usr_OpensearchRef usr_Namespace usr_ManagedCluster
    (fun uid u => usr_update (usr_State u) (usr_Reason u) (Some uid) u) "a user".

Definition setUserState (d : done_with) (u : OpensearchUser) : OpensearchUser :=
  usr_update (deferredState d (usr_State u)) (d_reason d) (usr_ManagedCluster u) u.

Section User.
Context `{RP : RetryPolicy} `{PE : ProcEnv} `{CR : Crypto} `{CL : CmpLib}.

Definition annotateSecret (username namespace : string) (secret : Secret) : Secret :=
  let a := secret_Annotations secret in
  let a := if bool_decide (size (secret_Data secret) = 1%nat)
           then <["opensearchuser/name" := username]> a else a in
  mkSecret (secret_Name secret) (secret_Namespace secret)
    (<["opensearchuser/namespace" := namespace]> a)
    (secret_Data secret) (secret_StringData secret) (secret_ResourceVersion secret)
    (secret_Type secret) (secret_OwnerReferences secret).

Definition managePasswordSecret (instance : OpensearchUser) (username namespace : string)
    : io (result Secret) :=
  let! r := GetSecret (usr_PasswordFromName instance) (usr_Namespace instance) in
  match r with
  | Err e =>
      do! ask (RecordEvent "Warning" "PasswordError" "error fetching password secret") in
      Ret (Err e)
  | Ok secret =>
      let secret := annotateSecret username namespace secret in
      let! (secret, (_, e)) := CreateSecret secret in
      match e with
      | Some e =>
          do! ask (RecordEvent "Warning" "PasswordError"
                     "error patching opensearch username onto password secret") in
          Ret (Err e)
      | None => Ret (Ok secret)
      end
  end.

Definition userRequest (u : OpensearchUser) (password version : string) : UserReq :=
  mkUserReq password (usr_OpendistroSecurityRoles u) (usr_BackendRoles u)
    (<[K8sAttributeSecretVersionField := version]>
       (<[K8sAttributeField := usr_UID u]> (usr_Attributes u))).

Definition syncUser (osClient : OsClusterClient) (instance : OpensearchUser) : io done_with :=
  let! s := managePasswordSecret instance (usr_Name instance) (usr_Namespace instance) in
  match s with
  | Err e => Ret (mkDone noResult (Some e) "failed to get user secret")
  | Ok userSecret =>
      match secret_Data userSecret !! usr_PasswordFromKey instance with
      | None =>
          let msg := "key " +:+ usr_PasswordFromKey instance +:+ " does not exist in secret" in
          do! ask (RecordEvent "Warning" "PasswordError" msg) in
          Ret (mkDone noResult (Some (OtherErr msg)) "")
      | Some userPassword =>
          let user := userRequest instance userPassword (secret_ResourceVersion userSecret) in
          let! s := ShouldUpdateUser osClient (usr_Name instance) user in
          match s with
          | Err e =>
              stopWith "Warning" "OpensearchAPIError" noResult (Some e)
                "failed to get user status from Opensearch API"
          | Ok false => Ret (mkDone (requeueIn 30) None "")
          | Ok true =>
              let! e := CreateOrUpdateUser osClient (usr_Name instance) user in
              let reason := match e with
                            | Some _ => "failed to get update user with Opensearch API"
                            | None => ""
                            end in
              do! match e with
                  | Some _ => ask (RecordEvent "Warning" "OpensearchAPIError" reason)
                  | None => Ret tt
                  end in
              do! ask (RecordEvent "Normal" "OpensearchAPIUpdated"
                         "user updated in opensearch") in
              Ret (mkDone (requeueIn 30) e reason)
          end
      end
  end.

Definition userBody (instance : OpensearchUser) : io (OpensearchUser * done_with) :=
  let! (instance, p) := preamble userOps instance in
  match p with
  | inl d => Ret (instance, d)
  | inr osClient => let! d := syncUser osClient instance in Ret (instance, d)
  end.

Definition UserReconcile (instance : OpensearchUser) : io (Result * option err) :=
  withDeferred (k := KUser) id (userBody instance) setUserState.

Definition UserDelete (instance : OpensearchUser) : io (option err) :=
  let! c := deleteClient (usr_OpensearchRef instance) (usr_Namespace instance) in
  match c with
  | Err e => Ret (Some e)
  | Ok None => Ret None
  | Ok (Some osClient) =>
      let! x := UserExists osClient (usr_Name instance) in
      match x with
      | Err e => Ret (Some e)
      | Ok false => Ret None
      | Ok true =>
          let! m := UserUIDMatches osClient (usr_Name instance) (usr_UID instance) in
          match m with
          | Err e => Ret (Some e)
          | Ok false => Ret None
          | Ok true => DeleteUser osClient (usr_Name instance)
          end
      end
  end.

End User.

(** ** User-role bindings *)

Definition urb_update (state reason : string) (managed : option string)
    (roles users backendRoles : list string) (b : OpensearchUserRoleBinding)
    : OpensearchUserRoleBinding :=
  mkBinding (urb_Name b) (urb_Namespace b) (urb_OpensearchRef b) (urb_Roles b) (urb_Users b)
    (urb_BackendRoles b) state reason managed roles users backendRoles.

Definition bindingOps : CRops KBinding :=
  mkCRops KBinding urb_OpensearchRef urb_Namespace urb_ManagedCluster
    (fun uid b => urb_update (urb_State b) (urb_Reason b) (Some uid) (urb_ProvisionedRoles b)
                    (urb_ProvisionedUsers b) (urb_ProvisionedBackendRoles b) b)
    "a userrolebinding".

Definition setBindingState (d : done_with) (b : OpensearchUserRoleBinding)
    : OpensearchUserRoleBinding :=
  let state := deferredState d (urb_State b) in
  if bool_decide (d_err d = None) && (RequeueAfter (d_result d) == 30) then
    urb_update state (d_reason d) (urb_ManagedCluster b) (urb_Roles b) (urb_Users b)
      (urb_BackendRoles b) b
  else
    urb_update state (d_reason d) (urb_ManagedCluster b) (urb_ProvisionedRoles b)
      (urb_ProvisionedUsers b) (urb_ProvisionedBackendRoles b) b.

(** A role mapping that would be empty is deleted instead of written. *)
Definition saveMapping (osClient : OsClusterClient) (rolename : string) (mapping : RoleMapping)
    : io (option err) :=
  match rm_Users mapping, rm_Hosts mapping, rm_BackendRoles mapping with
  | [], [], [] => DeleteRoleMapping osClient rolename
  | _, _, _ => CreateOrUpdateRoleMapping osClient rolename mapping
  end.

(** The mapping [reconcileExistingMapping] makes of an existing one. *)
Definition mergedMapping (instance : OpensearchUserRoleBinding)
    (usersToRemove backendRolesToRemove : list string) (mapping : RoleMapping) : RoleMapping :=
  mkMapping
    (DiffSlice (rm_BackendRoles mapping) backendRolesToRemove ++
     DiffSlice (urb_BackendRoles instance) (rm_BackendRoles mapping))
    (rm_Hosts mapping)
    (DiffSlice (rm_Users mapping) usersToRemove ++
     DiffSlice (urb_Users instance) (rm_Users mapping)).

Definition reconcileExistingMapping (osClient : OsClusterClient)
    (instance : OpensearchUserRoleBinding) (rolename : string)
    (usersToRemove backendRolesToRemove : list string) : io (option err) :=
  let! r := FetchExistingRoleMapping osClient rolename in
  match r with
  | Err e => Ret (Some e)
  | Ok mapping =>
      let usersToSave := DiffSlice (rm_Users mapping) usersToRemove in
      let backendRolesToSave := DiffSlice (rm_BackendRoles mapping) backendRolesToRemove in
      let newUsers := DiffSlice (urb_Users instance) (rm_Users mapping) in
      let newBackendRoles := DiffSlice (urb_BackendRoles instance) (rm_BackendRoles mapping) in
      if bool_decide (newUsers = []) && bool_decide (newBackendRoles = []) &&
         bool_decide (length usersToSave = length (rm_Users mapping)) &&
         bool_decide (length backendRolesToSave = length (rm_BackendRoles mapping))
      then Ret None
      else saveMapping osClient rolename
             (mergedMapping instance usersToRemove backendRolesToRemove mapping)
  end.

Definition removeObjectsFromMapping (osClient : OsClusterClient) (rolename : string)
    (usersToRemove backendRolesToRemove : list string) : io (option err) :=
  let! r := FetchExistingRoleMapping osClient rolename in
  match r with
  | Err e => Ret (Some e)
  | Ok mapping =>
      let usersToSave := DiffSlice (rm_Users mapping) usersToRemove in
      let backendRolesToSave := DiffSlice (rm_BackendRoles mapping) backendRolesToRemove in
      if bool_decide (length usersToSave = length (rm_Users mapping)) &&
         negb (bool_decide (usersToSave = [])) &&
         bool_decide (length backendRolesToSave = length (rm_BackendRoles mapping)) &&
         negb (bool_decide (backendRolesToSave = []))
      then Ret None
      else saveMapping osClient rolename
             (mkMapping backendRolesToSave (rm_Hosts mapping) usersToSave)
  end.

Definition calculateRemovedRoles (instance : OpensearchUserRoleBinding) : list string :=
  DiffSlice (urb_ProvisionedRoles instance) (urb_Roles instance).

Section Binding.
Context `{RP : RetryPolicy} `{PE : ProcEnv} `{CR : Crypto}.

Definition apiStop (e : err) (reason : string) : io done_with :=
  stopWith "Warning" "OpensearchAPIError" noResult (Some e) reason.

Definition removeRole (osClient : OsClusterClient) (instance : OpensearchUserRoleBinding)
    (removed : string) (_ : unit) : io (unit + done_with) :=
  let! x := RoleMappingExists osClient removed in
  match x with
  | Err e =>
      let! d := apiStop e "failed to get role mapping status from Opensearch API" in
      Ret (inr d)
  | Ok false => Ret (inl tt)
  | Ok true =>
      let! e := removeObjectsFromMapping osClient removed (urb_ProvisionedUsers instance)
                  (urb_ProvisionedBackendRoles instance) in
      match e with
      | Some e => let! d := apiStop e "failed to update existing role mapping" in Ret (inr d)
      | None => Ret (inl tt)
      end
  end.

Definition reconcileRole (osClient : OsClusterClient) (instance : OpensearchUserRoleBinding)
    (role : string) (_ : unit) : io (unit + done_with) :=
  let! x := RoleMappingExists osClient role in
  match x with
  | Err e =>
      let! d := apiStop e "failed to get role mapping status from Opensearch API" in
      Ret (inr d)
  | Ok true =>
      let! e := reconcileExistingMapping osClient instance role
                  (DiffSlice (urb_ProvisionedUsers instance) (urb_Users instance))
                  (DiffSlice (urb_ProvisionedBackendRoles instance) (urb_BackendRoles instance)) in
      match e with
      | Some e => let! d := apiStop e "failed to update existing role mapping" in Ret (inr d)
      | None => Ret (inl tt)
      end
  | Ok false =>
      let! e := CreateOrUpdateRoleMapping osClient role
                  (mkMapping (urb_BackendRoles instance) [] (urb_Users instance)) in
      match e with
      | Some e => let! d := apiStop e "failed to create role mapping" in Ret (inr d)
      | None => Ret (inl tt)
      end
  end.

Definition bindingBody (instance : OpensearchUserRoleBinding)
    : io (OpensearchUserRoleBinding * done_with) :=
  let! (instance, p) := preamble bindingOps instance in
  match p with
  | inl d => Ret (instance, d)
  | inr osClient =>
      let! o := for_range (calculateRemovedRoles instance) tt (removeRole osClient instance) in
      match o with
      | inr d => Ret (instance, d)
      | inl _ =>
          let! o := for_range (urb_Roles instance) tt (reconcileRole osClient instance) in
          match o with
          | inr d => Ret (instance, d)
          | inl _ => Ret (instance, mkDone (requeueIn 30) None "")
          end
      end
  end.

Definition BindingReconcile (instance : OpensearchUserRoleBinding) : io (Result * option err) :=
  withDeferred (k := KBinding) id (bindingBody instance) setBindingState.

Definition deleteMapping (osClient : OsClusterClient) (instance : OpensearchUserRoleBinding)
    (role : string) (_ : unit) : io (unit + err) :=
  let! x := RoleMappingExists osClient role in
  match x with
  | Err e => Ret (inr e)
  | Ok false => Ret (inl tt)
  | Ok true =>
      let! e := removeObjectsFromMapping osClient role (urb_ProvisionedUsers instance)
                  (urb_ProvisionedBackendRoles instance) in
      match e with
      | Some e => Ret (inr e)
      | None => Ret (inl tt)
      end
  end.

Definition BindingDelete (instance : OpensearchUserRoleBinding) : io (option err) :=
  let! c := deleteClient (urb_OpensearchRef instance) (urb_Namespace instance) in
  match c with
  | Err e => Ret (Some e)
  | Ok None => Ret None
  | Ok (Some osClient) =>
      let! o := for_range (urb_ProvisionedRoles instance) tt (deleteMapping osClient instance) in
      match o with
      | inr e => Ret (Some e)
      | inl _ => Ret None
      end
  end.

End Binding.

(** ** Footprints and rules of the services *)

Lemma only_GetSecurity c r n p : only reads (GetSecurityResource c r n p).
Proof. apply only_HTTPGet. Qed.
#[local] Hint Resolve only_GetSecurity : only.
Lemma only_resourceExists c r n : only reads (resourceExists c r n).
Proof. unfold resourceExists. only_auto. Qed.
Lemma only_FetchMapping c n : only reads (FetchExistingRoleMapping c n).
Proof. unfold FetchExistingRoleMapping. only_auto. Qed.
Lemma only_managePassword `{RetryPolicy} i u n : only reads_or_secret (managePasswordSecret i u n).
Proof. unfold managePasswordSecret. only_auto. Qed.
Lemma only_ShouldUpdateRole `{CmpLib} c n r : only reads (ShouldUpdateRole c n r).
Proof. unfold ShouldUpdateRole. only_auto. Qed.
#[local] Hint Resolve only_resourceExists only_FetchMapping only_managePassword
  only_ShouldUpdateRole : only.

Lemma wp_resourceExists_reads c r n h :
  wp (resourceExists c r n) (λ _ q, reads q) (exists_post c (generateAPIPath r n)) h.
Proof. apply (wp_exists_request "GET"). by left. Qed.

Lemma wp_resourceExists c r n W (Q : ohist -> outcome (result bool) -> Prop) h :
  (forall h' res, extends h h' ->
     (res = Ok false -> absent h' c (generateAPIPath r n)) ->
     (res = Ok true -> present h' c (generateAPIPath r n)) ->
     Q h' (Returned res)) ->
  wp (resourceExists c r n) (api_guarded W) Q h.
Proof. apply wp_exists_guarded, wp_resourceExists_reads. Qed.

(** ** Roles: a role that was there before is not touched *)

Section RoleProofs.
Context `{RP : RetryPolicy} `{PE : ProcEnv} `{CR : Crypto} `{CL : CmpLib}.

Definition rolePath (_ name : string) : string := generateAPIPath ROLES name.
Definition roleDoc (i : OpensearchRole) : body := RoleBody (roleRequest i).

#[export] Instance roleOwned_laws : OwnedLaws roleOwned rolePath roleDoc.
Proof.
  split; try done.
  - intros c n i h. apply wp_resourceExists_reads.
  - intros c n i. unfold roleOwned, ow_shouldUpdate, ShouldUpdateRole, GetSecurityResource. only_auto.
  - intros c n i h. apply wp_deleteAnswer.
Qed.

(** The only write: this resource's role, when the role is known to be the operator's own
    ([ExistingRole] is [false]) or OpenSearch has said that it does not exist. *)
Definition role_write (instance : OpensearchRole) := owned_write roleOwned rolePath roleDoc instance.
Definition role_delete (instance : OpensearchRole) := owned_delete roleOwned rolePath instance.

End RoleProofs.

(** ** Users: only users with the resource's own UID are touched *)

Section UserProofs.
Context `{RP : RetryPolicy} `{PE : ProcEnv} `{CR : Crypto} `{CL : CmpLib}.

(** OpenSearch's user carries the UID of the custom resource. *)
Definition user_marked (h : ohist) (c : OsClusterClient) (name uid : string) : Prop :=
  exists resp (users : gmap string UserReq),
    saw h (OsDo c (OpHttp "GET" (generateAPIPath INTERNALUSERS name) NoBody PUsers)) (Ok resp) /\
    hr_IsError resp = false /\ hr_Body resp = Ok users /\
    ur_Attributes (default zeroUser (users !! name)) !! K8sAttributeField = Some uid.

(** The password secret as the API server left it: read, annotated and sent back. *)
Definition password_secret (h : ohist) (i : OpensearchUser) (secret : Secret) : Prop :=
  exists s0 res,
    saw h (Get KSecret (usr_PasswordFromName i) (usr_Namespace i)) (Ok s0) /\
    saw h (ReconcileResource KSecret (annotateSecret (usr_Name i) (usr_Namespace i) s0)
             StatePresent) (secret, (res, None)).

(** The only write: this resource's user, marked with its UID, with the password and version of
    its secret, when OpenSearch does not have the user or has it with the same mark. *)
Definition user_write (instance : OpensearchUser) (h : ohist) (c : OsClusterClient) (op : os_op)
    : Prop :=
  attached userOps instance h c /\
  exists i secret password,
    current (k := KUser) instance h i /\
    password_secret h i secret /\
    secret_Data secret !! usr_PasswordFromKey i = Some password /\
    op = OpHttp "PUT" (generateAPIPath INTERNALUSERS (usr_Name i))
           (UserBody (userRequest i password (secret_ResourceVersion secret))) PNone /\
    (absent h c (generateAPIPath INTERNALUSERS (usr_Name i)) \/ user_marked h c (usr_Name i) (usr_UID i)).

Definition user_delete (instance : OpensearchUser) (h : ohist) (c : OsClusterClient) (op : os_op)
    : Prop :=
  op = OpHttp "DELETE" (generateAPIPath INTERNALUSERS (usr_Name instance)) NoBody PNone /\
  user_marked h c (usr_Name instance) (usr_UID instance).

Lemma password_secret_extends h h' i s :
  extends h h' -> password_secret h i s -> password_secret h' i s.
Proof.
  intros He (s0 & res & H1 & H2). exists s0, res. split; by eapply saw_extends.
Qed.

Lemma userRequest_mark u p v : ur_Attributes (userRequest u p v) !! K8sAttributeField = Some (usr_UID u).
Proof. cbn. rewrite lookup_insert_ne by done. by rewrite lookup_insert_eq. Qed.

Lemma wp_ShouldUpdateUser c name user W (Q : ohist -> outcome (result bool) -> Prop) h :
  (forall h' r, extends h h' ->
     (r = Ok true -> absent h' c (generateAPIPath INTERNALUSERS name) \/
        user_marked h' c name (default "" (ur_Attributes user !! K8sAttributeField))) ->
     Q h' (Returned r)) ->
  wp (ShouldUpdateUser c name user) (api_guarded W) Q h.
Proof.
  intros HQ. unfold ShouldUpdateUser, GetSecurityResource, doHTTPGet. wp_step; [by left; left|].
  destruct r as [resp|e]; [|wp_step; apply HQ; [ext|done]].
  case_bool_decide as E.
  { wp_step. apply HQ; [ext|]. intros _. left. exists "GET", PUsers, resp. split_and!; [by left|apply saw_here|done]. }
  destruct (hr_IsError _) eqn:Ee; [wp_step; apply HQ; [ext|done]|]. cbv zeta.
  destruct (hr_Body _) as [users|e] eqn:Eb; [|wp_step; apply HQ; [ext|done]].
  destruct (ur_Attributes (default _ _) !! _) as [uid|] eqn:Eu; [|wp_step; apply HQ; [ext|done]].
  case_bool_decide as Em; cbn [negb]; [|wp_step; apply HQ; [ext|done]].
  destruct (CmpEqual _ _); wp_step; apply HQ; [ext|done|ext|].
  intros _. right. exists resp, users. cbn in Em. subst uid. split_and!; [apply saw_here|done..].
Qed.

Lemma wp_UserUIDMatches c name uid W (Q : ohist -> outcome (result bool) -> Prop) h :
  (forall h' r, extends h h' -> (r = Ok true -> user_marked h' c name uid) -> Q h' (Returned r)) ->
  wp (UserUIDMatches c name uid) (api_guarded W) Q h.
Proof.
  intros HQ. unfold UserUIDMatches, GetSecurityResource, doHTTPGet. wp_step; [by left; left|].
  destruct r as [resp|e]; [|wp_step; apply HQ; [ext|done]].
  destruct (hr_IsError _) eqn:Ee; [wp_step; apply HQ; [ext|done]|].
  destruct (hr_Body _) as [users|e] eqn:Eb; [|wp_step; apply HQ; [ext|done]]. cbv zeta.
  destruct (ur_Attributes (default _ _) !! _) as [u|] eqn:Eu; wp_step; apply HQ; [ext| |ext|done].
  case_bool_decide as Em; [|done]. subst u. intros _. exists resp, users.
  split_and!; [apply saw_here|done..].
Qed.

Lemma wp_managePassword i W (Q : ohist -> outcome (result Secret) -> Prop) h :
  (forall h' r, extends h h' ->
     (forall s, r = Ok s -> password_secret h' i s) -> Q h' (Returned r)) ->
  wp (managePasswordSecret i (usr_Name i) (usr_Namespace i)) (api_guarded W) Q h.
Proof.
  intros HQ. unfold managePasswordSecret, GetSecret, CreateSecret. wp_step; [done|].
  destruct r as [s|e]; [|wp_step; [done|wp_step; apply HQ; [ext|done]]]. cbv zeta.
  wp_step; [done|]. destruct r as [s' [res [e|]]].
  { wp_step; [done|wp_step; apply HQ; [ext|done]]. }
  wp_step. apply HQ; [ext|]. intros ? [= <-]. exists s, res.
  split; [apply saw_there, saw_here|apply saw_here].
Qed.

Lemma wp_syncUser c i W h :
  (forall h' s p, extends h h' ->
     password_secret h' i s -> secret_Data s !! usr_PasswordFromKey i = Some p ->
     absent h' c (generateAPIPath INTERNALUSERS (usr_Name i)) \/ user_marked h' c (usr_Name i) (usr_UID i) ->
     W h' c (OpHttp "PUT" (generateAPIPath INTERNALUSERS (usr_Name i))
               (UserBody (userRequest i p (secret_ResourceVersion s))) PNone)) ->
  wp (syncUser c i) (api_guarded W) (λ _ _, True) h.
Proof.
  intros HW. unfold syncUser. wp_step. apply wp_managePassword.
  intros h1 [s|e] H1 Hs; wp_step; [|by wp_step].
  destruct (secret_Data s !! usr_PasswordFromKey i) as [p|] eqn:Ep; [|api_done].
  specialize (Hs s eq_refl). cbv zeta. wp_step.
  apply wp_ShouldUpdateUser. intros h2 [[]|e] H2 Hm; wp_step; [|by wp_step|api_done].
  unfold CreateOrUpdateUser, putResource, PutSecurityResource, doHTTPPut.
  apply wp_after; [|intros h3 e H3; api_done]. wp_step; [|api_done].
  right. apply HW; [ext|by eapply password_secret_extends|done|].
  rewrite userRequest_mark in Hm. by apply Hm.
Qed.

Lemma wp_UserReconcile (instance : OpensearchUser) h :
  wp (UserReconcile instance) (api_guarded (user_write instance)) (λ _ _, True) h.
Proof.
  apply wp_withDeferred. unfold userBody. wp_step.
  apply wp_preamble; [by intros; do 2 wp_step| |done].
  intros h1 i c H1 Ha (i0 & Hc0 & Hi). do 2 wp_step.
  eapply wp_mono; [done| |apply wp_syncUser].
  { intros h' [d|m] _; [by do 2 wp_step|done]. }
  intros h2 s p H2 Hs Hp Hm. split; [by eapply attached_extends|].
  exists i0, s, p. destruct Hi as [->|[uid ->]]; (split_and!; [by eapply current_extends|done..]).
Qed.

Lemma wp_UserDelete (instance : OpensearchUser) h :
  wp (UserDelete instance) (api_guarded (user_delete instance)) (λ _ _, True) h.
Proof.
  unfold UserDelete, UserExists. wp_step. apply wp_deleteClient; [|done].
  intros h1 [[c|]|e] H1 Hc; wp_step; [|by wp_step|by wp_step]. wp_step.
  apply wp_resourceExists. intros h2 [[]|e] H2 _ Hp; wp_step; [|by wp_step|by wp_step].
  wp_step. apply wp_UserUIDMatches. intros h3 [[]|e] H3 Hm; wp_step; [|by wp_step|by wp_step].
  unfold DeleteUser, deleteResource, DeleteSecurityResource, doHTTPDelete.
  wp_step; [right; split; auto|api_done].
Qed.

End UserProofs.

(** ** Bindings: members that the binding did not provide stay *)

Section BindingProofs.
Context `{RP : RetryPolicy} `{PE : ProcEnv} `{CR : Crypto}.

(** The mapping OpenSearch has answered for the role. *)
Definition mapping_seen (h : ohist) (c : OsClusterClient) (role : string) (m : RoleMapping) : Prop :=
  exists resp (ms : gmap string RoleMapping),
    saw h (OsDo c (OpHttp "GET" (generateAPIPath ROLESMAPPING role) NoBody PMappings)) (Ok resp) /\
    hr_IsError resp = false /\ hr_Body resp = Ok ms /\ m = default zeroMapping (ms !! role).

(** [op] makes [m] the role's mapping; an empty one is deleted. *)
Definition stores (role : string) (m : RoleMapping) (op : os_op) : Prop :=
  if bool_decide (m = zeroMapping)
  then op = OpHttp "DELETE" (generateAPIPath ROLESMAPPING role) NoBody PNone
  else op = OpHttp "PUT" (generateAPIPath ROLESMAPPING role) (MappingBody m) PNone.

(** What a binding makes of a mapping: the members it lists, and of the others those it has
    not provided itself. *)
Definition bound (i : OpensearchUserRoleBinding) (m m' : RoleMapping) : Prop :=
  rm_Hosts m' = rm_Hosts m /\
  (forall u, u ∈ rm_Users m' <-> u ∈ urb_Users i \/ (u ∈ rm_Users m /\ u ∉ urb_ProvisionedUsers i)) /\
  (forall b, b ∈ rm_BackendRoles m' <->
     b ∈ urb_BackendRoles i \/ (b ∈ rm_BackendRoles m /\ b ∉ urb_ProvisionedBackendRoles i)).

(** And of the mapping of a role it no longer lists. *)
Definition unbound (i : OpensearchUserRoleBinding) (m m' : RoleMapping) : Prop :=
  rm_Hosts m' = rm_Hosts m /\
  (forall u, u ∈ rm_Users m' <-> u ∈ rm_Users m /\ u ∉ urb_ProvisionedUsers i) /\
  (forall b, b ∈ rm_BackendRoles m' <->
     b ∈ rm_BackendRoles m /\ b ∉ urb_ProvisionedBackendRoles i).

Definition updates_mapping (h : ohist) (c : OsClusterClient) (role : string) (op : os_op)
    (R : RoleMapping -> RoleMapping -> Prop) : Prop :=
  exists m m', mapping_seen h c role m /\ R m m' /\ stores role m' op.

Definition binding_write (instance : OpensearchUserRoleBinding) (h : ohist) (c : OsClusterClient)
    (op : os_op) : Prop :=
  attached bindingOps instance h c /\
  exists i role, current (k := KBinding) instance h i /\
    ((role ∈ urb_Roles i /\ absent h c (generateAPIPath ROLESMAPPING role) /\
      op = OpHttp "PUT" (generateAPIPath ROLESMAPPING role)
             (MappingBody (mkMapping (urb_BackendRoles i) [] (urb_Users i))) PNone) \/
     (role ∈ urb_Roles i /\ updates_mapping h c role op (bound i)) \/
     (role ∈ urb_ProvisionedRoles i /\ (role ∉ urb_Roles i) /\
      updates_mapping h c role op (unbound i))).

Definition binding_delete (instance : OpensearchUserRoleBinding) (h : ohist)
    (c : OsClusterClient) (op : os_op) : Prop :=
  exists role, role ∈ urb_ProvisionedRoles instance /\
    updates_mapping h c role op (unbound instance).

Lemma merged_bound i m :
  bound i m (mergedMapping i (DiffSlice (urb_ProvisionedUsers i) (urb_Users i))
               (DiffSlice (urb_ProvisionedBackendRoles i) (urb_BackendRoles i)) m).
Proof.
  split_and!; [done| |]; intros x; cbn; rewrite elem_of_app, !elem_of_DiffSlice;
    [destruct (decide (x ∈ urb_Users i)), (decide (x ∈ rm_Users m))
    |destruct (decide (x ∈ urb_BackendRoles i)), (decide (x ∈ rm_BackendRoles m))]; naive_solver.
Qed.

Lemma wp_FetchMapping c role W (Q : ohist -> outcome (result RoleMapping) -> Prop) h :
  (forall h' r, extends h h' -> (forall m, r = Ok m -> mapping_seen h' c role m) ->
     Q h' (Returned r)) ->
  wp (FetchExistingRoleMapping c role) (api_guarded W) Q h.
Proof.
  intros HQ. unfold FetchExistingRoleMapping, GetSecurityResource, doHTTPGet. wp_step; [by left; left|].
  destruct r as [resp|e]; [|wp_step; apply HQ; [ext|done]].
  destruct (hr_IsError _) eqn:Ee; [wp_step; apply HQ; [ext|done]|].
  destruct (hr_Body _) as [ms|e] eqn:Eb; wp_step; apply HQ; [ext| |ext|done].
  intros ? [= <-]. exists resp, ms. split_and!; [apply saw_here|done..].
Qed.

Lemma run_FetchMapping c role (w : oenv) resp ms :
  let q := OsDo c (OpHttp "GET" (generateAPIPath ROLESMAPPING role) NoBody PMappings) in
  w q [] = Ok resp -> hr_IsError resp = false -> hr_Body resp = Ok ms ->
  run w (FetchExistingRoleMapping c role) [] =
    (Returned (Ok (default zeroMapping ((ms : gmap string RoleMapping) !! role))), [Ev q (Ok resp)]).
Proof.
  intros q Hq He Hb. unfold FetchExistingRoleMapping. rewrite run_bind.
  change (run w (GetSecurityResource _ _ _ _) []) with (Returned (w q []), [Ev q (w q [])]).
  rewrite Hq. cbn in *. by rewrite He, Hb.
Qed.

(** A merged mapping has the members of the binding. *)
Lemma merged_keeps i pu pb m :
  let m' := mergedMapping i (DiffSlice pu (urb_Users i)) (DiffSlice pb (urb_BackendRoles i)) m in
  (forall u, u ∈ urb_Users i -> u ∈ rm_Users m') /\
  (forall b, b ∈ urb_BackendRoles i -> b ∈ rm_BackendRoles m').
Proof.
  split; intros x Hx; cbn; rewrite elem_of_app, !elem_of_DiffSlice;
    [destruct (decide (x ∈ rm_Users m))|destruct (decide (x ∈ rm_BackendRoles m))]; naive_solver.
Qed.

Lemma wp_saveMapping c role m W h :
  (forall op, stores role m op -> W h c op) ->
  wp (saveMapping c role m) (api_guarded W) (λ _ _, True) h.
Proof.
  unfold stores, saveMapping, zeroMapping, CreateOrUpdateRoleMapping, DeleteRoleMapping,
    putResource, deleteResource, PutSecurityResource, DeleteSecurityResource, doHTTPPut,
    doHTTPDelete.
  intros HW. destruct m as [[|b bs] [|x hs] [|u us]]; cbn [rm_Users rm_Hosts rm_BackendRoles];
    (wp_step; [right; apply HW; by case_bool_decide|api_done]).
Qed.

Lemma wp_reconcileExisting c i role W h :
  (forall h' op, extends h h' -> updates_mapping h' c role op (bound i) -> W h' c op) ->
  wp (reconcileExistingMapping c i role
        (DiffSlice (urb_ProvisionedUsers i) (urb_Users i))
        (DiffSlice (urb_ProvisionedBackendRoles i) (urb_BackendRoles i)))
    (api_guarded W) (λ _ _, True) h.
Proof.
  intros HW. unfold reconcileExistingMapping. wp_step. apply wp_FetchMapping.
  intros h1 [m|e] H1 Hm; wp_step; [|by wp_step]. cbv zeta.
  destruct (_ && _ && _ && _); [by wp_step|]. apply wp_saveMapping. intros op Hop.
  apply HW; [done|]. eexists m, _. split_and!; [auto|apply merged_bound|done].
Qed.

Lemma wp_removeObjects c i role W h :
  (forall h' op, extends h h' -> updates_mapping h' c role op (unbound i) -> W h' c op) ->
  wp (removeObjectsFromMapping c role (urb_ProvisionedUsers i) (urb_ProvisionedBackendRoles i))
    (api_guarded W) (λ _ _, True) h.
Proof.
  intros HW. unfold removeObjectsFromMapping. wp_step. apply wp_FetchMapping.
  intros h1 [m|e] H1 Hm; wp_step; [|by wp_step]. cbv zeta.
  destruct (_ && _ && _ && _); [by wp_step|]. apply wp_saveMapping. intros op Hop.
  apply HW; [done|]. eexists m, _. split_and!; [auto| |done].
  split_and!; [done|intros u; apply elem_of_DiffSlice|intros b; apply elem_of_DiffSlice].
Qed.

(** A loop over roles: the guard of an iteration may use that its role is in the list. *)
Lemma wp_for_roles {R} roles (body : string -> unit -> io (unit + R)) W h :
  (forall role h', role ∈ roles -> extends h h' ->
     wp (body role tt) (api_guarded W) (λ _ _, True) h') ->
  wp (for_range roles tt body) (api_guarded W) (λ h' _, extends h h') h.
Proof.
  intros Hb. apply (wp_for_range (λ rest _ h', extends h h' /\ rest ⊆ roles)); [by split; [ext|]| |].
  - intros role rest [] h' [He Hs]. eapply wp_mono_ext; [done| |by apply Hb; [set_solver|]].
    intros h2 [[[]|r]|m] H2 _; cbn; [split; [ext|set_solver]|ext|ext].
  - by intros [] h' [He _].
Qed.

Lemma wp_removeRole c i role W h :
  (forall h' op, extends h h' -> updates_mapping h' c role op (unbound i) -> W h' c op) ->
  wp (removeRole c i role tt) (api_guarded W) (λ _ _, True) h.
Proof.
  intros HW. unfold removeRole, apiStop, RoleMappingExists. api_skip h1 as [[]|e]; [|by wp_step|api_done].
  apply wp_after; [apply wp_removeObjects; intros; apply HW; [ext|done]|].
  intros h2 [e|] H2; api_done.
Qed.

Lemma wp_reconcileRole c i role W h :
  (forall h' op, extends h h' -> updates_mapping h' c role op (bound i) \/
     (absent h' c (generateAPIPath ROLESMAPPING role) /\
      op = OpHttp "PUT" (generateAPIPath ROLESMAPPING role)
             (MappingBody (mkMapping (urb_BackendRoles i) [] (urb_Users i))) PNone) -> W h' c op) ->
  wp (reconcileRole c i role tt) (api_guarded W) (λ _ _, True) h.
Proof.
  intros HW. unfold reconcileRole, apiStop, RoleMappingExists. wp_step. apply wp_resourceExists.
  intros h1 [[]|e] H1 Hab _; wp_step; [| |api_done].
  - apply wp_after; [apply wp_reconcileExisting; intros; apply HW; [ext|auto]|].
    intros h2 [e|] H2; api_done.
  - apply wp_after; [|intros h2 [e|] H2; api_done].
    unfold CreateOrUpdateRoleMapping, putResource, PutSecurityResource, doHTTPPut.
    wp_step; [right; apply HW; auto|api_done].
Qed.

Lemma wp_BindingReconcile (instance : OpensearchUserRoleBinding) h :
  wp (BindingReconcile instance) (api_guarded (binding_write instance)) (λ _ _, True) h.
Proof.
  apply wp_withDeferred. unfold bindingBody. wp_step.
  apply wp_preamble; [by intros; do 2 wp_step| |done].
  intros h1 i c H1 Ha (i0 & Hc0 & Hi). do 2 wp_step.
  assert (forall h2 op role, extends h1 h2 ->
    (role ∈ urb_Roles i /\ absent h2 c (generateAPIPath ROLESMAPPING role) /\
      op = OpHttp "PUT" (generateAPIPath ROLESMAPPING role)
             (MappingBody (mkMapping (urb_BackendRoles i) [] (urb_Users i))) PNone) \/
    (role ∈ urb_Roles i /\ updates_mapping h2 c role op (bound i)) \/
    (role ∈ urb_ProvisionedRoles i /\ (role ∉ urb_Roles i) /\
      updates_mapping h2 c role op (unbound i)) ->
    binding_write instance h2 c op) as HW.
  { intros h2 op role H2 Hw. split; [by eapply attached_extends|]. exists i0, role.
    split; [by eapply current_extends|]. by destruct Hi as [->|[uid ->]]. }
  eapply wp_mono; [done| |apply wp_for_roles].
  - intros h2 [[[]|d]|m] H2; wp_step; [|by wp_step|done]. apply wp_bind.
    eapply wp_mono; [done| |apply wp_for_roles].
    + intros h3 [[[]|d]|m] H3; [by do 2 wp_step..|done].
    + intros role h3 Hr H3. apply wp_reconcileRole. intros h4 op H4 Hw.
      apply (HW h4 op role); [ext|]. destruct Hw; [right; left|left]; auto.
  - intros role h2 [Hr Hn]%elem_of_DiffSlice H2. apply wp_removeRole. intros h3 op H3 Hw.
    apply (HW h3 op role); [ext|]. auto.
Qed.

Lemma wp_BindingDelete (instance : OpensearchUserRoleBinding) h :
  wp (BindingDelete instance) (api_guarded (binding_delete instance)) (λ _ _, True) h.
Proof.
  unfold BindingDelete. wp_step. apply wp_deleteClient; [|done].
  intros h1 [[c|]|e] H1 _; wp_step; [|by wp_step|by wp_step]. apply wp_after.
  - eapply wp_mono; [done| |apply wp_for_roles]; [done|]. intros role h2 Hr H2.
    unfold deleteMapping, RoleMappingExists. api_skip h3 as [[]|e]; [|by wp_step|by wp_step].
    apply wp_after; [|intros h4 [e|] H4; by wp_step].
    apply wp_removeObjects. intros h4 op H4 Hw. by exists role.
  - intros h2 [u|e] H2; by wp_step.
Qed.

End BindingProofs.

(** ** Theorems *)

Section SecurityTheorems.
Context `{RP : RetryPolicy} `{PE : ProcEnv} `{CR : Crypto} `{CL : CmpLib}.

(** C8: the operator does not touch a role that was in OpenSearch before it.  The role
    reconciler writes only to the running cluster that the resource refers to, which is the one that
    manages it if one is recorded; and, provided that the API server answers with the objects that
    were asked for, only the role of its resource, when the resource records that the role was not
    there before or OpenSearch has said so in this reconciliation.  The deletion deletes only that
    role, needs the same record and an answer of OpenSearch that the role exists, and goes to the
    cluster that the resource refers to unless that is being deleted, whatever its phase and
    whichever cluster manages the resource. *)
Theorem role_changes_guarded (instance : OpensearchRole) (w : oenv) :
  calls_ok (api_guarded (role_write instance)) (run w (RoleReconcile instance) []).2 /\
  calls_ok (api_guarded (role_delete instance)) (run w (RoleDelete instance) []).2.
Proof. split; eapply wp_run; [apply wp_ownedReconcile|apply wp_ownedDelete]. Qed.

(** C9: the user reconciler writes a user only with its own UID as mark and with the password
    of its secret, and only when OpenSearch has no such user or has it with the same mark; a
    user is deleted only with that mark. *)
Theorem user_changes_guarded (instance : OpensearchUser) (w : oenv) :
  calls_ok (api_guarded (user_write instance)) (run w (UserReconcile instance) []).2 /\
  calls_ok (api_guarded (user_delete instance)) (run w (UserDelete instance) []).2.
Proof. split; eapply wp_run; [apply wp_UserReconcile|apply wp_UserDelete]. Qed.

(** C10: a role binding changes only the mappings of roles it lists or has listed: the members
    it lists are added, the members it provided before and lists no more are removed, all
    others and the hosts stay, and a mapping left empty is deleted. *)
Theorem binding_changes_guarded (instance : OpensearchUserRoleBinding) (w : oenv) :
  calls_ok (api_guarded (binding_write instance)) (run w (BindingReconcile instance) []).2 /\
  calls_ok (api_guarded (binding_delete instance)) (run w (BindingDelete instance) []).2.
Proof. split; eapply wp_run; [apply wp_BindingReconcile|apply wp_BindingDelete]. Qed.

(** Reconciling converges: when OpenSearch holds the mapping a reconciliation has made and
    the status records the members of the binding as provided, the next one asks for the
    mapping and writes nothing. *)
Theorem binding_converges c (i : OpensearchUserRoleBinding) role pu pb m0 (w : oenv) resp ms :
  urb_ProvisionedUsers i = urb_Users i ->
  urb_ProvisionedBackendRoles i = urb_BackendRoles i ->
  let q := OsDo c (OpHttp "GET" (generateAPIPath ROLESMAPPING role) NoBody PMappings) in
  w q [] = Ok resp -> hr_IsError resp = false -> hr_Body resp = Ok ms ->
  (ms : gmap string RoleMapping) !! role =
    Some (mergedMapping i (DiffSlice pu (urb_Users i)) (DiffSlice pb (urb_BackendRoles i)) m0) ->
  run w (reconcileExistingMapping c i role
           (DiffSlice (urb_ProvisionedUsers i) (urb_Users i))
           (DiffSlice (urb_ProvisionedBackendRoles i) (urb_BackendRoles i))) [] =
    (Returned None, [Ev q (Ok resp)]).
Proof.
  intros Hu Hb q Hq He Hbody Hm. rewrite Hu, Hb.
  rewrite (DiffSlice_nil (urb_Users i)), (DiffSlice_nil (urb_BackendRoles i)) by done.
  unfold reconcileExistingMapping. rewrite run_bind.
  rewrite (run_FetchMapping c role w resp ms) by done.
  rewrite Hm. cbn [default from_option id]. cbv zeta.
  rewrite !DiffSlice_nothing, !bool_decide_true; [done|done|done| |]; apply DiffSlice_nil;
    intros s Hs; apply merged_keeps; auto.
Qed.

#[local] Ltac runs :=
  lazy beta iota zeta delta [run bind call retry_loop stopWith roleOwned ow_cr ow_start ow_setState roleOps cr_ref cr_ns obj_name
    obj_namespace d_result d_err].

(** While the cluster a role refers to does not exist, the reconciler asks to be called again
    and records that it waits, but with the state [CREATED]: its second test on the requeue
    overwrites [PENDING] (the user reconciler, whose second test asks for the longer delay,
    records [PENDING]). *)
Theorem role_waiting_recorded_created (instance r : OpensearchRole) (w : oenv) e n :
  RetrySteps = S n -> IsNotFound e = true ->
  (forall h, w (Get KCluster (rol_OpensearchRef instance) (rol_Namespace instance)) h = Err e) ->
  (forall h, w (Get KRole (rol_Name instance) (rol_Namespace instance)) h = Ok r) ->
  (forall o h, w (StatusUpdate KRole o) h = None) ->
  let '(o, h) := run w (RoleReconcile instance) [] in
  let r' := setRoleState (mkDone (requeueIn 10) None "waiting for opensearch cluster to exist") r in
  o = Returned (requeueIn 10, None) /\ saw h (StatusUpdate KRole r') None /\
  rol_State r' = "CREATED" /\
  deferredState (mkDone (requeueIn 10) None "waiting for opensearch cluster to exist")
    (rol_State r) = "PENDING".
Proof.
  intros Hn He Hc Hr Hs. unfold RoleReconcile, ownedReconcile, withDeferred, ownedBody, preamble,
    FetchOpensearchCluster, GetOpenSearchCluster, UdateObjectStatus, RetryOnConflict.
  rewrite Hn. runs. rewrite Hc. runs. rewrite He. runs. rewrite Hr. runs. rewrite Hs. runs.
  split_and!; [done|apply saw_here|done|done].
Qed.

End SecurityTheorems.

(** ** Witnesses *)

Import Fixtures.Samples.

Definition analyst : OpensearchRole :=
  mkRoleCR "analyst" "ns" "os" ["cluster_monitor"] [] [] "" "" None None.

Definition no_cluster_world : oenv := fun q _ =>
  match q return resp q with
  | Get KCluster _ _ => Err (NotFound "not found")
  | Get KRole _ _ => Ok analyst
  | StatusUpdate _ _ => None
  | q' => down q'
  end.

Lemma role_waiting_recorded_created_witness :
  let '(o, h) := run no_cluster_world (RoleReconcile analyst) [] in
  o = Returned (requeueIn 10, None) /\
  exists r', saw h (StatusUpdate KRole r') None /\ rol_State r' = "CREATED".
Proof.
  pose proof (role_waiting_recorded_created analyst analyst no_cluster_world
                (NotFound "not found") 4 eq_refl eq_refl (fun _ => eq_refl) (fun _ => eq_refl)
                (fun _ _ => eq_refl)) as H.
  destruct (run no_cluster_world (RoleReconcile analyst) []) as [o h].
  destruct H as (H1 & H2 & H3 & _). split; [exact H1|]. eexists. split; [exact H2|exact H3].
Defined.

Definition readers : OpensearchUserRoleBinding :=
  mkBinding "readers" "ns" "os" ["analyst"] ["ann"; "bob"] ["staff"] "CREATED" "" (Some "uid")
    ["analyst"] ["ann"; "bob"] ["staff"].

(** A mapping that also has a member from elsewhere and had a member the binding dropped. *)
Definition stored_mapping : RoleMapping :=
  mergedMapping readers (DiffSlice ["ann"; "eve"] ["ann"; "bob"]) (DiffSlice [] ["staff"])
    (mkMapping [] ["*.example.org"] ["root"; "eve"; "ann"]).

Definition os_client : OsClusterClient := mkOsClient "https://os" "admin" "pw" None.

Definition mapping_world : oenv := fun q _ =>
  match q return resp q with
  | OsDo _ (OpHttp "GET" _ _ PMappings) =>
      ok_resp ({["analyst" := stored_mapping]} : gmap string RoleMapping)
  | q' => down q'
  end.

Lemma binding_converges_witness :
  stored_mapping = mkMapping ["staff"] ["*.example.org"] ["root"; "ann"; "bob"] /\
  length (run mapping_world
            (reconcileExistingMapping os_client readers "analyst"
               (DiffSlice (urb_ProvisionedUsers readers) (urb_Users readers))
               (DiffSlice (urb_ProvisionedBackendRoles readers) (urb_BackendRoles readers)))
            []).2 = 1%nat.
Proof.
  split; [vm_compute; reflexivity|].
  pose proof (binding_converges os_client readers "analyst" ["ann"; "eve"] []
    (mkMapping [] ["*.example.org"] ["root"; "eve"; "ann"]) mapping_world _ _
    eq_refl eq_refl eq_refl eq_refl eq_refl eq_refl) as ->. reflexivity.
Defined.
