(* ===== verification/Tenants.v ===== *)
(** * Tenants: tenants and action groups

    Models the tenant and action group part of [services/os_security_service.go] and the
    reconcilers [pkg/reconcilers/tenant.go] and [actiongroup.go], as instances of [Owned]. *)

From S2P Require Import Prelude Prog Resources Api K8sClient Helpers OsClient OsData ReconcilerUtil Fixtures ManagedCR Owned Security.

Definition ACTIONGROUPS : string := "actiongroups".
Definition TENANTS : string := "tenants".

(** ** The gateway *)

Definition TenantExists (service : OsClusterClient) (tenantName : string) : io (result bool) :=
  resourceExists service TENANTS tenantName.
Definition CreateOrUpdateTenant (service : OsClusterClient) (tenantName : string)
    (tenant : TenantReq) : io (option err) :=
  putResource service TENANTS tenantName "tenant" (TenantBody tenant).
Definition DeleteTenant (service : OsClusterClient) (tenantName : string) : io (option err) :=
  deleteResource service TENANTS tenantName.

Definition ActionGroupExists (service : OsClusterClient) (actionGroupName : string)
    : io (result bool) := resourceExists service ACTIONGROUPS actionGroupName.
Definition CreateOrUpdateActionGroup (service : OsClusterClient) (actionGroupName : string)
    (actionGroup : ActionGroupReq) : io (option err) :=
  putResource service ACTIONGROUPS actionGroupName "actiongroup" (ActionGroupBody actionGroup).
Definition DeleteActionGroup (service : OsClusterClient) (actionGroupName : string)
    : io (option err) := deleteResource service ACTIONGROUPS actionGroupName.

Section Services.
Context `{CL : CmpLib}.

Definition ShouldUpdateTenant (service : OsClusterClient) (tenantName : string)
    (tenant : TenantReq) : io (result bool) :=
  let! r := GetSecurityResource service TENANTS tenantName PTenants in
  Ret (entryDiffers (mkTenantReq "") tenant tenantName r).

Definition ShouldUpdateActionGroup (service : OsClusterClient) (actionGroupName : string)
    (actionGroup : ActionGroupReq) : io (result bool) :=
  let! r := GetSecurityResource service ACTIONGROUPS actionGroupName PActionGroups in
  Ret (entryDiffers (mkActionGroupReq [] "" "") actionGroup actionGroupName r).

End Services.

(** ** Tenants *)

Definition ten_update (state reason : string) (existing : option bool) (managed : option string)
    (t : OpensearchTenant) : OpensearchTenant :=
  mkTenantCR (ten_Name t) (ten_Namespace t) (ten_OpensearchRef t) (ten_Description t)
    state reason existing managed.

Definition tenantOps : CRops KTenant :=
  mkCRops KTenant ten_OpensearchRef ten_Namespace ten_ManagedCluster
    (fun uid t => ten_update (ten_State t) (ten_Reason t) (ten_ExistingTenant t) (Some uid) t)
    "an tenant".

Definition opensearchTenantExists : string :=
  "tenant already exists in Opensearch; not modifying".

Definition setTenantState (d : done_with) (t : OpensearchTenant) : OpensearchTenant :=
  ten_update (ownedState opensearchTenantExists d (ten_State t)) (d_reason d)
    (ten_ExistingTenant t) (ten_ManagedCluster t) t.

Definition tenantRequest (t : OpensearchTenant) : TenantReq := mkTenantReq (ten_Description t).

(** ** Action groups *)

Definition agr_update (state reason : string) (existing : option bool) (managed : option string)
    (a : OpensearchActionGroup) : OpensearchActionGroup :=
  mkActionGroupCR (agr_Name a) (agr_Namespace a) (agr_OpensearchRef a) (agr_AllowedActions a)
    (agr_Type a) (agr_Description a) state reason existing managed.

Definition actionGroupOps : CRops KActionGroup :=
  mkCRops KActionGroup agr_OpensearchRef agr_Namespace agr_ManagedCluster
    (fun uid a => agr_update (agr_State a) (agr_Reason a) (agr_ExistingActionGroup a) (Some uid) a)
    "an actiongroup".

Definition opensearchActionGroupExists : string :=
  "actiongroup already exists in Opensearch; not modifying".

Definition setActionGroupState (d : done_with) (a : OpensearchActionGroup)
    : OpensearchActionGroup :=
  agr_update (ownedState opensearchActionGroupExists d (agr_State a)) (d_reason d)
    (agr_ExistingActionGroup a) (agr_ManagedCluster a) a.

(** An empty type or description is the zero value of the field. *)
Definition actionGroupRequest (a : OpensearchActionGroup) : ActionGroupReq :=
  mkActionGroupReq (agr_AllowedActions a) (agr_Type a) (agr_Description a).

Section Reconcilers.
Context `{RP : RetryPolicy} `{PE : ProcEnv} `{CR : Crypto} `{CL : CmpLib}.

Definition tenantOwned : OwnedOps KTenant :=
  mkOwned KTenant tenantOps (fun _ => Ret tt) ten_Name ten_ExistingTenant
    (fun b t => ten_update (ten_State t) (ten_Reason t) (Some b) (ten_ManagedCluster t) t)
    (fun c _ t => TenantExists c (ten_Name t))
    (fun _ _ => None)
    (fun c _ t => ShouldUpdateTenant c (ten_Name t) (tenantRequest t))
    (fun c _ t => CreateOrUpdateTenant c (ten_Name t) (tenantRequest t))
    (fun c _ t => DeleteTenant c (ten_Name t))
    opensearchTenantExists
    "failed to get tenant status from Opensearch API"
    "failed to get tenant status from Opensearch API"
    "failed to update tenant with Opensearch API"
    "tenant updated in opensearch"
    (fun _ => setTenantState).

Definition TenantReconcile (instance : OpensearchTenant) : io (Result * option err) :=
  ownedReconcile tenantOwned instance.
Definition TenantDelete (instance : OpensearchTenant) : io (option err) :=
  ownedDelete tenantOwned instance.

Definition actionGroupOwned : OwnedOps KActionGroup :=
  mkOwned KActionGroup actionGroupOps (fun _ => Ret tt) agr_Name agr_ExistingActionGroup
    (fun b a => agr_update (agr_State a) (agr_Reason a) (Some b) (agr_ManagedCluster a) a)
    (fun c _ a => ActionGroupExists c (agr_Name a))
    (fun _ _ => None)
    (fun c _ a => ShouldUpdateActionGroup c (agr_Name a) (actionGroupRequest a))
    (fun c _ a => CreateOrUpdateActionGroup c (agr_Name a) (actionGroupRequest a))
    (fun c _ a => DeleteActionGroup c (agr_Name a))
    opensearchActionGroupExists
    "failed to get actiongroup status from Opensearch API"
    "failed to get actiongroup status from Opensearch API"
    "failed to update actiongroup with Opensearch API"
    "actiongroup updated in opensearch"
    (fun _ => setActionGroupState).

Definition ActionGroupReconcile (instance : OpensearchActionGroup) : io (Result * option err) :=
  ownedReconcile actionGroupOwned instance.
Definition ActionGroupDelete (instance : OpensearchActionGroup) : io (option err) :=
  ownedDelete actionGroupOwned instance.

(** ** The interface holds *)

Definition tenantPath (_ name : string) : string := generateAPIPath TENANTS name.
Definition tenantDoc (t : OpensearchTenant) : body := TenantBody (tenantRequest t).
Definition actionGroupPath (_ name : string) : string := generateAPIPath ACTIONGROUPS name.
Definition actionGroupDoc (a : OpensearchActionGroup) : body :=
  ActionGroupBody (actionGroupRequest a).

#[export] Instance tenantOwned_laws : OwnedLaws tenantOwned tenantPath tenantDoc.
Proof.
  split; try done.
  - intros c n i h. apply wp_resourceExists_reads.
  - intros c n i. unfold tenantOwned, ow_shouldUpdate, ShouldUpdateTenant, GetSecurityResource. only_auto.
  - intros c n i h. apply wp_deleteAnswer.
Qed.

#[export] Instance actionGroupOwned_laws :
  OwnedLaws actionGroupOwned actionGroupPath actionGroupDoc.
Proof.
  split; try done.
  - intros c n i h. apply wp_resourceExists_reads.
  - intros c n i. unfold actionGroupOwned, ow_shouldUpdate, ShouldUpdateActionGroup, GetSecurityResource.
    only_auto.
  - intros c n i h. apply wp_deleteAnswer.
Qed.

(** ** Theorems *)

(** Tenants and action groups that were in OpenSearch before are not touched: the
    reconcilers write only the document of their resource, on the running cluster that it refers
    to, and only when the resource records that OpenSearch did not have it before or OpenSearch
    has said so; a deletion needs that record and an existing tenant or group. *)
Theorem tenant_changes_guarded (t : OpensearchTenant) (a : OpensearchActionGroup) (w : oenv) :
  calls_ok (api_guarded (owned_write tenantOwned tenantPath tenantDoc t))
    (run w (TenantReconcile t) []).2 /\
  calls_ok (api_guarded (owned_delete tenantOwned tenantPath t)) (run w (TenantDelete t) []).2 /\
  calls_ok (api_guarded (owned_write actionGroupOwned actionGroupPath actionGroupDoc a))
    (run w (ActionGroupReconcile a) []).2 /\
  calls_ok (api_guarded (owned_delete actionGroupOwned actionGroupPath a))
    (run w (ActionGroupDelete a) []).2.
Proof.
  split_and!; eapply wp_run;
    [apply wp_ownedReconcile|apply wp_ownedDelete|apply wp_ownedReconcile|apply wp_ownedDelete].
Qed.

End Reconcilers.
