(* ===== verification/Templates.v ===== *)
(** * Templates: index templates and component templates

    Models the template part of [services/os_data_service.go], the translation of
    [pkg/helpers/translate.go], and the reconcilers [pkg/reconcilers/indextemplate.go] and
    [componenttemplate.go], as instances of [Owned]. *)

From S2P Require Import Prelude Prog Resources Api Json K8sClient Helpers OsClient OsData ReconcilerUtil Fixtures ManagedCR Owned.

(** ** Translation *)

(** [Size() > 0] of a raw JSON value: there is one, and it is not [null]. *)
Definition sized (v : option json) : option json :=
  match v with
  | Some JNull | None => None
  | Some v => Some v
  end.

(** The loop copies each alias field by field; an empty map stays nil. *)
Definition TranslateIndexToRequest (spec : IndexSpec) : IndexSpec :=
  mkIndexSpec (sized (is_Settings spec)) (sized (is_Mappings spec)) (is_Aliases spec).

Definition TranslateDatastreamToRequest (spec : option DatastreamSpec) : option DatastreamReq :=
  match spec with
  | None => None
  | Some spec =>
      Some (mkDatastreamReq (if dss_TimestampFieldName spec != "" then
                               Some (dss_TimestampFieldName spec) else None))
  end.

Definition TranslateIndexTemplateToRequest (t : OpensearchIndexTemplate) : IndexTemplateReq :=
  mkIndexTemplateReq (itp_IndexPatterns t) (TranslateDatastreamToRequest (itp_DataStream t))
    (TranslateIndexToRequest (itp_Template t)) (itp_ComposedOf t) (itp_Priority t)
    (itp_Version t) (sized (itp_Meta t)).

Definition TranslateComponentTemplateToRequest (t : OpensearchComponentTemplate)
    : ComponentTemplateReq :=
  mkComponentTemplateReq (TranslateIndexToRequest (ctp_Template t)) (ctp_Version t)
    (sized (ctp_Meta t)).

(** ** The gateway *)

Definition IndexTemplatePath (templateName : string) : string := "/_index_template/" +:+ templateName.
Definition ComponentTemplatePath (templateName : string) : string :=
  "/_component_template/" +:+ templateName.

Definition IndexTemplateExists (service : OsClusterClient) (templateName : string)
    : io (result bool) :=
  let! r := doHTTPHead service (IndexTemplatePath templateName) in Ret (existsAnswer r).
Definition ComponentTemplateExists (service : OsClusterClient) (templateName : string)
    : io (result bool) :=
  let! r := doHTTPHead service (ComponentTemplatePath templateName) in Ret (existsAnswer r).

(** Sort the members of an optional document of an answer. *)
Definition sortOptional (v : option json) : result (option json) :=
  match v with
  | None => Ok None
  | Some v => match SortedJsonKeys v with Ok v' => Ok (Some v') | Err e => Err e end
  end.

Definition sortSpec (s : IndexSpec) : result IndexSpec :=
  match sortOptional (is_Settings s) with
  | Err e => Err e
  | Ok settings =>
      match sortOptional (is_Mappings s) with
      | Err e => Err e
      | Ok mappings => Ok (mkIndexSpec settings mappings (is_Aliases s))
      end
  end.

(** The single template of an answer, which must have the name that was asked for. *)
Definition theTemplate {T} (what name : string) (r : result (HttpResp (list (string * T))))
    : result (option T) :=
  match r with
  | Err e => Err e
  | Ok resp =>
      if hr_StatusCode resp == 404 then Ok None
      else if hr_IsError resp then Err (apiError (hr_Status resp))
      else
        match hr_Body resp with
        | Err e => Err e
        | Ok [(n, t)] =>
            if n != name then
              Err (OtherErr ("returned " +:+ what +:+ " named '" +:+ n +:+
                             "' does not equal the requested name '" +:+ name +:+ "'"))
            else Ok (Some t)
        | Ok l =>
            Err (OtherErr ("found " +:+ Itoa (Z.of_nat (length l)) +:+ " " +:+ what +:+
                           "s which fits the name '" +:+ name +:+ "'"))
        end
  end.

Section Services.
Context `{CL : CmpLib}.

Definition ShouldUpdateIndexTemplate (service : OsClusterClient) (indexTemplateName : string)
    (indexTemplate : IndexTemplateReq) : io (result bool) :=
  let! r := doHTTPGet service (IndexTemplatePath indexTemplateName) PIndexTemplates in
  Ret match theTemplate "index template" indexTemplateName r with
      | Err e => Err e
      | Ok None => Ok true
      | Ok (Some t) =>
          match sortSpec (itr_Template t) with
          | Err e => Err e
          | Ok template =>
              if CmpEqual indexTemplate
                   (mkIndexTemplateReq (itr_IndexPatterns t) (itr_DataStream t) template
                      (itr_ComposedOf t) (itr_Priority t) (itr_Version t) (itr_Meta t))
              then Ok false else Ok true
          end
      end.

Definition ShouldUpdateComponentTemplate (service : OsClusterClient)
    (componentTemplateName : string) (componentTemplate : ComponentTemplateReq)
    : io (result bool) :=
  let! r := doHTTPGet service (ComponentTemplatePath componentTemplateName) PComponentTemplates in
  Ret match theTemplate "component template" componentTemplateName r with
      | Err e => Err e
      | Ok None => Ok true
      | Ok (Some t) =>
          match sortSpec (ctr_Template t) with
          | Err e => Err e
          | Ok template =>
              if CmpEqual componentTemplate
                   (mkComponentTemplateReq template (ctr_Version t) (ctr_Meta t))
              then Ok false else Ok true
          end
      end.

End Services.

Definition CreateOrUpdateIndexTemplate (service : OsClusterClient) (indexTemplateName : string)
    (indexTemplate : IndexTemplateReq) : io (option err) :=
  let! r := doHTTPPut service (IndexTemplatePath indexTemplateName)
              (IndexTemplateBody indexTemplate) in
  Ret (writeAnswer "failed to create index template: " r).
Definition DeleteIndexTemplate (service : OsClusterClient) (indexTemplateName : string)
    : io (option err) :=
  let! r := doHTTPDelete service (IndexTemplatePath indexTemplateName) in Ret (deleteAnswer r).
Definition CreateOrUpdateComponentTemplate (service : OsClusterClient)
    (componentTemplateName : string) (componentTemplate : ComponentTemplateReq)
    : io (option err) :=
  let! r := doHTTPPut service (ComponentTemplatePath componentTemplateName)
              (ComponentTemplateBody componentTemplate) in
  Ret (writeAnswer "failed to create component template: " r).
Definition DeleteComponentTemplate (service : OsClusterClient) (componentTemplateName : string)
    : io (option err) :=
  let! r := doHTTPDelete service (ComponentTemplatePath componentTemplateName) in
  Ret (deleteAnswer r).

(** ** Index templates *)

Definition itp_update (state reason : string) (existing : option bool) (managed : option string)
    (recorded : string) (t : OpensearchIndexTemplate) : OpensearchIndexTemplate :=
  mkIndexTemplateCR (itp_Name t) (itp_Namespace t) (itp_DeletionTimestamp t)
    (itp_OpensearchRef t) (itp_SpecName t) (itp_IndexPatterns t) (itp_DataStream t)
    (itp_Template t) (itp_ComposedOf t) (itp_Priority t) (itp_Version t) (itp_Meta t)
    state reason existing managed recorded.

Definition indexTemplateOps : CRops KIndexTemplate :=
  mkCRops KIndexTemplate itp_OpensearchRef itp_Namespace itp_ManagedCluster
    (fun uid t => itp_update (itp_State t) (itp_Reason t) (itp_ExistingIndexTemplate t)
                    (Some uid) (itp_IndexTemplateName t) t)
    "an index template".

Definition opensearchIndexTemplateExists : string :=
  "index template already exists in OpenSearch; not modifying".
Definition opensearchIndexTemplateNameMismatch : string := "OpensearchIndexTemplateNameMismatch".

Definition indexTemplateName (t : OpensearchIndexTemplate) : string :=
  if itp_SpecName t != "" then itp_SpecName t else itp_Name t.

(** The name is recorded together with the state [CREATED]. *)
Definition setIndexTemplateState (templateName : string) (d : done_with)
    (t : OpensearchIndexTemplate) : OpensearchIndexTemplate :=
  let created := match d_err d with None => RequeueAfter (d_result d) == 30 | Some _ => false end in
  itp_update (ownedState opensearchIndexTemplateExists d (itp_State t)) (d_reason d)
    (itp_ExistingIndexTemplate t) (itp_ManagedCluster t)
    (if created then templateName else itp_IndexTemplateName t) t.

(** ** Component templates *)

Definition ctp_update (state reason : string) (existing : option bool) (managed : option string)
    (t : OpensearchComponentTemplate) : OpensearchComponentTemplate :=
  mkComponentTemplateCR (ctp_Name t) (ctp_Namespace t) (ctp_OpensearchRef t) (ctp_SpecName t)
    (ctp_Template t) (ctp_Version t) (ctp_AllowAutoCreate t) (ctp_Meta t)
    state reason existing managed (ctp_ComponentTemplateName t).

Definition componentTemplateOps : CRops KComponentTemplate :=
  mkCRops KComponentTemplate ctp_OpensearchRef ctp_Namespace ctp_ManagedCluster
    (fun uid t => ctp_update (ctp_State t) (ctp_Reason t) (ctp_ExistingComponentTemplate t)
                    (Some uid) t)
    "a component template".

Definition opensearchComponentTemplateExists : string :=
  "component template already exists in OpenSearch; not modifying".
Definition opensearchComponentTemplateNameMismatch : string :=
  "OpensearchComponentTemplateNameMismatch".

Definition componentTemplateName (t : OpensearchComponentTemplate) : string :=
  if ctp_SpecName t != "" then ctp_SpecName t else ctp_Name t.

Definition setComponentTemplateState (d : done_with) (t : OpensearchComponentTemplate)
    : OpensearchComponentTemplate :=
  ctp_update (ownedState opensearchComponentTemplateExists d (ctp_State t)) (d_reason d)
    (ctp_ExistingComponentTemplate t) (ctp_ManagedCluster t) t.

(** The template name is immutable: a recorded name must be the one in use. *)
Definition nameMismatch (recorded templateName reason_ reason : string)
    : option (string * string) :=
  if (recorded != "") && (templateName != recorded) then Some (reason_, reason) else None.

(** A component template that asks for automatic creation gets a warning first. *)
Definition warnAutoCreate (t : OpensearchComponentTemplate) : io unit :=
  if ctp_AllowAutoCreate t then
    ask (RecordEvent "Warning" "OpensearchAPIUpdated"
           "OpenSearch Component Index template does not support allow_auto_create")
  else Ret tt.

Section Reconcilers.
Context `{RP : RetryPolicy} `{PE : ProcEnv} `{CR : Crypto} `{CL : CmpLib}.

Definition indexTemplateOwned : OwnedOps KIndexTemplate :=
  mkOwned KIndexTemplate indexTemplateOps (fun _ => Ret tt) indexTemplateName
    itp_ExistingIndexTemplate
    (fun b t => itp_update (itp_State t) (itp_Reason t) (Some b) (itp_ManagedCluster t)
                  (itp_IndexTemplateName t) t)
    (fun c n _ => IndexTemplateExists c n)
    (fun n t => nameMismatch (itp_IndexTemplateName t) n opensearchIndexTemplateNameMismatch
                  "cannot change the index template name")
    (fun c n t => ShouldUpdateIndexTemplate c n (TranslateIndexTemplateToRequest t))
    (fun c n t => CreateOrUpdateIndexTemplate c n (TranslateIndexTemplateToRequest t))
    (fun c n _ => DeleteIndexTemplate c n)
    opensearchIndexTemplateExists
    "failed to get index template status from OpenSearch API"
    "failed to get index template status from OpenSearch API"
    "failed to update index template with OpenSearch API"
    "index template updated in opensearch"
    setIndexTemplateState.

Definition IndexTemplateReconcile (instance : OpensearchIndexTemplate)
    : io (Result * option err) := ownedReconcile indexTemplateOwned instance.
Definition IndexTemplateDelete (instance : OpensearchIndexTemplate) : io (option err) :=
  ownedDelete indexTemplateOwned instance.

Definition componentTemplateOwned : OwnedOps KComponentTemplate :=
  mkOwned KComponentTemplate componentTemplateOps warnAutoCreate componentTemplateName
    ctp_ExistingComponentTemplate
    (fun b t => ctp_update (ctp_State t) (ctp_Reason t) (Some b) (ctp_ManagedCluster t) t)
    (fun c n _ => ComponentTemplateExists c n)
    (fun n t => nameMismatch (ctp_ComponentTemplateName t) n
                  opensearchComponentTemplateNameMismatch
                  "cannot change the component template name")
    (fun c n t => ShouldUpdateComponentTemplate c n (TranslateComponentTemplateToRequest t))
    (fun c n t => CreateOrUpdateComponentTemplate c n (TranslateComponentTemplateToRequest t))
    (fun c n _ => DeleteComponentTemplate c n)
    opensearchComponentTemplateExists
    "failed to get component template status from OpenSearch API"
    "failed to get component template status from OpenSearch API"
    "failed to update component template with OpenSearch API"
    "component template updated in opensearch"
    (fun _ => setComponentTemplateState).

Definition ComponentTemplateReconcile (instance : OpensearchComponentTemplate)
    : io (Result * option err) := ownedReconcile componentTemplateOwned instance.
Definition ComponentTemplateDelete (instance : OpensearchComponentTemplate) : io (option err) :=
  ownedDelete componentTemplateOwned instance.

(** ** The interface holds *)

Definition indexTemplateAt (templateName _ : string) : string := IndexTemplatePath templateName.
Definition indexTemplateDoc (t : OpensearchIndexTemplate) : body :=
  IndexTemplateBody (TranslateIndexTemplateToRequest t).
Definition componentTemplateAt (templateName _ : string) : string :=
  ComponentTemplatePath templateName.
Definition componentTemplateDoc (t : OpensearchComponentTemplate) : body :=
  ComponentTemplateBody (TranslateComponentTemplateToRequest t).

#[export] Instance indexTemplate_laws :
  OwnedLaws indexTemplateOwned indexTemplateAt indexTemplateDoc.
Proof.
  split; try done.
  - intros c n i h. apply (wp_exists_request "HEAD"). by right.
  - intros c n i. unfold indexTemplateOwned, ow_shouldUpdate, ShouldUpdateIndexTemplate. only_auto.
  - intros c n i h. apply wp_deleteAnswer.
Qed.

#[export] Instance componentTemplate_laws :
  OwnedLaws componentTemplateOwned componentTemplateAt componentTemplateDoc.
Proof.
  split; try done.
  - intros i. unfold componentTemplateOwned, ow_start, warnAutoCreate. only_auto.
  - intros c n i h. apply (wp_exists_request "HEAD"). by right.
  - intros c n i. unfold componentTemplateOwned, ow_shouldUpdate, ShouldUpdateComponentTemplate.
    only_auto.
  - intros c n i h. apply wp_deleteAnswer.
Qed.

(** ** Comparing templates *)

(** The documents of two index specifications are equal as Go values. *)
Definition sameSpec (a b : IndexSpec) : Prop :=
  option_Forall2 same (is_Settings a) (is_Settings b) /\
  option_Forall2 same (is_Mappings a) (is_Mappings b) /\ is_Aliases a = is_Aliases b.

Definition sameTemplate (a b : IndexTemplateReq) : Prop :=
  itr_IndexPatterns a = itr_IndexPatterns b /\ itr_DataStream a = itr_DataStream b /\
  sameSpec (itr_Template a) (itr_Template b) /\ itr_ComposedOf a = itr_ComposedOf b /\
  itr_Priority a = itr_Priority b /\ itr_Version a = itr_Version b /\ itr_Meta a = itr_Meta b.

(** Settings and mappings as the API server keeps them, names in order, and as JSON objects. *)
Definition sorted_spec (s : IndexSpec) : Prop :=
  canon <$> is_Settings s = is_Settings s /\ canon <$> is_Mappings s = is_Mappings s.
Definition is_object (v : option json) : Prop :=
  match v with Some (JObj _) | None => True | _ => False end.
Definition objects (s : IndexSpec) : Prop := is_object (is_Settings s) /\ is_object (is_Mappings s).

Lemma sortOptional_object v : is_object v -> sortOptional v = Ok (canon <$> v).
Proof. by destruct v as [[]|]. Qed.

Lemma sorted_same (a b : option json) :
  canon <$> a = a -> (a = canon <$> b <-> option_Forall2 same a b).
Proof.
  intros Ha. split.
  - intros ->. destruct b; constructor. apply canon_self.
  - destruct 1 as [v w H|]; [|done]. simpl in *. f_equal. injection Ha as <-.
    by apply canon_same in H.
Qed.

Lemma sortSpec_same a b b' :
  sorted_spec a -> objects b -> sortSpec b = Ok b' -> (a = b' <-> sameSpec a b).
Proof.
  intros [H1 H2] [H3 H4]. unfold sortSpec. rewrite !sortOptional_object by done. intros [= <-].
  unfold sameSpec. rewrite <- !sorted_same by done. destruct a; simpl. naive_solver.
Qed.

Lemma sortSpec_objects b : objects b -> exists b', sortSpec b = Ok b'.
Proof. intros [H3 H4]. unfold sortSpec. rewrite !sortOptional_object by done. by eexists. Qed.

(** ** Theorems *)

(** Templates that were in OpenSearch before are not touched: the reconcilers write only the
    translation of their resource, under its template name and only while a recorded name is that
    name, on the running cluster that the resource refers to, and only when the resource records
    that OpenSearch did not have the template before or OpenSearch has just said so; a deletion
    needs that record and an existing template. *)
Theorem template_changes_guarded (i : OpensearchIndexTemplate) (t : OpensearchComponentTemplate)
    (w : oenv) :
  calls_ok (api_guarded (owned_write indexTemplateOwned indexTemplateAt indexTemplateDoc i))
    (run w (IndexTemplateReconcile i) []).2 /\
  calls_ok (api_guarded (owned_delete indexTemplateOwned indexTemplateAt i))
    (run w (IndexTemplateDelete i) []).2 /\
  calls_ok (api_guarded (owned_write componentTemplateOwned componentTemplateAt componentTemplateDoc t))
    (run w (ComponentTemplateReconcile t) []).2 /\
  calls_ok (api_guarded (owned_delete componentTemplateOwned componentTemplateAt t))
    (run w (ComponentTemplateDelete t) []).2.
Proof.
  split_and!; eapply wp_run;
    [apply wp_ownedReconcile|apply wp_ownedDelete|apply wp_ownedReconcile|apply wp_ownedDelete].
Qed.

(** An index template is left alone exactly when OpenSearch has it: if the answer holds one
    template of the requested name whose settings and mappings are objects, no update is
    needed if and only if the template equals the requested one, the order of the members of
    settings and mappings aside. *)
Theorem index_template_in_sync `{!CmpLaws} c name req t (w : oenv) resp :
  let q := OsDo c (OpHttp "GET" (IndexTemplatePath name) NoBody PIndexTemplates) in
  w q [] = Ok resp -> hr_StatusCode resp <> 404 -> hr_IsError resp = false ->
  hr_Body resp = Ok [(name, t)] ->
  sorted_spec (itr_Template req) -> objects (itr_Template t) ->
  exists update, run w (ShouldUpdateIndexTemplate c name req) [] =
    (Returned (Ok update), [Ev q (Ok resp)]) /\
    (update = false <-> sameTemplate req t).
Proof.
  intros q Hq H404 He Hb Hs Ho. destruct (sortSpec_objects _ Ho) as [t' Ht'].
  unfold ShouldUpdateIndexTemplate, doHTTPGet. rewrite run_bind.
  change (run w (ask _) []) with (Returned (w q []), [Ev q (w q [])]).
  rewrite Hq. unfold theTemplate. cbn [run os_ty payload_ty] in *.
  rewrite bool_decide_false, He, Hb, bool_decide_true by done. cbn [negb]. rewrite Ht'.
  exists (negb (CmpEqual req (mkIndexTemplateReq (itr_IndexPatterns t) (itr_DataStream t) t'
            (itr_ComposedOf t) (itr_Priority t) (itr_Version t) (itr_Meta t)))).
  split; [by destruct (CmpEqual _ _)|].
  pose proof (sortSpec_same _ _ _ Hs Ho Ht') as Hsame. unfold sameTemplate.
  rewrite <- Hsame. destruct (CmpEqual _ _) eqn:E.
  - by rewrite (proj1 (CmpEqual_spec _ _) E).
  - split; [done|]. intros (H1 & H2 & H3 & H4 & H5 & H6 & H7). exfalso.
    apply not_true_iff_false in E. apply E, CmpEqual_spec. destruct req; simpl in *. by subst.
Qed.

(** The names that templates record: the index template reconciler records the name it has
    computed, and only in a status without error; the component template reconciler records
    none, so its check that a template is not renamed compares with a name nothing sets. *)
Theorem recorded_template_names (i : OpensearchIndexTemplate) (t : OpensearchComponentTemplate)
    (w : oenv) :
  (forall n d (i : OpensearchIndexTemplate),
     itp_IndexTemplateName (setIndexTemplateState n d i) =
       if bool_decide (d_err d = None /\ RequeueAfter (d_result d) = 30) then n
       else itp_IndexTemplateName i) /\
  calls_ok (status_from (k := KComponentTemplate)
      (λ f, forall t, ctp_ComponentTemplateName (f t) = ctp_ComponentTemplateName t /\
                      ctp_SpecName (f t) = ctp_SpecName t))
    (run w (ComponentTemplateReconcile t) []).2.
Proof.
  split.
  - intros n d j. cbn. destruct (d_err d); [by rewrite bool_decide_false by naive_solver|].
    repeat case_bool_decide; naive_solver.
  - eapply calls_ok_mono; [|apply always_run, always_ownedReconcile].
    intros h q Hq o Ho. destruct (Hq o Ho) as (n & ns & x & f & H1 & H2 & H3).
    exists n, ns, x, f. split_and!; [done| |done]. by destruct H2.
Qed.

End Reconcilers.

Module TemplateSamples.
Import Samples.

(** OpenSearch answers with the members of the settings in another order. *)
Definition settings (m : list (string * json)) : IndexTemplateReq :=
  mkIndexTemplateReq ["logs-*"] None (mkIndexSpec (Some (JObj m)) None ∅) [] 1 0 None.
Definition wanted : IndexTemplateReq := settings [("replicas", JNum 1); ("shards", JNum 3)].
Definition kept : IndexTemplateReq := settings [("shards", JNum 3); ("replicas", JNum 1)].
Definition a_client : OsClusterClient := mkOsClient "https://os:9200" "admin" "pw" None.
Definition template_world : oenv := fun q _ =>
  match q return resp q with
  | OsDo _ (OpHttp _ _ _ PIndexTemplates) => ok_resp [("logs", kept)]
  | q' => down q'
  end.

Lemma index_template_in_sync_witness :
  exists update, run template_world (ShouldUpdateIndexTemplate a_client "logs" wanted) [] =
    (Returned (Ok update),
     [Ev (OsDo a_client (OpHttp "GET" (IndexTemplatePath "logs") NoBody PIndexTemplates))
         (ok_resp [("logs", kept)])]) /\
    (update = false <-> sameTemplate wanted kept).
Proof.
  apply (@index_template_in_sync cmp cmp_laws a_client "logs" wanted kept template_world
           (mkResp 200 false "200 OK" "" (Ok [("logs", kept)]))); [done|done|done|done| |done].
  by split.
Defined.

End TemplateSamples.
