(* ===== verification/PolicyCR.v ===== *)
(** * PolicyCR: what the reconcilers of ISM and snapshot policies have in common

    [pkg/reconcilers/ismpolicy.go] and [snapshotpolicy.go] follow one scheme: build the policy
    document, look the policy up, create it if OpenSearch does not have it and mark it as the
    operator's own, leave it alone if it is not marked, and otherwise update it under the
    sequence number and primary term it was read with.  [PolicyOps] holds what differs; the
    guard theorem is proved once. *)

From S2P Require Import Prelude Prog Resources Api K8sClient Helpers OsClient OsData ReconcilerUtil ManagedCR.

(** The outcome of building a policy document: the document, an error, an error that is also
    recorded as an event, or the dereference of a nil pointer. *)
Inductive build (D : Type) :=
| Built (d : D)
| Refused (msg : string)
| RefusedWithEvent (msg : string)
| NilPointer.
Arguments Built {D} d.
Arguments Refused {D} msg.
Arguments RefusedWithEvent {D} msg.
Arguments NilPointer {D}.

(** The first failure ends the construction. *)
Definition build_bind {A B} (b : build A) (f : A -> build B) : build B :=
  match b with
  | Built a => f a
  | Refused m => Refused m
  | RefusedWithEvent m => RefusedWithEvent m
  | NilPointer => NilPointer
  end.
Notation "'let?' x := b 'in' k" := (build_bind b (fun x => k))
  (at level 10, x pattern, b at level 200, k at level 200,
   format "'[v' 'let?'  x  :=  b  'in' '/' k ']'") : go_scope.

(** A loop that builds one value after the other. *)
Fixpoint buildAll {A B} (f : A -> build B) (l : list A) : build (list B) :=
  match l with
  | [] => Built []
  | x :: l' => let? y := f x in let? ys := buildAll f l' in Built (y :: ys)
  end.

Lemma build_bind_Built {A B} (b : build A) (f : A -> build B) z :
  build_bind b f = Built z <-> exists a, b = Built a /\ f a = Built z.
Proof. destruct b; simpl; naive_solver. Qed.

Lemma buildAll_Built {A B} (f : A -> build B) l ys :
  buildAll f l = Built ys <-> Forall2 (λ x y, f x = Built y) l ys.
Proof.
  revert ys. induction l as [|x l IH]; intros ys; simpl.
  - split; [intros [= <-]; constructor|by intros ->%Forall2_nil_inv_l].
  - rewrite build_bind_Built. split.
    + intros (y & Hy & (ys' & Hys & [= <-])%build_bind_Built). constructor; [done|by apply IH].
    + intros (y & ys' & Hy & Hys & ->)%Forall2_cons_inv_l. exists y. split; [done|].
      apply build_bind_Built. exists ys'. split; [by apply IH|done].
Qed.

Definition runBuild {D} (b : build D) : io (result D) :=
  match b with
  | Built d => Ret (Ok d)
  | Refused m => Ret (Err (OtherErr m))
  | RefusedWithEvent m =>
      do! ask (RecordEvent "Error" "OpensearchCustomResourceError" m) in Ret (Err (OtherErr m))
  | NilPointer => Panic "runtime error: invalid memory address or nil pointer dereference"
  end.

(** [GetPolicy] and [GetSnapshotPolicy]: [None] stands for [ErrNotFound]. *)
Definition getPolicy {A} (got : io (result (HttpResp A))) : io (result (option A)) :=
  let! r := got in
  Ret match r with
      | Err e => Err e
      | Ok resp =>
          if hr_StatusCode resp == 404 then Ok None
          else if hr_IsError resp then Err (apiError (hr_Status resp))
          else match hr_Body resp with Err e => Err e | Ok x => Ok (Some x) end
      end.

(** [PUT], [POST] and [DELETE] with an error message of their own. *)
Definition sendPolicy (sent : io (result (HttpResp unit))) (failed : string) : io (option err) :=
  let! r := sent in Ret (writeAnswer failed r).

Record PolicyOps (k : kind) (D : Type) (p : payload) := mkPolicyOps {
  po_cr : CRops k;
  po_id : obj k -> string;
  po_build : obj k -> build D;
  po_path : string -> string;
  po_existing : obj k -> option bool;
  po_set_existing : bool -> obj k -> obj k;
  po_create : OsClusterClient -> D -> string -> io (option err);
  po_afterCreate : OsClusterClient -> string -> obj k -> io (option err);
  po_inSync : obj k -> D -> payload_ty p -> bool;
  po_update : OsClusterClient -> D -> payload_ty p -> io (option err);
  po_remove : OsClusterClient -> string -> io (option err);
  po_buildFailed : string;
  po_createFailed : string;
  po_getFailed : string;
  po_existsReason : string;
  po_existsMsg : string;
  po_updateFailed : string;
  po_setState : string -> done_with -> obj k -> obj k }.
Arguments po_cr {k D p}.
Arguments po_id {k D p}.
Arguments po_build {k D p}.
Arguments po_path {k D p}.
Arguments po_existing {k D p}.
Arguments po_set_existing {k D p}.
Arguments po_create {k D p}.
Arguments po_afterCreate {k D p}.
Arguments po_inSync {k D p}.
Arguments po_update {k D p}.
Arguments po_remove {k D p}.
Arguments po_buildFailed {k D p}.
Arguments po_createFailed {k D p}.
Arguments po_getFailed {k D p}.
Arguments po_existsReason {k D p}.
Arguments po_existsMsg {k D p}.
Arguments po_updateFailed {k D p}.
Arguments po_setState {k D p}.

Section Policy.
Context `{RP : RetryPolicy} `{PE : ProcEnv} `{CR : Crypto}.
Context {k : kind} {D : Type} {pl : payload} (ops : PolicyOps k D pl).

(** From the start of [Reconcile] to the client: unlike the other reconcilers', it asks to be
    called again after errors and records the managing cluster every time. *)
Definition policyPreamble (instance : obj k) : io (obj k * (done_with + OsClusterClient)) :=
  let! c := FetchOpensearchCluster (cr_ref (po_cr ops) instance) (cr_ns (po_cr ops) instance) in
  match c with
  | Err e =>
      let! d := stopWith "Warning" "OpensearchError" (requeueIn 10) (Some e)
                  "error fetching opensearch cluster" in
      Ret (instance, inl d)
  | Ok None =>
      let! d := stopWith "Normal" "OpensearchPending" (requeueIn 10) None
                  "waiting for opensearch cluster to exist" in
      Ret (instance, inl d)
  | Ok (Some cluster) =>
      let mismatch := match cr_managed (po_cr ops) instance with
                      | Some uid => uid != cl_UID cluster
                      | None => false
                      end in
      if (mismatch : bool) then
        let reason := "cannot change the cluster a resource refers to" in
        let! d := stopWith "Warning" "OpensearchRefMismatch" noResult (Some (OtherErr reason))
                    reason in
        Ret (instance, inl d)
      else
        let! (instance, e) := UdateObjectStatus k instance
                                (cr_set_managed (po_cr ops) (cl_UID cluster)) in
        match e with
        | Some e =>
            let! d := stopWith "Warning" "StatusUpdateError" (requeueIn 10) (Some e)
                        ("failed to update status: " +:+ Error e) in
            Ret (instance, inl d)
        | None => ready_client (requeueIn 10) cluster instance
        end
  end.

Definition statusFailed (e : err) : done_with :=
  mkDone (requeueIn 30) (Some e) "failed to update custom resource object".

(** An error whose event has a shorter text than the recorded reason. *)
Definition stopShort (short : string) (e : err) : io done_with :=
  do! ask (RecordEvent "Warning" "OpensearchAPIError" short) in
  Ret (mkDone (requeueIn 30) (Some e) (short +:+ ": " +:+ Error e)).

(** OpenSearch does not have the policy: create it and mark it as the operator's own. *)
Definition createPolicy (osClient : OsClusterClient) (id : string) (newPolicy : D)
    (instance : obj k) : io (obj k * done_with) :=
  let! e := po_create ops osClient newPolicy id in
  match e with
  | Some e => let! d := stopShort (po_createFailed ops) e in Ret (instance, d)
  | None =>
      let! e := po_afterCreate ops osClient id instance in
      match e with
      | Some e =>
          let! d := stopWith "Warning" "OpensearchAPIError" (requeueIn 30) (Some e)
                      "failed to apply policy to existing indices" in
          Ret (instance, d)
      | None =>
          let! (instance, e) := UdateObjectStatus k instance (po_set_existing ops false) in
          match e with
          | Some e => Ret (instance, statusFailed e)
          | None =>
              do! ask (RecordEvent "Normal" "OpensearchAPIUpdated"
                         "policy successfully created in OpenSearch Cluster") in
              Ret (instance, mkDone (requeueIn 30) None "")
          end
      end
  end.

(** OpenSearch has the policy: only one marked as the operator's own is updated. *)
Definition updatePolicy (osClient : OsClusterClient) (newPolicy : D)
    (existingPolicy : payload_ty pl) (instance : obj k) : io (obj k * done_with) :=
  if negb (bool_decide (po_existing ops instance = Some false)) then
    let! (instance, e) := UdateObjectStatus k instance (po_set_existing ops true) in
    match e with
    | Some e => Ret (instance, statusFailed e)
    | None =>
        let! d := stopWith "Warning" (po_existsReason ops) (requeueIn 30) None
                    (po_existsMsg ops) in
        Ret (instance, d)
    end
  else if po_inSync ops instance newPolicy existingPolicy then
    do! ask (RecordEvent "Normal" "OpensearchAPIUnchanged" "policy is in sync") in
    Ret (instance, mkDone (requeueIn 30) None "")
  else
    let! e := po_update ops osClient newPolicy existingPolicy in
    match e with
    | Some e => let! d := stopShort (po_updateFailed ops) e in Ret (instance, d)
    | None =>
        do! ask (RecordEvent "Normal" "OpensearchAPIUpdated" "policy updated in opensearch") in
        Ret (instance, mkDone (requeueIn 30) None "")
    end.

Definition policyBody (instance : obj k) : io (obj k * (string * done_with)) :=
  let! (instance, p) := policyPreamble instance in
  match p with
  | inl d => Ret (instance, ("", d))
  | inr osClient =>
      let id := po_id ops instance in
      let! doc := runBuild (po_build ops instance) in
      match doc with
      | Err e =>
          Ret (instance, (id, mkDone (requeueIn 30) (Some e)
                                (po_buildFailed ops +:+ ": " +:+ Error e)))
      | Ok newPolicy =>
          let! x := getPolicy (doHTTPGet osClient (po_path ops id) pl) in
          match x with
          | Ok None =>
              let! (instance, d) := createPolicy osClient id newPolicy instance in
              Ret (instance, (id, d))
          | Err e =>
              let! d := stopWith "Warning" "OpensearchAPIError" (requeueIn 30) (Some e)
                          (po_getFailed ops) in
              Ret (instance, (id, d))
          | Ok (Some existingPolicy) =>
              let! (instance, d) := updatePolicy osClient newPolicy existingPolicy instance in
              Ret (instance, (id, d))
          end
      end
  end.

Definition policyReconcile (instance : obj k) : io (Result * option err) :=
  withDeferred (k := k) snd (policyBody instance) (fun nd => po_setState ops nd.1 nd.2).

Definition policyDelete (instance : obj k) : io (option err) :=
  match po_existing ops instance with
  | None => Ret None
  | Some true => Ret None
  | Some false =>
      let! c := deleteClient (cr_ref (po_cr ops) instance) (cr_ns (po_cr ops) instance) in
      match c with
      | Err e => Ret (Some e)
      | Ok None => Ret None
      | Ok (Some osClient) => po_remove ops osClient (po_id ops instance)
      end
  end.

End Policy.

(** ** The interface *)

(** OpenSearch has answered with the policy [x]. *)
Definition policy_seen (h : ohist) (c : OsClusterClient) (path : string) (p : payload)
    (x : payload_ty p) : Prop :=
  exists resp, saw h (OsDo c (OpHttp "GET" path NoBody p)) (Ok resp) /\
    hr_IsError resp = false /\ hr_Body resp = Ok x.

(** [createOp], [updateOp] and [removeOp] are the requests of the calls, [applies i id] the
    requests that may follow a creation. *)
Class PolicyLaws {k D pl} (ops : PolicyOps k D pl) (createOp : D -> string -> os_op)
    (updateOp : D -> payload_ty pl -> os_op) (removeOp : string -> os_op)
    (applies : obj k -> string -> ohist -> OsClusterClient -> os_op -> Prop) := {
  po_create_sends : forall c d id h,
    wp (po_create ops c d id) (λ _ q, q = OsDo c (createOp d id))
      (λ h' o, o = Returned None -> accepted h' c (createOp d id)) h;
  po_update_sends : forall c d x, only (λ q, q = OsDo c (updateOp d x)) (po_update ops c d x);
  po_remove_sends : forall c id, only (λ q, q = OsDo c (removeOp id)) (po_remove ops c id);
  po_after_applies : forall c id i h,
    wp (po_afterCreate ops c id i)
      (λ h' q, reads q \/ exists op, q = OsDo c op /\ applies i id h' c op) (λ _ _, True) h;
  po_managed_id : forall uid i, po_id ops (cr_set_managed (po_cr ops) uid i) = po_id ops i;
  po_managed_build : forall uid i,
    po_build ops (cr_set_managed (po_cr ops) uid i) = po_build ops i;
  po_managed_existing : forall uid i,
    po_existing ops (cr_set_managed (po_cr ops) uid i) = po_existing ops i;
  po_managed_applies : forall uid i id h c op,
    applies (cr_set_managed (po_cr ops) uid i) id h c op -> applies i id h c op }.

Section PolicyProofs.
Context `{RP : RetryPolicy} `{PE : ProcEnv} `{CR : Crypto}.
Context {k : kind} {D : Type} {pl : payload} {ops : PolicyOps k D pl}.
Context {createOp : D -> string -> os_op} {updateOp : D -> payload_ty pl -> os_op}.
Context {removeOp : string -> os_op}.
Context {applies : obj k -> string -> ohist -> OsClusterClient -> os_op -> Prop}.
Context {L : PolicyLaws ops createOp updateOp removeOp applies}.

(** The changes for the resource [i]: the creation of a policy OpenSearch does not have, what
    follows an accepted creation, and the update of a policy that was read and is marked as
    the operator's own. *)
Inductive policy_step (i : obj k) (h : ohist) (c : OsClusterClient) : os_op -> Prop :=
| ps_create d :
    po_build ops i = Built d -> absent h c (po_path ops (po_id ops i)) ->
    policy_step i h c (createOp d (po_id ops i))
| ps_apply d op :
    po_build ops i = Built d -> accepted h c (createOp d (po_id ops i)) ->
    applies i (po_id ops i) h c op -> policy_step i h c op
| ps_update d x :
    po_build ops i = Built d -> po_existing ops i = Some false ->
    policy_seen h c (po_path ops (po_id ops i)) pl x ->
    policy_step i h c (updateOp d x).

Definition policy_write (instance : obj k) (h : ohist) (c : OsClusterClient) (op : os_op) : Prop :=
  attached (po_cr ops) instance h c /\ exists i, current instance h i /\ policy_step i h c op.

Definition policy_delete (instance : obj k) (h : ohist) (c : OsClusterClient) (op : os_op) : Prop :=
  op = removeOp (po_id ops instance) /\ po_existing ops instance = Some false.

Lemma wp_policyPreamble instance W
    (Q : ohist -> outcome (obj k * (done_with + OsClusterClient)) -> Prop) h :
  (forall h' i d, extends h h' -> Q h' (Returned (i, inl d))) ->
  (forall h' i0 uid c, extends h h' -> attached (po_cr ops) instance h' c ->
     current instance h' i0 -> Q h' (Returned (cr_set_managed (po_cr ops) uid i0, inr c))) ->
  (forall h' m, extends h h' -> Q h' (Panicked m)) ->
  wp (policyPreamble ops instance) (api_guarded W) Q h.
Proof.
  intros Hl Hr Hm. unfold policyPreamble, FetchOpensearchCluster, GetOpenSearchCluster.
  wp_step. wp_step; [done|].
  destruct r as [cl|e]; [|destruct (IsNotFound e)]; wp_step; wp_step;
    [|apply wp_stop; intros; apply Hl; ext|apply wp_stop; intros; apply Hl; ext].
  destruct (match cr_managed (po_cr ops) instance with Some _ => _ | None => _ end) eqn:Em;
    [apply wp_stop; intros; apply Hl; ext|].
  set (h1 := Ev _ _ :: h). assert (extends h h1) as H1 by (subst h1; auto with go).
  wp_step. apply wp_UdateObjectStatus; [done|done|]. intros h2 o e H2 Ho. wp_step.
  destruct e as [e|]; [apply wp_stop; intros; apply Hl; ext|].
  destruct (Ho eq_refl) as (i0 & Hc & ->).
  apply wp_ready_client; [intros; apply Hl; ext| |intros; apply Hm; ext].
  intros h3 c H3 Hu Hp. apply Hr; [ext| |].
  - exists cl. split_and!; [|done|done|].
    + apply (saw_extends h1); [ext|subst h1; auto with go].
    + intros uid Hi. rewrite Hi in Em. cbn in Em. by case_bool_decide.
  - apply (current_extends _ _ h2); [done|]. by right.
Qed.

Lemma wp_getPolicy c path W (Q : ohist -> outcome (result (option (payload_ty pl))) -> Prop) h :
  (forall h' r, extends h h' -> (r = Ok None -> absent h' c path) ->
     (forall x, r = Ok (Some x) -> policy_seen h' c path pl x) -> Q h' (Returned r)) ->
  wp (getPolicy (doHTTPGet c path pl)) (api_guarded W) Q h.
Proof.
  intros HQ. unfold getPolicy, doHTTPGet. wp_step; [by left; left|]. wp_step.
  destruct r as [resp|e]; [|by apply HQ; [ext|..]]. case_bool_decide as E.
  { apply HQ; [ext| |done]. intros _. exists "GET", pl, resp.
    split_and!; [by left|apply saw_here|done]. }
  destruct (hr_IsError _) eqn:Ee; [by apply HQ; [ext|..]|].
  destruct (hr_Body _) as [x|e] eqn:Eb; (apply HQ; [ext|done|]); [|done].
  intros y [= <-]. exists resp. split_and!; [apply saw_here|done|done].
Qed.

Lemma only_stopShort s e : only reads (stopShort s e).
Proof. unfold stopShort. only_auto. Qed.
#[local] Hint Resolve only_stopShort : only.

(** A program all of whose requests are one change, in front of a continuation. *)
Lemma wp_sends {A B} (p : io A) (f : A -> io B) c op W h :
  only (λ q, q = OsDo c op) p -> (forall h', extends h h' -> W h' c op) ->
  (forall h' a, extends h h' -> wp (f a) (api_guarded W) (λ _ _, True) h') ->
  wp (bind p f) (api_guarded W) (λ _ _, True) h.
Proof.
  intros Hp HW Hf. apply wp_after; [|exact Hf]. eapply wp_only; [exact Hp| |done].
  intros h' q He ->. right. auto.
Qed.

Lemma wp_createPolicy c id d i W h :
  (forall h', extends h h' -> W h' c (createOp d id)) ->
  (forall h' op, extends h h' -> accepted h' c (createOp d id) -> applies i id h' c op ->
     W h' c op) ->
  wp (createPolicy ops c id d i) (api_guarded W) (λ _ _, True) h.
Proof.
  intros Hc Ha. unfold createPolicy. wp_step.
  eapply wp_mono_ext; [| |apply po_create_sends]; [intros h' q He ->; right; auto|].
  intros h1 [[e|]|m] H1 Hacc; cbn [seq_post]; [api_done| |done].
  apply wp_after.
  - eapply wp_mono_ext; [| |apply po_after_applies]; [|done].
    intros h2 q H2 [Hq|(op & -> & Hop)]; [by destruct q; simpl in *; auto|right].
    apply Ha; [ext| |done]. destruct Hacc as (resp & Hs & Hr); [done|].
    exists resp. split; [by eapply saw_extends|done].
  - intros h2 [e|] H2; [api_done|]. api_skip h3 as [j [e|]]; api_done.
Qed.

Lemma wp_updatePolicy c d x i W h :
  (forall h', extends h h' -> po_existing ops i = Some false -> W h' c (updateOp d x)) ->
  wp (updatePolicy ops c d x i) (api_guarded W) (λ _ _, True) h.
Proof.
  intros Hu. unfold updatePolicy. case_bool_decide as E; cbn [negb].
  - destruct (po_inSync _ _ _ _); [api_done|].
    eapply wp_sends; [apply po_update_sends|auto|]. intros h1 [e|] H1; api_done.
  - api_skip h1 as [j [e|]]; api_done.
Qed.

Lemma wp_policyReconcile (instance : obj k) h :
  wp (policyReconcile ops instance) (api_guarded (policy_write instance)) (λ _ _, True) h.
Proof.
  apply wp_withDeferred. unfold policyBody. wp_step.
  apply wp_policyPreamble; [by intros; do 2 wp_step| |done].
  intros h1 i0 uid c H1 Ha Hc. do 2 wp_step. rewrite po_managed_id, po_managed_build.
  assert (forall h' op, extends h1 h' -> policy_step i0 h' c op -> policy_write instance h' c op)
    as HW.
  { intros h' op He Hs. split; [by eapply attached_extends|]. exists i0.
    split; [by eapply current_extends|done]. }
  destruct (po_build ops i0) as [d|m|m|] eqn:Eb; cbn [runBuild];
    [|by repeat wp_step|by wp_step; [done|repeat wp_step]|by wp_step].
  wp_step. wp_step. wp_step. apply wp_getPolicy. intros h2 [[x|]|e] H2 Hab Hx; wp_step; [| |api_done].
  - apply wp_after; [|intros h3 [j dd] H3; by wp_step]. apply wp_updatePolicy.
    intros h3 H3 He. apply HW; [ext|]. rewrite po_managed_existing in He.
    apply ps_update; [done|done|]. destruct (Hx x eq_refl) as (resp & Hs & Hr).
    exists resp. split; [by eapply saw_extends|done].
  - apply wp_after; [|intros h3 [j dd] H3; by wp_step]. apply wp_createPolicy.
    + intros h3 H3. apply HW; [ext|]. apply ps_create; [done|]. by eapply absent_extends; [|auto].
    + intros h3 op H3 Hacc Hap. apply HW; [ext|]. eapply ps_apply; [done|done|].
      by eapply po_managed_applies.
Qed.

Lemma wp_policyDelete (instance : obj k) h :
  wp (policyDelete ops instance) (api_guarded (policy_delete instance)) (λ _ _, True) h.
Proof.
  unfold policyDelete. destruct (po_existing ops instance) as [[]|] eqn:E; [by wp_step| |by wp_step].
  wp_step. apply wp_deleteClient; [|done].
  intros h1 [[c|]|e] H1 Hc; wp_step; [|by wp_step|by wp_step].
  eapply wp_only; [apply po_remove_sends| |done]. intros h2 q H2 ->. by right.
Qed.

(** A policy that is the operator's own and in sync is looked up, and nothing is written. *)
Lemma updatePolicy_in_sync c d x i :
  po_existing ops i = Some false -> po_inSync ops i d x = true ->
  updatePolicy ops c d x i =
    (do! ask (RecordEvent "Normal" "OpensearchAPIUnchanged" "policy is in sync") in
     Ret (i, mkDone (requeueIn 30) None "")).
Proof. intros He Hs. unfold updatePolicy. by rewrite bool_decide_true, Hs. Qed.

(** The reasons a reconciliation can end with. *)
Inductive policy_reason : string -> Prop :=
| pr_none : policy_reason ""
| pr_fetch : policy_reason "error fetching opensearch cluster"
| pr_exist : policy_reason "waiting for opensearch cluster to exist"
| pr_ref : policy_reason "cannot change the cluster a resource refers to"
| pr_status e : policy_reason ("failed to update status: " +:+ e)
| pr_running : policy_reason "waiting for opensearch cluster status to be running"
| pr_client : policy_reason "error creating opensearch client"
| pr_build e : policy_reason (po_buildFailed ops +:+ ": " +:+ e)
| pr_create e : policy_reason (po_createFailed ops +:+ ": " +:+ e)
| pr_apply : policy_reason "failed to apply policy to existing indices"
| pr_resource : policy_reason "failed to update custom resource object"
| pr_get : policy_reason (po_getFailed ops)
| pr_found : policy_reason (po_existsMsg ops)
| pr_update e : policy_reason (po_updateFailed ops +:+ ": " +:+ e).

(** The status updates: the managing cluster, the mark, and the state with such a reason. *)
Inductive policy_change : (obj k -> obj k) -> Prop :=
| pc_managed uid : policy_change (cr_set_managed (po_cr ops) uid)
| pc_existing b : policy_change (po_set_existing ops b)
| pc_state n d : policy_reason (d_reason d) -> policy_change (po_setState ops n d).

Create HintDb policy discriminated.
#[local] Hint Constructors policy_reason policy_change : policy.
#[local] Hint Extern 1 (policy_change _) => solve [auto with policy] : always.

Lemma always_create c d id : always (status_from policy_change) (po_create ops c d id).
Proof.
  intros h. eapply wp_mono; [| |apply po_create_sends]; [|done].
  intros h' q ->. by apply status_from_no_update.
Qed.
Lemma always_update c d x : always (status_from policy_change) (po_update ops c d x).
Proof.
  apply always_no_update. eapply only_mono; [|apply po_update_sends]. by intros q ->.
Qed.
Lemma always_after c id i : always (status_from policy_change) (po_afterCreate ops c id i).
Proof.
  intros h. eapply wp_mono; [| |apply po_after_applies]; [|done].
  intros h' q [Hq|(op & -> & _)]; apply status_from_no_update; [by destruct q|done].
Qed.

Lemma only_getPolicy c path p : only reads (getPolicy (doHTTPGet c path p)).
Proof. unfold getPolicy. only_auto. Qed.
Lemma only_runBuild {A} (b : build A) : only reads (runBuild b).
Proof. destruct b; cbn [runBuild]; only_auto. Qed.
#[local] Hint Resolve only_getPolicy only_runBuild : always.

Lemma policy_status_writes (instance : obj k) :
  always (status_from policy_change) (policyReconcile ops instance).
Proof.
  pose proof always_create. pose proof always_update. pose proof always_after.
  eapply ensures_withDeferred with (R := λ nd, policy_reason (d_reason nd.2));
    [|by intros [n d]; apply pc_state]. unfold policyBody, policyPreamble, ready_client.
  unfold createPolicy, updatePolicy, stopShort, stopWith, statusFailed.
  eapply (ensures_bind _ (λ r, match r.2 with inl d => policy_reason (d_reason d) | inr _ => True end)).
  { ensures_auto; cbn; auto with policy; done. }
  intros [i [d|c]] Hd; cbn in Hd; [by apply ensures_ret|].
  ensures_auto; cbn; auto with policy.
Qed.

End PolicyProofs.

(** The answer to a change that OpenSearch refuses. *)
Lemma run_sendPolicy_refused c m path b failed (w : oenv) h resp :
  w (OsDo c (OpHttp m path b PNone)) h = Ok resp -> hr_IsError resp = true ->
  (run w (sendPolicy (ask (OsDo c (OpHttp m path b PNone))) failed) h).1 =
    Returned (Some (OtherErr (failed +:+ hr_String resp))).
Proof.
  intros Hq He. unfold sendPolicy. cbn [run bind]. rewrite run_bind.
  change (run w (ask ?q) h) with (Returned (w q h), [Ev q (w q h)] ++ h). rewrite Hq.
  cbn in *. by rewrite He.
Qed.

(** What the calls of the gateway send. *)
Lemma only_sendPolicy c m path b failed :
  only (λ q, q = OsDo c (OpHttp m path b PNone)) (sendPolicy (ask (OsDo c (OpHttp m path b PNone))) failed).
Proof. intros h. by split. Qed.
Lemma wp_sendPolicy c m path b failed h :
  wp (sendPolicy (ask (OsDo c (OpHttp m path b PNone))) failed) (λ _ q, q = OsDo c (OpHttp m path b PNone))
    (λ h' o, o = Returned None -> accepted h' c (OpHttp m path b PNone)) h.
Proof.
  unfold sendPolicy. wp_step; [done|]. wp_step. intros [= H]. destruct r as [resp|e]; [|done].
  cbn in *. exists resp. split; [apply saw_here|]. cbn. by destruct (hr_IsError resp).
Qed.
Arguments policy_step {k D pl} ops createOp updateOp applies.
Arguments policy_write {PE k D pl} ops createOp updateOp applies.
Arguments policy_delete {k D pl} ops removeOp.
