(* ===== verification/IsmPolicy.v ===== *)
(** * IsmPolicy: index state management policies

    Models [services/os_ism_service.go], the paths of [os_client.go] it uses, and the
    reconciler [pkg/reconcilers/ismpolicy.go] as an instance of [PolicyCR]. *)

From S2P Require Import Prelude Prog Resources Api K8sClient Helpers OsClient OsData ReconcilerUtil Fixtures ManagedCR PolicyCR.
Import Ism.

(** ** The gateway *)

Definition ismResource : string := "_ism".

Definition generateGetIndicesPath (pattern : string) : string :=
  "/_cat/indices/" +:+ pattern +:+ "?format=json".
Definition generateAPIPathISM (resource name : string) : string :=
  "/_plugins/" +:+ resource +:+ "/policies/" +:+ name.
Definition generateAPIPathUpdateISM (resource name : string) (seqno primaryterm : Z) : string :=
  "/_plugins/" +:+ resource +:+ "/policies/" +:+ name +:+ "?if_seq_no=" +:+ Itoa seqno +:+
  "&if_primary_term=" +:+ Itoa primaryterm.
Definition generateAPIPathAddISMPolicyToIndex (resource indexName : string) : string :=
  "/_plugins/" +:+ resource +:+ "/add/" +:+ indexName.

Definition client_GetIndices (client : OsClusterClient) (pattern : string) :=
  doHTTPGet client (generateGetIndicesPath pattern) PIndices.
Definition GetISMConfig (client : OsClusterClient) (name : string) :=
  doHTTPGet client (generateAPIPathISM ismResource name) PISMPolicy.
Definition PutISMConfig (client : OsClusterClient) (name : string) (b : body) :=
  doHTTPPut client (generateAPIPathISM ismResource name) b.
Definition UpdateISMConfig (client : OsClusterClient) (name : string) (seqnumber primterm : Z) (b : body) :=
  doHTTPPut client (generateAPIPathUpdateISM ismResource name seqnumber primterm) b.
Definition DeleteISMConfig (client : OsClusterClient) (name : string) :=
  doHTTPDelete client (generateAPIPathISM ismResource name).
Definition client_AddPolicyToIndex (client : OsClusterClient) (indexName : string) (b : body) :=
  doHTTPPost client (generateAPIPathAddISMPolicyToIndex ismResource indexName) b.

Definition GetPolicy (service : OsClusterClient) (policyName : string)
    : io (result (option GetISMPolicyResponse)) :=
  getPolicy (GetISMConfig service policyName).

Definition CreateISMPolicyIn (service : OsClusterClient) (ismpolicy : ISMPolicySpec)
    (policyId : string) : io (option err) :=
  sendPolicy (PutISMConfig service policyId (ISMPolicyBody ismpolicy)) "failed to create ism policy: ".

Definition UpdateISMPolicy (service : OsClusterClient) (ismpolicy : ISMPolicySpec)
    (seqno primterm : Z) (policyId : string) : io (option err) :=
  sendPolicy (UpdateISMConfig service policyId seqno primterm (ISMPolicyBody ismpolicy))
    "failed to update ism policy: ".

Definition DeleteISMPolicy (service : OsClusterClient) (policyName : string) : io (option err) :=
  sendPolicy (DeleteISMConfig service policyName) "failed to delete ism policy: ".

Definition GetIndices (service : OsClusterClient) (pattern : string)
    : io (result (list string)) :=
  let! r := client_GetIndices service pattern in
  Ret match r with
      | Err e => Err (Wrapped "failed to call GetIndices: " e)
      | Ok resp =>
          if hr_IsError resp then Err (OtherErr ("OpenSearch API error: " +:+ hr_String resp))
          else
            match hr_Body resp with
            | Err e => Err (Wrapped "failed to parse indices response: " e)
            | Ok indices => Ok (indices : list string)
            end
      end.

Definition AddPolicyToIndex (service : OsClusterClient) (indexName policyId : string)
    : io (option err) :=
  sendPolicy (client_AddPolicyToIndex service indexName (AddISMPolicyBody policyId))
    "failed to add policy to index: ".

(** ** The policy document *)

(** The destination of notifications is copied; none at all is refused. *)
Definition createDestination (d : Destination) : option Destination :=
  match d with
  | mkDestination None None None None => None
  | d => Some d
  end.

Definition createErrorNotification (n : option ErrorNotification)
    : build (option ErrorNotification) :=
  match n with
  | Some (mkErrorNotification (Some d) channel (Some t)) =>
      match createDestination d with
      | None => Refused "exactly one errorNotification.destination must be set"
      | Some dest => Built (Some (mkErrorNotification (Some dest) channel (Some t)))
      end
  | _ => Built None
  end.

(** One variable holds the details of an alias action, and both pointers of the new action point
    to it: what is removed overwrites what is added. *)
Definition createAliasAction (a : AliasAction) : AliasAction :=
  let newAliasDetails := match aa_Remove a with Some d => Some d | None => aa_Add a end in
  mkAliasAction (match aa_Add a with Some _ => newAliasDetails | None => None end)
    (match aa_Remove a with Some _ => newAliasDetails | None => None end).

Definition createShrink (s : Shrink) : build Shrink :=
  match shr_MaxShardSize s, shr_NumNewShards s, shr_PercentageOfSourceShards s with
  | None, None, None =>
      RefusedWithEvent
        "either of MaxShardSize or NumNewShards or PercentageOfSourceShards is required"
  | Some _, None, None | None, Some _, None | None, None, Some _ => Built s
  | Some _, _, _ =>
      RefusedWithEvent
        "maxShardSize can't exist with NumNewShards or PercentageOfSourceShards. Keep one of these"
  | None, Some _, Some _ =>
      RefusedWithEvent
        "numNewShards can't exist with MaxShardSize or PercentageOfSourceShards. Keep one of these"
  end.

Definition defaultRetry : Retry := mkRetry "exponential" 3 "1m".

(** The fields of an action one by one; notifications and rollups are not copied. *)
Definition createAction (a : Action) : build Action :=
  let new (shrink : option Shrink) : Action :=
    mkAction
      (match ac_Alias a with
       | Some al => Some (mkAlias (map createAliasAction (als_Actions al)))
       | None => None
       end)
      (ac_Allocation a) (ac_Close a) (ac_Delete a) (ac_ForceMerge a) (ac_IndexPriority a)
      None (ac_Open a) (ac_ReadOnly a) (ac_ReadWrite a) (ac_ReplicaCount a)
      (Some (default defaultRetry (ac_Retry a))) (ac_Rollover a) None shrink (ac_Snapshot a)
      (ac_Timeout a) in
  match ac_Shrink a with
  | None => Built (new None)
  | Some s => let? s' := createShrink s in Built (new (Some s'))
  end.

(** A cron condition without details is a nil pointer. *)
Definition createTransition (t : Transition) : build Transition :=
  match cnd_Cron (tst_Conditions t) with
  | Some (mkCron None) => NilPointer
  | _ => Built t
  end.

Definition createState (s : State) : build State :=
  let? actions := buildAll createAction (sta_Actions s) in
  let? transitions := buildAll createTransition (sta_Transitions s) in
  Built (mkState actions (sta_Name s) transitions).

Definition CreateISMPolicy (instance : OpenSearchISMPolicy) : build ISMPolicySpec :=
  let? notification := createErrorNotification (ism_ErrorNotification instance) in
  let? states := buildAll createState (ism_States instance) in
  Built (mkISMPolicySpec (ism_DefaultState instance) (ism_Description instance) notification
           (match ism_ISMTemplate instance with Some t => [t] | None => [] end) states).

(** ** Applying a new policy to the indices there are *)

Definition applyToIndex (osClient : OsClusterClient) (policyId index : string) (_ : unit)
    : io (unit + err) :=
  let! e := AddPolicyToIndex osClient index policyId in
  Ret match e with
      | Some e => inr (Wrapped ("failed to apply policy to index " +:+ index +:+ ": ") e)
      | None => inl tt
      end.

Definition applyToPattern (osClient : OsClusterClient) (policyId pattern : string) (_ : unit)
    : io (unit + err) :=
  let! r := GetIndices osClient pattern in
  match r with
  | Err e =>
      Ret (inr (Wrapped ("failed to get indices matching pattern " +:+ pattern +:+ ": ") e))
  | Ok indices => for_range indices tt (applyToIndex osClient policyId)
  end.

Definition applyPolicyToExistingIndices (osClient : OsClusterClient) (policyId : string)
    (instance : OpenSearchISMPolicy) : io (option err) :=
  match ism_ApplyToExistingIndices instance with
  | None | Some false => Ret None
  | Some true =>
      match ism_ISMTemplate instance with
      | None => Ret None
      | Some t =>
          match tpl_IndexPatterns t with
          | [] => Ret None
          | patterns =>
              let! r := for_range patterns tt (applyToPattern osClient policyId) in
              match r with
              | inr e => Ret (Some e)
              | inl _ =>
                  do! ask (RecordEvent "Normal" "OpensearchAPIUpdated"
                             "ISM policy applied to existing indices") in
                  Ret None
              end
          end
      end
  end.

(** ** The reconciler *)

Definition ism_update (state reason : string) (existing : option bool) (managed : option string)
    (id : string) (i : OpenSearchISMPolicy) : OpenSearchISMPolicy :=
  mkISMPolicyCR (ism_Name i) (ism_Namespace i) (ism_OpensearchRef i) (ism_DefaultState i)
    (ism_Description i) (ism_ApplyToExistingIndices i) (ism_ErrorNotification i)
    (ism_ISMTemplate i) (ism_PolicyID i) (ism_States i) state reason existing managed id.

Definition ismOps : CRops KISMPolicy :=
  mkCRops KISMPolicy ism_OpensearchRef ism_Namespace ism_ManagedCluster
    (fun uid i => ism_update (ism_State i) (ism_Reason i) (ism_ExistingISMPolicy i) (Some uid)
                    (ism_StatusPolicyId i) i)
    "a resource".

Definition opensearchIsmPolicyExists : string := "ISM Policy already exists in Opensearch".

Definition ismPolicyId (i : OpenSearchISMPolicy) : string :=
  if ism_PolicyID i != "" then ism_PolicyID i else ism_Name i.

(** The deferred function. *)
Definition setIsmState (policyId : string) (d : done_with) (i : OpenSearchISMPolicy)
    : OpenSearchISMPolicy :=
  let created := match d_err d with None => Requeue (d_result d) | Some _ => false end in
  let state := match d_err d with Some _ => "ERROR" | None => ism_State i end in
  let state := if Requeue (d_result d) && (RequeueAfter (d_result d) == 10)
               then "PENDING" else state in
  let state := if created then "CREATED" else state in
  let state := if d_reason d == opensearchIsmPolicyExists then "IGNORED" else state in
  ism_update state (d_reason d) (ism_ExistingISMPolicy i) (ism_ManagedCluster i)
    (if created then policyId else ism_StatusPolicyId i) i.

Section Reconciler.
Context `{RP : RetryPolicy} `{PE : ProcEnv} `{CR : Crypto} `{CL : CmpLib}.

Definition ismPolicy : PolicyOps KISMPolicy ISMPolicySpec PISMPolicy :=
  mkPolicyOps KISMPolicy ISMPolicySpec PISMPolicy ismOps ismPolicyId CreateISMPolicy
    (generateAPIPathISM ismResource) ism_ExistingISMPolicy
    (fun b i => ism_update (ism_State i) (ism_Reason i) (Some b) (ism_ManagedCluster i)
                  (ism_StatusPolicyId i) i)
    CreateISMPolicyIn
    applyPolicyToExistingIndices
    (fun i d x => (ism_StatusPolicyId i == gip_PolicyID x) && CmpEqual d (gip_Policy x))
    (fun c d x => UpdateISMPolicy c d (gip_SequenceNumber x) (gip_PrimaryTerm x) (gip_PolicyID x))
    DeleteISMPolicy
    "failed to generate ism policy document"
    "failed to create ism policy"
    "failed to get the ism policy from Opensearch API"
    opensearchIsmPolicyExists
    "the ISM policy already exists in the OpenSearch cluster"
    "failed to update ism policy with Opensearch API"
    setIsmState.

Definition IsmReconcile (instance : OpenSearchISMPolicy) : io (Result * option err) :=
  policyReconcile ismPolicy instance.
Definition IsmDelete (instance : OpenSearchISMPolicy) : io (option err) :=
  policyDelete ismPolicy instance.

(** ** The interface holds *)

Definition ismCreateOp (d : ISMPolicySpec) (id : string) : os_op :=
  OpHttp "PUT" (generateAPIPathISM ismResource id) (ISMPolicyBody d) PNone.
Definition ismUpdateOp (d : ISMPolicySpec) (x : GetISMPolicyResponse) : os_op :=
  OpHttp "PUT" (generateAPIPathUpdateISM ismResource (gip_PolicyID x) (gip_SequenceNumber x)
                  (gip_PrimaryTerm x)) (ISMPolicyBody d) PNone.
Definition ismRemoveOp (id : string) : os_op :=
  OpHttp "DELETE" (generateAPIPathISM ismResource id) NoBody PNone.

(** The indices OpenSearch has listed for a pattern. *)
Definition listed (h : ohist) (c : OsClusterClient) (pattern index : string) : Prop :=
  exists resp (l : list string),
    saw h (OsDo c (OpHttp "GET" (generateGetIndicesPath pattern) NoBody PIndices)) (Ok resp) /\
    hr_IsError resp = false /\ hr_Body resp = Ok l /\ index ∈ l.

(** The new policy is added to an index listed for a pattern of its template, if asked for. *)
Definition ismApplies (i : OpenSearchISMPolicy) (id : string) (h : ohist) (c : OsClusterClient)
    (op : os_op) : Prop :=
  ism_ApplyToExistingIndices i = Some true /\
  exists t pattern index,
    ism_ISMTemplate i = Some t /\ pattern ∈ tpl_IndexPatterns t /\ listed h c pattern index /\
    op = OpHttp "POST" (generateAPIPathAddISMPolicyToIndex ismResource index)
           (AddISMPolicyBody id) PNone.

Lemma listed_extends h h' c p x : extends h h' -> listed h c p x -> listed h' c p x.
Proof.
  intros He (resp & l & Hs & Hr). exists resp, l. split; [by eapply saw_extends|done].
Qed.

Lemma wp_applyToPattern c id pattern P h :
  (forall h' q, reads q -> P h' q) ->
  (forall h' index, extends h h' -> listed h' c pattern index ->
     P h' (OsDo c (OpHttp "POST" (generateAPIPathAddISMPolicyToIndex ismResource index)
                     (AddISMPolicyBody id) PNone))) ->
  wp (applyToPattern c id pattern tt) P (λ _ _, True) h.
Proof.
  intros HR HP. unfold applyToPattern, GetIndices, client_GetIndices, doHTTPGet. wp_step. wp_step; [apply HR; by left|].
  wp_step. wp_step. destruct r as [resp|e]; [|by wp_step].
  destruct (hr_IsError _) eqn:Ee; [by wp_step|].
  destruct (hr_Body _) as [l|e] eqn:Eb; [|by wp_step]. set (h1 := Ev _ _ :: h).
  assert (forall index, index ∈ l -> listed h1 c pattern index) as Hl.
  { intros index Hi. exists resp, l. split_and!; [apply saw_here|done..]. }
  apply (wp_for_range (λ rest _ h', extends h1 h' /\ rest ⊆ l)); [by split; [ext|]| |done].
  intros index rest [] h' [He Hs]. unfold applyToIndex, AddPolicyToIndex, sendPolicy,
    client_AddPolicyToIndex, doHTTPPost.
  wp_step. wp_step.
  - apply HP; [subst h1; ext|]. eapply listed_extends; [exact He|]. apply Hl. set_solver.
  - wp_step. wp_step. wp_step. destruct (writeAnswer _ _); [done|].
    split; [ext|set_solver].
Qed.

Lemma wp_applyPolicy c id i h :
  wp (applyPolicyToExistingIndices c id i)
    (λ h' q, reads q \/ exists op, q = OsDo c op /\ ismApplies i id h' c op) (λ _ _, True) h.
Proof.
  unfold applyPolicyToExistingIndices.
  destruct (ism_ApplyToExistingIndices i) as [[]|] eqn:Ea; [|by wp_step|by wp_step].
  destruct (ism_ISMTemplate i) as [t|] eqn:Et; [|by wp_step].
  destruct (tpl_IndexPatterns t) as [|p0 ps] eqn:Ep; [by wp_step|]. rewrite <- Ep. wp_step.
  apply (wp_for_range (λ rest _ h', extends h h' /\ rest ⊆ tpl_IndexPatterns t));
    [by split; [ext|]| |intros [] h' _; wp_step; wp_step; [by left|by wp_step]].
  intros p rest [] h' [He Hs]. eapply wp_mono_ext; [intros h2 q _ H; exact H| |apply wp_applyToPattern].
  - intros h2 [[[]|e]|m] H2 _; cbn; [split; [ext|set_solver]|by wp_step|done].
  - by left.
  - intros h2 index H2 Hl. right. eexists. split; [done|]. split; [done|].
    exists t, p, index. split_and!; [done|set_solver|done|done].
Qed.

#[export] Instance ismPolicy_laws :
  PolicyLaws ismPolicy ismCreateOp ismUpdateOp ismRemoveOp ismApplies.
Proof.
  split; try done.
  - intros c d id h. apply wp_sendPolicy.
  - intros c id i h. apply wp_applyPolicy.
Qed.

(** ** What the document must be *)

Definition given {A} (o : option A) : bool := match o with Some _ => true | None => false end.

(** Exactly one of the three sizes of a shrink action. *)
Definition valid_shrink (s : Shrink) : Prop :=
  length (filter Is_true [given (shr_MaxShardSize s); given (shr_NumNewShards s);
                          given (shr_PercentageOfSourceShards s)]) = 1%nat.
Definition valid_state (s : State) : Prop :=
  Forall (λ a, forall x, ac_Shrink a = Some x -> valid_shrink x) (sta_Actions s) /\
  Forall (λ t, cnd_Cron (tst_Conditions t) <> Some (mkCron None)) (sta_Transitions s).

(** A notification is sent only with a destination and a template, and then the destination must
    name a service. *)
Definition sent_notification (n : option ErrorNotification) : option ErrorNotification :=
  match n with
  | Some (mkErrorNotification (Some _) _ (Some _)) => n
  | _ => None
  end.
Definition valid_policy (i : OpenSearchISMPolicy) : Prop :=
  (forall n, sent_notification (ism_ErrorNotification i) = Some n ->
     en_Destination n <> Some (mkDestination None None None None)) /\
  Forall valid_state (ism_States i).

(** The alias actions and the actions of the document for those of the resource. *)
Definition alias_of (a a' : AliasAction) : Prop :=
  aa_Remove a' = aa_Remove a /\
  aa_Add a' = match aa_Add a, aa_Remove a with Some _, Some r => Some r | x, _ => x end.
Definition action_of (a a' : Action) : Prop :=
  option_Forall2 (λ x x', Forall2 alias_of (als_Actions x) (als_Actions x')) (ac_Alias a) (ac_Alias a') /\
  ac_Allocation a' = ac_Allocation a /\ ac_Close a' = ac_Close a /\ ac_Delete a' = ac_Delete a /\
  ac_ForceMerge a' = ac_ForceMerge a /\ ac_IndexPriority a' = ac_IndexPriority a /\
  ac_Notification a' = None /\ ac_Open a' = ac_Open a /\ ac_ReadOnly a' = ac_ReadOnly a /\
  ac_ReadWrite a' = ac_ReadWrite a /\ ac_ReplicaCount a' = ac_ReplicaCount a /\
  ac_Retry a' = Some (default defaultRetry (ac_Retry a)) /\ ac_Rollover a' = ac_Rollover a /\
  ac_Rollup a' = None /\ ac_Shrink a' = ac_Shrink a /\ ac_Snapshot a' = ac_Snapshot a /\
  ac_Timeout a' = ac_Timeout a.
Definition state_of (s s' : State) : Prop :=
  sta_Name s' = sta_Name s /\ sta_Transitions s' = sta_Transitions s /\
  Forall2 action_of (sta_Actions s) (sta_Actions s').
Definition document_of (i : OpenSearchISMPolicy) (p : ISMPolicySpec) : Prop :=
  pol_DefaultState p = ism_DefaultState i /\ pol_Description p = ism_Description i /\
  pol_ErrorNotification p = sent_notification (ism_ErrorNotification i) /\
  pol_ISMTemplate p = option_list (ism_ISMTemplate i) /\
  Forall2 state_of (ism_States i) (pol_States p).

Lemma createShrink_spec s s' : createShrink s = Built s' <-> valid_shrink s /\ s' = s.
Proof.
  unfold createShrink, valid_shrink. destruct s as [f m n p t]; simpl.
  destruct m, n, p; simpl; naive_solver.
Qed.

Lemma createAlias_spec l l' : l' = map createAliasAction l <-> Forall2 alias_of l l'.
Proof.
  revert l'. induction l as [|a l IH]; intros l'; simpl.
  - split; [intros ->; constructor|by intros ->%Forall2_nil_inv_l].
  - split.
    + intros ->. constructor; [|by apply IH]. unfold alias_of, createAliasAction.
      by destruct (aa_Add a), (aa_Remove a).
    + intros (a' & l2 & [H1 H2] & H%IH & ->)%Forall2_cons_inv_l. subst l2. f_equal.
      unfold createAliasAction. destruct a', (aa_Add a), (aa_Remove a); simpl in *; congruence.
Qed.

Lemma alias_field (x : option Alias) y :
  y = match x with Some al => Some (mkAlias (map createAliasAction (als_Actions al))) | None => None end <->
  option_Forall2 (λ x x', Forall2 alias_of (als_Actions x) (als_Actions x')) x y.
Proof.
  destruct x as [al|].
  - split.
    + intros ->. constructor. by apply createAlias_spec.
    + inversion 1 as [? [l] H'|]; subst. do 2 f_equal. by apply createAlias_spec.
  - split; [intros ->; constructor|by inversion 1].
Qed.

Lemma createAction_spec a a' :
  createAction a = Built a' <->
  (forall x, ac_Shrink a = Some x -> valid_shrink x) /\ action_of a a'.
Proof.
  unfold createAction, action_of. rewrite <- alias_field. cbv zeta.
  destruct (ac_Shrink a) as [s|] eqn:Es.
  - rewrite build_bind_Built. split.
    + intros (s' & [Hv ->]%createShrink_spec & [= <-]). split; [naive_solver|]. by split_and!.
    + intros [Hv Ha]. exists s. rewrite createShrink_spec. split; [auto|]. f_equal.
      destruct a'; simpl in *. naive_solver.
  - split.
    + intros [= <-]. split; [done|]. by split_and!.
    + intros [_ Ha]. f_equal. destruct a'; simpl in *. naive_solver.
Qed.

Lemma createTransition_spec t t' :
  createTransition t = Built t' <-> cnd_Cron (tst_Conditions t) <> Some (mkCron None) /\ t' = t.
Proof. unfold createTransition. destruct (cnd_Cron _) as [[[d|]]|]; naive_solver. Qed.

Lemma Forall2_and_l {A B} (P : A -> Prop) (R : A -> B -> Prop) l k :
  Forall2 (λ x y, P x /\ R x y) l k <-> Forall P l /\ Forall2 R l k.
Proof.
  split.
  - induction 1 as [|x y l k [H1 H2] _ [H3 H4]]; split; constructor; auto.
  - intros [Hl Hr]. induction Hr; constructor; inversion Hl; subst; auto.
Qed.

Lemma buildAll_spec {A B} (f : A -> build B) (P : A -> Prop) (R : A -> B -> Prop) l k :
  (forall x y, f x = Built y <-> P x /\ R x y) ->
  buildAll f l = Built k <-> Forall P l /\ Forall2 R l k.
Proof.
  intros Hf. rewrite buildAll_Built, <- Forall2_and_l.
  split; intros H; (eapply Forall2_impl; [exact H|]); intros; by apply Hf.
Qed.

Lemma createState_spec s s' : createState s = Built s' <-> valid_state s /\ state_of s s'.
Proof.
  unfold createState, valid_state, state_of. rewrite build_bind_Built.
  setoid_rewrite build_bind_Built. setoid_rewrite (buildAll_spec _ _ _ _ _ createAction_spec).
  setoid_rewrite (buildAll_spec createTransition _ (λ t t', t' = t) _ _ createTransition_spec).
  split.
  - intros (as_ & [H1 H2] & ts & [H3 H4] & [= <-]).
    apply Forall2_flip in H4. apply list_eq_Forall2 in H4. subst ts.
    split; [by split|]. by split_and!.
  - intros [[H1 H2] (H3 & H4 & H5)]. exists (sta_Actions s'). split; [done|].
    exists (sta_Transitions s). split; [split; [done|]|].
    + by apply Forall2_flip, list_eq_Forall2.
    + f_equal. destruct s'; simpl in *. by subst.
Qed.

Lemma createErrorNotification_spec n n' :
  createErrorNotification n = Built n' <->
  (forall x, sent_notification n = Some x ->
     en_Destination x <> Some (mkDestination None None None None)) /\ n' = sent_notification n.
Proof.
  destruct n as [[[d|] c [t|]]|]; simpl; try naive_solver.
  destruct d as [[] [] [] []]; simpl; naive_solver.
Qed.

Lemma CreateISMPolicy_spec i p : CreateISMPolicy i = Built p <-> valid_policy i /\ document_of i p.
Proof.
  unfold CreateISMPolicy, valid_policy, document_of. rewrite build_bind_Built.
  setoid_rewrite build_bind_Built. setoid_rewrite createErrorNotification_spec.
  setoid_rewrite (buildAll_spec _ _ _ _ _ createState_spec). split.
  - intros (n & [H1 ->] & sts & [H3 H4] & [= <-]). split; [done|]. split_and!; try done.
  - intros [[H1 H2] (H3 & H4 & H5 & H6 & H7)]. eexists. split; [by split|].
    exists (pol_States p). split; [done|]. f_equal. destruct p; simpl in *. subst.
    by destruct (ism_ISMTemplate i).
Qed.

(** ** Theorems *)

(** The ISM reconciler changes only policies that are its own: it creates the document built
    from its resource under the resource's identifier when OpenSearch has said that it has no
    such policy, adds a policy whose creation was accepted to the indices OpenSearch lists for
    the patterns of its template (if asked to), and updates a policy only when the resource
    records that the operator has created it, under the sequence number and primary term the
    policy was read with; a deletion needs the same record. *)
Theorem ism_changes_guarded (instance : OpenSearchISMPolicy) (w : oenv) :
  calls_ok (api_guarded (policy_write ismPolicy ismCreateOp ismUpdateOp ismApplies instance))
    (run w (IsmReconcile instance) []).2 /\
  calls_ok (api_guarded (policy_delete ismPolicy ismRemoveOp instance))
    (run w (IsmDelete instance) []).2.
Proof. split; eapply wp_run; [apply wp_policyReconcile|apply wp_policyDelete]. Qed.

(** The document of an ISM policy: it is built exactly when every shrink action has one of the
    three sizes, every cron condition its details and a sent error notification a service, and
    then it is the resource field by field, states, actions and transitions in order, with a
    default retry; but notification and rollup actions are dropped, and an alias action that
    both adds and removes adds what it removes. *)
Theorem ism_document (i : OpenSearchISMPolicy) p :
  CreateISMPolicy i = Built p <-> valid_policy i /\ document_of i p.
Proof. apply CreateISMPolicy_spec. Qed.

(** A policy that was in OpenSearch before is recorded with a reason other than the one the
    deferred function tests for, so that no status update ever records the state [IGNORED]. *)
Theorem ism_never_ignored (instance : OpenSearchISMPolicy) (w : oenv) :
  calls_ok (status_from (k := KISMPolicy)
      (λ f, forall i, ism_State (f i) = "IGNORED" -> ism_State i = "IGNORED"))
    (run w (IsmReconcile instance) []).2.
Proof.
  eapply calls_ok_mono; [|apply always_run, policy_status_writes].
  intros h q Hq o Ho. destruct (Hq o Ho) as (n & ns & x & f & H1 & H2 & H3).
  exists n, ns, x, f. split_and!; [done| |done]. intros i.
  destruct H2 as [uid|b|id d Hr]; [done|done|]. cbn.
  rewrite (bool_decide_false (d_reason d = _)).
  - repeat case_match; done.
  - intros E. rewrite E in Hr. inversion Hr.
Qed.

(** Deleting is not idempotent: a policy of the operator's own that OpenSearch no longer has
    cannot be deleted, the error of the answer is returned every time and the resource keeps
    its finalizer. *)
Theorem ism_delete_needs_policy c id (w : oenv) h resp :
  w (OsDo c (ismRemoveOp id)) h = Ok resp -> hr_StatusCode resp = 404 -> hr_IsError resp = true ->
  exists e, (run w (DeleteISMPolicy c id) h).1 = Returned (Some e).
Proof. intros Hq _ He. eexists. by eapply run_sendPolicy_refused. Qed.

End Reconciler.
