(* ===== verification/SnapshotPolicy.v ===== *)
(** * SnapshotPolicy: snapshot policies and snapshot repositories

    Models [services/os_snapshotpolicy_service.go] and [os_snapshot_service.go], the reconciler
    [pkg/reconcilers/snapshotpolicy.go] as an instance of [PolicyCR], and the repositories of a
    cluster, [pkg/reconcilers/snapshotrepository.go]. *)

From S2P Require Import Prelude Prog Resources Api K8sClient Helpers OsClient OsData ReconcilerUtil Fixtures ManagedCR PolicyCR.
Import Sm.

(** ** Policies: the gateway *)

Definition snapshotpolicyResource : string := "_sm".

Definition generateAPIPathSnapshotPolicies (resource name : string) : string :=
  "/_plugins/" +:+ resource +:+ "/policies/" +:+ name.
Definition generateAPIPathSnapshotUpdatePolicies (resource name : string)
    (seqno primaryterm : Z) : string :=
  "/_plugins/" +:+ resource +:+ "/policies/" +:+ name +:+ "?if_seq_no=" +:+ Itoa seqno +:+
  "&if_primary_term=" +:+ Itoa primaryterm.

Definition GetSnapshotPolicyConfig (client : OsClusterClient) (name : string) :=
  doHTTPGet client (generateAPIPathSnapshotPolicies snapshotpolicyResource name) PSnapshotPolicy.
Definition CreateSnapshotPolicyConfig (client : OsClusterClient) (name : string) (b : body) :=
  doHTTPPost client (generateAPIPathSnapshotPolicies snapshotpolicyResource name) b.
Definition UpdateSnapshotPolicyConfig (client : OsClusterClient) (name : string)
    (seqnumber primterm : Z) (b : body) :=
  doHTTPPut client
    (generateAPIPathSnapshotUpdatePolicies snapshotpolicyResource name seqnumber primterm) b.
Definition DeleteSnapshotPolicyConfig (client : OsClusterClient) (name : string) :=
  doHTTPDelete client (generateAPIPathSnapshotPolicies snapshotpolicyResource name).

Definition GetSnapshotPolicy (service : OsClusterClient) (policyName : string)
    : io (result (option GetSnapshotPolicyResponse)) :=
  getPolicy (GetSnapshotPolicyConfig service policyName).

Definition CreateSnapshotPolicyIn (service : OsClusterClient)
    (snapshotpolicy : SnapshotPolicySpec) (policyName : string) : io (option err) :=
  sendPolicy (CreateSnapshotPolicyConfig service policyName (SnapshotPolicyBody snapshotpolicy))
    "failed to create snapshot policy: ".

Definition UpdateSnapshotPolicy (service : OsClusterClient) (snapshotpolicy : SnapshotPolicySpec)
    (seqno primterm : Z) (policyName : string) : io (option err) :=
  sendPolicy
    (UpdateSnapshotPolicyConfig service policyName seqno primterm (SnapshotPolicyBody snapshotpolicy))
    "failed to update snapshot policy: ".

Definition DeleteSnapshotPolicy (service : OsClusterClient) (policyName : string)
    : io (option err) :=
  sendPolicy (DeleteSnapshotPolicyConfig service policyName) "failed to delete snapshot policy: ".

(** ** Policies: the reconciler *)

(** Every struct is copied field by field. *)
Definition CreateSnapshotPolicy (i : OpensearchSnapshotPolicy) : build SnapshotPolicySpec :=
  Built (mkSnapshotPolicySpec (snp_PolicyName i) (snp_Description i) (snp_Enabled i)
           (snp_SnapshotConfig i) (snp_Creation i) (snp_Deletion i) (snp_Notification i)).

Definition snp_update (state reason name : string) (managed : option string)
    (existing : option bool) (i : OpensearchSnapshotPolicy) : OpensearchSnapshotPolicy :=
  mkSnapshotPolicyCR (snp_Name i) (snp_Namespace i) (snp_OpensearchRef i) (snp_PolicyName i)
    (snp_Description i) (snp_Enabled i) (snp_SnapshotConfig i) (snp_Creation i)
    (snp_Deletion i) (snp_Notification i) state reason name managed existing.

Definition snapshotOps : CRops KSnapshotPolicy :=
  mkCRops KSnapshotPolicy snp_OpensearchRef snp_Namespace snp_ManagedCluster
    (fun uid i => snp_update (snp_State i) (snp_Reason i) (snp_SnapshotPolicyName i) (Some uid)
                    (snp_ExistingSnapshotPolicy i) i)
    "a resource".

Definition opensearchSnapshotPolicyExists : string :=
  "snapshot policy already exists in OpenSearch; not modifying".

Definition snapshotPolicyName (i : OpensearchSnapshotPolicy) : string :=
  if snp_PolicyName i != "" then snp_PolicyName i else snp_Name i.

(** The deferred function. *)
Definition setSnapshotState (policyName : string) (d : done_with) (i : OpensearchSnapshotPolicy)
    : OpensearchSnapshotPolicy :=
  let created := match d_err d with None => RequeueAfter (d_result d) == 30 | Some _ => false end in
  let state := deferredState d (snp_State i) in
  let state := if d_reason d == opensearchSnapshotPolicyExists then "IGNORED" else state in
  snp_update state (d_reason d) (if created then policyName else snp_SnapshotPolicyName i)
    (snp_ManagedCluster i) (snp_ExistingSnapshotPolicy i) i.

Section Policies.
Context `{RP : RetryPolicy} `{PE : ProcEnv} `{CR : Crypto} `{CL : CmpLib}.

Definition snapshotPolicy : PolicyOps KSnapshotPolicy SnapshotPolicySpec PSnapshotPolicy :=
  mkPolicyOps KSnapshotPolicy SnapshotPolicySpec PSnapshotPolicy snapshotOps snapshotPolicyName
    CreateSnapshotPolicy (generateAPIPathSnapshotPolicies snapshotpolicyResource)
    snp_ExistingSnapshotPolicy
    (fun b i => snp_update (snp_State i) (snp_Reason i) (snp_SnapshotPolicyName i)
                  (snp_ManagedCluster i) (Some b) i)
    CreateSnapshotPolicyIn
    (fun _ _ _ => Ret None)
    (fun i d x => (snp_SnapshotPolicyName i == sps_PolicyName (gsp_Policy x)) &&
                  CmpEqual d (gsp_Policy x))
    (fun c d x => UpdateSnapshotPolicy c d (gsp_SequenceNumber x) (gsp_PrimaryTerm x)
                    (sps_PolicyName (gsp_Policy x)))
    DeleteSnapshotPolicy
    "failed to generate snapshot policy document"
    "failed to create snapshot policy"
    "failed to get the snapshot policy from Opensearch API"
    opensearchSnapshotPolicyExists
    "the Snapshot policy already exists in the OpenSearch cluster"
    "failed to update snapshotpolicy policy with Opensearch API"
    setSnapshotState.

Definition SnapshotPolicyReconcile (instance : OpensearchSnapshotPolicy)
    : io (Result * option err) := policyReconcile snapshotPolicy instance.
Definition SnapshotPolicyDelete (instance : OpensearchSnapshotPolicy) : io (option err) :=
  policyDelete snapshotPolicy instance.

Definition snapshotCreateOp (d : SnapshotPolicySpec) (id : string) : os_op :=
  OpHttp "POST" (generateAPIPathSnapshotPolicies snapshotpolicyResource id)
    (SnapshotPolicyBody d) PNone.
Definition snapshotUpdateOp (d : SnapshotPolicySpec) (x : GetSnapshotPolicyResponse) : os_op :=
  OpHttp "PUT" (generateAPIPathSnapshotUpdatePolicies snapshotpolicyResource
                  (sps_PolicyName (gsp_Policy x)) (gsp_SequenceNumber x) (gsp_PrimaryTerm x))
    (SnapshotPolicyBody d) PNone.
Definition snapshotRemoveOp (id : string) : os_op :=
  OpHttp "DELETE" (generateAPIPathSnapshotPolicies snapshotpolicyResource id) NoBody PNone.

(** Nothing follows the creation of a snapshot policy. *)
Definition nothing (_ : OpensearchSnapshotPolicy) (_ : string) (_ : ohist) (_ : OsClusterClient)
    (_ : os_op) : Prop := False.

#[export] Instance snapshotPolicy_laws :
  PolicyLaws snapshotPolicy snapshotCreateOp snapshotUpdateOp snapshotRemoveOp nothing.
Proof. split; try done. intros c d id h. apply wp_sendPolicy. Qed.

End Policies.

(** ** Repositories *)

Definition generateAPIPathSnapshotRepository (name : string) : string := "/_snapshot/" +:+ name.

Definition client_GetSnapshotRepository (client : OsClusterClient) (name : string) :=
  doHTTPGet client (generateAPIPathSnapshotRepository name) PSnapshotRepos.
Definition client_CreateSnapshotRepository (client : OsClusterClient) (name : string) (b : body) :=
  doHTTPPut client (generateAPIPathSnapshotRepository name) b.
Definition client_UpdateSnapshotRepository (client : OsClusterClient) (name : string) (b : body) :=
  doHTTPPut client (generateAPIPathSnapshotRepository name) b.

(** [None] stands for [ErrRepoNotFound]. *)
Definition GetSnapshotRepository (service : OsClusterClient) (repositoryName : string)
    : io (result (option SnapshotRepositoryReq)) :=
  let! r := getPolicy (client_GetSnapshotRepository service repositoryName) in
  Ret match r with
      | Err e => Err e
      | Ok None => Ok None
      | Ok (Some repos) => Ok ((repos : gmap string SnapshotRepositoryReq) !! repositoryName)
      end.

Definition CreateSnapshotRepository (service : OsClusterClient) (repositoryName : string)
    (repository : SnapshotRepositoryReq) : io (option err) :=
  sendPolicy (client_CreateSnapshotRepository service repositoryName (SnapshotRepoBody repository))
    "failed to create snapshot repository: ".
Definition UpdateSnapshotRepository (service : OsClusterClient) (repositoryName : string)
    (repository : SnapshotRepositoryReq) : io (option err) :=
  sendPolicy (client_UpdateSnapshotRepository service repositoryName (SnapshotRepoBody repository))
    "failed to update snapshot repository: ".

Definition mapSnapshotRepository (repository : SnapshotRepoConfig) : SnapshotRepositoryReq :=
  mkSnapshotRepoReq (sr_Type repository) (sr_Settings repository).

Section Repositories.
Context `{RP : RetryPolicy} `{PE : ProcEnv} `{CR : Crypto} `{CL : CmpLib}.

Definition ShouldUpdateSnapshotRepository (newRepository existingRepository : SnapshotRepositoryReq)
    : bool := negb (CmpEqual newRepository existingRepository).

Definition ReconcileRepository (osClient : OsClusterClient) (repoConfig : SnapshotRepoConfig)
    : io (option err) :=
  let newSnapshotRepository := mapSnapshotRepository repoConfig in
  let! r := GetSnapshotRepository osClient (sr_Name repoConfig) in
  match r with
  | Err e =>
      do! ask (RecordEvent "Warning" "OpensearchAPIError"
                 "failed to get snapshot repository from Opensearch API") in
      Ret (Some e)
  | Ok None =>
      let! e := CreateSnapshotRepository osClient (sr_Name repoConfig) newSnapshotRepository in
      match e with
      | Some e =>
          do! ask (RecordEvent "Warning" "OpensearchAPIError"
                     "failed to create snapshot repository") in
          Ret (Some e)
      | None =>
          do! ask (RecordEvent "Normal" "OpensearchAPIUpdated"
                     "snapshot repository created in opensearch") in
          Ret None
      end
  | Ok (Some existingRepository) =>
      if ShouldUpdateSnapshotRepository newSnapshotRepository existingRepository then
        let! e := UpdateSnapshotRepository osClient (sr_Name repoConfig) newSnapshotRepository in
        do! match e with
            | Some _ => ask (RecordEvent "Warning" "OpensearchAPIError"
                               "failed to update snapshot repository")
            | None => ask (RecordEvent "Normal" "OpensearchAPIUpdated"
                             "snapshot repository updated in opensearch")
            end in
        Ret e
      else Ret None
  end.

(** The loop over the repositories keeps the last error and goes on. *)
Definition repositoryStep (osClient : OsClusterClient) (repoConfig : SnapshotRepoConfig)
    (lastErr : option err) : io (option err + Empty_set) :=
  let! e := ReconcileRepository osClient repoConfig in
  Ret (inl match e with Some e => Some e | None => lastErr end).

Definition SnapshotRepositoryReconcile (instance : OpenSearchCluster) : io (Result * option err) :=
  match g_SnapshotRepositories (sp_General (cl_Spec instance)) with
  | [] => Ret (noResult, None)
  | repositories =>
      if st_Phase (cl_Status instance) != PhaseRunning then
        do! ask (RecordEvent "Normal" "OpensearchPending"
                   "waiting for opensearch cluster status to be running") in
        Ret (requeueIn 10, None)
      else
        let! os := CreateClientForCluster instance in
        match os with
        | Err e =>
            do! ask (RecordEvent "Warning" "OpensearchError" "error creating opensearch client") in
            Ret (requeueIn 30, Some e)
        | Ok osClient =>
            let! r := for_range repositories None (repositoryStep osClient) in
            match r with
            | inl (Some e) => Ret (requeueIn 30, Some e)
            | inl None => Ret (noResult, None)
            | inr x => match x with end
            end
        end
  end.

(** ** Rules *)

(** The repository OpenSearch has under that name, from its answer. *)
Definition repo_seen (h : ohist) (c : OsClusterClient) (name : string)
    (x : option SnapshotRepositoryReq) : Prop :=
  exists resp, saw h (OsDo c (OpHttp "GET" (generateAPIPathSnapshotRepository name) NoBody
                                PSnapshotRepos)) (Ok resp) /\
    match x with
    | Some r => exists repos : gmap string SnapshotRepositoryReq,
        hr_Body resp = Ok repos /\ repos !! name = Some r
    | None => hr_StatusCode resp = 404 \/
        exists repos : gmap string SnapshotRepositoryReq,
          hr_Body resp = Ok repos /\ repos !! name = None
    end.

Lemma repo_seen_extends h h' c n x : extends h h' -> repo_seen h c n x -> repo_seen h' c n x.
Proof. intros He (resp & Hs & Hr). exists resp. split; [by eapply saw_extends|done]. Qed.

(** The only changes: the configuration of a repository of the cluster, where OpenSearch has no
    repository of that name or another one. *)
Definition repo_write (instance : OpenSearchCluster) (h : ohist) (c : OsClusterClient) (op : os_op)
    : Prop :=
  os_URL c = ClusterURL instance /\ st_Phase (cl_Status instance) = PhaseRunning /\
  exists r x, r ∈ g_SnapshotRepositories (sp_General (cl_Spec instance)) /\
    op = OpHttp "PUT" (generateAPIPathSnapshotRepository (sr_Name r))
           (SnapshotRepoBody (mapSnapshotRepository r)) PNone /\
    repo_seen h c (sr_Name r) x /\
    (forall y, x = Some y -> CmpEqual (mapSnapshotRepository r) y = false).

Lemma wp_GetRepository c name W (Q : _ -> outcome (result (option SnapshotRepositoryReq)) -> Prop) h :
  (forall h' r, extends h h' -> (forall x, r = Ok x -> repo_seen h' c name x) ->
     Q h' (Returned r)) ->
  wp (GetSnapshotRepository c name) (api_guarded W) Q h.
Proof.
  intros HQ. unfold GetSnapshotRepository, getPolicy, client_GetSnapshotRepository, doHTTPGet. wp_step. wp_step; [by left; left|].
  do 3 wp_step. destruct r as [resp|e]; [|by apply HQ; [ext|]].
  case_bool_decide as E.
  { apply HQ; [ext|]. intros x [= <-]. exists resp. split; [apply saw_here|by left]. }
  destruct (hr_IsError _); [by apply HQ; [ext|]|].
  destruct (hr_Body _) as [repos|e] eqn:Eb; (apply HQ; [ext|]); [|done].
  intros x [= <-]. exists resp. split; [apply saw_here|].
  destruct ((repos : gmap string SnapshotRepositoryReq) !! name) eqn:El; [|right]; by exists repos.
Qed.

Lemma wp_ReconcileRepository c r W h :
  (forall h' x, extends h h' -> repo_seen h' c (sr_Name r) x ->
     (forall y, x = Some y -> CmpEqual (mapSnapshotRepository r) y = false) ->
     W h' c (OpHttp "PUT" (generateAPIPathSnapshotRepository (sr_Name r))
               (SnapshotRepoBody (mapSnapshotRepository r)) PNone)) ->
  wp (ReconcileRepository c r) (api_guarded W) (λ _ _, True) h.
Proof.
  intros HW. unfold ReconcileRepository. cbv zeta. wp_step. apply wp_GetRepository.
  intros h1 [[y|]|e] H1 Hx; wp_step; [| |api_done].
  - unfold ShouldUpdateSnapshotRepository. destruct (CmpEqual _ _) eqn:E; cbn [negb]; [by wp_step|].
    eapply wp_sends; [apply only_sendPolicy| |intros h2 e H2; api_done].
    intros h2 H2. apply (HW h2 (Some y)); [ext|eapply repo_seen_extends; eauto|naive_solver].
  - eapply wp_sends; [apply only_sendPolicy| |intros h2 [e|] H2; api_done].
    intros h2 H2. apply (HW h2 None); [ext|eapply repo_seen_extends; eauto|done].
Qed.

Lemma wp_SnapshotRepositoryReconcile (instance : OpenSearchCluster) h :
  wp (SnapshotRepositoryReconcile instance) (api_guarded (repo_write instance)) (λ _ _, True) h.
Proof.
  unfold SnapshotRepositoryReconcile.
  destruct (g_SnapshotRepositories _) as [|r0 rs] eqn:Er; [by wp_step|]. rewrite <- Er.
  case_bool_decide as Ep; cbn [negb]; [|api_done].
  wp_step. apply wp_CreateClient; [|done]. intros h1 [c|e] H1 Hc; wp_step; [|api_done].
  apply wp_after; [|intros h2 [[e|]|x] H2; by wp_step].
  set (repos := g_SnapshotRepositories _) in *.
  apply (wp_for_range (λ rest _ h', extends h1 h' /\ rest ⊆ repos)); [by split; [ext|]| |done].
  intros r rest last h2 [H2 Hs]. unfold repositoryStep. wp_step.
  eapply wp_mono_ext; [intros h' q _ H; exact H| |apply wp_ReconcileRepository].
  - intros h3 [e|m] H3 _; [|done]. wp_step. wp_step. cbn. split; [ext|set_solver].
  - intros h3 x H3 Hx Hy. split_and!; [auto|done|]. exists r, x. split_and!; [set_solver|done|done|done].
Qed.

(** Every repository is looked up, whatever happens to the others. *)
Definition asked (h : ohist) (c : OsClusterClient) (name : string) : Prop :=
  exists r, saw h (OsDo c (OpHttp "GET" (generateAPIPathSnapshotRepository name) NoBody
                             PSnapshotRepos)) r.

Lemma wp_repository_asked c r h :
  wp (ReconcileRepository c r) (λ _ _, True)
    (λ h' o, (exists e, o = Returned e) /\ asked h' c (sr_Name r)) h.
Proof.
  unfold ReconcileRepository, GetSnapshotRepository, getPolicy, client_GetSnapshotRepository, doHTTPGet,
    CreateSnapshotRepository, UpdateSnapshotRepository, sendPolicy,
    client_CreateSnapshotRepository, client_UpdateSnapshotRepository, doHTTPPut. cbv zeta.
  do 2 wp_step. wp_step; [done|]. do 3 wp_step.
  repeat first [wp_step; [done|]|wp_step];
    (split; [by eexists|eexists; eauto 8 with go]).
Qed.

Lemma wp_repositories_asked c repos h :
  wp (for_range repos None (repositoryStep c)) (λ _ _, True)
    (λ h' o, (exists s, o = Returned (inl s)) /\
             forall r, r ∈ repos -> asked h' c (sr_Name r)) h.
Proof.
  apply (wp_for_range (λ rest _ h', forall r, r ∈ repos -> r ∈ rest \/ asked h' c (sr_Name r)));
    [auto| |].
  - intros r rest last h1 Hi. unfold repositoryStep. wp_step.
    eapply wp_mono_ext; [done| |apply wp_repository_asked].
    intros h2 o H2 [[e ->] Hr]. wp_step. wp_step. cbn. intros r' Hr'.
    destruct (Hi r' Hr') as [[->|H]%elem_of_cons|[x H]]; [by right|by left|right].
    exists x. by eapply saw_extends.
  - intros s h1 Hi. split; [by eexists|]. intros r Hr.
    destruct (Hi r Hr) as [H|H]; [by apply elem_of_nil in H|done].
Qed.

End Repositories.

(** ** Theorems *)

Section SnapshotTheorems.
Context `{RP : RetryPolicy} `{PE : ProcEnv} `{CR : Crypto} `{CL : CmpLib}.

(** The snapshot policy reconciler changes only policies that are its own: it creates the
    document of its resource when OpenSearch has said that it has no policy of that name, and
    updates a policy only when the resource records that the operator has created it, under
    the sequence number and primary term it was read with; a deletion needs the same record. *)
Theorem snapshot_changes_guarded (instance : OpensearchSnapshotPolicy) (w : oenv) :
  calls_ok (api_guarded (policy_write snapshotPolicy snapshotCreateOp snapshotUpdateOp nothing instance))
    (run w (SnapshotPolicyReconcile instance) []).2 /\
  calls_ok (api_guarded (policy_delete snapshotPolicy snapshotRemoveOp instance))
    (run w (SnapshotPolicyDelete instance) []).2.
Proof. split; eapply wp_run; [apply wp_policyReconcile|apply wp_policyDelete]. Qed.

(** A snapshot policy whose resource leaves the policy name to its default is never in sync: the
    document has an empty name, the policy in OpenSearch does not, so every reconciliation
    sends an update. *)
Theorem snapshot_default_name_never_in_sync `{!CmpLaws} (i : OpensearchSnapshotPolicy) d x :
  CreateSnapshotPolicy i = Built d -> snp_PolicyName i = "" ->
  sps_PolicyName (gsp_Policy x) <> "" ->
  po_inSync snapshotPolicy i d x = false.
Proof.
  intros [= <-] Hn Hx. cbn. apply andb_false_iff. right. apply not_true_iff_false.
  intros Hc. apply (proj1 (CmpEqual_spec _ _)) in Hc. rewrite <- Hc in Hx. by cbn in Hx.
Qed.

(** Snapshot repositories: a cluster's reconciler writes only repositories of its
    configuration, to its own running cluster, and only where OpenSearch has no such repository
    or one with another configuration; and once it has a client, every configured repository
    is looked up, even if the ones before it have failed. *)
Theorem repository_changes_guarded (instance : OpenSearchCluster) (w : oenv) c h :
  calls_ok (api_guarded (repo_write instance)) (run w (SnapshotRepositoryReconcile instance) []).2 /\
  (let repos := g_SnapshotRepositories (sp_General (cl_Spec instance)) in
   let '(o, h') := run w (for_range repos None (repositoryStep c)) h in
   (exists s, o = Returned (inl s)) /\ forall r, r ∈ repos -> asked h' c (sr_Name r)).
Proof.
  split; [eapply wp_run, wp_SnapshotRepositoryReconcile|]. cbv zeta.
  pose proof (wp_repositories_asked c (g_SnapshotRepositories (sp_General (cl_Spec instance))) h) as H.
  apply (wp_sound w) in H as [H _]; [|clear; induction h; simpl; auto].
  by destruct (run _ _ _).
Qed.

End SnapshotTheorems.
