(* ===== verification/Admission.v ===== *)
(** * Admission: the webhooks of the remaining resources

    Models the validators of tenants, action groups, templates and policies
    ([webhook/opensearch_*_webhook.go]) and those of the deprecated API group
    ([webhook/opensearch_*_legacy_webhook.go]), and shows how what the webhooks accept meets
    what the reconcilers assume. *)

From S2P Require Import Prelude Prog Resources Api Json K8sClient Helpers OsClient OsData ReconcilerUtil Fixtures Webhooks ManagedCR Owned Security Templates PolicyCR IsmPolicy SnapshotPolicy.

Definition notEmpty (s what : string) : option err :=
  if s == "" then Some (OtherErr (what +:+ " cannot be empty")) else None.

(** A recorded name must stay the one in use. *)
Definition nameUnchanged (recorded used what : string) : option err :=
  if (recorded != "") && (recorded != used)
  then Some (OtherErr ("cannot change the " +:+ what)) else None.

(** ** Tenants and action groups *)

Definition TenantValidateCreate (tenant : OpensearchTenant) : io (option err) :=
  let! e := validateClusterReference (ten_OpensearchRef tenant) (ten_Namespace tenant) in
  Ret (orElse e None).
Definition TenantValidateUpdate (oldTenant newTenant : OpensearchTenant) : option err :=
  orElse (validateClusterReferenceUnchanged "a tenant" (ten_OpensearchRef oldTenant)
            (ten_OpensearchRef newTenant)) None.

Definition validateAllowedActions (actionGroup : OpensearchActionGroup) : option err :=
  match agr_AllowedActions actionGroup with
  | [] => Some (OtherErr "allowedActions cannot be empty")
  | _ => None
  end.
Definition ActionGroupValidateCreate (actionGroup : OpensearchActionGroup) : io (option err) :=
  let! e := validateClusterReference (agr_OpensearchRef actionGroup) (agr_Namespace actionGroup) in
  Ret (orElse e (validateAllowedActions actionGroup)).
Definition ActionGroupValidateUpdate (oldActionGroup newActionGroup : OpensearchActionGroup)
    : option err :=
  orElse (validateClusterReferenceUnchanged "an action group" (agr_OpensearchRef oldActionGroup)
            (agr_OpensearchRef newActionGroup))
    (validateAllowedActions newActionGroup).

(** ** Templates *)

Definition IndexTemplateValidateCreate (t : OpensearchIndexTemplate) : io (option err) :=
  let! e := validateClusterReference (itp_OpensearchRef t) (itp_Namespace t) in
  Ret (orElse e None).
Definition IndexTemplateValidateUpdate (old new : OpensearchIndexTemplate) : option err :=
  match itp_DeletionTimestamp new with
  | Some _ => None
  | None =>
      orElse (validateClusterReferenceUnchanged "an index template" (itp_OpensearchRef old)
                (itp_OpensearchRef new))
        (nameUnchanged (itp_IndexTemplateName old) (indexTemplateName new) "index template name")
  end.

Definition ComponentTemplateValidateCreate (t : OpensearchComponentTemplate) : io (option err) :=
  let! e := validateClusterReference (ctp_OpensearchRef t) (ctp_Namespace t) in
  Ret (orElse e None).
Definition ComponentTemplateValidateUpdate (old new : OpensearchComponentTemplate) : option err :=
  orElse (validateClusterReferenceUnchanged "a component template" (ctp_OpensearchRef old)
            (ctp_OpensearchRef new))
    (nameUnchanged (ctp_ComponentTemplateName old) (componentTemplateName new)
       "component template name").

(** ** Policies *)

Fixpoint defaultStateExists (defaultState : string) (states : list Ism.State) : bool :=
  match states with
  | [] => false
  | s :: rest => if Ism.sta_Name s == defaultState then true else defaultStateExists defaultState rest
  end.
Definition validateDefaultStateExists (policy : OpenSearchISMPolicy) : option err :=
  if defaultStateExists (ism_DefaultState policy) (ism_States policy) then None
  else Some (OtherErr ("defaultState '" +:+ ism_DefaultState policy +:+
                       "' does not exist in states")).

Definition validateIsmSpec (policy : OpenSearchISMPolicy) : option err :=
  orElse (match ism_States policy with
          | [] => Some (OtherErr "states cannot be empty")
          | _ => None
          end)
    (orElse (notEmpty (ism_DefaultState policy) "defaultState")
       (validateDefaultStateExists policy)).

Definition IsmValidateCreate (policy : OpenSearchISMPolicy) : io (option err) :=
  let! e := validateClusterReference (ism_OpensearchRef policy) (ism_Namespace policy) in
  Ret (orElse e (validateIsmSpec policy)).
Definition IsmValidateUpdate (oldPolicy newPolicy : OpenSearchISMPolicy) : option err :=
  orElse (validateClusterReferenceUnchanged "an ISM policy" (ism_OpensearchRef oldPolicy)
            (ism_OpensearchRef newPolicy))
    (orElse (nameUnchanged (ism_StatusPolicyId oldPolicy) (ismPolicyId newPolicy) "ISM policy ID")
       (validateIsmSpec newPolicy)).

Definition validateSnapshotSpec (policy : OpensearchSnapshotPolicy) : option err :=
  orElse (notEmpty (snp_PolicyName policy) "policyName")
    (orElse (notEmpty (Sm.sco_Repository (snp_SnapshotConfig policy)) "snapshotConfig.repository")
       (notEmpty (Sm.crs_Expression (Sm.scr_Schedule (snp_Creation policy)))
          "creation.schedule.cron.expression")).

Definition SnapshotValidateCreate (policy : OpensearchSnapshotPolicy) : io (option err) :=
  let! e := validateClusterReference (snp_OpensearchRef policy) (snp_Namespace policy) in
  Ret (orElse e (validateSnapshotSpec policy)).
Definition SnapshotValidateUpdate (oldPolicy newPolicy : OpensearchSnapshotPolicy) : option err :=
  orElse (validateClusterReferenceUnchanged "a snapshot policy" (snp_OpensearchRef oldPolicy)
            (snp_OpensearchRef newPolicy))
    (orElse (nameUnchanged (snp_SnapshotPolicyName oldPolicy) (snp_PolicyName newPolicy)
               "snapshot policy name")
       (validateSnapshotSpec newPolicy)).

(** ** The deprecated API group *)

(** What the legacy validators look at: the deletion timestamp and the spec, which is compared by
    its JSON encoding; the rest of the metadata is not looked at. *)
Record LegacyObject := mkLegacy {
  lo_DeletionTimestamp : option string;
  lo_Labels : gmap string string;
  lo_Annotations : gmap string string;
  lo_Spec : json }.

Definition isStatusOnlyUpdate (oldSpec newSpec : json) : bool := oldSpec == newSpec.

Definition legacyValidateCreate (kindName : string) (_ : LegacyObject) : option err :=
  Some (OtherErr ("opensearch.opster.io/v1 API group is deprecated. Please use " +:+
        "opensearch.org/v1 instead. Creation of old API group " +:+ kindName +:+
        " resources is not allowed")).
Definition legacyValidateUpdate (kindName : string) (old new : LegacyObject) : option err :=
  match lo_DeletionTimestamp new with
  | Some _ => None
  | None =>
      if isStatusOnlyUpdate (lo_Spec old) (lo_Spec new) then None
      else Some (OtherErr ("opensearch.opster.io/v1 API group is deprecated. Direct updates to " +:+
                 "old API group " +:+ kindName +:+ " resources are not allowed. Please update " +:+
                 "the opensearch.org/v1 resource instead"))
  end.

Definition ClusterLegacyValidate := (legacyValidateCreate "OpenSearchCluster", legacyValidateUpdate "OpenSearchCluster").
Definition RoleLegacyValidate := (legacyValidateCreate "OpensearchRole", legacyValidateUpdate "OpensearchRole").
Definition UserLegacyValidate := (legacyValidateCreate "OpensearchUser", legacyValidateUpdate "OpensearchUser").
Definition BindingLegacyValidate :=
  (legacyValidateCreate "OpensearchUserRoleBinding", legacyValidateUpdate "OpensearchUserRoleBinding").
Definition TenantLegacyValidate := (legacyValidateCreate "OpensearchTenant", legacyValidateUpdate "OpensearchTenant").
Definition ActionGroupLegacyValidate :=
  (legacyValidateCreate "OpensearchActionGroup", legacyValidateUpdate "OpensearchActionGroup").
Definition IndexTemplateLegacyValidate :=
  (legacyValidateCreate "OpensearchIndexTemplate", legacyValidateUpdate "OpensearchIndexTemplate").
Definition ComponentTemplateLegacyValidate :=
  (legacyValidateCreate "OpensearchComponentTemplate", legacyValidateUpdate "OpensearchComponentTemplate").
Definition IsmLegacyValidate :=
  (legacyValidateCreate "OpenSearchISMPolicy", legacyValidateUpdate "OpenSearchISMPolicy").
Definition SnapshotLegacyValidate :=
  (legacyValidateCreate "OpensearchSnapshotPolicy", legacyValidateUpdate "OpensearchSnapshotPolicy").

(** ** Lemmas *)

Lemma notEmpty_spec s what (e : option err) : orElse (notEmpty s what) e = None <-> s <> "" /\ e = None.
Proof. unfold notEmpty. case_bool_decide; cbn; naive_solver. Qed.

Lemma nameUnchanged_spec recorded used what (e : option err) :
  orElse (nameUnchanged recorded used what) e = None <->
  (recorded = "" \/ recorded = used) /\ e = None.
Proof. unfold nameUnchanged. repeat case_bool_decide; cbn; naive_solver. Qed.

Lemma defaultStateExists_spec d states :
  defaultStateExists d states = true <-> d ∈ (Ism.sta_Name <$> states).
Proof.
  induction states as [|s rest IH]; simpl; [by rewrite elem_of_nil|].
  rewrite elem_of_cons, <- IH. case_bool_decide; naive_solver.
Qed.

Lemma validateIsmSpec_spec policy :
  validateIsmSpec policy = None <->
  ism_DefaultState policy <> "" /\ ism_DefaultState policy ∈ (Ism.sta_Name <$> ism_States policy).
Proof.
  unfold validateIsmSpec, validateDefaultStateExists.
  assert ((if defaultStateExists (ism_DefaultState policy) (ism_States policy) then None
           else Some (OtherErr ("defaultState '" +:+ ism_DefaultState policy +:+
                       "' does not exist in states"))) = None <->
    ism_DefaultState policy ∈ (Ism.sta_Name <$> ism_States policy)) as H.
  { rewrite <- defaultStateExists_spec. by destruct (defaultStateExists _ _). }
  destruct (ism_States policy) as [|s rest] eqn:E.
  - simpl. split; [done|]. by intros [_ ?%elem_of_nil].
  - cbn [orElse]. by rewrite notEmpty_spec, H.
Qed.

Lemma orElse_None (e : option err) : orElse e None = e.
Proof. by destruct e. Qed.

(** ** Theorems *)

(** An ISM policy is accepted on creation exactly when its cluster is found and its default
    state is one of its states and not empty, and an update exactly when moreover the cluster
    stays the same and a recorded identifier stays the one in use; the document that the
    reconciler builds from an accepted policy has its default state among its states. *)
Theorem ism_admission (old new : OpenSearchISMPolicy) (w : oenv) :
  let spec_ok := ism_DefaultState new <> "" /\
                 ism_DefaultState new ∈ (Ism.sta_Name <$> ism_States new) in
  let '(o, h) := run w (IsmValidateCreate new) [] in
  (o = Returned None <-> cluster_found h (ism_OpensearchRef new) (ism_Namespace new) /\ spec_ok) /\
  (IsmValidateUpdate old new = None <->
   ism_OpensearchRef old = ism_OpensearchRef new /\
   (ism_StatusPolicyId old = "" \/ ism_StatusPolicyId old = ismPolicyId new) /\ spec_ok) /\
  (o = Returned None \/ IsmValidateUpdate old new = None ->
   forall p, CreateISMPolicy new = Built p ->
   Ism.pol_DefaultState p ∈ (Ism.sta_Name <$> Ism.pol_States p)).
Proof.
  cbv zeta. unfold IsmValidateUpdate, IsmValidateCreate.
  pose proof (reference_then_spec (ism_OpensearchRef new) (ism_Namespace new)
                (validateIsmSpec new) w) as H.
  destruct (run _ _ _) as [o h].
  rewrite <- validateIsmSpec_spec, unchanged_spec, nameUnchanged_spec. split_and!; [done|done|].
  intros Hacc p [_ (Hd & _ & _ & _ & Hst)]%CreateISMPolicy_spec.
  assert (validateIsmSpec new = None) as [_ Hin]%validateIsmSpec_spec by naive_solver.
  rewrite Hd. replace (Ism.sta_Name <$> Ism.pol_States p) with (Ism.sta_Name <$> ism_States new);
    [done|]. clear -Hst. induction Hst as [|s s' l l' (Hn & _) _ IH]; [done|].
  rewrite !fmap_cons. by rewrite Hn, IH.
Qed.

(** Template names: an accepted update of an index template keeps a recorded name, so that
    the reconciler's own check passes as long as the record stays; a component template whose
    name is not recorded can be renamed. *)
Theorem template_renames (old new : OpensearchIndexTemplate) (cold cnew : OpensearchComponentTemplate) :
  (itp_DeletionTimestamp new = None -> IndexTemplateValidateUpdate old new = None ->
   itp_IndexTemplateName new = itp_IndexTemplateName old ->
   forall r m, nameMismatch (itp_IndexTemplateName new) (indexTemplateName new) r m = None) /\
  (ctp_ComponentTemplateName cold = "" ->
   ComponentTemplateValidateUpdate cold cnew = None <->
   ctp_OpensearchRef cold = ctp_OpensearchRef cnew).
Proof.
  unfold IndexTemplateValidateUpdate, ComponentTemplateValidateUpdate. split.
  - intros -> Hu Hs r m. apply unchanged_spec in Hu as [_ Hu]. rewrite Hs.
    rewrite <- (orElse_None (nameUnchanged _ _ _)) in Hu. apply nameUnchanged_spec in Hu as [Hu _].
    unfold nameMismatch. repeat case_bool_decide; naive_solver.
  - intros Hn. rewrite unchanged_spec. rewrite <- (orElse_None (nameUnchanged _ _ _)).
    rewrite nameUnchanged_spec. naive_solver.
Qed.

(** A snapshot policy is accepted on creation exactly when its cluster is found and its name,
    repository and schedule are given, and an update exactly when moreover the cluster stays
    the same and a recorded name stays the one given; so the name of an accepted policy is the
    one the reconciler uses, and its document carries it. *)
Theorem snapshot_admission (old new : OpensearchSnapshotPolicy) (w : oenv) :
  let spec_ok := snp_PolicyName new <> "" /\
                 Sm.sco_Repository (snp_SnapshotConfig new) <> "" /\
                 Sm.crs_Expression (Sm.scr_Schedule (snp_Creation new)) <> "" in
  let '(o, h) := run w (SnapshotValidateCreate new) [] in
  (o = Returned None <-> cluster_found h (snp_OpensearchRef new) (snp_Namespace new) /\ spec_ok) /\
  (SnapshotValidateUpdate old new = None <->
   snp_OpensearchRef old = snp_OpensearchRef new /\
   (snp_SnapshotPolicyName old = "" \/ snp_SnapshotPolicyName old = snp_PolicyName new) /\
   spec_ok) /\
  (o = Returned None \/ SnapshotValidateUpdate old new = None ->
   exists d, CreateSnapshotPolicy new = Built d /\ Sm.sps_PolicyName d = snapshotPolicyName new).
Proof.
  cbv zeta. set (ok := _ <> "" /\ _). assert (validateSnapshotSpec new = None <-> ok) as Hs.
  { unfold validateSnapshotSpec. rewrite <- (orElse_None (notEmpty _ "creation.schedule.cron.expression")).
    rewrite !notEmpty_spec. unfold ok. naive_solver. }
  unfold SnapshotValidateUpdate, SnapshotValidateCreate.
  pose proof (reference_then_spec (snp_OpensearchRef new) (snp_Namespace new)
                (validateSnapshotSpec new) w) as H.
  destruct (run _ _ _) as [o h]. rewrite <- Hs, unchanged_spec, nameUnchanged_spec. split_and!; [done|done|]. intros Hacc.
  assert (ok) as [Hn _] by naive_solver. eexists. split; [done|]. cbn. unfold snapshotPolicyName.
  by rewrite bool_decide_false by done.
Qed.

(** The deprecated API group: no resource can be created, and an update is accepted exactly
    when the resource is being deleted or its spec stays the same; changes of labels and
    annotations are accepted, although the validators are documented to deny all updates of
    users. *)
Theorem legacy_admission kindName (old new : LegacyObject) :
  legacyValidateCreate kindName new <> None /\
  (legacyValidateUpdate kindName old new = None <->
   is_Some (lo_DeletionTimestamp new) \/ lo_Spec old = lo_Spec new).
Proof.
  split; [done|]. unfold legacyValidateUpdate, isStatusOnlyUpdate.
  destruct (lo_DeletionTimestamp new); [naive_solver|].
  case_bool_decide; split; naive_solver.
Qed.
