(* ===== verification/Migration.v ===== *)
(** * Migration: from the API group [opensearch.opster.io] to [opensearch.org]

    Models [controllers/migration_controller.go]: the reconciler of clusters and the generic
    one of the nine other kinds.  Both keep the object of the old group and the one of the new
    group in step: the new one is created from a ready old one, the old one is deleted when
    the new one is gone, and finalizers hold either back until that is safe.

    The two reconcilers have the same structure; [MigOps] holds what differs.  The controllers
    talk to the API server only, with requests of their own ([mreq]); a spec is its JSON
    encoding, which the conversion between the two groups leaves as it is ([Conversion]). *)

From S2P Require Import Prelude Prog Resources Api K8sClient Helpers.

(** ** Objects and requests *)

(** The metadata and status of a custom resource.  [ms_State] is the [State] of a resource or
    the [Phase] of a cluster; [ms_Components] is the list [ComponentsStatus] of a cluster, where
    nil and empty are told apart; [ms_Rest] is everything else. *)
Record MStatus := mkMStatus {
  ms_State : string;
  ms_ManagedCluster : option string;
  ms_Components : option (list json);
  ms_Rest : json }.
Record MObj := mkMObj {
  mo_Name : string;
  mo_Namespace : string;
  mo_UID : string;
  mo_ResourceVersion : string;
  mo_DeletionTimestamp : option string;
  mo_Finalizers : list string;
  mo_Labels : gmap string string;
  mo_Annotations : gmap string string;
  mo_Spec : json;
  mo_Status : MStatus }.
Record CertSecret := mkCertSecret {
  ce_Name : string;
  ce_Namespace : string;
  ce_OwnerReferences : list OwnerReference;
  ce_Data : gmap string string }.

#[global] Instance MStatus_eq_dec : EqDecision MStatus.
Proof. solve_decision. Defined.

Definition emptyStatus : MStatus := mkMStatus "" None None JNull.

Definition set_Finalizers (l : list string) (o : MObj) : MObj :=
  mkMObj (mo_Name o) (mo_Namespace o) (mo_UID o) (mo_ResourceVersion o)
    (mo_DeletionTimestamp o) l (mo_Labels o) (mo_Annotations o) (mo_Spec o) (mo_Status o).
Definition set_Annotations (m : gmap string string) (o : MObj) : MObj :=
  mkMObj (mo_Name o) (mo_Namespace o) (mo_UID o) (mo_ResourceVersion o)
    (mo_DeletionTimestamp o) (mo_Finalizers o) (mo_Labels o) m (mo_Spec o) (mo_Status o).
Definition set_Status (s : MStatus) (o : MObj) : MObj :=
  mkMObj (mo_Name o) (mo_Namespace o) (mo_UID o) (mo_ResourceVersion o)
    (mo_DeletionTimestamp o) (mo_Finalizers o) (mo_Labels o) (mo_Annotations o) (mo_Spec o) s.

Inductive group := OldGroup | NewGroup.
#[global] Instance group_eq_dec : EqDecision group.
Proof. solve_decision. Defined.

Inductive mreq :=
| MGet (g : group) (kind name ns : string)
| MCreate (kind : string) (o : MObj)
| MUpdate (g : group) (kind : string) (o : MObj)
| MStatusUpdate (g : group) (kind : string) (o : MObj)
| MDelete (kind name ns : string)
| MGetSecret (name ns : string)
| MUpdateSecret (s : CertSecret)
| MNow.

(** The client overwrites the object given to a creation or an update with the server's. *)
Definition mresp (q : mreq) : Type :=
  match q with
  | MGet _ _ _ _ | MCreate _ _ | MUpdate _ _ _ => result MObj
  | MStatusUpdate _ _ _ | MDelete _ _ _ | MUpdateSecret _ => option err
  | MGetSecret _ _ => result CertSecret
  | MNow => string
  end.

Abbreviation mig := (prog mresp).
Abbreviation mhist := (hist mresp).
Abbreviation mask := (@call mreq mresp).

(** ** Constants and helpers *)

Definition MigratedFromAnnotation : string := "opensearch.org/migrated-from".
Definition MigrationTimestampAnnotation : string := "opensearch.org/migration-timestamp".
Definition SourceUIDAnnotation : string := "opensearch.org/source-uid".
Definition DeletedByNewResourceAnnotation : string := "opensearch.org/deleted-by-new-resource".
Definition CertOwnershipTransferredAnnotation : string :=
  "opensearch.org/cert-ownership-transferred".
Definition MigrationFinalizer : string := "opensearch.org/migration".
Definition OldClusterFinalizer : string := "Opster".
Definition OldResourceFinalizer : string := "opster.io/opensearch-data".

Fixpoint containsString (slice : list string) (s : string) : bool :=
  match slice with
  | [] => false
  | item :: rest => if item == s then true else containsString rest s
  end.

Definition removeString (slice : list string) (s : string) : list string :=
  filter (λ item, item <> s) slice.

Definition annotated (o : MObj) (key : string) : bool := mo_Annotations o !! key == Some "true".

Definition after (s : Z) : Result := mkResult false s.

(** ** The reconciler *)

(** [mg_key] is the key the deletion handlers look up: the one of the object at hand or the one
    of the request. *)
Record MigOps := mkMig {
  mg_kind : string;
  mg_key : string * string -> MObj -> string * string;
  mg_cleaning : list string -> bool;
  mg_oldFinalizer : string;
  mg_ready : MObj -> bool;
  mg_create : MObj -> mig (Result * option err);
  mg_sync : MObj -> MObj -> mig (Result * option err) }.

Section Reconcile.
Context (ops : MigOps).

(** [r.Update(ctx, o)] as the last thing to do. *)
Definition updateAndStop (g : group) (o : MObj) : mig (Result * option err) :=
  let! r := mask (MUpdate g (mg_kind ops) o) in Ret (noResult, err_of r).

Definition handleNewDeletion (key : string * string) : mig (Result * option err) :=
  let! old := mask (MGet OldGroup (mg_kind ops) key.1 key.2) in
  match old with
  | Err e => if IsNotFound e then Ret (noResult, None) else Ret (noResult, Some e)
  | Ok old =>
      let marked := set_Annotations (<[DeletedByNewResourceAnnotation := "true"]>
                                       (mo_Annotations old)) old in
      let! r := mask (MUpdate OldGroup (mg_kind ops) marked) in
      match r with
      | Err e => Ret (noResult, Some e)
      | Ok old =>
          let! e := mask (MDelete (mg_kind ops) (mo_Name old) (mo_Namespace old)) in
          match e with
          | Some e => if IsNotFound e then Ret (noResult, None) else Ret (noResult, Some e)
          | None => Ret (noResult, None)
          end
      end
  end.

(** Both the migration finalizer and the one of the old operator are removed. *)
Definition release (old : MObj) : MObj :=
  set_Finalizers (removeString (removeString (mo_Finalizers old) MigrationFinalizer)
                    (mg_oldFinalizer ops)) old.

Definition handleOldDeletion (key : string * string) (old : MObj) : mig (Result * option err) :=
  if containsString (mo_Finalizers old) MigrationFinalizer then
    let! new := mask (MGet NewGroup (mg_kind ops) key.1 key.2) in
    match new with
    | Err e =>
        if IsNotFound e then
          if annotated old DeletedByNewResourceAnnotation then updateAndStop OldGroup (release old)
          else Ret (after 5, None)
        else Ret (noResult, Some e)
    | Ok _ => updateAndStop OldGroup (release old)
    end
  else Ret (noResult, None).

(** The new object does not exist: create it, unless it has been deleted or it is too early. *)
Definition createIfReady (old : MObj) : mig (Result * option err) :=
  if annotated old DeletedByNewResourceAnnotation then Ret (after 5, None)
  else if negb (mg_ready ops old) then Ret (after 30, None)
  else mg_create ops old.

Definition migrateOld (name ns : string) : mig (Result * option err) :=
  let! r := mask (MGet OldGroup (mg_kind ops) name ns) in
  match r with
  | Err e => if IsNotFound e then Ret (noResult, None) else Ret (noResult, Some e)
  | Ok old =>
      match mo_DeletionTimestamp old with
      | Some _ => handleOldDeletion (mg_key ops (name, ns) old) old
      | None =>
          let! r :=
            if containsString (mo_Finalizers old) MigrationFinalizer then Ret (Ok old)
            else mask (MUpdate OldGroup (mg_kind ops)
                         (set_Finalizers (mo_Finalizers old ++ [MigrationFinalizer]) old)) in
          match r with
          | Err e => Ret (noResult, Some e)
          | Ok old =>
              let! new := mask (MGet NewGroup (mg_kind ops) name ns) in
              match new with
              | Err e => if IsNotFound e then createIfReady old else Ret (noResult, Some e)
              | Ok new => mg_sync ops old new
              end
          end
      end
  end.

(** The new object is being deleted: once the main reconciler has cleaned up, the old object
    goes with it. *)
Definition deletingNew (name ns : string) (new : MObj) : mig (Result * option err) :=
  if negb (containsString (mo_Finalizers new) MigrationFinalizer) then Ret (noResult, None)
  else if mg_cleaning ops (mo_Finalizers new) then Ret (after 5, None)
  else
    let! (result, e) := handleNewDeletion (mg_key ops (name, ns) new) in
    match e with
    | Some e => Ret (result, Some e)
    | None =>
        updateAndStop NewGroup
          (set_Finalizers (removeString (mo_Finalizers new) MigrationFinalizer) new)
    end.

Definition migrationReconcile (name ns : string) : mig (Result * option err) :=
  let! r := mask (MGet NewGroup (mg_kind ops) name ns) in
  match r with
  | Err _ => migrateOld name ns
  | Ok new =>
      match mo_DeletionTimestamp new with
      | Some _ => deletingNew name ns new
      | None =>
          if containsString (mo_Finalizers new) MigrationFinalizer then migrateOld name ns
          else
            let! r := mask (MUpdate NewGroup (mg_kind ops)
                              (set_Finalizers (mo_Finalizers new ++ [MigrationFinalizer]) new)) in
            match r with
            | Err e => Ret (noResult, Some e)
            | Ok _ => Ret (mkResult true 0, None)
            end
      end
  end.

End Reconcile.

(** ** Clusters *)

Definition clusterKind : string := "OpenSearchCluster".

Definition isClusterReady (cluster : MObj) : bool := ms_State (mo_Status cluster) == PhaseRunning.

Definition certSecretNames (clusterName : string) : list string :=
  [clusterName +:+ "-ca"; clusterName +:+ "-transport-cert"; clusterName +:+ "-http-cert";
   clusterName +:+ "-admin-cert"].

(** Nil becomes the empty list, which the schema of the resource requires. *)
Definition withComponents (s : MStatus) : MStatus :=
  mkMStatus (ms_State s) (ms_ManagedCluster s) (Some (default [] (ms_Components s))) (ms_Rest s).

Section Clusters.
Context `{RP : RetryPolicy} `{CL : CtrlLib}.

Definition ownedBy (uid : string) (refs : list OwnerReference) : bool :=
  existsb (fun r => or_UID r == uid) refs.

(** The new cluster becomes the controller, or, if there is another one, one more owner. *)
Definition addOwner (newCluster : MObj) (secret : CertSecret) : CertSecret :=
  mkCertSecret (ce_Name secret) (ce_Namespace secret)
    (match SetControllerReference (mo_Name newCluster) (mo_UID newCluster) (ce_OwnerReferences secret) with
     | Ok refs => refs
     | Err _ => ce_OwnerReferences secret ++
                [mkOwner (mo_Name newCluster) (mo_UID newCluster) false]
     end) (ce_Data secret).

Definition transferSecret (newCluster : MObj) (ns secretName : string) (_ : unit)
    : mig (unit + err) :=
  let! r := mask (MGetSecret secretName ns) in
  match r with
  | Err e =>
      if IsNotFound e then Ret (inl tt)
      else Ret (inr (Wrapped ("failed to get certificate secret " +:+ secretName +:+ ": ") e))
  | Ok secret =>
      if ownedBy (mo_UID newCluster) (ce_OwnerReferences secret) then Ret (inl tt)
      else
        let! e := mask (MUpdateSecret (addOwner newCluster secret)) in
        Ret match e with
            | Some e => inr (Wrapped ("failed to update owner reference on certificate secret "
                                      +:+ secretName +:+ ": ") e)
            | None => inl tt
            end
  end.

Definition transferCertificateSecretOwnership (oldCluster newCluster : MObj)
    : mig (option err) :=
  if annotated newCluster CertOwnershipTransferredAnnotation then Ret None
  else
    let! r := for_range (certSecretNames (mo_Name oldCluster)) tt
                (transferSecret newCluster (mo_Namespace oldCluster)) in
    match r with
    | inr e => Ret (Some e)
    | inl _ =>
        do! mask (MUpdate NewGroup clusterKind
                    (set_Annotations (<[CertOwnershipTransferredAnnotation := "true"]>
                                        (mo_Annotations newCluster)) newCluster)) in
        Ret None
    end.

(** The new cluster: the annotations of the old one are copied over those of the migration. *)
Definition clusterFromOld (now : string) (oldCluster : MObj) : MObj :=
  mkMObj (mo_Name oldCluster) (mo_Namespace oldCluster) "" "" None [] (mo_Labels oldCluster)
    (mo_Annotations oldCluster ∪
     {[MigratedFromAnnotation := "opensearch.opster.io/v1";
       MigrationTimestampAnnotation := now;
       SourceUIDAnnotation := mo_UID oldCluster]})
    (mo_Spec oldCluster) emptyStatus.

(** [retry.OnError] until the new cluster is found; the update is not one of the status. *)
Definition copyStatus (name ns : string) (newStatus : MStatus) (created : MObj)
    : mig (MObj * option err) :=
  retry_loop IsNotFound RetrySteps (fun created : MObj =>
    let! r := mask (MGet NewGroup clusterKind name ns) in
    match r with
    | Err e => Ret (created, Some e)
    | Ok createdCluster =>
        let! u := mask (MUpdate NewGroup clusterKind (set_Status newStatus createdCluster)) in
        match u with
        | Ok createdCluster => Ret (createdCluster, None)
        | Err e => Ret (set_Status newStatus createdCluster, Some e)
        end
    end) created.

Definition createNewFromOld (oldCluster : MObj) : mig (Result * option err) :=
  let! now := mask MNow in
  let newCluster := clusterFromOld now oldCluster in
  let! r := mask (MCreate clusterKind newCluster) in
  match r with
  | Err e =>
      if IsAlreadyExists e then
        let! x := mask (MGet NewGroup clusterKind (mo_Name newCluster) (mo_Namespace newCluster)) in
        match x with
        | Err e => Ret (noResult, Some (Wrapped "failed to get existing new cluster: " e))
        | Ok existingCluster =>
            let! e := transferCertificateSecretOwnership oldCluster existingCluster in
            match e with
            | Some _ => Ret (after 5, None)
            | None => Ret (noResult, None)
            end
        end
      else Ret (noResult, Some e)
  | Ok newCluster =>
      let! (createdCluster, e) :=
        copyStatus (mo_Name newCluster) (mo_Namespace newCluster)
          (withComponents (mo_Status oldCluster)) newCluster in
      match e with
      | Some e => Ret (noResult, Some (Wrapped "failed to update new cluster status: " e))
      | None =>
          do! transferCertificateSecretOwnership oldCluster createdCluster in
          Ret (after 5, None)
      end
  end.

Definition syncStatusNewToOld (oldCluster newCluster : MObj) : mig (Result * option err) :=
  let newStatus := withComponents (mo_Status newCluster) in
  if newStatus != mo_Status oldCluster then
    let! e := mask (MStatusUpdate OldGroup clusterKind (set_Status newStatus oldCluster)) in
    match e with
    | Some e => Ret (noResult, Some e)
    | None => Ret (after 30, None)
    end
  else Ret (after 30, None).

Definition syncOldToNew (oldCluster newCluster : MObj) : mig (Result * option err) :=
  let! e := transferCertificateSecretOwnership oldCluster newCluster in
  match e with
  | Some _ => Ret (after 5, None)
  | None => syncStatusNewToOld oldCluster newCluster
  end.

(** The main reconciler has finished when its finalizer is gone. *)
Definition clusterMigration : MigOps :=
  mkMig clusterKind (fun _ o => (mo_Name o, mo_Namespace o)) (fun l => containsString l "Opensearch")
    OldClusterFinalizer isClusterReady createNewFromOld syncOldToNew.

Definition handleNewClusterDeletion (newCluster : MObj) : mig (Result * option err) :=
  handleNewDeletion clusterMigration (mo_Name newCluster, mo_Namespace newCluster).
Definition handleOldClusterDeletion (oldCluster : MObj) : mig (Result * option err) :=
  handleOldDeletion clusterMigration (mo_Name oldCluster, mo_Namespace oldCluster) oldCluster.

Definition ClusterMigrationReconcile (name ns : string) : mig (Result * option err) :=
  migrationReconcile clusterMigration name ns.

End Clusters.

(** ** The other resources *)

(** The state [CREATED] of the nine kinds of resources; any other kind is not ready. *)
Definition genericKinds : list string :=
  ["OpensearchUser"; "OpensearchRole"; "OpensearchUserRoleBinding"; "OpensearchTenant";
   "OpensearchActionGroup"; "OpenSearchISMPolicy"; "OpensearchSnapshotPolicy";
   "OpensearchIndexTemplate"; "OpensearchComponentTemplate"].
Definition isGenericResourceReady (resourceKind : string) (resource : MObj) : bool :=
  containsString genericKinds resourceKind && (ms_State (mo_Status resource) == "CREATED").

Definition clearManagedCluster (s : MStatus) : MStatus :=
  mkMStatus (ms_State s) None (ms_Components s) (ms_Rest s).

(** The new resource: here the annotations of the migration win; finalizers and status are
    cleared. *)
Definition resourceFromOld (now : string) (old : MObj) : MObj :=
  mkMObj (mo_Name old) (mo_Namespace old) "" "" (mo_DeletionTimestamp old) [] (mo_Labels old)
    (<[SourceUIDAnnotation := mo_UID old]>
       (<[MigrationTimestampAnnotation := now]>
          (<[MigratedFromAnnotation := "opensearch.opster.io/v1"]> (mo_Annotations old))))
    (mo_Spec old) emptyStatus.

Section Resources.
Context `{RP : RetryPolicy}.

(** [UdateObjectStatus] of the client wrapper, over these requests. *)
Definition updateNewStatus (kind : string) (instance : MObj) (f : MObj -> MObj)
    : mig (MObj * option err) :=
  let name := mo_Name instance in
  let ns := mo_Namespace instance in
  RetryOnConflict (fun instance : MObj =>
    let! r := mask (MGet NewGroup kind name ns) in
    match r return mig (MObj * option err) with
    | Err e => Ret (instance, Some e)
    | Ok fetched =>
        let! e := mask (MStatusUpdate NewGroup kind (f fetched)) in
        Ret (f fetched, e)
    end) instance.

Definition createGenericNewFromOld (kind : string) (old : MObj) : mig (Result * option err) :=
  let! now := mask MNow in
  let! r := mask (MCreate kind (resourceFromOld now old)) in
  match r with
  | Err e => if IsAlreadyExists e then Ret (noResult, None) else Ret (noResult, Some e)
  | Ok new =>
      let! (_, e) := updateNewStatus kind new
                       (set_Status (clearManagedCluster (mo_Status old))) in
      match e with
      | Some e => Ret (noResult, Some (Wrapped "failed to update new resource status: " e))
      | None => Ret (after 5, None)
      end
  end.

Definition syncGenericOldToNew (_ _ : MObj) : mig (Result * option err) := Ret (after 30, None).

(** Any finalizer but the migration's means that the main reconciler has not finished. *)
Definition otherFinalizers (l : list string) : bool :=
  existsb (fun f => f != MigrationFinalizer) l.

Definition genericMigration (kind : string) : MigOps :=
  mkMig kind (fun key _ => key) otherFinalizers OldResourceFinalizer (isGenericResourceReady kind)
    (createGenericNewFromOld kind) syncGenericOldToNew.

Definition reconcileGenericMigration (kind name ns : string) : mig (Result * option err) :=
  migrationReconcile (genericMigration kind) name ns.

Definition UserMigrationReconcile := reconcileGenericMigration "OpensearchUser".
Definition RoleMigrationReconcile := reconcileGenericMigration "OpensearchRole".
Definition UserRoleBindingMigrationReconcile :=
  reconcileGenericMigration "OpensearchUserRoleBinding".
Definition TenantMigrationReconcile := reconcileGenericMigration "OpensearchTenant".
Definition ActionGroupMigrationReconcile := reconcileGenericMigration "OpensearchActionGroup".
Definition ISMPolicyMigrationReconcile := reconcileGenericMigration "OpenSearchISMPolicy".
Definition SnapshotPolicyMigrationReconcile :=
  reconcileGenericMigration "OpensearchSnapshotPolicy".
Definition IndexTemplateMigrationReconcile := reconcileGenericMigration "OpensearchIndexTemplate".
Definition ComponentTemplateMigrationReconcile :=
  reconcileGenericMigration "OpensearchComponentTemplate".

End Resources.
