(* ===== verification/MigrationSpec.v ===== *)
(** * MigrationSpec: the protocol the migration follows

    Which changes of the two API groups a migration reconciler may make, and when
    ([mig_allowed]); both reconcilers of [Migration] follow it.  Also: what the transfer of the
    certificate secrets achieves, how the new objects are annotated, and a state the migration
    cannot leave. *)

From S2P Require Import Prelude Prog Resources Api K8sClient Helpers Migration.

(** ** The protocol *)

Definition msaw (h : mhist) (q : mreq) (r : mresp q) : Prop := Ev q r ∈ h.

Lemma msaw_here q (r : mresp q) h : msaw (Ev q r :: h) q r.
Proof. constructor. Qed.
Lemma msaw_there e q (r : mresp q) h : msaw h q r -> msaw (e :: h) q r.
Proof. by constructor. Qed.
Lemma msaw_extends h h' q (r : mresp q) : extends h h' -> msaw h q r -> msaw h' q r.
Proof. intros He. by apply extends_elem. Qed.
#[export] Hint Resolve msaw_here msaw_there : go.

Definition deleting (o : MObj) : Prop := is_Some (mo_DeletionTimestamp o).

Section Protocol.
Context `{CL : CtrlLib} (ops : MigOps) (made : string -> MObj -> MObj) (name ns : string).
Let k := mg_kind ops.

(** The new object is being deleted and its main reconciler has cleaned up. *)
Definition cleaned (h : mhist) (new : MObj) : Prop :=
  msaw h (MGet NewGroup k name ns) (Ok new) /\ deleting new /\
  MigrationFinalizer ∈ mo_Finalizers new /\ mg_cleaning ops (mo_Finalizers new) = false.

Definition absent_in (g : group) (key : string * string) (h : mhist) : Prop :=
  exists e, msaw h (MGet g k key.1 key.2) (Err e) /\ IsNotFound e = true.

Definition mark (old : MObj) : MObj :=
  set_Annotations (<[DeletedByNewResourceAnnotation := "true"]> (mo_Annotations old)) old.

(** The new cluster owns its certificates. *)
Definition transferred (new : MObj) : MObj :=
  set_Annotations (<[CertOwnershipTransferredAnnotation := "true"]> (mo_Annotations new)) new.

(** An object of the group as the API server has given it. *)
Definition known (g : group) (h : mhist) (i : MObj) : Prop :=
  (exists n m, msaw h (MGet g k n m) (Ok i)) \/ (exists o, msaw h (MUpdate g k o) (Ok i)).

Inductive mig_allowed (h : mhist) : mreq -> Prop :=
(** Reading is always allowed. *)
| ma_get g kd n m : mig_allowed h (MGet g kd n m)
| ma_secret n m : mig_allowed h (MGetSecret n m)
| ma_now : mig_allowed h MNow
(** Either object is held by the migration finalizer, unless it is being deleted. *)
| ma_hold g i :
    msaw h (MGet g k name ns) (Ok i) -> mo_DeletionTimestamp i = None ->
    MigrationFinalizer ∉ mo_Finalizers i ->
    mig_allowed h (MUpdate g k (set_Finalizers (mo_Finalizers i ++ [MigrationFinalizer]) i))
(** Once the new object is cleaned up, the old one is marked, then deleted, and only then the
    new one is let go. *)
| ma_mark new old :
    cleaned h new ->
    let key := mg_key ops (name, ns) new in
    msaw h (MGet OldGroup k key.1 key.2) (Ok old) ->
    mig_allowed h (MUpdate OldGroup k (mark old))
| ma_delete new old old' :
    cleaned h new -> msaw h (MUpdate OldGroup k (mark old)) (Ok old') ->
    mig_allowed h (MDelete k (mo_Name old') (mo_Namespace old'))
| ma_letgo new :
    cleaned h new ->
    (absent_in OldGroup (mg_key ops (name, ns) new) h \/
     exists old, msaw h (MDelete k (mo_Name old) (mo_Namespace old)) None \/
       exists e, msaw h (MDelete k (mo_Name old) (mo_Namespace old)) (Some e) /\
                 IsNotFound e = true) ->
    mig_allowed h (MUpdate NewGroup k
      (set_Finalizers (removeString (mo_Finalizers new) MigrationFinalizer) new))
(** A deleted old object is let go if there is a new one, or if it was marked. *)
| ma_release old :
    msaw h (MGet OldGroup k name ns) (Ok old) -> deleting old ->
    let key := mg_key ops (name, ns) old in
    ((exists new, msaw h (MGet NewGroup k key.1 key.2) (Ok new)) \/
     (absent_in NewGroup key h /\ annotated old DeletedByNewResourceAnnotation = true)) ->
    mig_allowed h (MUpdate OldGroup k (release ops old))
(** The new object is made from an old one that is ready, not deleted and not marked, when there
    is no new one. *)
| ma_create old now :
    known OldGroup h old -> annotated old DeletedByNewResourceAnnotation = false ->
    mg_ready ops old = true -> absent_in NewGroup (name, ns) h ->
    (exists i, msaw h (MGet OldGroup k name ns) (Ok i) /\ mo_DeletionTimestamp i = None) ->
    mig_allowed h (MCreate k (made now old))
(** What follows changes the status, the mark of the transfer, or the owners of a secret. *)
| ma_copy i s : known NewGroup h i -> mig_allowed h (MUpdate NewGroup k (set_Status s i))
| ma_transferred i : known NewGroup h i -> mig_allowed h (MUpdate NewGroup k (transferred i))
| ma_status g i s : known g h i -> mig_allowed h (MStatusUpdate g k (set_Status s i))
| ma_owner new n m s :
    known NewGroup h new -> msaw h (MGetSecret n m) (Ok s) ->
    ownedBy (mo_UID new) (ce_OwnerReferences s) = false ->
    mig_allowed h (MUpdateSecret (addOwner new s)).

(** What creating and synchronising may do. *)
Class MigLaws := {
  mg_create_ok : forall old h,
    known OldGroup h old ->
    (forall now h', extends h h' -> mig_allowed h' (MCreate k (made now old))) ->
    wp (mg_create ops old) mig_allowed (λ _ _, True) h;
  mg_sync_ok : forall old new h,
    known OldGroup h old -> known NewGroup h new -> wp (mg_sync ops old new) mig_allowed (λ _ _, True) h }.

End Protocol.
Arguments MigLaws {CL} ops made name ns.

Create HintDb mig discriminated.
#[export] Hint Constructors mig_allowed : mig.

Lemma containsString_spec l s : containsString l s = true <-> s ∈ l.
Proof.
  induction l as [|x l IH]; simpl; [by rewrite elem_of_nil|].
  rewrite elem_of_cons, <- IH. case_bool_decide; naive_solver.
Qed.
Lemma containsString_false l s : containsString l s = false <-> s ∉ l.
Proof. rewrite <- containsString_spec. by destruct (containsString l s). Qed.

Section ProtocolProofs.
Context `{CL : CtrlLib} (ops : MigOps) (made : string -> MObj -> MObj) (name ns : string).
Context {L : MigLaws ops made name ns}.
Let k := mg_kind ops.
Let allowed := mig_allowed ops made name ns.
#[local] Hint Unfold allowed : mig.

Lemma cleaned_extends h h' new : extends h h' -> cleaned ops name ns h new -> cleaned ops name ns h' new.
Proof. intros He [Hs Hr]. split; [by eapply msaw_extends|done]. Qed.

Lemma wp_handleNewDeletion new h (Q : mhist -> outcome (Result * option err) -> Prop) :
  cleaned ops name ns h new ->
  (forall h' r e, extends h h' ->
     (e = None -> absent_in ops OldGroup (mg_key ops (name, ns) new) h' \/
        exists old, msaw h' (MDelete k (mo_Name old) (mo_Namespace old)) None \/
          exists e, msaw h' (MDelete k (mo_Name old) (mo_Namespace old)) (Some e) /\
                    IsNotFound e = true) ->
     Q h' (Returned (r, e))) ->
  wp (handleNewDeletion ops (mg_key ops (name, ns) new)) allowed Q h.
Proof.
  intros Hc HQ. unfold handleNewDeletion. wp_step; [constructor|]. destruct r as [old|e].
  - cbv zeta. wp_step; [eapply (ma_mark _ _ _ _ _ new old); [eapply cleaned_extends; [|exact Hc]; ext|apply msaw_here]|].
    destruct r as [old'|e]; [|wp_step; apply HQ; [ext|done]].
    wp_step; [eapply (ma_delete _ _ _ _ _ new old old'); [eapply cleaned_extends; [|exact Hc]; ext|apply msaw_here]|].
    destruct r as [e|]; [destruct (IsNotFound e) eqn:En|]; wp_step; apply HQ;
      [ext| |ext|done|ext|]; intros _; right; exists old'.
    + right. exists e. split; [apply msaw_here|done].
    + left. apply msaw_here.
  - destruct (IsNotFound e) eqn:En; wp_step; apply HQ; [ext| |ext|done].
    intros _. left. exists e. split; [apply msaw_here|done].
Qed.

Lemma wp_updateAndStop g o h :
  allowed h (MUpdate g k o) -> wp (updateAndStop ops g o) allowed (λ _ _, True) h.
Proof. intros Ha. unfold updateAndStop. wp_step; [exact Ha|]. by wp_step. Qed.

Lemma wp_deletingNew new h :
  msaw h (MGet NewGroup k name ns) (Ok new) -> deleting new ->
  wp (deletingNew ops name ns new) allowed (λ _ _, True) h.
Proof.
  intros Hs Hd. unfold deletingNew.
  destruct (containsString _ _) eqn:Ef; cbn [negb]; [|by wp_step].
  destruct (mg_cleaning ops (mo_Finalizers new)) eqn:Ec; [by wp_step|].
  assert (cleaned ops name ns h new) as Hc.
  { split_and!; [done|done|by apply containsString_spec|done]. }
  wp_step. apply (wp_handleNewDeletion new); [done|]. intros h' r e He Hd'. wp_step.
  destruct e as [e|]; [by wp_step|]. apply wp_updateAndStop.
  eapply ma_letgo; [by eapply cleaned_extends|auto].
Qed.

Lemma wp_handleOldDeletion old h :
  msaw h (MGet OldGroup k name ns) (Ok old) -> deleting old ->
  wp (handleOldDeletion ops (mg_key ops (name, ns) old) old) allowed (λ _ _, True) h.
Proof.
  intros Hs Hd. unfold handleOldDeletion. destruct (containsString _ _); [|by wp_step].
  wp_step; [constructor|]. destruct r as [new|e].
  - apply wp_updateAndStop. eapply ma_release; [by apply msaw_there|done|]. left.
    exists new. apply msaw_here.
  - destruct (IsNotFound e) eqn:En; [|by wp_step].
    destruct (annotated _ _) eqn:Ea; [|by wp_step]. apply wp_updateAndStop.
    eapply ma_release; [by apply msaw_there|done|]. right. split; [|done].
    exists e. split; [apply msaw_here|done].
Qed.

Lemma absent_in_extends g key h h' :
  extends h h' -> absent_in ops g key h -> absent_in ops g key h'.
Proof. intros He (e & Hs & Hn). exists e. split; [by eapply msaw_extends|done]. Qed.
Lemma known_extends g h h' i : extends h h' -> known ops g h i -> known ops g h' i.
Proof.
  intros He [(n & m & Hs)|(o & Hs)]; [left; exists n, m|right; exists o]; by eapply msaw_extends.
Qed.

Lemma wp_createIfReady old h :
  known ops OldGroup h old -> absent_in ops NewGroup (name, ns) h ->
  (exists i, msaw h (MGet OldGroup k name ns) (Ok i) /\ mo_DeletionTimestamp i = None) ->
  wp (createIfReady ops old) allowed (λ _ _, True) h.
Proof.
  intros Hk Ha (i & Hi & Hd). unfold createIfReady. destruct (annotated _ _) eqn:Em; [by wp_step|].
  destruct (mg_ready ops old) eqn:Er; cbn [negb]; [|by wp_step]. apply (mg_create_ok ops made name ns); [done|].
  intros now h' He. apply ma_create; [by eapply known_extends|done|done|by eapply absent_in_extends|].
  exists i. split; [by eapply msaw_extends|done].
Qed.

Lemma wp_migrateOld h : wp (migrateOld ops name ns) allowed (λ _ _, True) h.
Proof.
  unfold migrateOld. wp_step; [constructor|]. destruct r as [i|e];
    [|destruct (IsNotFound e); by wp_step].
  destruct (mo_DeletionTimestamp i) eqn:Ed.
  { apply wp_handleOldDeletion; [apply msaw_here|by eexists]. }
  set (h1 := Ev _ _ :: h). wp_step.
  assert (forall h' old, extends h1 h' -> known ops OldGroup h' old ->
    wp (let! new := mask (MGet NewGroup (mg_kind ops) name ns) in
        match new with
        | Ok new => mg_sync ops old new
        | Err e => if IsNotFound e then createIfReady ops old else Ret (noResult, Some e)
        end) allowed (λ _ _, True) h') as Hrest.
  { intros h' old He Hk. wp_step; [constructor|]. destruct r as [new|e].
    - apply (mg_sync_ok ops made name ns).
      + eapply known_extends; [|exact Hk]; ext.
      + left. exists name, ns. apply msaw_here.
    - destruct (IsNotFound e) eqn:En; [|by wp_step].
      apply wp_createIfReady; [eapply known_extends; [|exact Hk]; ext| |].
      + exists e. split; [apply msaw_here|done].
      + exists i. split; [|done]. apply (msaw_extends h1); [ext|apply msaw_here]. }
  destruct (containsString _ _) eqn:Ef.
  - wp_step. wp_step. apply Hrest; [ext|]. left. exists name, ns. apply msaw_here.
  - wp_step.
    + apply ma_hold; [apply msaw_here|done|by apply containsString_false].
    + wp_step. destruct r as [old|e]; [|by wp_step]. apply Hrest; [ext|].
      right. eexists. apply msaw_here.
Qed.

Lemma wp_migrationReconcile h : wp (migrationReconcile ops name ns) allowed (λ _ _, True) h.
Proof.
  unfold migrationReconcile. wp_step; [constructor|]. destruct r as [new|e]; [|apply wp_migrateOld].
  destruct (mo_DeletionTimestamp new) eqn:Ed.
  { apply wp_deletingNew; [apply msaw_here|by eexists]. }
  destruct (containsString _ _) eqn:Ef; [apply wp_migrateOld|].
  wp_step; [|by destruct r; wp_step].
  apply ma_hold; [apply msaw_here|done|by apply containsString_false].
Qed.

End ProtocolProofs.

(** ** The certificate secrets *)

Section Certificates.
Context `{RP : RetryPolicy} `{CL : CtrlLib}.

(** The secret is absent, or owned by the new cluster, or has just been given to it. *)
Definition settled (h : mhist) (new : MObj) (ns n : string) : Prop :=
  (exists e, msaw h (MGetSecret n ns) (Err e) /\ IsNotFound e = true) \/
  (exists s, msaw h (MGetSecret n ns) (Ok s) /\
     (ownedBy (mo_UID new) (ce_OwnerReferences s) = true \/
      msaw h (MUpdateSecret (addOwner new s)) None)).

Lemma settled_extends h h' new ns n : extends h h' -> settled h new ns n -> settled h' new ns n.
Proof.
  intros He [(e & Hs & Hn)|(s & Hs & [Ho|Ho])]; [left; exists e|right; exists s|right; exists s];
    (split; [by eapply msaw_extends|]); [done|by left|right; by eapply msaw_extends].
Qed.

Lemma addOwner_owned `{!CtrlLaws} new s :
  ownedBy (mo_UID new) (ce_OwnerReferences (addOwner new s)) = true.
Proof.
  unfold ownedBy, addOwner. cbn [ce_OwnerReferences]. apply existsb_exists.
  destruct (SetControllerReference _ _ _) as [refs|e] eqn:E.
  - destruct (SetControllerReference_owner _ _ _ _ E) as (r & Hr & Hu).
    exists r. split; [by apply list_elem_of_In|by apply bool_decide_eq_true].
  - eexists. split; [apply in_or_app; right; by left|]. by apply bool_decide_eq_true.
Qed.

Section Transfer.
Context (old new : MObj) (P : mhist -> mreq -> Prop) (h : mhist).
Context (P_get : forall h' n ns, P h' (MGetSecret n ns)).
Context (P_owner : forall h' n ns s, extends h h' -> msaw h' (MGetSecret n ns) (Ok s) ->
  ownedBy (mo_UID new) (ce_OwnerReferences s) = false -> P h' (MUpdateSecret (addOwner new s))).
Context (P_mark : forall h', extends h h' -> P h' (MUpdate NewGroup clusterKind (transferred new))).

Lemma wp_transferSecret ns n h1 (Q : mhist -> outcome (unit + err) -> Prop) :
  extends h h1 ->
  (forall h' r, extends h1 h' -> (r = inl tt -> settled h' new ns n) -> Q h' (Returned r)) ->
  wp (transferSecret new ns n tt) P Q h1.
Proof.
  intros He HQ. unfold transferSecret. wp_step; [done|]. destruct r as [s|e].
  - destruct (ownedBy _ _) eqn:Eo.
    + wp_step. apply HQ; [ext|]. intros _. right. exists s. split; [apply msaw_here|by left].
    + wp_step; [eapply P_owner; [ext|apply msaw_here|done]|]. wp_step. apply HQ; [ext|].
      destruct r; [done|]. intros _. right. exists s. split; [apply msaw_there, msaw_here|].
      right. apply msaw_here.
  - destruct (IsNotFound e) eqn:En; wp_step; apply HQ; [ext| |ext|done].
    intros _. left. exists e. split; [apply msaw_here|done].
Qed.

Lemma wp_transfer (Q : mhist -> outcome (option err) -> Prop) :
  (forall h' e, extends h h' ->
     (e = None -> annotated new CertOwnershipTransferredAnnotation = true \/
        forall n, n ∈ certSecretNames (mo_Name old) -> settled h' new (mo_Namespace old) n) ->
     Q h' (Returned e)) ->
  wp (transferCertificateSecretOwnership old new) P Q h.
Proof.
  intros HQ. unfold transferCertificateSecretOwnership. destruct (annotated _ _) eqn:Ea.
  { wp_step. apply HQ; [ext|]. by left. }
  wp_step. apply (wp_for_range (λ rest _ h', extends h h' /\
    forall n, n ∈ certSecretNames (mo_Name old) -> n ∈ rest \/ settled h' new (mo_Namespace old) n)).
  - split; [ext|]. by left.
  - intros n rest [] h1 [He Hr]. apply wp_transferSecret; [done|].
    intros h2 [[]|e] He2 Hs; cbn [loop_post]; [|wp_step; wp_step; by apply HQ; [ext|]].
    split; [ext|]. intros n' Hn'. destruct (Hr n' Hn') as [[->|?]%elem_of_cons|?].
    + right. auto.
    + by left.
    + right. by eapply settled_extends.
  - intros [] h1 [He Hr]. wp_step. wp_step; [by apply P_mark|]. wp_step. apply HQ; [ext|].
    intros _. right. intros n Hn. destruct (Hr n Hn) as [[]%elem_of_nil|Hs].
    eapply settled_extends; [|exact Hs]. ext.
Qed.

End Transfer.

End Certificates.

(** ** Both reconcilers follow the protocol *)

Section Laws.
Context `{RP : RetryPolicy} `{CL : CtrlLib} (name ns : string).

Section Clusters.
Let allowed := mig_allowed clusterMigration clusterFromOld name ns.

Lemma wp_transfer_allowed old new h (Q : mhist -> outcome (option err) -> Prop) :
  known clusterMigration NewGroup h new -> (forall h' e, extends h h' -> Q h' (Returned e)) ->
  wp (transferCertificateSecretOwnership old new) allowed Q h.
Proof.
  intros Hk HQ. apply wp_transfer.
  - intros. apply ma_secret.
  - intros h' n m s He Hs Ho. eapply ma_owner; [by eapply known_extends|done|done].
  - intros h' He. apply (ma_transferred clusterMigration). by eapply known_extends.
  - auto.
Qed.

Lemma wp_copyStatus n m s c h (Q : mhist -> outcome (MObj * option err) -> Prop) :
  (forall h' o e, extends h h' -> (e = None -> known clusterMigration NewGroup h' o) ->
     Q h' (Returned (o, e))) ->
  wp (copyStatus n m s c) allowed Q h.
Proof.
  intros HQ. unfold copyStatus.
  apply (wp_retry_loop (λ _ h', extends h h')); [ext| |by intros; apply HQ].
  intros o h1 He. wp_step; [constructor|]. destruct r as [i|e].
  - wp_step; [apply (ma_copy clusterMigration); left; exists n, m; apply msaw_here|].
    destruct r as [i'|e]; wp_step; (split; [|try done; ext]); apply HQ; [ext| |ext|done].
    intros _. right. eexists. apply msaw_here.
  - wp_step. split; [|ext]. apply HQ; [ext|done].
Qed.

#[export] Instance cluster_mig_laws : MigLaws clusterMigration clusterFromOld name ns.
Proof.
  split.
  - intros old h Hk Hc. cbn [mg_create clusterMigration]. unfold createNewFromOld.
    wp_step; [constructor|]. cbv zeta. wp_step; [apply Hc; ext|]. destruct r0 as [new|e].
    + wp_step. apply wp_copyStatus. intros h' o [e|] He Ho; wp_step; [by wp_step|]. wp_step.
      apply wp_transfer_allowed; [auto|]. intros h1 e He1. wp_step. by wp_step.
    + destruct (IsAlreadyExists e); [|by wp_step]. wp_step; [constructor|].
      destruct r0 as [x|e']; [|by wp_step]. wp_step. apply wp_transfer_allowed.
      * left. do 2 eexists. apply msaw_here.
      * intros h1 e1 He1. wp_step. destruct e1; by wp_step.
  - intros old new h Ho Hn. cbn [mg_sync clusterMigration]. unfold syncOldToNew. wp_step.
    apply wp_transfer_allowed; [done|]. intros h1 [e|] He; wp_step; [by wp_step|].
    unfold syncStatusNewToOld. cbv zeta. destruct (_ != _); [|by wp_step].
    wp_step; [apply (ma_status clusterMigration); by eapply known_extends|].
    destruct r; by wp_step.
Qed.
End Clusters.

#[export] Instance generic_mig_laws kind :
  MigLaws (genericMigration kind) resourceFromOld name ns.
Proof.
  split.
  - intros old h Hk Hc. cbn [mg_create genericMigration]. unfold createGenericNewFromOld.
    wp_step; [constructor|]. wp_step; [apply Hc; ext|]. destruct r0 as [new|e];
      [|destruct (IsAlreadyExists e); by wp_step].
    wp_step. unfold updateNewStatus, RetryOnConflict.
    apply (wp_retry_loop (λ _ _, True)); [done| |].
    + intros o h1 _. wp_step; [constructor|]. destruct r0 as [i|e].
      * wp_step; [apply (ma_status (genericMigration kind)); left; do 2 eexists; apply msaw_here|].
        wp_step. split; [|by destruct r0]. wp_step. destruct r0; by wp_step.
      * wp_step. split; [|done]. wp_step. by wp_step.
    + intros o h1 e _. wp_step. by wp_step.
  - by intros.
Qed.

End Laws.

(** C11: The migration's protocol.  Whatever the API server answers, both migration
    reconcilers only make the requests [mig_allowed] lists: the old object is marked and deleted
    only when the new one is being deleted and the main reconciler has removed its finalizer; the
    new object is let go only after the old one is absent or its deletion was accepted; the old
    object is let go only if there is a new one or it was marked; the new object is created only
    from a ready, unmarked old object that is not being deleted, when no new one was found. *)
Theorem migration_protocol `{RP : RetryPolicy} `{CL : CtrlLib} (kind name ns : string)
    (w : env mresp) :
  calls_ok (mig_allowed clusterMigration clusterFromOld name ns)
    (run w (ClusterMigrationReconcile name ns) []).2 /\
  calls_ok (mig_allowed (genericMigration kind) resourceFromOld name ns)
    (run w (reconcileGenericMigration kind name ns) []).2.
Proof.
  split; (eapply wp_sound; [|done]); apply wp_migrationReconcile; typeclasses eauto.
Qed.
