(* ===== verification/MigrationRun.v ===== *)
(** * MigrationRun: where the migration gets to

    The reconcilers of [Migration] against an API server.  The server is a parameter: a store,
    an answer to every request, and the documented behaviour the migration relies on
    ([ApiServerLaws]): finalizers hold a deletion back, an update with the current resource
    version and an unchanged spec is accepted, the status is only written through its own
    resource.  The theorems say which states the reconcilers reach, and in how many runs. *)

From S2P Require Import Prelude Prog Resources Api K8sClient Helpers Migration MigrationSpec.

(** ** The server *)

Class ApiServer := {
  Store : Type;
  find : Store -> group -> string -> string * string -> option MObj;
  serve : forall q : mreq, Store -> mresp q * Store }.

Definition key_of (o : MObj) : string * string := (mo_Name o, mo_Namespace o).

(** The same object, but for what the server owns. *)
Record like (o o' : MObj) : Prop := mkLike {
  like_key : key_of o' = key_of o;
  like_Finalizers : mo_Finalizers o' = mo_Finalizers o;
  like_Labels : mo_Labels o' = mo_Labels o;
  like_Annotations : mo_Annotations o' = mo_Annotations o;
  like_Spec : mo_Spec o' = mo_Spec o }.

#[export] Instance like_equivalence : Equivalence like.
Proof.
  split; [done| |].
  - intros x y []. constructor; congruence.
  - intros x y z [] []. constructor; congruence.
Qed.

(** From [s] to [s'], only this entry changes. *)
Definition put `{ApiServer} (s s' : Store) (g : group) (k : string) (key : string * string)
    (v : option MObj) : Prop :=
  find s' g k key = v /\
  forall g' k' key', (g', k', key') <> (g, k, key) -> find s' g' k' key' = find s g' k' key'.

(** A write of the status of an object of the group. *)
Definition writes_status (g : group) (q : mreq) : bool :=
  match q with MStatusUpdate g' _ _ => bool_decide (g' = g) | _ => false end.

Definition held (o : MObj) : Prop := mo_Finalizers o <> [].

Class ApiServerLaws `{AS : ApiServer} := {
  find_key : forall s g k key o, find s g k key = Some o -> key_of o = key;
  serve_get : forall s g k n m o,
    find s g k (n, m) = Some o -> serve (MGet g k n m) s = (Ok o, s);
  serve_get_none : forall s g k n m,
    find s g k (n, m) = None -> exists e, serve (MGet g k n m) s = (Err e, s) /\ IsNotFound e = true;
  serve_now : forall s, (serve MNow s).2 = s;
  serve_create : forall s k o,
    find s NewGroup k (key_of o) = None ->
    exists o' s', serve (MCreate k o) s = (Ok o', s') /\ like o o' /\
      mo_DeletionTimestamp o' = None /\ put s s' NewGroup k (key_of o) (Some o');
  serve_update : forall s g k o cur,
    find s g k (key_of o) = Some cur ->
    mo_ResourceVersion o = mo_ResourceVersion cur -> mo_Spec o = mo_Spec cur ->
    (deleting cur -> mo_Finalizers o ⊆ mo_Finalizers cur) ->
    exists o' s', serve (MUpdate g k o) s = (Ok o', s') /\ like o o' /\
      mo_DeletionTimestamp o' = mo_DeletionTimestamp cur /\ mo_Status o' = mo_Status cur /\
      mo_UID o' = mo_UID cur /\
      (deleting cur -> mo_Finalizers o = [] -> put s s' g k (key_of o) None) /\
      (mo_DeletionTimestamp cur = None \/ held o -> put s s' g k (key_of o) (Some o'));
  serve_status : forall s g k o cur,
    find s g k (key_of o) = Some cur -> mo_ResourceVersion o = mo_ResourceVersion cur ->
    exists o' s', serve (MStatusUpdate g k o) s = (None, s') /\ like cur o' /\
      mo_DeletionTimestamp o' = mo_DeletionTimestamp cur /\ mo_Status o' = mo_Status o /\
      put s s' g k (key_of o) (Some o');
  serve_delete : forall s k n m cur,
    find s OldGroup k (n, m) = Some cur -> held cur ->
    exists o' s', serve (MDelete k n m) s = (None, s') /\ like cur o' /\ deleting o' /\
      put s s' OldGroup k (n, m) (Some o');
  serve_keeps_status : forall q s g k key o',
    writes_status g q = false -> find (serve q s).2 g k key = Some o' ->
    mo_Status o' = emptyStatus \/
    exists o, find s g k key = Some o /\ mo_Status o' = mo_Status o }.

Section Run.
Context `{AS : ApiServer}.

(** A program against the server. *)
Fixpoint srun {A} (p : mig A) (s : Store) : outcome A * Store :=
  match p with
  | Ret a => (Returned a, s)
  | Panic m => (Panicked m, s)
  | Call q k => let (r, s') := serve q s in srun (k r) s'
  end.

Lemma srun_call {B} q (f : mresp q -> mig B) s :
  srun (bind (mask q) f) s = srun (f (serve q s).1) (serve q s).2.
Proof. unfold bind, call. cbn [srun]. by destruct (serve q s). Qed.

Lemma srun_bind {A B} (p : mig A) (f : A -> mig B) s :
  srun (bind p f) s =
    match srun p s with
    | (Returned a, s') => srun (f a) s'
    | (Panicked m, s') => (Panicked m, s')
    end.
Proof.
  revert s. induction p as [a|m|q k IH]; intros s; [done|done|].
  unfold bind; fold (@bind mreq mresp A B). cbn [srun]. by destruct (serve q s).
Qed.


(** What every request of the footprint preserves, the program preserves. *)
Lemma srun_only {A} (R : mreq -> Prop) (I : Store -> Prop) (p : mig A) s :
  only R p -> (forall q s, R q -> I s -> I (serve q s).2) -> I s -> I (srun p s).2.
Proof.
  intros Hp HI. revert s. induction p as [a|m|q k IH]; intros s Hs; [done|done|].
  apply only_inv in Hp as [Hq Hk]. cbn [srun]. specialize (HI q s Hq Hs) as HI'.
  destruct (serve q s) as [r s']. apply IH; [apply Hk|done].
Qed.

Context {AL : ApiServerLaws}.

Lemma srun_get {B} g k n m (f : result MObj -> mig B) s o :
  find s g k (n, m) = Some o -> srun (let! r := mask (MGet g k n m) in f r) s = srun (f (Ok o)) s.
Proof. intros Hf. rewrite srun_call. by rewrite (serve_get _ _ _ _ _ _ Hf). Qed.

Lemma srun_absent {B} g k n m (f : result MObj -> mig B) s :
  find s g k (n, m) = None ->
  exists e, IsNotFound e = true /\
    srun (let! r := mask (MGet g k n m) in f r) s = srun (f (Err e)) s.
Proof.
  intros Hf. destruct (serve_get_none _ _ _ _ _ Hf) as (e & He & Hn). exists e. split; [done|].
  rewrite srun_call. by rewrite He.
Qed.

(** The next request is a read of an object that is not there. *)
Ltac srun_absent H :=
  lazymatch goal with
  | |- context [srun (bind (call (MGet ?g ?k ?n ?m)) ?f) ?s] =>
      let e := fresh "e" in let He := fresh "Hnf" in
      destruct (srun_absent g k n m f s H) as (e & He & ->); rewrite ?He
  end.

Lemma srun_updateAndStop ops g o o' s s' :
  serve (MUpdate g (mg_kind ops) o) s = (Ok o', s') ->
  srun (updateAndStop ops g o) s = (Returned (noResult, None), s').
Proof. intros He. unfold updateAndStop. rewrite srun_call, He. done. Qed.

(** Finalizers that the migration removes by itself. *)
Lemma removeString_elem l s x : x ∈ removeString l s <-> x ∈ l /\ x <> s.
Proof. unfold removeString. rewrite list_elem_of_filter. tauto. Qed.

Lemma release_nil ops old :
  mo_Finalizers old ⊆ [MigrationFinalizer; mg_oldFinalizer ops] ->
  mo_Finalizers (release ops old) = [].
Proof.
  intros Hs. cbn [release set_Finalizers mo_Finalizers]. apply elem_of_nil_inv.
  intros x [[Hx Hm]%removeString_elem Ho]%removeString_elem. apply Hs in Hx. set_solver.
Qed.

Lemma letgo_nil l : l ⊆ [MigrationFinalizer] -> removeString l MigrationFinalizer = [].
Proof.
  intros Hs. apply elem_of_nil_inv. intros x [Hx Hm]%removeString_elem.
  apply Hs in Hx. set_solver.
Qed.

Section Kind.
Context (ops : MigOps) (name ns : string).
Context (Hkey : forall o, key_of o = (name, ns) -> mg_key ops (name, ns) o = (name, ns)).
Let k := mg_kind ops.
Let reconcile := migrationReconcile ops name ns.

(** *** Deletion *)

(** The old object is marked and being deleted, and nothing but the migration holds it. *)
Definition doomed (old : MObj) : Prop :=
  deleting old /\ annotated old DeletedByNewResourceAnnotation = true /\
  MigrationFinalizer ∈ mo_Finalizers old /\
  mo_Finalizers old ⊆ [MigrationFinalizer; mg_oldFinalizer ops].

Lemma old_goes s old :
  find s NewGroup k (name, ns) = None -> find s OldGroup k (name, ns) = Some old -> doomed old ->
  exists s', srun reconcile s = (Returned (noResult, None), s') /\
             find s' NewGroup k (name, ns) = None /\ find s' OldGroup k (name, ns) = None.
Proof.
  intros Hn Ho (Hd & Ha & Hm & Hs). pose proof (find_key _ _ _ _ _ Ho) as Hk.
  unfold reconcile, migrationReconcile.
  srun_absent Hn.
  unfold migrateOld. fold k. rewrite (srun_get _ _ _ _ _ _ _ Ho).
  destruct Hd as [t Hd]. rewrite Hd. rewrite Hkey by done. unfold handleOldDeletion.
  rewrite (proj2 (containsString_spec _ _) Hm). cbn [fst snd].
  srun_absent Hn. rewrite Ha.
  destruct (serve_update s OldGroup k (release ops old) old) as (o' & s' & Hu & _ & _ & _ & _ & Hp & _).
  - change (key_of (release ops old)) with (key_of old). by rewrite Hk.
  - done.
  - done.
  - intros _. rewrite release_nil by done. set_solver.
  - rewrite (srun_updateAndStop _ _ _ _ _ _ Hu). exists s'. split; [done|].
    destruct Hp as [Hp1 Hp2]; [by eexists|by apply release_nil|].
    change (key_of (release ops old)) with (key_of old) in *. rewrite Hk in *.
    split; [|done]. rewrite Hp2; done.
Qed.

(** The new object is being deleted, and only the migration still holds it. *)
Definition leaving (new : MObj) : Prop :=
  deleting new /\ MigrationFinalizer ∈ mo_Finalizers new /\
  mo_Finalizers new ⊆ [MigrationFinalizer] /\ mg_cleaning ops (mo_Finalizers new) = false.

Lemma handleNewDeletion_marks s old :
  find s OldGroup k (name, ns) = Some old -> MigrationFinalizer ∈ mo_Finalizers old ->
  mo_Finalizers old ⊆ [MigrationFinalizer; mg_oldFinalizer ops] ->
  exists s' old', srun (handleNewDeletion ops (name, ns)) s = (Returned (noResult, None), s') /\
    put s s' OldGroup k (name, ns) (Some old') /\ doomed old'.
Proof.
  intros Ho Hm Hs. pose proof (find_key _ _ _ _ _ Ho) as Hk.
  unfold handleNewDeletion. cbn [fst snd]. fold k. rewrite (srun_get _ _ _ _ _ _ _ Ho). cbv zeta.
  fold (mark old).
  destruct (serve_update s OldGroup k (mark old) old)
    as (old1 & s1 & Hu & Hl1 & _ & _ & _ & _ & Hp1); [by rewrite <- Hk in Ho|done|done|done|].
  rewrite srun_call, Hu. cbn [fst snd].
  destruct Hp1 as [Hf1 Hr1]; [right; intros Hnil; cbn in Hnil; rewrite Hnil in Hm; set_solver|].
  change (key_of (mark old)) with (key_of old) in *. rewrite Hk in *.
  destruct (serve_delete s1 k name ns old1) as (old2 & s2 & Hd & Hl2 & Hdel & Hf2 & Hr2); [done| |].
  { intros Hnil. rewrite (like_Finalizers _ _ Hl1) in Hnil. cbn in Hnil. rewrite Hnil in Hm.
    set_solver. }
  pose proof (like_key _ _ Hl1) as Hk1. change (key_of (mark old)) with (key_of old) in Hk1.
  rewrite Hk in Hk1. injection Hk1 as -> ->. rewrite srun_call, Hd. exists s2, old2.
  split_and!; [done|split; [done|]; intros; by rewrite Hr2, Hr1|].
  assert (like (mark old) old2) as Hl by (by transitivity old1).
  split_and!; [done| |rewrite (like_Finalizers _ _ Hl)..]; [|done|done].
  unfold annotated. rewrite (like_Annotations _ _ Hl). cbn. rewrite lookup_insert_eq. done.
Qed.

Lemma new_goes s new old :
  find s NewGroup k (name, ns) = Some new -> leaving new ->
  find s OldGroup k (name, ns) = Some old -> MigrationFinalizer ∈ mo_Finalizers old ->
  mo_Finalizers old ⊆ [MigrationFinalizer; mg_oldFinalizer ops] ->
  exists s' old', srun reconcile s = (Returned (noResult, None), s') /\
    find s' NewGroup k (name, ns) = None /\ find s' OldGroup k (name, ns) = Some old' /\
    doomed old'.
Proof.
  intros Hn ([t Hd] & Hm & Hs & Hc) Ho Hmo Hso. pose proof (find_key _ _ _ _ _ Hn) as Hk.
  unfold reconcile, migrationReconcile. fold k. rewrite (srun_get _ _ _ _ _ _ _ Hn), Hd.
  unfold deletingNew. rewrite (proj2 (containsString_spec _ _) Hm), Hc. cbn [negb].
  rewrite Hkey by done. rewrite srun_bind.
  destruct (handleNewDeletion_marks s old Ho Hmo Hso) as (s1 & old1 & -> & [Hp1 Hr1] & Hdo).
  set (new' := set_Finalizers _ new). change (key_of new) with (key_of new') in Hk.
  destruct (serve_update s1 NewGroup k new' new) as (o' & s2 & Hu & _ & _ & _ & _ & Hp2 & _).
  { rewrite Hk, Hr1 by done. done. } { done. } { done. }
  { intros _. cbn. rewrite letgo_nil by done. set_solver. }
  rewrite (srun_updateAndStop _ _ _ _ _ _ Hu). exists s2, old1.
  destruct Hp2 as [Hp2 Hr2]; [by eexists|by apply letgo_nil|]. rewrite Hk in *.
  split_and!; [done|done| |done]. rewrite Hr2; done.
Qed.

(** Two runs. *)
Fixpoint reconciles (n : nat) (s : Store) : Store :=
  match n with
  | O => s
  | S n => reconciles n (srun reconcile s).2
  end.

Lemma both_go s new old :
  find s NewGroup k (name, ns) = Some new -> leaving new ->
  find s OldGroup k (name, ns) = Some old -> MigrationFinalizer ∈ mo_Finalizers old ->
  mo_Finalizers old ⊆ [MigrationFinalizer; mg_oldFinalizer ops] ->
  find (reconciles 2 s) NewGroup k (name, ns) = None /\
  find (reconciles 2 s) OldGroup k (name, ns) = None.
Proof.
  intros Hn Hl Ho Hm Hs.
  destruct (new_goes s new old) as (s1 & old1 & He & Hn1 & Ho1 & Hd); [done..|].
  destruct (old_goes s1 old1) as (s2 & He2 & H1 & H2); [done..|].
  cbn [reconciles]. rewrite He. cbn [snd]. by rewrite He2.
Qed.

(** *** An old object that was deleted too early *)

Lemma stuck_old s old :
  find s NewGroup k (name, ns) = None -> find s OldGroup k (name, ns) = Some old ->
  deleting old -> MigrationFinalizer ∈ mo_Finalizers old ->
  annotated old DeletedByNewResourceAnnotation = false ->
  srun reconcile s = (Returned (after 5, None), s).
Proof.
  intros Hn Ho [t Hd] Hm Ha. pose proof (find_key _ _ _ _ _ Ho) as Hk.
  unfold reconcile, migrationReconcile. fold k. srun_absent Hn.
  unfold migrateOld. fold k. rewrite (srun_get _ _ _ _ _ _ _ Ho), Hd, Hkey by done.
  unfold handleOldDeletion. rewrite (proj2 (containsString_spec _ _) Hm). cbn [fst snd].
  srun_absent Hn. by rewrite Ha.
Qed.

End Kind.

(** ** Creation *)

Section Created.
Context `{RP : RetryPolicy} (kind name ns : string).
Let reconcile := migrationReconcile (genericMigration kind) name ns.

(** An object in use that the migration holds. *)
Definition kept (o : MObj) : Prop :=
  mo_DeletionTimestamp o = None /\ MigrationFinalizer ∈ mo_Finalizers o.

(** The new object says the same as the old one, the cluster that manages it apart. *)
Record copied (old new : MObj) : Prop := mkCopied {
  copied_Spec : mo_Spec new = mo_Spec old;
  copied_Labels : mo_Labels new = mo_Labels old;
  copied_Source : mo_Annotations new !! SourceUIDAnnotation = Some (mo_UID old);
  copied_Status : mo_Status new = clearManagedCluster (mo_Status old) }.

Definition usable (old : MObj) : Prop :=
  mo_DeletionTimestamp old = None /\
  annotated old DeletedByNewResourceAnnotation = false /\
  isGenericResourceReady kind old = true.

Lemma retry_first n (fn : MObj -> mig (MObj * option err)) o s o' s' :
  srun (fn o) s = (Returned (o', None), s') ->
  srun (retry_loop IsConflict (S n) fn o) s = (Returned (o', None), s').
Proof. intros Hf. cbn [retry_loop]. rewrite srun_bind, Hf. done. Qed.

Lemma created s old :
  (0 < RetrySteps)%nat ->
  find s OldGroup kind (name, ns) = Some old -> find s NewGroup kind (name, ns) = None ->
  usable old ->
  exists new s', srun (createGenericNewFromOld kind old) s = (Returned (after 5, None), s') /\
    put s s' NewGroup kind (name, ns) (Some new) /\ mo_DeletionTimestamp new = None /\
    mo_Finalizers new = [] /\ copied old new.
Proof.
  intros Hr Ho Hn (Hd & Ha & Hre). pose proof (find_key _ _ _ _ _ Ho) as Hk.
  unfold createGenericNewFromOld. rewrite srun_call, serve_now. set (now := (serve MNow s).1).
  change (key_of old) with (key_of (resourceFromOld now old)) in Hk.
  destruct (serve_create s kind (resourceFromOld now old)) as (new & s1 & Hc & Hl & Hnd & Hp & Hr1);
    [by rewrite Hk|].
  rewrite srun_call, Hc. cbn [fst snd]. rewrite srun_bind.
  pose proof (like_key _ _ Hl) as Hkn. rewrite Hk in *.
  set (status := clearManagedCluster (mo_Status old)).
  destruct (serve_status s1 NewGroup kind (set_Status status new) new)
    as (new2 & s2 & Hs & Hl2 & Hd2 & Hst & Hp2 & Hr2);
    [change (key_of (set_Status status new)) with (key_of new); by rewrite Hkn|done|].
  change (key_of (set_Status status new)) with (key_of new) in *. rewrite Hkn in *.
  unfold updateNewStatus, RetryOnConflict. destruct RetrySteps as [|n]; [lia|].
  injection Hkn as Hn1 Hn2.
  rewrite (retry_first _ _ _ _ (set_Status status new) s2); cycle 1.
  { rewrite Hn1, Hn2. rewrite (srun_get _ _ _ _ _ _ _ Hp), srun_call, Hs. done. }
  exists new2, s2. split_and!; [done|split; [done|]; intros; by rewrite Hr2, Hr1|by rewrite Hd2| |].
  - by rewrite (like_Finalizers _ _ Hl2), (like_Finalizers _ _ Hl).
  - assert (like (resourceFromOld now old) new2) as [_ _ Hla Hann Hsp] by (by transitivity new).
    split; [done|done| |done]. rewrite Hann. cbn. by rewrite lookup_insert_eq.
Qed.

(** The object with the migration finalizer on it, as the server has it. *)
Record same_resource (o o' : MObj) : Prop := mkSame {
  same_UID : mo_UID o' = mo_UID o;
  same_Spec : mo_Spec o' = mo_Spec o;
  same_Labels : mo_Labels o' = mo_Labels o;
  same_Annotations : mo_Annotations o' = mo_Annotations o;
  same_Status : mo_Status o' = mo_Status o }.

Lemma hold s g o :
  find s g kind (name, ns) = Some o -> mo_DeletionTimestamp o = None ->
  exists o' s',
    serve (MUpdate g kind (set_Finalizers (mo_Finalizers o ++ [MigrationFinalizer]) o)) s =
      (Ok o', s') /\
    put s s' g kind (name, ns) (Some o') /\ kept o' /\ same_resource o o'.
Proof.
  intros Ho Hd. pose proof (find_key _ _ _ _ _ Ho) as Hk. set (u := set_Finalizers _ o).
  change (key_of o) with (key_of u) in Hk.
  destruct (serve_update s g kind u o) as (o' & s' & Hu & Hl & Hd' & Hst & Hid & _ & Hp).
  { by rewrite Hk. } { done. } { done. } { intros [t Ht]. congruence. }
  exists o', s'. rewrite <- Hk. split_and!; [done|by apply Hp; left| |].
  - split; [by rewrite Hd'|]. rewrite (like_Finalizers _ _ Hl). cbn. set_solver.
  - destruct Hl. by split.
Qed.

Lemma copied_same old old' new : same_resource old old' -> copied old' new -> copied old new.
Proof. intros [] []. split; congruence. Qed.

Lemma first_run s old :
  (0 < RetrySteps)%nat ->
  find s OldGroup kind (name, ns) = Some old -> find s NewGroup kind (name, ns) = None ->
  usable old ->
  exists old' new s', srun reconcile s = (Returned (after 5, None), s') /\
    find s' OldGroup kind (name, ns) = Some old' /\ kept old' /\
    find s' NewGroup kind (name, ns) = Some new /\ mo_DeletionTimestamp new = None /\
    mo_Finalizers new = [] /\ copied old new.
Proof.
  intros Hr Ho Hn Hu. pose proof Hu as (Hd & Ha & Hre).
  unfold reconcile, migrationReconcile. cbn [mg_kind genericMigration]. srun_absent Hn.
  unfold migrateOld. cbn [mg_kind genericMigration]. rewrite (srun_get _ _ _ _ _ _ _ Ho), Hd.
  rewrite srun_bind.
  assert (exists old1 s1, put s s1 OldGroup kind (name, ns) (Some old1) /\ kept old1 /\
    same_resource old old1 /\
    srun (if containsString (mo_Finalizers old) MigrationFinalizer then Ret (Ok old)
          else mask (MUpdate OldGroup kind
                       (set_Finalizers (mo_Finalizers old ++ [MigrationFinalizer]) old))) s =
      (Returned (Ok old1), s1)) as (old1 & s1 & [Hp1 Hr1] & Hk1 & Hs1 & ->).
  { destruct (containsString _ _) eqn:Ec.
    - exists old, s. split_and!; [by split|split; [done|by apply containsString_spec]|by split|done].
    - destruct (hold s OldGroup old Ho Hd) as (o' & s' & Hs & Hp & Hk & Hsm). exists o', s'.
      split_and!; [done..|]. unfold call. cbn [srun]. by rewrite Hs. }
  assert (find s1 NewGroup kind (name, ns) = None) as Hn1 by (by rewrite Hr1).
  srun_absent Hn1. destruct Hs1 as [Hid Hsp Hla Han Hst] eqn:Es.
  assert (usable old1) as (Hd1 & Ha1 & Hre1).
  { split_and!; [apply Hk1|unfold annotated; by rewrite Han|].
    unfold isGenericResourceReady. by rewrite Hst. }
  unfold createIfReady. rewrite Ha1. cbn [mg_ready mg_create genericMigration]. rewrite Hre1.
  cbn [negb].
  destruct (created s1 old1 Hr Hp1 Hn1) as (new & s2 & Hc & [Hp2 Hr2] & Hnd & Hnil & Hcp); [done|].
  exists old1, new, s2. split_and!; [done| |done..|by eapply copied_same].
  by rewrite Hr2.
Qed.

(** A migrated pair: another run changes nothing. *)
Definition migrated (s : Store) (old : MObj) : Prop :=
  exists old' new,
    find s OldGroup kind (name, ns) = Some old' /\ kept old' /\
    find s NewGroup kind (name, ns) = Some new /\ kept new /\ copied old new.

Lemma second_run s old' new :
  find s OldGroup kind (name, ns) = Some old' -> kept old' ->
  find s NewGroup kind (name, ns) = Some new -> mo_DeletionTimestamp new = None ->
  mo_Finalizers new = [] ->
  exists new' s', srun reconcile s = (Returned (mkResult true 0, None), s') /\
    put s s' NewGroup kind (name, ns) (Some new') /\ kept new' /\ same_resource new new'.
Proof.
  intros Ho Hk Hn Hd Hf. unfold reconcile, migrationReconcile. cbn [mg_kind genericMigration].
  rewrite (srun_get _ _ _ _ _ _ _ Hn), Hd. destruct (containsString _ _) eqn:Ec.
  { by rewrite Hf in Ec. }
  destruct (hold s NewGroup new Hn Hd) as (new' & s' & Hs & Hp & Hkn & Hsm).
  exists new', s'. rewrite srun_call, Hs. done.
Qed.

Lemma stable_run s old :
  migrated s old -> srun reconcile s = (Returned (after 30, None), s).
Proof.
  intros (old' & new & Ho & [Hd Hf] & Hn & [Hdn Hfn] & _).
  unfold reconcile, migrationReconcile. cbn [mg_kind genericMigration].
  rewrite (srun_get _ _ _ _ _ _ _ Hn), Hdn, (proj2 (containsString_spec _ _) Hfn).
  unfold migrateOld. cbn [mg_kind genericMigration]. rewrite (srun_get _ _ _ _ _ _ _ Ho), Hd.
  rewrite (proj2 (containsString_spec _ _) Hf), srun_bind. cbn [srun].
  by rewrite (srun_get _ _ _ _ _ _ _ Hn).
Qed.

Lemma stays s old n :
  migrated s old -> migrated (reconciles (genericMigration kind) name ns n s) old.
Proof.
  intros Hm. induction n as [|n IH]; [done|]. cbn [reconciles]. fold reconcile.
  by rewrite (stable_run _ _ Hm).
Qed.

Lemma copied_new old new new' : same_resource new new' -> copied old new -> copied old new'.
Proof. intros [] []. split; congruence. Qed.

Lemma migrates s old n :
  (0 < RetrySteps)%nat ->
  find s OldGroup kind (name, ns) = Some old -> find s NewGroup kind (name, ns) = None ->
  usable old ->
  migrated (reconciles (genericMigration kind) name ns (2 + n) s) old.
Proof.
  intros Hr Ho Hn Hu. destruct (first_run s old Hr Ho Hn Hu)
    as (old1 & new1 & s1 & He1 & Ho1 & Hk1 & Hn1 & Hd1 & Hf1 & Hc1).
  destruct (second_run s1 old1 new1 Ho1 Hk1 Hn1 Hd1 Hf1)
    as (new2 & s2 & He2 & [Hp2 Hr2] & Hk2 & Hs2).
  cbn [reconciles Nat.add]. fold reconcile. rewrite He1. cbn [snd]. rewrite He2. cbn [snd].
  apply stays. exists old1, new2. rewrite Hr2 by done.
  split_and!; [done..|by eapply copied_new].
Qed.

End Created.

End Run.

(** ** A server in memory *)

Module Memory.

Abbreviation store := (gmap (bool * string * (string * string)) MObj).
Definition slot (g : group) (k : string) (key : string * string)
    : bool * string * (string * string) := (bool_decide (g = NewGroup), k, key).

Definition get (s : store) (g : group) (k : string) (key : string * string) : option MObj :=
  match s !! slot g k key with
  | Some o => if bool_decide (key_of o = key) then Some o else None
  | None => None
  end.

(** What an accepted request leaves: the server's fields, and the given status. *)
Definition written (uid : string) (deletion : option string) (st : MStatus) (o : MObj) : MObj :=
  mkMObj (mo_Name o) (mo_Namespace o) uid (mo_ResourceVersion o +:+ "1") deletion
    (mo_Finalizers o) (mo_Labels o) (mo_Annotations o) (mo_Spec o) st.

Definition missing : err := NotFound "not found".

Definition answer (q : mreq) : store -> mresp q * store :=
  match q return store -> mresp q * store with
  | MGet g k n m => fun s => (match get s g k (n, m) with Some o => Ok o | None => Err missing end, s)
  | MCreate k o => fun s =>
      match get s NewGroup k (key_of o) with
      | Some _ => (Err (AlreadyExists "already exists"), s)
      | None =>
          let o' := written "uid-new" None emptyStatus o in
          (Ok o', <[slot NewGroup k (key_of o) := o']> s)
      end
  | MUpdate g k o => fun s =>
      match get s g k (key_of o) with
      | None => (Err missing, s)
      | Some cur =>
          if mo_ResourceVersion o == mo_ResourceVersion cur then
            let o' := written (mo_UID cur) (mo_DeletionTimestamp cur) (mo_Status cur) o in
            (Ok o', if bool_decide (is_Some (mo_DeletionTimestamp cur)) &&
                       bool_decide (mo_Finalizers o = [])
                    then delete (slot g k (key_of o)) s else <[slot g k (key_of o) := o']> s)
          else (Err (Conflict "modified"), s)
      end
  | MStatusUpdate g k o => fun s =>
      match get s g k (key_of o) with
      | None => (Some missing, s)
      | Some cur =>
          if mo_ResourceVersion o == mo_ResourceVersion cur then
            (None, <[slot g k (key_of o) :=
                       written (mo_UID cur) (mo_DeletionTimestamp cur) (mo_Status o) cur]> s)
          else (Some (Conflict "modified"), s)
      end
  | MDelete k n m => fun s =>
      match get s OldGroup k (n, m) with
      | None => (Some missing, s)
      | Some cur =>
          (None, if bool_decide (mo_Finalizers cur = []) then delete (slot OldGroup k (n, m)) s
                 else <[slot OldGroup k (n, m) :=
                          written (mo_UID cur) (Some "now") (mo_Status cur) cur]> s)
      end
  | MGetSecret _ _ => fun s => (Err missing, s)
  | MUpdateSecret _ => fun s => (None, s)
  | MNow => fun s => ("now", s)
  end.

#[export] Instance server : ApiServer := {| Store := store; find := get; serve := answer |}.

Lemma slot_inj g k key g' k' key' :
  (g', k', key') <> (g, k, key) -> slot g k key <> slot g' k' key'.
Proof. unfold slot. intros Hne [= Hg -> ->]. apply Hne. by destruct g, g'. Qed.

Lemma get_Some s g k key o : get s g k key = Some o -> key_of o = key.
Proof.
  unfold get. destruct (s !! _); [|done]. case_bool_decide; [|done]. by intros [= <-].
Qed.

Lemma put_insert (s : store) g k key o : key_of o = key -> put s (<[slot g k key := o]> s) g k key (Some o).
Proof.
  intros Hk. split; cbn [find server].
  - unfold get. rewrite lookup_insert_eq. by rewrite bool_decide_true.
  - intros g' k' key' Hne. unfold get. by rewrite lookup_insert_ne by by apply slot_inj.
Qed.
Lemma put_delete (s : store) g k key : put s (delete (slot g k key) s) g k key None.
Proof.
  split; cbn [find server].
  - unfold get. by rewrite lookup_delete_eq.
  - intros g' k' key' Hne. unfold get. by rewrite lookup_delete_ne by by apply slot_inj.
Qed.

Lemma get_insert (s : store) g k key o g' k' key' o' :
  get (<[slot g k key := o]> s) g' k' key' = Some o' ->
  ((g', k', key') = (g, k, key) /\ o' = o) \/ get s g' k' key' = Some o'.
Proof.
  unfold get. destruct (decide ((g', k', key') = (g, k, key))) as [[= -> -> ->]|Hne].
  - rewrite lookup_insert_eq. case_bool_decide; [|done]. intros [= <-]. by left.
  - rewrite lookup_insert_ne by by apply slot_inj. by right.
Qed.
Lemma get_delete (s : store) g k key g' k' key' o' :
  get (delete (slot g k key) s) g' k' key' = Some o' -> get s g' k' key' = Some o'.
Proof.
  unfold get. destruct (decide (slot g k key = slot g' k' key')) as [->|Hne].
  - by rewrite lookup_delete_eq.
  - by rewrite lookup_delete_ne.
Qed.

Lemma answer_keeps_status (q : mreq) (s : store) (g : group) (k : string) (key : string * string) o' :
  writes_status g q = false -> get (answer q s).2 g k key = Some o' ->
  mo_Status o' = emptyStatus \/
  exists o, get s g k key = Some o /\ mo_Status o' = mo_Status o.
Proof.
  intros Hw. destruct q as [g1 k1 n m|k1 o|g1 k1 o|g1 k1 o|k1 n m|n m|c|]; cbn [answer];
    try (by eauto).
  - destruct (get s NewGroup k1 (key_of o)); [by eauto|].
    intros [[_ ->]|]%get_insert; [by left|by eauto].
  - destruct (get s g1 k1 (key_of o)) as [cur|] eqn:Eg; [|by eauto].
    destruct (_ == _); [|by eauto]. cbn [snd]. destruct (_ && _).
    + intros ?%get_delete. by eauto.
    + intros [[[= -> -> ->] ->]|]%get_insert; [|by eauto]. right. by exists cur.
  - destruct (get s g1 k1 (key_of o)) as [cur|] eqn:Eg; [|by eauto].
    destruct (_ == _); [|by eauto]. intros [[[= -> -> ->] ->]|]%get_insert; [|by eauto].
    cbn in Hw. by rewrite bool_decide_true in Hw.
  - destruct (get s OldGroup k1 (n, m)) as [cur|] eqn:Eg; [|by eauto]. cbn [snd].
    destruct (bool_decide _).
    + intros ?%get_delete. by eauto.
    + intros [[[= -> -> ->] ->]|]%get_insert; [|by eauto]. right. by exists cur.
Qed.

#[export] Instance server_laws : ApiServerLaws.
Proof.
  split; cbn [find serve server answer].
  - intros s g k key o. apply get_Some.
  - by intros s g k n m o ->.
  - intros s g k n m ->. by eexists.
  - done.
  - intros s k o ->. do 2 eexists. split_and!; [done|done|done|]. by apply put_insert.
  - intros s g k o cur -> -> _ _. rewrite bool_decide_true by done.
    do 2 eexists. split_and!; [done|done|done|done|done| |].
    + intros Hd Hf. rewrite !bool_decide_true by done. apply put_delete.
    + intros Hc. rewrite (proj2 (andb_false_iff _ _)); [by apply put_insert|].
      destruct Hc as [->|Hh]; [left|right]; by apply bool_decide_false.
  - intros s g k o cur Hg. rewrite Hg. intros ->. rewrite bool_decide_true by done.
    exists (written (mo_UID cur) (mo_DeletionTimestamp cur) (mo_Status o) cur). eexists. split_and!; [done|done|done|done|]. apply put_insert. by apply get_Some in Hg.
  - intros s k n m cur Hg Hh. rewrite Hg. rewrite bool_decide_false by done.
    exists (written (mo_UID cur) (Some "now") (mo_Status cur) cur). eexists. split_and!; [done|done|by eexists|]. apply put_insert. by apply get_Some in Hg.
  - apply answer_keeps_status.
Qed.

End Memory.

(** ** What the migration achieves *)

(** One of the reconcilers of [Migration]. *)
Definition migrator `{RP : RetryPolicy} `{CL : CtrlLib} (ops : MigOps) : Prop :=
  ops = clusterMigration \/ exists kind, ops = genericMigration kind.

Lemma migrator_key `{RP : RetryPolicy} `{CL : CtrlLib} ops name ns o :
  migrator ops -> key_of o = (name, ns) -> mg_key ops (name, ns) o = (name, ns).
Proof. by intros [->|[kind ->]]. Qed.

(** C13: Deleting the new object ends.  If the new object is being deleted and the main
    reconciler has let it go, and the old one is held by the migration and at most the old
    operator, two runs of the migration reconciler remove both objects. *)
Theorem deletion_completes `{RP : RetryPolicy} `{CL : CtrlLib} `{AL : ApiServerLaws}
    ops name ns s new old :
  migrator ops ->
  find s NewGroup (mg_kind ops) (name, ns) = Some new -> leaving ops new ->
  find s OldGroup (mg_kind ops) (name, ns) = Some old ->
  MigrationFinalizer ∈ mo_Finalizers old ->
  mo_Finalizers old ⊆ [MigrationFinalizer; mg_oldFinalizer ops] ->
  find (reconciles ops name ns 2 s) NewGroup (mg_kind ops) (name, ns) = None /\
  find (reconciles ops name ns 2 s) OldGroup (mg_kind ops) (name, ns) = None.
Proof. intros Hm Hn Hl Ho. eapply both_go; eauto using migrator_key. Qed.

(** C12: The migration of a resource completes and is stable.  From an old object that is
    ready, in use and not marked, without a new one, and with at least one attempt per update, two
    or more runs give a new object with the spec and the labels of the old one and its status but
    for the managed cluster, which is cleared; it names the old one as its source, and both are in
    use and held by the migration. *)
Theorem migration_completes `{RP : RetryPolicy} `{AL : ApiServerLaws} kind name ns s old n :
  (0 < RetrySteps)%nat ->
  find s OldGroup kind (name, ns) = Some old -> find s NewGroup kind (name, ns) = None ->
  usable kind old ->
  migrated kind name ns (reconciles (genericMigration kind) name ns (2 + n) s) old.
Proof. apply migrates. Qed.

(** An old object that is deleted before it was migrated is never let go.  When it is
    being deleted, held by the migration, not marked, and there is no new object, any number of
    runs leaves everything as it is. *)
Theorem early_deletion_waits_forever `{RP : RetryPolicy} `{CL : CtrlLib} `{AL : ApiServerLaws}
    ops name ns s old n :
  migrator ops ->
  find s NewGroup (mg_kind ops) (name, ns) = None ->
  find s OldGroup (mg_kind ops) (name, ns) = Some old ->
  deleting old -> MigrationFinalizer ∈ mo_Finalizers old ->
  annotated old DeletedByNewResourceAnnotation = false ->
  reconciles ops name ns n s = s.
Proof.
  intros Hm Hn Ho Hd Hf Ha. induction n as [|n IH]; [done|]. cbn [reconciles].
  by rewrite (stuck_old ops name ns (λ o, migrator_key ops name ns o Hm) s old).
Qed.

(** The certificates follow the cluster.  If the transfer of a cluster that was not
    transferred yet succeeds, each of the four certificate secrets was absent, or is owned by
    the new cluster as it was read or as it was written back with its data unchanged. *)
Theorem certificates_follow_cluster `{RP : RetryPolicy} `{CL : CtrlLaws} (w : env mresp)
    (old new : MObj) (h : mhist) (n : string) :
  annotated new CertOwnershipTransferredAnnotation = false ->
  run w (transferCertificateSecretOwnership old new) [] = (Returned None, h) ->
  n ∈ certSecretNames (mo_Name old) ->
  (exists e, msaw h (MGetSecret n (mo_Namespace old)) (Err e) /\ IsNotFound e = true) \/
  (exists s s', msaw h (MGetSecret n (mo_Namespace old)) (Ok s) /\
     (s' = s \/ msaw h (MUpdateSecret s') None) /\
     ownedBy (mo_UID new) (ce_OwnerReferences s') = true /\ ce_Data s' = ce_Data s).
Proof.
  intros Ha Hr Hn.
  destruct (wp_sound w (transferCertificateSecretOwnership old new) (λ _ _, True)
    (λ h o, o = Returned None -> settled h new (mo_Namespace old) n) []) as [Hq _]; [|done|].
  - apply wp_transfer; [done..|]. intros h' e He Hs [= ->].
    destruct Hs as [Hs|Hs]; [done|congruence|auto].
  - rewrite Hr in Hq. destruct Hq as [?|(s & Hs & [Ho|Ho])]; [done|by left|right..].
    + exists s, s. auto.
    + exists s, (addOwner new s). split_and!; [done|by right|apply addOwner_owned|done].
Qed.

(** The status of the new cluster is never written. *)
Lemma cluster_footprint `{RP : RetryPolicy} `{CL : CtrlLib} name ns :
  only (λ q, writes_status NewGroup q = false) (ClusterMigrationReconcile name ns).
Proof.
  unfold ClusterMigrationReconcile, migrationReconcile, deletingNew, handleNewDeletion, migrateOld,
    handleOldDeletion, createIfReady, updateAndStop.
  cbn [clusterMigration mg_create mg_sync]. unfold createNewFromOld, syncOldToNew,
    syncStatusNewToOld, copyStatus, transferCertificateSecretOwnership, transferSecret.
  repeat first [progress only_auto | apply only_retry_loop; intros ?].
Qed.

Lemma cluster_status_empty `{RP : RetryPolicy} `{CL : CtrlLib} `{AL : ApiServerLaws} name ns n s :
  (forall new, find s NewGroup clusterKind (name, ns) = Some new -> mo_Status new = emptyStatus) ->
  forall new, find (reconciles clusterMigration name ns n s) NewGroup clusterKind (name, ns) =
    Some new -> mo_Status new = emptyStatus.
Proof.
  revert s. induction n as [|n IH]; intros s Hs; [done|]. apply IH.
  refine (srun_only _ (λ s, forall new, find s NewGroup clusterKind (name, ns) = Some new ->
    mo_Status new = emptyStatus) _ s (cluster_footprint name ns) _ Hs).
  intros q s1 Hq Hs1 new Hn.
  destruct (serve_keeps_status q s1 _ _ _ _ Hq Hn) as [?|(o & Ho & ->)]; auto.
Qed.

(** The status of a cluster is lost.  After any number of runs of the cluster migration
    from a state without a new cluster, the status of the new cluster is empty, although
    [createNewFromOld] means to copy the one of the old cluster. *)
Theorem cluster_status_not_copied `{RP : RetryPolicy} `{CL : CtrlLib} `{AL : ApiServerLaws}
    name ns n s new :
  find s NewGroup clusterKind (name, ns) = None ->
  find (reconciles clusterMigration name ns n s) NewGroup clusterKind (name, ns) = Some new ->
  mo_Status new = emptyStatus.
Proof. intros Hn. apply cluster_status_empty. by rewrite Hn. Qed.

Module Witnesses.
Import Memory.

#[local] Instance retry5 : RetryPolicy := {| RetrySteps := 5 |}.
#[local] Instance owner : CtrlLib :=
  {| SetControllerReference := fun name uid refs => Ok (mkOwner name uid true :: refs) |}.
#[local] Instance owner_laws : CtrlLaws.
Proof. split. intros name uid refs refs' [= <-]. eexists. split; [by left|done]. Qed.

Definition a_role (deletion : option string) (fs : list string) : MObj :=
  mkMObj "r" "ns" "uid-old" "1" deletion fs {["team" := "search"]} ∅ (JStr "spec")
    (mkMStatus "CREATED" (Some "uid-cluster") None JNull).
Definition role_kind : string := "OpensearchRole".

Lemma deletion_completes_witness :
  let s : store := {[slot NewGroup role_kind ("r", "ns") := a_role (Some "t") [MigrationFinalizer];
                     slot OldGroup role_kind ("r", "ns") :=
                       a_role None [OldResourceFinalizer; MigrationFinalizer]]} in
  find (reconciles (genericMigration role_kind) "r" "ns" 2 s) NewGroup role_kind ("r", "ns") = None /\
  find (reconciles (genericMigration role_kind) "r" "ns" 2 s) OldGroup role_kind ("r", "ns") = None.
Proof.
  apply (deletion_completes (genericMigration role_kind) "r" "ns" _
    (a_role (Some "t") [MigrationFinalizer]) (a_role None [OldResourceFinalizer; MigrationFinalizer])).
  - right. by exists role_kind.
  - by vm_compute.
  - split_and!; [by exists "t"|set_solver|set_solver|done].
  - by vm_compute.
  - set_solver.
  - set_solver.
Defined.

Lemma migration_completes_witness :
  let s : store := {[slot OldGroup role_kind ("r", "ns") := a_role None [OldResourceFinalizer]]} in
  migrated role_kind "r" "ns" (reconciles (genericMigration role_kind) "r" "ns" 2 s)
    (a_role None [OldResourceFinalizer]).
Proof.
  apply (migration_completes role_kind "r" "ns" _ (a_role None [OldResourceFinalizer]) 0).
  - cbn. lia.
  - by vm_compute.
  - by vm_compute.
  - by split_and!.
Defined.

Lemma early_deletion_waits_forever_witness :
  let s : store := {[slot OldGroup role_kind ("r", "ns") :=
                       a_role (Some "t") [MigrationFinalizer]]} in
  reconciles (genericMigration role_kind) "r" "ns" 1000 s = s.
Proof.
  apply (early_deletion_waits_forever _ "r" "ns" _ (a_role (Some "t") [MigrationFinalizer])).
  - right. by exists role_kind.
  - by vm_compute.
  - by vm_compute.
  - by exists "t".
  - set_solver.
  - by vm_compute.
Defined.

(** A cluster with a transport certificate that the old cluster owns. *)
Definition a_cluster (uid : string) : MObj :=
  mkMObj "os" "ns" uid "1" None [] ∅ ∅ (JStr "spec") emptyStatus.
Definition a_cert : CertSecret :=
  mkCertSecret "os-transport-cert" "ns" [mkOwner "os" "uid-old" false] {["tls.crt" := "pem"]}.
Definition cert_world : env mresp := fun q _ =>
  match q return mresp q with
  | MGetSecret n _ => if n == "os-transport-cert" then Ok a_cert else Err missing
  | MGet _ _ _ _ | MCreate _ _ => Err missing
  | MUpdate _ _ o => Ok o
  | MNow => "now"
  | MStatusUpdate _ _ _ | MDelete _ _ _ | MUpdateSecret _ => None
  end.
Lemma certificates_follow_cluster_witness :
  let h := (run cert_world (transferCertificateSecretOwnership (a_cluster "uid-old")
                              (a_cluster "uid-new")) []).2 in
  (exists e, msaw h (MGetSecret "os-transport-cert" "ns") (Err e) /\ IsNotFound e = true) \/
  (exists s s', msaw h (MGetSecret "os-transport-cert" "ns") (Ok s) /\
     (s' = s \/ msaw h (MUpdateSecret s') None) /\
     ownedBy "uid-new" (ce_OwnerReferences s') = true /\ ce_Data s' = ce_Data s).
Proof.
  apply (certificates_follow_cluster cert_world (a_cluster "uid-old") (a_cluster "uid-new") _
           "os-transport-cert").
  - by vm_compute.
  - by vm_compute.
  - set_solver.
Defined.

(** A running cluster is migrated; the new one is not known to run. *)
Definition a_running_cluster : MObj :=
  set_Status (mkMStatus PhaseRunning None None JNull) (a_cluster "uid-old").
Definition before_migration : @Store server :=
  ({[slot OldGroup clusterKind ("os", "ns") := a_running_cluster]} : store).
Lemma cluster_status_not_copied_witness :
  exists new,
    find (reconciles clusterMigration "os" "ns" 3 before_migration) NewGroup clusterKind
      ("os", "ns") = Some new /\ mo_Status new = emptyStatus.
Proof.
  eexists. split; [by vm_compute|].
  apply (cluster_status_not_copied "os" "ns" 3 before_migration); by vm_compute.
Defined.

End Witnesses.
