(* ===== verification/Schema.v ===== *)
(** * Schema: Go types and their JSON encoding

    The types of the API groups as [encoding/json] sees them: structs with the name and the option
    [omitempty] of each field.  [Marshal] and [Unmarshal] are the encoder and the decoder on values
    of such types.  Types of Kubernetes are known by their documents only ([ForeignLib]).

    The theorem on them is [convert_lossless]: if a type is part of another ([sub], which can be
    evaluated), encoding a value of the first and decoding it as the second loses nothing.

    Fields that are promoted from an embedded pointer are fields of the outer struct with
    [f_Via]; while the pointer is nil they have no value ([VMissing]).  Documents that are decoded
    are outputs of the encoder, so no member occurs twice.  Names are compared without regard to
    case on their ASCII part. *)

From S2P Require Import Prelude Prog Resources Api Json.

(** ** Types and values *)

Record FieldInfo := mkFieldInfo { f_Name : string; f_Omit : bool; f_Via : bool }.

#[warnings="-register-all"]
Inductive gotype :=
| TString
| TBool
| TInt (bits : Z)
| TForeign (name : string)
| TPtr (t : gotype)
| TSlice (t : gotype)
| TMap (t : gotype)
| TStruct (fs : list (FieldInfo * gotype)).

(** Fields as they are declared: with or without [omitempty], those of an embedded struct, and those
    of an embedded pointer. *)
Definition field (name : string) (t : gotype) : FieldInfo * gotype := (mkFieldInfo name false false, t).
Definition omit (name : string) (t : gotype) : FieldInfo * gotype := (mkFieldInfo name true false, t).
Definition embedded (t : gotype) : list (FieldInfo * gotype) :=
  match t with TStruct fs => fs | _ => [] end.
Definition promoted (t : gotype) : list (FieldInfo * gotype) :=
  match t with
  | TStruct fs => map (fun ft => (mkFieldInfo (f_Name ft.1) (f_Omit ft.1) true, ft.2)) fs
  | _ => []
  end.

Section GotypeInd.
Variable P : gotype -> Prop.
Hypothesis HString : P TString.
Hypothesis HBool : P TBool.
Hypothesis HInt : forall b, P (TInt b).
Hypothesis HForeign : forall n, P (TForeign n).
Hypothesis HPtr : forall t, P t -> P (TPtr t).
Hypothesis HSlice : forall t, P t -> P (TSlice t).
Hypothesis HMap : forall t, P t -> P (TMap t).
Hypothesis HStruct : forall fs, Forall (λ ft, P ft.2) fs -> P (TStruct fs).

Fixpoint gotype_nested_ind (t : gotype) : P t :=
  match t with
  | TString => HString
  | TBool => HBool
  | TInt b => HInt b
  | TForeign n => HForeign n
  | TPtr t => HPtr t (gotype_nested_ind t)
  | TSlice t => HSlice t (gotype_nested_ind t)
  | TMap t => HMap t (gotype_nested_ind t)
  | TStruct fs =>
      HStruct fs ((fix go (fs : list (FieldInfo * gotype)) : Forall (λ ft, P ft.2) fs :=
                     match fs with
                     | [] => Forall_nil_2 _
                     | ft :: fs' => Forall_cons_2 (λ ft, P ft.2) ft fs' (gotype_nested_ind ft.2) (go fs')
                     end) fs)
  end.
End GotypeInd.

(** [VNil] is the nil pointer, slice or map; a struct has its fields by name. *)
#[warnings="-register-all"]
Inductive val :=
| VStr (s : string)
| VBool (b : bool)
| VInt (n : Z)
| VDoc (d : json)
| VNil
| VPtr (v : val)
| VSlice (l : list val)
| VMap (m : list (string * val))
| VStruct (vs : list (string * val))
| VMissing.

(** Types of other packages: the document of the zero value, and what a document becomes when it is
    decoded and encoded again. *)
Class ForeignLib := {
  zero_of : string -> json;
  decode_foreign : string -> json -> option json }.

Definition names (fs : list (FieldInfo * gotype)) : list string := (λ ft, f_Name ft.1) <$> fs.

Fixpoint assoc {A} (k : string) (l : list (string * A)) : option A :=
  match l with
  | [] => None
  | (k', a) :: l => if decide (k' = k) then Some a else assoc k l
  end.

(** The field [name] of a struct. *)
Definition fieldOf (name : string) (fs : list (FieldInfo * gotype)) : option (FieldInfo * gotype) :=
  assoc name ((λ ft, (f_Name ft.1, ft)) <$> fs).

Definition in_range (bits n : Z) : Prop := - 2 ^ (bits - 1) <= n < 2 ^ (bits - 1).
#[global] Instance in_range_dec bits n : Decision (in_range bits n).
Proof. unfold in_range. apply _. Defined.

(** ** The encoder and the decoder *)

(** What [omitempty] leaves out. *)
Definition isEmptyValue (v : val) : bool :=
  match v with
  | VStr "" | VBool false | VInt 0 | VNil | VSlice [] | VMap [] => true
  | _ => false
  end.

Definition omitted (f : FieldInfo) (v : val) : bool :=
  match v with VMissing => true | _ => f_Omit f && isEmptyValue v end.

Fixpoint Marshal (t : gotype) (v : val) : json :=
  match t, v with
  | TString, VStr s => JStr s
  | TBool, VBool b => JBool b
  | TInt _, VInt n => JNum n
  | TForeign _, VDoc d => d
  | TPtr t, VPtr v => Marshal t v
  | TSlice t, VSlice l => JArr (map (Marshal t) l)
  | TMap t, VMap m => JObj (map (fun kv => (kv.1, Marshal t kv.2)) m)
  | TStruct fs, VStruct vs =>
      JObj ((fix members fs :=
               match fs with
               | [] => []
               | (f, t) :: fs =>
                   match assoc (f_Name f) vs with
                   | Some v => if omitted f v then members fs
                               else (f_Name f, Marshal t v) :: members fs
                   | None => members fs
                   end
               end) fs)
  | _, _ => JNull
  end.

Definition lowerChar (c : ascii) : ascii :=
  let n := Ascii.nat_of_ascii c in
  if bool_decide (65 <= n <= 90)%nat then Ascii.ascii_of_nat (n + 32) else c.
Fixpoint lower (s : string) : string :=
  match s with
  | EmptyString => EmptyString
  | String c s => String (lowerChar c) (lower s)
  end.

(** The field a member is for: the one of its name, or the first of its name in another case. *)
Definition select (fs : list (FieldInfo * gotype)) (k : string) : option string :=
  if bool_decide (k ∈ names fs) then Some k
  else find (fun n => lower n == lower k) (names fs).
Definition member (fs : list (FieldInfo * gotype)) (m : list (string * json)) (name : string)
    : option json :=
  snd <$> find (fun kv => select fs kv.1 == Some name) m.

Section Decoder.
Context `{FL : ForeignLib}.

Fixpoint zero (t : gotype) : val :=
  match t with
  | TString => VStr ""
  | TBool => VBool false
  | TInt _ => VInt 0
  | TForeign n => VDoc (zero_of n)
  | TPtr _ | TSlice _ | TMap _ => VNil
  | TStruct fs => VStruct (map (fun ft => (f_Name ft.1, if f_Via ft.1 then VMissing else zero ft.2)) fs)
  end.

(** A member for a promoted field makes the decoder allocate the embedded struct; no struct here
    embeds two pointers. *)
Definition allocated (fs : list (FieldInfo * gotype)) (m : list (string * json)) : bool :=
  existsb (fun ft => f_Via ft.1 && bool_decide (member fs m (f_Name ft.1) <> None)) fs.

Fixpoint Unmarshal (t : gotype) (d : json) : option val :=
  match t, d with
  | TString, JStr s => Some (VStr s)
  | TBool, JBool b => Some (VBool b)
  | TInt bits, JNum n => if decide (in_range bits n) then Some (VInt n) else None
  | TForeign n, JNull => Some (VDoc (zero_of n))
  | TForeign n, d => VDoc <$> decode_foreign n d
  | TPtr _, JNull => Some VNil
  | TPtr t, d => VPtr <$> Unmarshal t d
  | TSlice _, JNull => Some VNil
  | TSlice t, JArr l => VSlice <$> mapM (Unmarshal t) l
  | TMap _, JNull => Some VNil
  | TMap t, JObj m => VMap <$> mapM (fun kv => pair kv.1 <$> Unmarshal t kv.2) m
  | TStruct fs, JObj m =>
      VStruct <$>
      (fix fields gs :=
         match gs with
         | [] => Some []
         | (f, t) :: gs =>
             v ← match member fs m (f_Name f) with
                 | Some d => Unmarshal t d
                 | None => Some (if f_Via f && negb (allocated fs m) then VMissing else zero t)
                 end;
             vs ← fields gs;
             Some ((f_Name f, v) :: vs)
         end) fs
  | t, JNull => Some (zero t)
  | _, _ => None
  end.

(** ** Values of a type *)

(** A field that is promoted from a nil pointer has no value. *)
Definition field_typed (typed : gotype -> val -> Prop) (f : FieldInfo) (t : gotype) (v : val) : Prop :=
  (v = VMissing /\ f_Via f = true) \/ (v <> VMissing /\ typed t v).

(** A document of another package's type is one that its encoder writes. *)
Fixpoint typed (t : gotype) (v : val) : Prop :=
  match t with
  | TString => exists s, v = VStr s
  | TBool => exists b, v = VBool b
  | TInt bits => exists n, v = VInt n /\ in_range bits n
  | TForeign n => exists d, v = VDoc d /\ d <> JNull /\ decode_foreign n d = Some d
  | TPtr t => v = VNil \/ exists w, v = VPtr w /\ typed t w
  | TSlice t => v = VNil \/ exists l, v = VSlice l /\ Forall (typed t) l
  | TMap t => v = VNil \/ exists m, v = VMap m /\ NoDup m.*1 /\ Forall (λ kv, typed t kv.2) m
  | TStruct fs =>
      exists vs, v = VStruct vs /\ vs.*1 = names fs /\
        (fix all fs :=
           match fs with
           | [] => True
           | (f, t) :: fs =>
               (exists v, assoc (f_Name f) vs = Some v /\ field_typed typed f t v) /\ all fs
           end) fs
  end.

(** ** One type as part of another *)

Definition nilable (t : gotype) : bool :=
  match t with TPtr _ | TSlice _ | TMap _ => true | _ => false end.
(** The zero value is one that [omitempty] leaves out. *)
Definition skippable (t : gotype) : bool :=
  match t with TStruct _ | TForeign _ => false | TInt b => bool_decide (0 < b) | _ => true end.

(** A promoted field, or one that only the larger type has, must be invisible when it is zero. *)
Definition hides (f : FieldInfo) (t : gotype) : bool := f_Omit f && skippable t.

Fixpoint sub (t u : gotype) : bool :=
  match t, u with
  | TString, TString => true
  | TBool, TBool => true
  | TInt b, TInt b' => bool_decide (0 < b <= b')
  | TForeign n, TForeign n' => n == n'
  | TPtr t, TPtr u => negb (nilable t) && sub t u
  | TSlice t, TSlice u => sub t u
  | TMap t, TMap u => sub t u
  | TStruct fs, TStruct gs =>
      bool_decide (NoDup (names fs)) && bool_decide (NoDup (names gs)) &&
      (fix all fs :=
         match fs with
         | [] => true
         | (f, t) :: fs =>
             match fieldOf (f_Name f) gs with
             | Some (g, u) => Bool.eqb (f_Omit f) (f_Omit g) && (negb (f_Via f) || hides g u) && sub t u
             | None => false
             end && all fs
         end) fs &&
      forallb (fun gu => bool_decide (f_Name gu.1 ∈ names fs) || hides gu.1 gu.2) gs &&
      forallb (fun gu => negb (f_Via gu.1) || hides gu.1 gu.2) gs
  | _, _ => false
  end.

(** ** Fields and members *)

Definition encoded (f : FieldInfo) (t : gotype) (v : val) : option json :=
  if omitted f v then None else Some (Marshal t v).

(** The members of a struct, and its fields when it is decoded. *)
Definition members (fs : list (FieldInfo * gotype)) (vs : list (string * val)) : list (string * json) :=
  omap (λ ft, v ← assoc (f_Name ft.1) vs; pair (f_Name ft.1) <$> encoded ft.1 ft.2 v) fs.
Definition decodedField (fs : list (FieldInfo * gotype)) (m : list (string * json))
    (ft : FieldInfo * gotype) : option (string * val) :=
  pair (f_Name ft.1) <$>
    match member fs m (f_Name ft.1) with
    | Some d => Unmarshal ft.2 d
    | None => Some (if f_Via ft.1 && negb (allocated fs m) then VMissing else zero ft.2)
    end.

Lemma Marshal_struct fs vs : Marshal (TStruct fs) (VStruct vs) = JObj (members fs vs).
Proof.
  cbn [Marshal]. f_equal. induction fs as [|[f t] fs IH]; [done|]. unfold members, encoded in *. cbn.
  destruct (assoc (f_Name f) vs) as [v|]; cbn; [|done]. destruct (omitted f v); cbn; [done|].
  by f_equal.
Qed.

Lemma Unmarshal_struct fs m :
  Unmarshal (TStruct fs) (JObj m) = VStruct <$> mapM (decodedField fs m) fs.
Proof.
  cbn [Unmarshal]. f_equal.
  match goal with |- ?F fs = mapM ?G fs => cut (forall gs, F gs = mapM G gs); [by intros ->|] end.
  intros gs. induction gs as [|[f t] gs IH]; [done|]. cbn [mapM]. rewrite IH.
  transitivity (decodedField fs m (f, t) ≫= λ kv, vs ← mapM (decodedField fs m) gs; Some (kv :: vs));
    [|by cbn; destruct (decodedField fs m (f, t))].
  generalize (mapM (decodedField fs m) gs). intros rest. unfold decodedField. cbn.
  by destruct (match member fs m (f_Name f) with Some _ => _ | None => _ end).
Qed.

Lemma typed_struct fs v :
  typed (TStruct fs) v <->
  exists vs, v = VStruct vs /\ vs.*1 = names fs /\
    Forall (λ ft, exists v, assoc (f_Name ft.1) vs = Some v /\ field_typed typed ft.1 ft.2 v) fs.
Proof.
  cbn [typed]. split; intros (vs & -> & Hn & H); exists vs; (split_and!; [done|done|]); clear Hn.
  - induction fs as [|[f t] fs IH]; [done|]. destruct H as [H1 H2]. constructor; [done|by apply IH].
  - induction H as [|[f t] fs H1 _ IH]; [done|]. by split.
Qed.

Lemma assoc_elem {A} k (l : list (string * A)) a : assoc k l = Some a -> (k, a) ∈ l.
Proof.
  induction l as [|[k' b] l IH]; cbn; [done|]. case_decide; intros; simplify_eq; [by left|right; auto].
Qed.
Lemma assoc_NoDup {A} k (l : list (string * A)) a : NoDup l.*1 -> (k, a) ∈ l -> assoc k l = Some a.
Proof.
  induction l as [|[k' b] l IH]; cbn; [by intros _ ?%not_elem_of_nil|]. intros [Hk Hn]%NoDup_cons.
  intros [E|H]%elem_of_cons; [simplify_eq; by rewrite decide_True|]. rewrite decide_False; [by auto|].
  intros ->. apply Hk. apply list_elem_of_fmap. by exists (k, a).
Qed.
Lemma assoc_obj_lookup k (l : list (string * json)) : assoc k l = obj_lookup k l.
Proof. induction l as [|[k' b] l IH]; [done|]. cbn. by rewrite IH. Qed.

Lemma fieldOf_elem n fs ft : fieldOf n fs = Some ft -> ft ∈ fs /\ f_Name ft.1 = n.
Proof.
  intros H%assoc_elem. apply list_elem_of_fmap in H as (ft' & E & H). by simplify_eq.
Qed.
Lemma fieldOf_NoDup fs ft : NoDup (names fs) -> ft ∈ fs -> fieldOf (f_Name ft.1) fs = Some ft.
Proof.
  intros Hn H. apply assoc_NoDup.
  - rewrite <- list_fmap_compose. done.
  - apply list_elem_of_fmap. by exists ft.
Qed.
Lemma elem_of_names n fs : n ∈ names fs <-> exists ft, ft ∈ fs /\ f_Name ft.1 = n.
Proof. unfold names. rewrite list_elem_of_fmap. naive_solver. Qed.

Lemma members_elem fs vs k d :
  (k, d) ∈ members fs vs ->
  exists ft v, ft ∈ fs /\ f_Name ft.1 = k /\ assoc k vs = Some v /\ encoded ft.1 ft.2 v = Some d.
Proof.
  unfold members. intros (ft & H1 & H2)%list_elem_of_omap. exists ft.
  destruct (assoc (f_Name ft.1) vs) as [v|] eqn:E; [|done]. cbn in H2.
  destruct (encoded ft.1 ft.2 v) eqn:E'; [|done]. cbn in H2. simplify_eq. by exists v.
Qed.

Lemma members_NoDup fs vs : NoDup (names fs) -> NoDup (members fs vs).*1.
Proof.
  induction fs as [|ft fs IH]; cbn; [constructor|]. intros [Hk Hn]%NoDup_cons. unfold members. cbn.
  destruct (assoc _ _) as [v|]; cbn; [|by apply IH]. destruct (encoded _ _ _) as [d|]; cbn; [|by apply IH].
  constructor; [|by apply IH]. intros (kd & E & H)%list_elem_of_fmap. destruct kd as [k d'].
  apply members_elem in H as (ft' & _ & H & E' & _). cbn in E. subst. apply Hk. apply elem_of_names.
  by exists ft'.
Qed.

Lemma lookup_members fs vs ft v :
  NoDup (names fs) -> ft ∈ fs -> assoc (f_Name ft.1) vs = Some v ->
  obj_lookup (f_Name ft.1) (members fs vs) = encoded ft.1 ft.2 v.
Proof.
  intros Hn Hf Hv. rewrite <- assoc_obj_lookup. destruct (encoded ft.1 ft.2 v) as [d|] eqn:E.
  - apply assoc_NoDup; [by apply members_NoDup|]. unfold members. apply list_elem_of_omap.
    exists ft. split; [done|]. by rewrite Hv; cbn; rewrite E.
  - destruct (assoc _ (members fs vs)) as [d|] eqn:E'; [|done].
    apply assoc_elem, members_elem in E' as (ft' & v' & Hf' & En & Hv' & Ed).
    assert (ft' = ft) as ->.
    { apply (fieldOf_NoDup fs) in Hf as H1; [|done]. apply (fieldOf_NoDup fs) in Hf' as H2; [|done]. congruence. }
    congruence.
Qed.
Lemma lookup_members_None fs vs k : k ∉ names fs -> obj_lookup k (members fs vs) = None.
Proof.
  intros Hk. rewrite <- assoc_obj_lookup. destruct (assoc _ _) eqn:E; [|done].
  apply assoc_elem, members_elem in E as (ft & v & Hf & En & _). destruct Hk. apply elem_of_names.
  by exists ft.
Qed.

Lemma map_lookup_obj k (m : list (string * json)) : NoDup m.*1 -> map_lookup k m = obj_lookup k m.
Proof.
  intros Hn. destruct (obj_lookup k m) as [v|] eqn:E.
  - apply map_lookup_NoDup; [done|]. by apply obj_lookup_elem.
  - destruct (map_lookup k m) as [v|] eqn:E'; [|done]. apply map_lookup_elem in E'.
    rewrite <- assoc_obj_lookup in E. by rewrite (assoc_NoDup k m v) in E.
Qed.

(** When the members are among the fields, a field gets the member of its name. *)
Lemma member_lookup gs m k :
  Forall (λ kd, kd.1 ∈ names gs) m -> member gs m k = obj_lookup k m.
Proof.
  unfold member. induction 1 as [|[k' d] m Hk _ IH]; [done|]. cbn in *.
  assert (select gs k' = Some k') as -> by (unfold select; by rewrite bool_decide_true).
  case_decide as E.
  - subst. by rewrite bool_decide_true.
  - rewrite bool_decide_false by congruence. done.
Qed.

(** ** Conversion *)

Record sub_fields (fs gs : list (FieldInfo * gotype)) : Prop := {
  sf_old : NoDup (names fs);
  sf_new : NoDup (names gs);
  sf_kept : Forall (λ ft, exists gu, gu ∈ gs /\ f_Name gu.1 = f_Name ft.1 /\
                      f_Omit ft.1 = f_Omit gu.1 /\ (f_Via ft.1 = true -> hides gu.1 gu.2 = true) /\
                      sub ft.2 gu.2 = true) fs;
  sf_added : forall gu, gu ∈ gs -> f_Name gu.1 ∈ names fs \/ hides gu.1 gu.2 = true;
  sf_via : forall gu, gu ∈ gs -> f_Via gu.1 = true -> hides gu.1 gu.2 = true }.

Lemma sub_struct fs gs : sub (TStruct fs) (TStruct gs) = true -> sub_fields fs gs.
Proof.
  cbn [sub]. intros ((((H1 & H2)%andb_true_iff & H3)%andb_true_iff & H4)%andb_true_iff & H5)%andb_true_iff.
  apply bool_decide_eq_true in H1, H2. rewrite forallb_forall in H4, H5. split; try done.
  - clear H1 H4. induction fs as [|[f t] fs IH]; [constructor|]. apply andb_true_iff in H3 as [H3 H3'].
    constructor; [|by apply IH]. destruct (fieldOf (f_Name f) gs) as [[g u]|] eqn:E; [|done].
    apply fieldOf_elem in E as [Hg Hn]. apply andb_true_iff in H3 as [[Ho Hv]%andb_true_iff Hs].
    exists (g, u). split_and!; try done; [by apply eqb_prop|]. cbn. intros Hvia. by rewrite Hvia in Hv.
  - intros gu Hg%list_elem_of_In. specialize (H4 _ Hg). apply orb_true_iff in H4 as [H4|H4]; [|by right].
    left. by apply bool_decide_eq_true in H4.
  - intros gu Hg%list_elem_of_In Hv. specialize (H5 _ Hg). by rewrite Hv in H5.
Qed.

Lemma typed_not_missing t v : typed t v -> v <> VMissing.
Proof. destruct t; cbn; naive_solver. Qed.
Lemma zero_skippable t : skippable t = true -> isEmptyValue (zero t) = true /\ typed t (zero t).
Proof.
  destruct t as [| |bits| | | | |]; cbn [skippable zero]; try done; intros H; (split; [done|]);
    try (cbn; by eauto).
  exists 0. split; [done|]. apply bool_decide_eq_true in H. unfold in_range.
  pose proof (Z.pow_pos_nonneg 2 (bits - 1) ltac:(lia) ltac:(lia)). lia.
Qed.
Lemma empty_skippable t u v :
  sub t u = true -> typed t v -> isEmptyValue v = true -> skippable u = true.
Proof.
  destruct t, u; cbn; try done; intros H; try (intros; apply bool_decide_eq_true; apply bool_decide_eq_true in H; lia);
    naive_solver.
Qed.
Lemma not_null t v : nilable t = false -> typed t v -> Marshal t v <> JNull.
Proof.
  destruct t; cbn [nilable]; try done; intros _; cbn; naive_solver.
Qed.

(** The value of a field that the document does not have. *)
Lemma hidden_field g u (b : bool) :
  hides g u = true -> let w := if f_Via g && b then VMissing else zero u in
  field_typed typed g u w /\ encoded g u w = None.
Proof.
  intros [Ho Hs]%andb_true_iff. destruct (zero_skippable u Hs) as [He Ht].
  assert (zero u <> VMissing) as Hm by (by eapply typed_not_missing).
  cbv zeta. unfold encoded, field_typed. destruct (f_Via g) eqn:Ev, b; cbn; auto;
    (split; [by right|]); unfold omitted; rewrite Ho, He; by destruct (zero u).
Qed.

Definition converts (t u : gotype) (v : val) : Prop :=
  exists w, Unmarshal u (Marshal t v) = Some w /\ typed u w /\ same (Marshal u w) (Marshal t v) /\
            isEmptyValue w = isEmptyValue v.

Lemma Forall_exists_list {A B} (R : A -> B -> Prop) l :
  Forall (λ x, exists y, R x y) l -> exists k, Forall2 R l k.
Proof. induction 1 as [|x l [y Hy] _ [k Hk]]; [by exists []|]. exists (y :: k). by constructor. Qed.

Section Struct.
Context (fs gs : list (FieldInfo * gotype)) (Hsub : sub_fields fs gs).
Hypothesis IH : Forall (λ ft, forall u v, sub ft.2 u = true -> typed ft.2 v -> converts ft.2 u v) fs.
Context (vs : list (string * val)).
Hypothesis Hvs :
  Forall (λ ft, exists v, assoc (f_Name ft.1) vs = Some v /\ field_typed typed ft.1 ft.2 v) fs.

Lemma names_sub k : k ∈ names fs -> k ∈ names gs.
Proof.
  intros (ft & Hf & <-)%elem_of_names. pose proof (sf_kept _ _ Hsub) as H. rewrite Forall_forall in H.
  destruct (H _ Hf) as (gu & Hg & Hn & _). apply elem_of_names. by exists gu.
Qed.

Lemma members_known : Forall (λ kd, kd.1 ∈ names gs) (members fs vs).
Proof.
  apply Forall_forall. intros [k d] (ft & v & Hf & Hn & _)%members_elem. apply names_sub, elem_of_names.
  by exists ft.
Qed.

(** What becomes of one field. *)
Definition field_result (gu : FieldInfo * gotype) (kw : string * val) : Prop :=
  decodedField gs (members fs vs) gu = Some kw /\ kw.1 = f_Name gu.1 /\
  field_typed typed gu.1 gu.2 kw.2 /\
  option_Forall2 same (encoded gu.1 gu.2 kw.2) (obj_lookup (f_Name gu.1) (members fs vs)).

Lemma absent_field gu :
  hides gu.1 gu.2 = true -> obj_lookup (f_Name gu.1) (members fs vs) = None ->
  exists kw, field_result gu kw.
Proof.
  intros Hh Hl. unfold field_result, decodedField. rewrite member_lookup by apply members_known.
  rewrite Hl. destruct (hidden_field gu.1 gu.2 (negb (allocated gs (members fs vs))) Hh) as [Ht He].
  eexists (_, _). split_and!; [done|done|done|]. cbn [snd]. rewrite He. constructor.
Qed.

Lemma field_converts gu : gu ∈ gs -> exists kw, field_result gu kw.
Proof.
  intros Hg. destruct (decide (f_Name gu.1 ∈ names fs)) as [Hn|Hn].
  2: { destruct (sf_added _ _ Hsub gu Hg) as [|Hh]; [done|]. apply absent_field; [done|].
       by apply lookup_members_None. }
  apply elem_of_names in Hn as (ft & Hf & Hn).
  pose proof (sf_kept _ _ Hsub) as Hk. rewrite Forall_forall in Hk, Hvs, IH.
  destruct (Hk _ Hf) as (gu' & Hg' & Hn' & Ho & Hv & Hs). destruct (Hvs _ Hf) as (v & Ev & Ht).
  assert (gu' = gu) as ->.
  { pose proof (fieldOf_NoDup gs gu (sf_new _ _ Hsub) Hg).
    pose proof (fieldOf_NoDup gs gu' (sf_new _ _ Hsub) Hg'). congruence. }
  pose proof (lookup_members fs vs ft v (sf_old _ _ Hsub) Hf Ev) as Hl. rewrite Hn in Hl.
  unfold encoded in Hl. destruct (omitted ft.1 v) eqn:Hom.
  { apply absent_field; [|done]. destruct Ht as [[-> Hvia]|[Hm Ht]]; [by apply Hv|].
    assert (f_Omit ft.1 && isEmptyValue v = true) as [Hom' He]%andb_true_iff by (by destruct v).
    unfold hides. rewrite <- Ho, Hom'. by eapply empty_skippable. }
  destruct Ht as [[-> _]|[Hm Ht]]; [done|].
  destruct (IH _ Hf gu.2 v Hs Ht) as (w & Hu & Hw & Hsame & He).
  exists (f_Name gu.1, w). unfold field_result, decodedField. rewrite member_lookup by apply members_known.
  rewrite Hl, Hu. split_and!; [done|done|right; split; [by eapply typed_not_missing|done]|].
  cbn [snd]. unfold encoded. assert (omitted gu.1 w = false) as ->; [|by constructor].
  apply typed_not_missing in Hw as Hwm.
  assert (f_Omit ft.1 && isEmptyValue v = false) by (by destruct v).
  assert (omitted gu.1 w = f_Omit gu.1 && isEmptyValue w) as -> by (by destruct w).
  by rewrite <- Ho, He.
Qed.

Lemma struct_converts :
  exists ws, mapM (decodedField gs (members fs vs)) gs = Some ws /\ typed (TStruct gs) (VStruct ws) /\
    same (JObj (members gs ws)) (JObj (members fs vs)).
Proof.
  destruct (Forall_exists_list field_result gs) as [ws Hws].
  { apply Forall_forall. intros gu. apply field_converts. }
  assert (ws.*1 = names gs) as Hn.
  { clear -Hws. induction Hws as [|gu kw gs' ws (_ & E & _) _ IHw]; [done|]. cbn. by rewrite E, IHw. }
  assert (forall gu, gu ∈ gs -> exists w, assoc (f_Name gu.1) ws = Some w /\ field_result gu (f_Name gu.1, w)) as Ha.
  { intros gu Hg. apply list_elem_of_lookup in Hg as [i Hi].
    destruct (Forall2_lookup_l _ _ _ _ _ Hws Hi) as ([k w] & Hi' & Hr).
    assert (k = f_Name gu.1) as -> by apply Hr. exists w. split; [|done].
    apply assoc_NoDup; [rewrite Hn; apply (sf_new _ _ Hsub)|]. by eapply list_elem_of_lookup_2. }
  exists ws. split_and!.
  - apply mapM_Some. eapply Forall2_impl; [exact Hws|]. by intros gu kw [H _].
  - apply typed_struct. exists ws. split_and!; [done|done|]. apply Forall_forall. intros gu Hg.
    destruct (Ha _ Hg) as (w & E & Hr). exists w. split; [done|apply Hr].
  - constructor. intros k.
    rewrite !map_lookup_obj by (apply members_NoDup, Hsub).
    destruct (decide (k ∈ names gs)) as [Hk|Hk].
    + apply elem_of_names in Hk as (gu & Hg & <-). destruct (Ha _ Hg) as (w & E & Hr).
      rewrite (lookup_members gs ws gu w); [apply Hr|apply Hsub|done|done].
    + rewrite !lookup_members_None; [constructor| |done]. intros H. by apply Hk, names_sub.
Qed.
End Struct.

Lemma in_range_mono b b' n : 0 < b <= b' -> in_range b n -> in_range b' n.
Proof.
  unfold in_range. intros Hb Hn.
  pose proof (Z.pow_le_mono_r 2 (b - 1) (b' - 1) ltac:(lia) ltac:(lia)). lia.
Qed.

Lemma slice_converts t u l :
  (forall v, typed t v -> converts t u v) -> Forall (typed t) l ->
  exists ws, mapM (Unmarshal u) (map (Marshal t) l) = Some ws /\ Forall (typed u) ws /\
    Forall2 same (map (Marshal u) ws) (map (Marshal t) l) /\ length ws = length l.
Proof.
  intros Hc. induction 1 as [|v l Hv _ (ws & E & Ht & Hs & Hl)]; [by exists []|].
  destruct (Hc v Hv) as (w & E' & Ht' & Hs' & _). exists (w :: ws). cbn. rewrite E', E. cbn.
  split_and!; [done|by constructor|by constructor|by rewrite Hl].
Qed.

Lemma map_converts t u (m : list (string * val)) :
  (forall v, typed t v -> converts t u v) -> Forall (λ kv, typed t kv.2) m ->
  exists ws, mapM (λ kv : string * json, pair kv.1 <$> Unmarshal u kv.2) (map (λ kv, (kv.1, Marshal t kv.2)) m) = Some ws /\
    Forall (λ kv, typed u kv.2) ws /\ ws.*1 = m.*1 /\
    Forall2 (λ a b, a.1 = b.1 /\ same a.2 b.2) (map (λ kv, (kv.1, Marshal u kv.2)) ws)
      (map (λ kv, (kv.1, Marshal t kv.2)) m).
Proof.
  intros Hc. induction 1 as [|[k v] m Hv _ (ws & E & Ht & Hn & Hs)]; [by exists []|].
  destruct (Hc v Hv) as (w & E' & Ht' & Hs' & _). exists ((k, w) :: ws). cbn in *. rewrite E'. cbn.
  rewrite E. cbn. split_and!; [done|by constructor|by rewrite Hn|by constructor].
Qed.

Lemma same_members (m m' : list (string * json)) :
  NoDup m.*1 -> NoDup m'.*1 -> Forall2 (λ a b, a.1 = b.1 /\ same a.2 b.2) m m' -> same (JObj m) (JObj m').
Proof.
  intros Hn Hn' H. constructor. intros k. rewrite !map_lookup_obj by done. clear Hn Hn'.
  induction H as [|[k1 d1] [k2 d2] m m' [E Hs] _ IH]; cbn in *; [constructor|]. subst.
  case_decide; [by constructor|done].
Qed.

Lemma map_keys_kept {A B} (f : A -> B) (m : list (string * A)) :
  (map (λ kv, (kv.1, f kv.2)) m).*1 = m.*1.
Proof. induction m as [|kv m IH]; cbn; [done|by rewrite IH]. Qed.

Lemma all_convert t u v : sub t u = true -> typed t v -> converts t u v.
Proof.
  revert u v. induction t as [| |b|n|t IH|t IH|t IH|fs IH] using gotype_nested_ind; intros u v Hs Ht;
    destruct u as [| |b'|n'|u|u|u|gs]; try discriminate.
  - destruct Ht as [s ->]. exists (VStr s). by split_and!; [|exists s|constructor|].
  - destruct Ht as [b ->]. exists (VBool b). by split_and!; [|exists b|constructor|].
  - destruct Ht as (n & -> & Hn). apply bool_decide_eq_true in Hs.
    exists (VInt n). cbn. rewrite decide_True by (by eapply in_range_mono).
    split_and!; [done| |done|done]. exists n. split; [done|by eapply in_range_mono].
  - destruct Ht as (d & -> & Hd & E). apply bool_decide_eq_true in Hs. subst. exists (VDoc d).
    split_and!; [|by exists d|done|done]. cbn. by destruct d; rewrite ?E.
  - cbn in Hs. apply andb_true_iff in Hs as [Hn Hs]. destruct Ht as [->|(w & -> & Ht)].
    { exists VNil. by split_and!; [|left| |]. }
    destruct (IH u w Hs Ht) as (x & E & Hx & Hsame & _). exists (VPtr x). split_and!; [|by right; exists x|done|done].
    assert (Marshal t w <> JNull) as Hj by (apply not_null; [by destruct (nilable t)|done]).
    cbn in *. rewrite E. by destruct (Marshal t w).
  - destruct Ht as [->|(l & -> & Ht)]; [exists VNil; by split_and!; [|left| |]|].
    destruct (slice_converts t u l) as (ws & E & Hw & Hsame & Hl); [by auto|done|]. exists (VSlice ws).
    cbn in *. rewrite E. split_and!; [done|right; by exists ws|by constructor|by destruct ws, l].
  - destruct Ht as [->|(m & -> & Hn & Ht)]; [exists VNil; by split_and!; [|left| |]|].
    destruct (map_converts t u m) as (ws & E & Hw & Hk & Hsame); [by auto|done|]. exists (VMap ws).
    cbn in *. rewrite E. split_and!; [done|right; exists ws; by rewrite Hk| |by destruct ws, m].
    apply same_members; [by rewrite map_keys_kept, Hk|by rewrite map_keys_kept|done].
  - apply sub_struct in Hs. apply typed_struct in Ht as (vs & -> & _ & Hvs).
    destruct (struct_converts fs gs Hs IH vs Hvs) as (ws & E & Hw & Hsame). exists (VStruct ws).
    rewrite !Marshal_struct, Unmarshal_struct, E. by split_and!.
Qed.

(** ** Checking a value *)

Fixpoint typedb (t : gotype) (v : val) : bool :=
  match t, v with
  | TString, VStr _ => true
  | TBool, VBool _ => true
  | TInt bits, VInt n => bool_decide (in_range bits n)
  | TForeign n, VDoc d => bool_decide (d <> JNull) && bool_decide (decode_foreign n d = Some d)
  | TPtr _, VNil | TSlice _, VNil | TMap _, VNil => true
  | TPtr t, VPtr v => typedb t v
  | TSlice t, VSlice l => forallb (typedb t) l
  | TMap t, VMap m => bool_decide (NoDup m.*1) && forallb (fun kv => typedb t kv.2) m
  | TStruct fs, VStruct vs =>
      bool_decide (vs.*1 = names fs) &&
      (fix all fs :=
         match fs with
         | [] => true
         | (f, t) :: fs =>
             match assoc (f_Name f) vs with
             | Some VMissing => f_Via f
             | Some v => typedb t v
             | None => false
             end && all fs
         end) fs
  | _, _ => false
  end.

Lemma typedb_typed t v : typedb t v = true -> typed t v.
Proof.
  revert v. induction t as [| |b|n|t IH|t IH|t IH|fs IH] using gotype_nested_ind; intros [] H;
    try discriminate; try (by eexists); try (by left).
  - exists n. split; [done|]. by apply bool_decide_eq_true in H.
  - apply andb_true_iff in H as [H1%bool_decide_eq_true H2%bool_decide_eq_true]. by exists d.
  - right. eexists. split; [done|by apply IH].
  - right. exists l. split; [done|]. cbn in H. apply Forall_forall. intros v Hv%list_elem_of_In.
    rewrite forallb_forall in H. by apply IH, H.
  - right. exists m. cbn in H. apply andb_true_iff in H as [H1%bool_decide_eq_true H2]. split_and!; [done..|].
    apply Forall_forall. intros kv Hv%list_elem_of_In. rewrite forallb_forall in H2. by apply IH, (H2 kv).
  - apply typed_struct. exists vs. cbn in H. apply andb_true_iff in H as [H1%bool_decide_eq_true H2].
    split_and!; [done..|]. clear H1. induction IH as [|[f t] fs Hf _ IHfs]; [constructor|].
    apply andb_true_iff in H2 as [H2 H3]. constructor; [|by apply IHfs]. cbn.
    destruct (assoc (f_Name f) vs) as [v|]; [|done]. exists v. split; [done|]. unfold field_typed.
    destruct v; (by left) || (right; split; [done|by apply Hf]).
Qed.

End Decoder.
