(* ===== verification/OldTypes.v ===== *)
(** * OldTypes: the types of the deprecated group

    The structs of [api/v1] ([opensearch.opster.io/v1]), field by field, with the names and options of
    their JSON tags. *)

From S2P Require Import Prelude Schema.

(** [opensearch_componenttemplate_types.go] *)

Definition old_OpensearchComponentTemplateState : gotype := TString.

(** [opensearch_index_types.go] *)

Definition old_OpensearchIndexAliasSpec : gotype :=
  TStruct [omit "index" TString; omit "alias" TString;
    omit "filter" (TPtr (TForeign "apiextensionsv1.JSON")); omit "routing" TString;
    omit "isWriteIndex" TBool].
Definition old_OpensearchIndexSpec : gotype :=
  TStruct [omit "settings" (TPtr (TForeign "apiextensionsv1.JSON"));
    omit "mappings" (TPtr (TForeign "apiextensionsv1.JSON"));
    omit "aliases" (TMap old_OpensearchIndexAliasSpec)].

(** [opensearch_componenttemplate_types.go] *)

Definition old_OpensearchComponentTemplateSpec : gotype :=
  TStruct [field "opensearchCluster" (TForeign "corev1.LocalObjectReference"); omit "name" TString;
    field "template" old_OpensearchIndexSpec; omit "version" (TInt 64); omit "allowAutoCreate" TBool;
    omit "_meta" (TPtr (TForeign "apiextensionsv1.JSON"))].
Definition old_OpensearchComponentTemplateStatus : gotype :=
  TStruct [omit "state" old_OpensearchComponentTemplateState; omit "reason" TString;
    omit "existingComponentTemplate" (TPtr TBool); omit "managedCluster" (TPtr TString);
    omit "componentTemplateName" TString].
Definition old_OpensearchComponentTemplate : gotype :=
  TStruct [omit "kind" TString; omit "apiVersion" TString;
    omit "metadata" (TForeign "metav1.ObjectMeta"); omit "spec" old_OpensearchComponentTemplateSpec;
    omit "status" old_OpensearchComponentTemplateStatus].

(** [opensearch_index_types.go] *)

Definition old_OpensearchDatastreamTimestampFieldSpec : gotype := TStruct [field "name" TString].
Definition old_OpensearchDatastreamSpec : gotype :=
  TStruct [omit "timestamp_field" old_OpensearchDatastreamTimestampFieldSpec].

(** [opensearch_indextemplate_types.go] *)

Definition old_OpensearchIndexTemplateState : gotype := TString.
Definition old_OpensearchIndexTemplateSpec : gotype :=
  TStruct [field "opensearchCluster" (TForeign "corev1.LocalObjectReference"); omit "name" TString;
    field "indexPatterns" (TSlice TString); omit "dataStream" (TPtr old_OpensearchDatastreamSpec);
    omit "template" old_OpensearchIndexSpec; omit "composedOf" (TSlice TString);
    omit "priority" (TInt 64); omit "version" (TInt 64);
    omit "_meta" (TPtr (TForeign "apiextensionsv1.JSON"))].
Definition old_OpensearchIndexTemplateStatus : gotype :=
  TStruct [omit "state" old_OpensearchIndexTemplateState; omit "reason" TString;
    omit "existingIndexTemplate" (TPtr TBool); omit "managedCluster" (TPtr TString);
    omit "indexTemplateName" TString].
Definition old_OpensearchIndexTemplate : gotype :=
  TStruct [omit "kind" TString; omit "apiVersion" TString;
    omit "metadata" (TForeign "metav1.ObjectMeta"); omit "spec" old_OpensearchIndexTemplateSpec;
    omit "status" old_OpensearchIndexTemplateStatus].

(** [opensearch_types.go] *)

Definition old_OpenSearchHealth : gotype := TString.
Definition old_AdditionalVolume : gotype :=
  TStruct [field "name" TString; field "path" TString; omit "subPath" TString;
    omit "secret" (TPtr (TForeign "corev1.SecretVolumeSource"));
    omit "configMap" (TPtr (TForeign "corev1.ConfigMapVolumeSource"));
    omit "emptyDir" (TPtr (TForeign "corev1.EmptyDirVolumeSource"));
    omit "csi" (TPtr (TForeign "corev1.CSIVolumeSource"));
    omit "persistentVolumeClaim" (TPtr (TForeign "corev1.PersistentVolumeClaimVolumeSource"));
    omit "projected" (TPtr (TForeign "corev1.ProjectedVolumeSource"));
    omit "nfs" (TPtr (TForeign "corev1.NFSVolumeSource")); omit "restartPods" TBool].
Definition old_ImageSpec : gotype :=
  TStruct [omit "image" (TPtr TString); omit "imagePullPolicy" (TPtr TString);
    omit "imagePullSecrets" (TSlice (TForeign "corev1.LocalObjectReference"))].
Definition old_KeystoreValue : gotype :=
  TStruct [omit "secret" (TForeign "corev1.LocalObjectReference"); omit "keyMappings" (TMap TString)].
Definition old_MonitoringConfigTLS : gotype :=
  TStruct [omit "serverName" TString; omit "insecureSkipVerify" TBool].
Definition old_MonitoringConfig : gotype :=
  TStruct [omit "enable" TBool; omit "monitoringUserSecret" TString; omit "scrapeInterval" TString;
    omit "pluginUrl" TString; omit "tlsConfig" (TPtr old_MonitoringConfigTLS);
    omit "labels" (TMap TString)].
Definition old_SnapshotRepoConfig : gotype :=
  TStruct [field "name" TString; field "type" TString; omit "settings" (TMap TString)].
Definition old_GeneralConfig : gotype :=
  TStruct (promoted old_ImageSpec ++ [omit "httpPort" (TInt 32); omit "vendor" TString;
    omit "version" TString; omit "serviceAccount" TString; field "serviceName" TString;
    omit "setVMMaxMapCount" (TPtr TBool); omit "defaultRepo" (TPtr TString); omit "hostNetwork" TBool;
    omit "additionalConfig" (TMap TString); omit "annotations" (TMap TString);
    omit "drainDataNodes" TBool; omit "pluginsList" (TSlice TString); omit "command" TString;
    omit "additionalVolumes" (TSlice old_AdditionalVolume); omit "monitoring" old_MonitoringConfig;
    omit "keystore" (TSlice old_KeystoreValue);
    omit "snapshotRepositories" (TSlice old_SnapshotRepoConfig);
    omit "podSecurityContext" (TPtr (TForeign "corev1.PodSecurityContext"));
    omit "securityContext" (TPtr (TForeign "corev1.SecurityContext"));
    omit "hostAliases" (TSlice (TForeign "corev1.HostAlias"));
    omit "operatorClusterURL" (TPtr TString); omit "opensearchHome" TString]).
Definition old_PdbConfig : gotype :=
  TStruct [omit "enable" TBool; omit "minAvailable" (TPtr (TForeign "intstr.IntOrString"));
    omit "maxUnavailable" (TPtr (TForeign "intstr.IntOrString"))].
Definition old_InitHelperConfig : gotype :=
  TStruct (promoted old_ImageSpec ++ [omit "resources" (TForeign "corev1.ResourceRequirements");
    omit "version" (TPtr TString)]).
Definition old_CommandProbeConfig : gotype :=
  TStruct [omit "initialDelaySeconds" (TInt 32); omit "periodSeconds" (TInt 32);
    omit "timeoutSeconds" (TInt 32); omit "successThreshold" (TInt 32);
    omit "failureThreshold" (TInt 32); omit "command" (TSlice TString)].
Definition old_ProbeConfig : gotype :=
  TStruct [omit "initialDelaySeconds" (TInt 32); omit "periodSeconds" (TInt 32);
    omit "timeoutSeconds" (TInt 32); omit "successThreshold" (TInt 32);
    omit "failureThreshold" (TInt 32)].
Definition old_ProbesConfig : gotype :=
  TStruct [omit "liveness" (TPtr old_ProbeConfig); omit "readiness" (TPtr old_CommandProbeConfig);
    omit "startup" (TPtr old_CommandProbeConfig)].
Definition old_PVCSource : gotype :=
  TStruct [omit "storageClass" (TPtr TString); omit "accessModes" (TSlice TString);
    omit "annotations" (TMap TString); omit "labels" (TMap TString)].
Definition old_PersistenceSource : gotype :=
  TStruct [omit "pvc" (TPtr old_PVCSource);
    omit "emptyDir" (TPtr (TForeign "corev1.EmptyDirVolumeSource"));
    omit "hostPath" (TPtr (TForeign "corev1.HostPathVolumeSource"))].
Definition old_PersistenceConfig : gotype := TStruct (embedded old_PersistenceSource).
Definition old_NodePool : gotype :=
  TStruct [field "component" TString; field "replicas" (TInt 32);
    omit "diskSize" (TForeign "resource.Quantity");
    omit "resources" (TForeign "corev1.ResourceRequirements"); omit "jvm" TString;
    field "roles" (TSlice TString); omit "tolerations" (TSlice (TForeign "corev1.Toleration"));
    omit "nodeSelector" (TMap TString); omit "affinity" (TPtr (TForeign "corev1.Affinity"));
    omit "topologySpreadConstraints" (TSlice (TForeign "corev1.TopologySpreadConstraint"));
    omit "persistence" (TPtr old_PersistenceConfig); omit "labels" (TMap TString);
    omit "annotations" (TMap TString); omit "env" (TSlice (TForeign "corev1.EnvVar"));
    omit "priorityClassName" TString; omit "pdb" (TPtr old_PdbConfig);
    omit "probes" (TPtr old_ProbesConfig); omit "additionalConfig" (TMap TString);
    omit "sidecarContainers" (TSlice (TForeign "corev1.Container"));
    omit "initContainers" (TSlice (TForeign "corev1.Container"))].
Definition old_ConfMgmt : gotype :=
  TStruct [omit "autoScaler" TBool; omit "VerUpdate" TBool; field "smartScaler" TBool].
Definition old_BootstrapConfig : gotype :=
  TStruct [omit "resources" (TForeign "corev1.ResourceRequirements");
    omit "tolerations" (TSlice (TForeign "corev1.Toleration")); omit "nodeSelector" (TMap TString);
    omit "affinity" (TPtr (TForeign "corev1.Affinity")); omit "jvm" TString;
    omit "annotations" (TMap TString); omit "labels" (TMap TString);
    omit "pluginsList" (TSlice TString); omit "keystore" (TSlice old_KeystoreValue);
    omit "env" (TSlice (TForeign "corev1.EnvVar"));
    omit "initContainers" (TSlice (TForeign "corev1.Container"));
    omit "hostAliases" (TSlice (TForeign "corev1.HostAlias"));
    omit "diskSize" (TForeign "resource.Quantity"); omit "priorityClassName" TString].
Definition old_DashboardsServiceSpec : gotype :=
  TStruct [omit "type" TString; omit "loadBalancerSourceRanges" (TSlice TString);
    omit "labels" (TMap TString)].
Definition old_TlsCertificateConfig : gotype :=
  TStruct [omit "secret" (TForeign "corev1.LocalObjectReference");
    omit "caSecret" (TForeign "corev1.LocalObjectReference");
    omit "duration" (TPtr (TForeign "metav1.Duration")); omit "enableHotReload" TBool].
Definition old_DashboardsTlsConfig : gotype :=
  TStruct ([omit "enable" TBool; omit "generate" TBool] ++ embedded old_TlsCertificateConfig).
Definition old_DashboardsConfig : gotype :=
  TStruct (promoted old_ImageSpec ++ [omit "enable" TBool;
    omit "resources" (TForeign "corev1.ResourceRequirements"); omit "replicas" (TInt 32);
    omit "tls" (TPtr old_DashboardsTlsConfig); omit "version" TString; omit "basePath" TString;
    omit "additionalConfig" (TMap TString);
    omit "opensearchCredentialsSecret" (TForeign "corev1.LocalObjectReference");
    omit "env" (TSlice (TForeign "corev1.EnvVar"));
    omit "additionalVolumes" (TSlice old_AdditionalVolume);
    omit "tolerations" (TSlice (TForeign "corev1.Toleration")); omit "nodeSelector" (TMap TString);
    omit "affinity" (TPtr (TForeign "corev1.Affinity")); omit "labels" (TMap TString);
    omit "annotations" (TMap TString); omit "service" old_DashboardsServiceSpec;
    omit "pluginsList" (TSlice TString); omit "hostAliases" (TSlice (TForeign "corev1.HostAlias"));
    omit "topologySpreadConstraints" (TSlice (TForeign "corev1.TopologySpreadConstraint"));
    omit "podSecurityContext" (TPtr (TForeign "corev1.PodSecurityContext"));
    omit "securityContext" (TPtr (TForeign "corev1.SecurityContext"));
    omit "priorityClassName" TString; omit "opensearchDashboardsHome" TString]).
Definition old_SecurityUpdateJobConfig : gotype :=
  TStruct [omit "resources" (TForeign "corev1.ResourceRequirements"); omit "priorityClassName" TString;
    omit "labels" (TMap TString)].
Definition old_SecurityConfig : gotype :=
  TStruct [omit "securityConfigSecret" (TForeign "corev1.LocalObjectReference");
    omit "adminSecret" (TForeign "corev1.LocalObjectReference");
    omit "adminCredentialsSecret" (TForeign "corev1.LocalObjectReference");
    omit "operatorClientCert" (TForeign "corev1.LocalObjectReference");
    omit "operatorClientServerName" TString; omit "updateJob" old_SecurityUpdateJobConfig].
Definition old_TlsConfigHttp : gotype :=
  TStruct ([omit "enabled" (TPtr TBool); omit "generate" TBool; omit "customFQDN" (TPtr TString);
    omit "rotateDaysBeforeExpiry" (TInt 64)] ++ embedded old_TlsCertificateConfig ++ [omit "adminDn" (TSlice TString)]).
Definition old_TlsConfigTransport : gotype :=
  TStruct ([omit "enabled" (TPtr TBool); omit "generate" TBool; omit "perNode" TBool;
    omit "rotateDaysBeforeExpiry" (TInt 64)] ++ embedded old_TlsCertificateConfig ++ [omit "nodesDn" (TSlice TString);
    omit "adminDn" (TSlice TString)]).
Definition old_TlsConfig : gotype :=
  TStruct [omit "transport" (TPtr old_TlsConfigTransport); omit "http" (TPtr old_TlsConfigHttp)].
Definition old_Security : gotype :=
  TStruct [omit "tls" (TPtr old_TlsConfig); omit "config" (TPtr old_SecurityConfig)].
Definition old_TlsSecret : gotype := TStruct [field "secretName" TString; omit "key" (TPtr TString)].
Definition old_ClusterSpec : gotype :=
  TStruct [omit "general" old_GeneralConfig; omit "confMgmt" old_ConfMgmt;
    omit "bootstrap" old_BootstrapConfig; omit "dashboards" old_DashboardsConfig;
    omit "security" (TPtr old_Security); field "nodePools" (TSlice old_NodePool);
    omit "initHelper" old_InitHelperConfig].
Definition old_ComponentStatus : gotype :=
  TStruct [omit "component" TString; omit "status" TString; omit "description" TString;
    omit "conditions" (TSlice TString)].
Definition old_ClusterStatus : gotype :=
  TStruct [omit "phase" TString; field "componentsStatus" (TSlice old_ComponentStatus);
    omit "version" TString; omit "initialized" TBool; omit "availableNodes" (TInt 32);
    omit "health" old_OpenSearchHealth; omit "adminsecretcreated" TBool;
    omit "contextsecretcreated" TBool].
Definition old_OpenSearchCluster : gotype :=
  TStruct [omit "kind" TString; omit "apiVersion" TString;
    omit "metadata" (TForeign "metav1.ObjectMeta"); omit "spec" old_ClusterSpec;
    omit "status" old_ClusterStatus].

(** [opensearchactiongroup_types.go] *)

Definition old_OpensearchActionGroupState : gotype := TString.
Definition old_OpensearchActionGroupSpec : gotype :=
  TStruct [field "opensearchCluster" (TForeign "corev1.LocalObjectReference");
    field "allowedActions" (TSlice TString); omit "type" TString; omit "description" TString].
Definition old_OpensearchActionGroupStatus : gotype :=
  TStruct [omit "state" old_OpensearchActionGroupState; omit "reason" TString;
    omit "existingActionGroup" (TPtr TBool); omit "managedCluster" (TPtr TString)].
Definition old_OpensearchActionGroup : gotype :=
  TStruct [omit "kind" TString; omit "apiVersion" TString;
    omit "metadata" (TForeign "metav1.ObjectMeta"); omit "spec" old_OpensearchActionGroupSpec;
    omit "status" old_OpensearchActionGroupStatus].

(** [opensearchism_types.go] *)

Definition old_OpensearchISMPolicyState : gotype := TString.
Definition old_OpensearchISMPolicyStatus : gotype :=
  TStruct [omit "state" old_OpensearchISMPolicyState; omit "reason" TString;
    omit "existingISMPolicy" (TPtr TBool); omit "managedCluster" (TPtr TString);
    omit "policyId" TString].
Definition old_DestinationURL : gotype := TStruct [omit "url" TString].
Definition old_Destination : gotype :=
  TStruct [omit "slack" (TPtr old_DestinationURL); omit "amazon" (TPtr old_DestinationURL);
    omit "chime" (TPtr old_DestinationURL); omit "customWebhook" (TPtr old_DestinationURL)].
Definition old_MessageTemplate : gotype := TStruct [omit "source" TString].
Definition old_ErrorNotification : gotype :=
  TStruct [omit "destination" (TPtr old_Destination); omit "channel" TString;
    omit "messageTemplate" (TPtr old_MessageTemplate)].
Definition old_ISMTemplate : gotype :=
  TStruct [field "indexPatterns" (TSlice TString); omit "priority" (TInt 64)].
Definition old_AliasDetails : gotype :=
  TStruct [omit "index" (TPtr TString); omit "aliases" (TSlice TString); omit "routing" (TPtr TString);
    omit "isWriteIndex" (TPtr TBool)].
Definition old_AliasAction : gotype :=
  TStruct [omit "add" (TPtr old_AliasDetails); omit "remove" (TPtr old_AliasDetails)].
Definition old_Alias : gotype := TStruct [field "actions" (TSlice old_AliasAction)].
Definition old_Allocation : gotype :=
  TStruct [field "exclude" TString; field "include" TString; field "require" TString;
    field "waitFor" TString].
Definition old_Close : gotype := TStruct [].
Definition old_Delete : gotype := TStruct [].
Definition old_ForceMerge : gotype := TStruct [field "maxNumSegments" (TInt 64)].
Definition old_IndexPriority : gotype := TStruct [field "priority" (TInt 64)].
Definition old_Notification : gotype :=
  TStruct [field "destination" TString; field "messageTemplate" old_MessageTemplate].
Definition old_Open : gotype := TStruct [].
Definition old_ReadOnly : gotype := TStruct [].
Definition old_ReadWrite : gotype := TStruct [].
Definition old_ReplicaCount : gotype := TStruct [field "numberOfReplicas" (TInt 64)].
Definition old_Retry : gotype :=
  TStruct [omit "backoff" TString; field "count" (TInt 64); omit "delay" TString].
Definition old_Rollover : gotype :=
  TStruct [omit "minDocCount" (TPtr (TInt 64)); omit "minIndexAge" (TPtr TString);
    omit "minPrimaryShardSize" (TPtr TString); omit "minSize" (TPtr TString)].
Definition old_Rollup : gotype := TStruct [].
Definition old_Shrink : gotype :=
  TStruct [omit "forceUnsafe" (TPtr TBool); omit "maxShardSize" (TPtr TString);
    omit "numNewShards" (TPtr (TInt 64)); omit "percentageOfSourceShards" (TPtr (TInt 64));
    omit "targetIndexNameTemplate" (TPtr TString)].
Definition old_Snapshot : gotype := TStruct [field "repository" TString; field "snapshot" TString].
Definition old_Action : gotype :=
  TStruct [omit "alias" (TPtr old_Alias); omit "allocation" (TPtr old_Allocation);
    omit "close" (TPtr old_Close); omit "delete" (TPtr old_Delete);
    omit "forceMerge" (TPtr old_ForceMerge); omit "indexPriority" (TPtr old_IndexPriority);
    omit "notification" (TPtr old_Notification); omit "open" (TPtr old_Open);
    omit "readOnly" (TPtr old_ReadOnly); omit "readWrite" (TPtr old_ReadWrite);
    omit "replicaCount" (TPtr old_ReplicaCount); omit "retry" (TPtr old_Retry);
    omit "rollover" (TPtr old_Rollover); omit "rollup" (TPtr old_Rollup);
    omit "shrink" (TPtr old_Shrink); omit "snapshot" (TPtr old_Snapshot);
    omit "timeout" (TPtr TString)].
Definition old_CronDetails : gotype := TStruct [field "expression" TString; field "timezone" TString].
Definition old_Cron : gotype := TStruct [field "cron" (TPtr old_CronDetails)].
Definition old_Condition : gotype :=
  TStruct [omit "cron" (TPtr old_Cron); omit "minDocCount" (TPtr (TInt 64));
    omit "minIndexAge" (TPtr TString); omit "minRolloverAge" (TPtr TString);
    omit "minSize" (TPtr TString)].
Definition old_Transition : gotype :=
  TStruct [field "conditions" old_Condition; field "stateName" TString].
Definition old_State : gotype :=
  TStruct [field "actions" (TSlice old_Action); field "name" TString;
    omit "transitions" (TSlice old_Transition)].
Definition old_OpenSearchISMPolicySpec : gotype :=
  TStruct [omit "opensearchCluster" (TForeign "corev1.LocalObjectReference");
    field "defaultState" TString; field "description" TString;
    omit "applyToExistingIndices" (TPtr TBool); omit "errorNotification" (TPtr old_ErrorNotification);
    omit "ismTemplate" (TPtr old_ISMTemplate); omit "policyId" TString;
    field "states" (TSlice old_State)].
Definition old_OpenSearchISMPolicy : gotype :=
  TStruct [omit "kind" TString; omit "apiVersion" TString;
    omit "metadata" (TForeign "metav1.ObjectMeta"); omit "spec" old_OpenSearchISMPolicySpec;
    omit "status" old_OpensearchISMPolicyStatus].

(** [opensearchrole_types.go] *)

Definition old_OpensearchRoleState : gotype := TString.
Definition old_IndexPermissionSpec : gotype :=
  TStruct [omit "indexPatterns" (TSlice TString); omit "dls" TString; omit "fls" (TSlice TString);
    omit "allowedActions" (TSlice TString); omit "maskedFields" (TSlice TString)].
Definition old_TenantPermissionsSpec : gotype :=
  TStruct [omit "tenantPatterns" (TSlice TString); omit "allowedActions" (TSlice TString)].
Definition old_OpensearchRoleSpec : gotype :=
  TStruct [field "opensearchCluster" (TForeign "corev1.LocalObjectReference");
    omit "clusterPermissions" (TSlice TString);
    omit "indexPermissions" (TSlice old_IndexPermissionSpec);
    omit "tenantPermissions" (TSlice old_TenantPermissionsSpec)].
Definition old_OpensearchRoleStatus : gotype :=
  TStruct [omit "state" old_OpensearchRoleState; omit "reason" TString;
    omit "existingRole" (TPtr TBool); omit "managedCluster" (TPtr TString)].
Definition old_OpensearchRole : gotype :=
  TStruct [omit "kind" TString; omit "apiVersion" TString;
    omit "metadata" (TForeign "metav1.ObjectMeta"); omit "spec" old_OpensearchRoleSpec;
    omit "status" old_OpensearchRoleStatus].

(** [opensearchsnapshotpolicy_types.go] *)

Definition old_OpensearchSnapshotPolicyState : gotype := TString.
Definition old_SnapshotConfig : gotype :=
  TStruct [omit "dateFormat" TString; omit "dateFormatTimezone" TString; omit "indices" TString;
    field "repository" TString; omit "ignoreUnavailable" (TPtr TBool);
    omit "includeGlobalState" (TPtr TBool); omit "partial" (TPtr TBool);
    omit "metadata" (TMap TString)].
Definition old_CronExpression : gotype := TStruct [field "expression" TString; field "timezone" TString].
Definition old_CronSchedule : gotype := TStruct [field "cron" old_CronExpression].
Definition old_SnapshotCreation : gotype :=
  TStruct [field "schedule" old_CronSchedule; omit "timeLimit" (TPtr TString)].
Definition old_SnapshotDeleteCondition : gotype :=
  TStruct [omit "maxCount" (TPtr (TInt 64)); omit "maxAge" (TPtr TString);
    omit "minCount" (TPtr (TInt 64))].
Definition old_SnapshotDeletion : gotype :=
  TStruct [omit "schedule" (TPtr old_CronSchedule); omit "timeLimit" (TPtr TString);
    omit "deleteCondition" (TPtr old_SnapshotDeleteCondition)].
Definition old_NotificationChannel : gotype := TStruct [field "id" TString].
Definition old_NotificationConditions : gotype :=
  TStruct [omit "creation" (TPtr TBool); omit "deletion" (TPtr TBool); omit "failure" (TPtr TBool)].
Definition old_SnapshotNotification : gotype :=
  TStruct [field "channel" old_NotificationChannel;
    omit "conditions" (TPtr old_NotificationConditions)].
Definition old_OpensearchSnapshotPolicySpec : gotype :=
  TStruct [field "opensearchCluster" (TForeign "corev1.LocalObjectReference");
    field "policyName" TString; omit "description" (TPtr TString); omit "enabled" (TPtr TBool);
    field "snapshotConfig" old_SnapshotConfig; field "creation" old_SnapshotCreation;
    omit "deletion" (TPtr old_SnapshotDeletion); omit "notification" (TPtr old_SnapshotNotification)].
Definition old_OpensearchSnapshotPolicyStatus : gotype :=
  TStruct [omit "state" old_OpensearchSnapshotPolicyState; omit "reason" TString;
    omit "snapshotPolicyName" TString; omit "managedCluster" (TPtr TString);
    omit "existingSnapshotPolicy" (TPtr TBool)].
Definition old_OpensearchSnapshotPolicy : gotype :=
  TStruct [omit "kind" TString; omit "apiVersion" TString;
    omit "metadata" (TForeign "metav1.ObjectMeta"); omit "spec" old_OpensearchSnapshotPolicySpec;
    omit "status" old_OpensearchSnapshotPolicyStatus].

(** [opensearchtenant_types.go] *)

Definition old_OpensearchTenantState : gotype := TString.
Definition old_OpensearchTenantSpec : gotype :=
  TStruct [field "opensearchCluster" (TForeign "corev1.LocalObjectReference");
    omit "description" TString].
Definition old_OpensearchTenantStatus : gotype :=
  TStruct [omit "state" old_OpensearchTenantState; omit "reason" TString;
    omit "existingTenant" (TPtr TBool); omit "managedCluster" (TPtr TString)].
Definition old_OpensearchTenant : gotype :=
  TStruct [omit "kind" TString; omit "apiVersion" TString;
    omit "metadata" (TForeign "metav1.ObjectMeta"); omit "spec" old_OpensearchTenantSpec;
    omit "status" old_OpensearchTenantStatus].

(** [opensearchuser_types.go] *)

Definition old_OpensearchUserState : gotype := TString.
Definition old_OpensearchUserSpec : gotype :=
  TStruct [field "opensearchCluster" (TForeign "corev1.LocalObjectReference");
    field "passwordFrom" (TForeign "corev1.SecretKeySelector");
    omit "opendistroSecurityRoles" (TSlice TString); omit "backendRoles" (TSlice TString);
    omit "attributes" (TMap TString)].
Definition old_OpensearchUserStatus : gotype :=
  TStruct [omit "state" old_OpensearchUserState; omit "reason" TString;
    omit "managedCluster" (TPtr TString)].
Definition old_OpensearchUser : gotype :=
  TStruct [omit "kind" TString; omit "apiVersion" TString;
    omit "metadata" (TForeign "metav1.ObjectMeta"); omit "spec" old_OpensearchUserSpec;
    omit "status" old_OpensearchUserStatus].

(** [opensearchuserrolebinding_types.go] *)

Definition old_OpensearchUserRoleBindingState : gotype := TString.
Definition old_OpensearchUserRoleBindingSpec : gotype :=
  TStruct [field "opensearchCluster" (TForeign "corev1.LocalObjectReference");
    field "roles" (TSlice TString); omit "users" (TSlice TString);
    omit "backendRoles" (TSlice TString)].
Definition old_OpensearchUserRoleBindingStatus : gotype :=
  TStruct [omit "state" old_OpensearchUserRoleBindingState; omit "reason" TString;
    omit "managedCluster" (TPtr TString); omit "provisionedRoles" (TSlice TString);
    omit "provisionedUsers" (TSlice TString); omit "provisionedBackendRoles" (TSlice TString)].
Definition old_OpensearchUserRoleBinding : gotype :=
  TStruct [omit "kind" TString; omit "apiVersion" TString;
    omit "metadata" (TForeign "metav1.ObjectMeta"); omit "spec" old_OpensearchUserRoleBindingSpec;
    omit "status" old_OpensearchUserRoleBindingStatus].

(** [util.go] *)

Definition old_OpensearchClusterSelector : gotype :=
  TStruct [omit "name" TString; omit "namespace" TString].
