(* ===== verification/NewTypes.v ===== *)
(** * NewTypes: the types of the new group

    The structs of [api/opensearch.org/v1], field by field, with the names and options of their JSON
    tags.  The reconcilers' own view of these types is in [Resources] and [Api]. *)

From S2P Require Import Prelude Schema.

(** [opensearch_componenttemplate_types.go] *)

Definition new_OpensearchComponentTemplateState : gotype := TString.

(** [opensearch_index_types.go] *)

Definition new_OpensearchIndexAliasSpec : gotype :=
  TStruct [omit "index" TString; omit "alias" TString;
    omit "filter" (TPtr (TForeign "apiextensionsv1.JSON")); omit "routing" TString;
    omit "isWriteIndex" TBool].
Definition new_OpensearchIndexSpec : gotype :=
  TStruct [omit "settings" (TPtr (TForeign "apiextensionsv1.JSON"));
    omit "mappings" (TPtr (TForeign "apiextensionsv1.JSON"));
    omit "aliases" (TMap new_OpensearchIndexAliasSpec)].

(** [opensearch_componenttemplate_types.go] *)

Definition new_OpensearchComponentTemplateSpec : gotype :=
  TStruct [field "opensearchCluster" (TForeign "corev1.LocalObjectReference"); omit "name" TString;
    field "template" new_OpensearchIndexSpec; omit "version" (TInt 64); omit "allowAutoCreate" TBool;
    omit "_meta" (TPtr (TForeign "apiextensionsv1.JSON"))].
Definition new_OpensearchComponentTemplateStatus : gotype :=
  TStruct [omit "state" new_OpensearchComponentTemplateState; omit "reason" TString;
    omit "existingComponentTemplate" (TPtr TBool); omit "managedCluster" (TPtr TString);
    omit "componentTemplateName" TString].
Definition new_OpensearchComponentTemplate : gotype :=
  TStruct [omit "kind" TString; omit "apiVersion" TString;
    omit "metadata" (TForeign "metav1.ObjectMeta"); omit "spec" new_OpensearchComponentTemplateSpec;
    omit "status" new_OpensearchComponentTemplateStatus].

(** [opensearch_index_types.go] *)

Definition new_OpensearchDatastreamTimestampFieldSpec : gotype := TStruct [field "name" TString].
Definition new_OpensearchDatastreamSpec : gotype :=
  TStruct [omit "timestamp_field" new_OpensearchDatastreamTimestampFieldSpec].

(** [opensearch_indextemplate_types.go] *)

Definition new_OpensearchIndexTemplateState : gotype := TString.
Definition new_OpensearchIndexTemplateSpec : gotype :=
  TStruct [field "opensearchCluster" (TForeign "corev1.LocalObjectReference"); omit "name" TString;
    field "indexPatterns" (TSlice TString); omit "dataStream" (TPtr new_OpensearchDatastreamSpec);
    omit "template" new_OpensearchIndexSpec; omit "composedOf" (TSlice TString);
    omit "priority" (TInt 64); omit "version" (TInt 64);
    omit "_meta" (TPtr (TForeign "apiextensionsv1.JSON"))].
Definition new_OpensearchIndexTemplateStatus : gotype :=
  TStruct [omit "state" new_OpensearchIndexTemplateState; omit "reason" TString;
    omit "existingIndexTemplate" (TPtr TBool); omit "managedCluster" (TPtr TString);
    omit "indexTemplateName" TString].
Definition new_OpensearchIndexTemplate : gotype :=
  TStruct [omit "kind" TString; omit "apiVersion" TString;
    omit "metadata" (TForeign "metav1.ObjectMeta"); omit "spec" new_OpensearchIndexTemplateSpec;
    omit "status" new_OpensearchIndexTemplateStatus].

(** [opensearch_types.go] *)

Definition new_OpenSearchHealth : gotype := TString.
Definition new_AdditionalVolume : gotype :=
  TStruct [field "name" TString; field "path" TString; omit "subPath" TString;
    omit "secret" (TPtr (TForeign "corev1.SecretVolumeSource"));
    omit "configMap" (TPtr (TForeign "corev1.ConfigMapVolumeSource"));
    omit "emptyDir" (TPtr (TForeign "corev1.EmptyDirVolumeSource"));
    omit "csi" (TPtr (TForeign "corev1.CSIVolumeSource"));
    omit "persistentVolumeClaim" (TPtr (TForeign "corev1.PersistentVolumeClaimVolumeSource"));
    omit "projected" (TPtr (TForeign "corev1.ProjectedVolumeSource"));
    omit "nfs" (TPtr (TForeign "corev1.NFSVolumeSource"));
    omit "hostPath" (TPtr (TForeign "corev1.HostPathVolumeSource")); omit "restartPods" TBool].
Definition new_GrpcConfig : gotype :=
  TStruct [omit "enable" TBool; omit "port" TString; omit "host" (TSlice TString);
    omit "bindHost" (TSlice TString); omit "publishHost" (TSlice TString);
    omit "publishPort" (TPtr (TInt 32)); omit "nettyWorkerCount" (TPtr (TInt 32));
    omit "nettyExecutorCount" (TPtr (TInt 32)); omit "maxConcurrentConnectionCalls" (TPtr (TInt 32));
    omit "maxConnectionAge" TString; omit "maxConnectionIdle" TString; omit "keepaliveTimeout" TString;
    omit "maxMsgSize" TString].
Definition new_ImageSpec : gotype :=
  TStruct [omit "image" (TPtr TString); omit "imagePullPolicy" (TPtr TString);
    omit "imagePullSecrets" (TSlice (TForeign "corev1.LocalObjectReference"))].
Definition new_KeystoreValue : gotype :=
  TStruct [omit "secret" (TForeign "corev1.LocalObjectReference"); omit "keyMappings" (TMap TString)].
Definition new_MonitoringConfigTLS : gotype :=
  TStruct [omit "serverName" TString; omit "insecureSkipVerify" TBool].
Definition new_MonitoringConfig : gotype :=
  TStruct [omit "enable" TBool; omit "monitoringUserSecret" TString; omit "scrapeInterval" TString;
    omit "pluginUrl" TString; omit "tlsConfig" (TPtr new_MonitoringConfigTLS);
    omit "labels" (TMap TString); omit "relabelings" (TSlice (TForeign "monitoring.RelabelConfig"));
    omit "metricRelabelings" (TSlice (TForeign "monitoring.RelabelConfig"))].
Definition new_SnapshotRepoConfig : gotype :=
  TStruct [field "name" TString; field "type" TString; omit "settings" (TMap TString)].
Definition new_GeneralConfig : gotype :=
  TStruct (promoted new_ImageSpec ++ [omit "httpPort" (TInt 32); omit "vendor" TString;
    omit "version" TString; omit "serviceAccount" TString; field "serviceName" TString;
    omit "setVMMaxMapCount" (TPtr TBool); omit "defaultRepo" (TPtr TString);
    omit "additionalConfig" (TMap TString); omit "annotations" (TMap TString);
    omit "drainDataNodes" TBool; omit "pluginsList" (TSlice TString); omit "command" TString;
    omit "additionalVolumes" (TSlice new_AdditionalVolume); omit "monitoring" new_MonitoringConfig;
    omit "keystore" (TSlice new_KeystoreValue);
    omit "snapshotRepositories" (TSlice new_SnapshotRepoConfig);
    omit "podSecurityContext" (TPtr (TForeign "corev1.PodSecurityContext"));
    omit "securityContext" (TPtr (TForeign "corev1.SecurityContext"));
    omit "hostAliases" (TSlice (TForeign "corev1.HostAlias"));
    omit "operatorClusterURL" (TPtr TString); omit "grpc" (TPtr new_GrpcConfig);
    omit "hostNetwork" TBool; omit "opensearchHome" TString]).
Definition new_PdbConfig : gotype :=
  TStruct [omit "enable" TBool; omit "minAvailable" (TPtr (TForeign "intstr.IntOrString"));
    omit "maxUnavailable" (TPtr (TForeign "intstr.IntOrString"))].
Definition new_InitHelperConfig : gotype :=
  TStruct (promoted new_ImageSpec ++ [omit "resources" (TForeign "corev1.ResourceRequirements");
    omit "version" (TPtr TString)]).
Definition new_CommandProbeConfig : gotype :=
  TStruct [omit "initialDelaySeconds" (TInt 32); omit "periodSeconds" (TInt 32);
    omit "timeoutSeconds" (TInt 32); omit "successThreshold" (TInt 32);
    omit "failureThreshold" (TInt 32); omit "command" (TSlice TString)].
Definition new_ProbeConfig : gotype :=
  TStruct [omit "initialDelaySeconds" (TInt 32); omit "periodSeconds" (TInt 32);
    omit "timeoutSeconds" (TInt 32); omit "successThreshold" (TInt 32);
    omit "failureThreshold" (TInt 32)].
Definition new_ProbesConfig : gotype :=
  TStruct [omit "liveness" (TPtr new_ProbeConfig); omit "readiness" (TPtr new_CommandProbeConfig);
    omit "startup" (TPtr new_CommandProbeConfig)].
Definition new_PVCSource : gotype :=
  TStruct [omit "storageClass" (TPtr TString); omit "accessModes" (TSlice TString);
    omit "annotations" (TMap TString); omit "labels" (TMap TString)].
Definition new_PersistenceSource : gotype :=
  TStruct [omit "pvc" (TPtr new_PVCSource);
    omit "emptyDir" (TPtr (TForeign "corev1.EmptyDirVolumeSource"));
    omit "hostPath" (TPtr (TForeign "corev1.HostPathVolumeSource"))].
Definition new_PersistenceConfig : gotype := TStruct (embedded new_PersistenceSource).
Definition new_NodePool : gotype :=
  TStruct [field "component" TString; field "replicas" (TInt 32);
    omit "diskSize" (TForeign "resource.Quantity");
    omit "resources" (TForeign "corev1.ResourceRequirements"); omit "jvm" TString;
    field "roles" (TSlice TString); omit "tolerations" (TSlice (TForeign "corev1.Toleration"));
    omit "nodeSelector" (TMap TString); omit "affinity" (TPtr (TForeign "corev1.Affinity"));
    omit "topologySpreadConstraints" (TSlice (TForeign "corev1.TopologySpreadConstraint"));
    omit "persistence" (TPtr new_PersistenceConfig); omit "labels" (TMap TString);
    omit "annotations" (TMap TString); omit "env" (TSlice (TForeign "corev1.EnvVar"));
    omit "priorityClassName" TString; omit "pdb" (TPtr new_PdbConfig);
    omit "probes" (TPtr new_ProbesConfig); omit "additionalConfig" (TMap TString);
    omit "sidecarContainers" (TSlice (TForeign "corev1.Container"));
    omit "initContainers" (TSlice (TForeign "corev1.Container"))].
Definition new_ConfMgmt : gotype :=
  TStruct [omit "autoScaler" TBool; omit "VerUpdate" TBool; field "smartScaler" TBool].
Definition new_BootstrapConfig : gotype :=
  TStruct [omit "resources" (TForeign "corev1.ResourceRequirements");
    omit "tolerations" (TSlice (TForeign "corev1.Toleration")); omit "nodeSelector" (TMap TString);
    omit "affinity" (TPtr (TForeign "corev1.Affinity")); omit "jvm" TString;
    omit "annotations" (TMap TString); omit "labels" (TMap TString);
    omit "pluginsList" (TSlice TString); omit "keystore" (TSlice new_KeystoreValue);
    omit "env" (TSlice (TForeign "corev1.EnvVar"));
    omit "initContainers" (TSlice (TForeign "corev1.Container"));
    omit "hostAliases" (TSlice (TForeign "corev1.HostAlias"));
    omit "diskSize" (TForeign "resource.Quantity"); omit "priorityClassName" TString;
    omit "storageClass" (TPtr TString)].
Definition new_DashboardsServiceSpec : gotype :=
  TStruct [omit "type" TString; omit "loadBalancerSourceRanges" (TSlice TString);
    omit "labels" (TMap TString)].
Definition new_TlsCertificateConfig : gotype :=
  TStruct [omit "secret" (TForeign "corev1.LocalObjectReference");
    omit "caSecret" (TForeign "corev1.LocalObjectReference");
    omit "duration" (TPtr (TForeign "metav1.Duration")); omit "enableHotReload" TBool].
Definition new_DashboardsTlsConfig : gotype :=
  TStruct ([omit "enable" TBool; omit "generate" TBool] ++ embedded new_TlsCertificateConfig).
Definition new_DashboardsConfig : gotype :=
  TStruct (promoted new_ImageSpec ++ [omit "enable" TBool;
    omit "resources" (TForeign "corev1.ResourceRequirements"); omit "replicas" (TInt 32);
    omit "tls" (TPtr new_DashboardsTlsConfig); omit "version" TString; omit "basePath" TString;
    omit "additionalConfig" (TMap TString);
    omit "opensearchCredentialsSecret" (TForeign "corev1.LocalObjectReference");
    omit "env" (TSlice (TForeign "corev1.EnvVar"));
    omit "additionalVolumes" (TSlice new_AdditionalVolume);
    omit "tolerations" (TSlice (TForeign "corev1.Toleration")); omit "nodeSelector" (TMap TString);
    omit "affinity" (TPtr (TForeign "corev1.Affinity")); omit "labels" (TMap TString);
    omit "annotations" (TMap TString); omit "service" new_DashboardsServiceSpec;
    omit "pluginsList" (TSlice TString); omit "hostAliases" (TSlice (TForeign "corev1.HostAlias"));
    omit "topologySpreadConstraints" (TSlice (TForeign "corev1.TopologySpreadConstraint"));
    omit "podSecurityContext" (TPtr (TForeign "corev1.PodSecurityContext"));
    omit "securityContext" (TPtr (TForeign "corev1.SecurityContext"));
    omit "priorityClassName" TString; omit "opensearchDashboardsHome" TString]).
Definition new_SecurityUpdateJobConfig : gotype :=
  TStruct [omit "resources" (TForeign "corev1.ResourceRequirements"); omit "priorityClassName" TString;
    omit "labels" (TMap TString); omit "tolerations" (TSlice (TForeign "corev1.Toleration"));
    omit "nodeSelector" (TMap TString); omit "affinity" (TPtr (TForeign "corev1.Affinity"))].
Definition new_SecurityConfig : gotype :=
  TStruct [omit "securityConfigSecret" (TForeign "corev1.LocalObjectReference");
    omit "adminSecret" (TForeign "corev1.LocalObjectReference");
    omit "adminCredentialsSecret" (TForeign "corev1.LocalObjectReference");
    omit "operatorClientCert" (TForeign "corev1.LocalObjectReference");
    omit "operatorClientServerName" TString; omit "updateJob" new_SecurityUpdateJobConfig].
Definition new_TlsConfigHttp : gotype :=
  TStruct ([omit "enabled" (TPtr TBool); omit "generate" TBool; omit "customFQDN" (TPtr TString);
    omit "rotateDaysBeforeExpiry" (TInt 64)] ++ embedded new_TlsCertificateConfig ++ [omit "adminDn" (TSlice TString)]).
Definition new_TlsConfigTransport : gotype :=
  TStruct ([omit "enabled" (TPtr TBool); omit "generate" TBool; omit "perNode" TBool;
    omit "rotateDaysBeforeExpiry" (TInt 64)] ++ embedded new_TlsCertificateConfig ++ [omit "nodesDn" (TSlice TString);
    omit "adminDn" (TSlice TString)]).
Definition new_TlsConfig : gotype :=
  TStruct [omit "transport" (TPtr new_TlsConfigTransport); omit "http" (TPtr new_TlsConfigHttp)].
Definition new_Security : gotype :=
  TStruct [omit "tls" (TPtr new_TlsConfig); omit "config" (TPtr new_SecurityConfig)].
Definition new_TlsSecret : gotype := TStruct [field "secretName" TString; omit "key" (TPtr TString)].
Definition new_ClusterSpec : gotype :=
  TStruct [omit "general" new_GeneralConfig; omit "confMgmt" new_ConfMgmt;
    omit "bootstrap" new_BootstrapConfig; omit "dashboards" new_DashboardsConfig;
    omit "security" (TPtr new_Security); field "nodePools" (TSlice new_NodePool);
    omit "initHelper" new_InitHelperConfig].
Definition new_ComponentStatus : gotype :=
  TStruct [omit "component" TString; omit "status" TString; omit "description" TString;
    omit "conditions" (TSlice TString)].
Definition new_ClusterStatus : gotype :=
  TStruct [omit "phase" TString; field "componentsStatus" (TSlice new_ComponentStatus);
    omit "version" TString; omit "initialized" TBool; omit "availableNodes" (TInt 32);
    omit "health" new_OpenSearchHealth; omit "adminsecretcreated" TBool;
    omit "contextsecretcreated" TBool].
Definition new_OpenSearchCluster : gotype :=
  TStruct [omit "kind" TString; omit "apiVersion" TString;
    omit "metadata" (TForeign "metav1.ObjectMeta"); omit "spec" new_ClusterSpec;
    omit "status" new_ClusterStatus].

(** [opensearchactiongroup_types.go] *)

Definition new_OpensearchActionGroupState : gotype := TString.
Definition new_OpensearchActionGroupSpec : gotype :=
  TStruct [field "opensearchCluster" (TForeign "corev1.LocalObjectReference");
    field "allowedActions" (TSlice TString); omit "type" TString; omit "description" TString].
Definition new_OpensearchActionGroupStatus : gotype :=
  TStruct [omit "state" new_OpensearchActionGroupState; omit "reason" TString;
    omit "existingActionGroup" (TPtr TBool); omit "managedCluster" (TPtr TString)].
Definition new_OpensearchActionGroup : gotype :=
  TStruct [omit "kind" TString; omit "apiVersion" TString;
    omit "metadata" (TForeign "metav1.ObjectMeta"); omit "spec" new_OpensearchActionGroupSpec;
    omit "status" new_OpensearchActionGroupStatus].

(** [opensearchism_types.go] *)

Definition new_OpensearchISMPolicyState : gotype := TString.
Definition new_OpensearchISMPolicyStatus : gotype :=
  TStruct [omit "state" new_OpensearchISMPolicyState; omit "reason" TString;
    omit "existingISMPolicy" (TPtr TBool); omit "managedCluster" (TPtr TString);
    omit "policyId" TString].
Definition new_DestinationURL : gotype := TStruct [omit "url" TString].
Definition new_Destination : gotype :=
  TStruct [omit "slack" (TPtr new_DestinationURL); omit "amazon" (TPtr new_DestinationURL);
    omit "chime" (TPtr new_DestinationURL); omit "customWebhook" (TPtr new_DestinationURL)].
Definition new_MessageTemplate : gotype := TStruct [omit "source" TString].
Definition new_ErrorNotification : gotype :=
  TStruct [omit "destination" (TPtr new_Destination); omit "channel" TString;
    omit "messageTemplate" (TPtr new_MessageTemplate)].
Definition new_ISMTemplate : gotype :=
  TStruct [field "indexPatterns" (TSlice TString); omit "priority" (TInt 64)].
Definition new_AliasDetails : gotype :=
  TStruct [omit "index" (TPtr TString); omit "aliases" (TSlice TString); omit "routing" (TPtr TString);
    omit "isWriteIndex" (TPtr TBool)].
Definition new_AliasAction : gotype :=
  TStruct [omit "add" (TPtr new_AliasDetails); omit "remove" (TPtr new_AliasDetails)].
Definition new_Alias : gotype := TStruct [field "actions" (TSlice new_AliasAction)].
Definition new_Allocation : gotype :=
  TStruct [field "exclude" TString; field "include" TString; field "require" TString;
    field "waitFor" TString].
Definition new_Close : gotype := TStruct [].
Definition new_Delete : gotype := TStruct [].
Definition new_ForceMerge : gotype := TStruct [field "maxNumSegments" (TInt 64)].
Definition new_IndexPriority : gotype := TStruct [field "priority" (TInt 64)].
Definition new_Notification : gotype :=
  TStruct [field "destination" TString; field "messageTemplate" new_MessageTemplate].
Definition new_Open : gotype := TStruct [].
Definition new_ReadOnly : gotype := TStruct [].
Definition new_ReadWrite : gotype := TStruct [].
Definition new_ReplicaCount : gotype := TStruct [field "numberOfReplicas" (TInt 64)].
Definition new_Retry : gotype :=
  TStruct [omit "backoff" TString; field "count" (TInt 64); omit "delay" TString].
Definition new_Rollover : gotype :=
  TStruct [omit "minDocCount" (TPtr (TInt 64)); omit "minIndexAge" (TPtr TString);
    omit "minPrimaryShardSize" (TPtr TString); omit "minSize" (TPtr TString)].
Definition new_Rollup : gotype := TStruct [].
Definition new_Shrink : gotype :=
  TStruct [omit "forceUnsafe" (TPtr TBool); omit "maxShardSize" (TPtr TString);
    omit "numNewShards" (TPtr (TInt 64)); omit "percentageOfSourceShards" (TPtr (TInt 64));
    omit "targetIndexNameTemplate" (TPtr TString)].
Definition new_Snapshot : gotype := TStruct [field "repository" TString; field "snapshot" TString].
Definition new_Action : gotype :=
  TStruct [omit "alias" (TPtr new_Alias); omit "allocation" (TPtr new_Allocation);
    omit "close" (TPtr new_Close); omit "delete" (TPtr new_Delete);
    omit "forceMerge" (TPtr new_ForceMerge); omit "indexPriority" (TPtr new_IndexPriority);
    omit "notification" (TPtr new_Notification); omit "open" (TPtr new_Open);
    omit "readOnly" (TPtr new_ReadOnly); omit "readWrite" (TPtr new_ReadWrite);
    omit "replicaCount" (TPtr new_ReplicaCount); omit "retry" (TPtr new_Retry);
    omit "rollover" (TPtr new_Rollover); omit "rollup" (TPtr new_Rollup);
    omit "shrink" (TPtr new_Shrink); omit "snapshot" (TPtr new_Snapshot);
    omit "timeout" (TPtr TString)].
Definition new_CronDetails : gotype := TStruct [field "expression" TString; field "timezone" TString].
Definition new_Cron : gotype := TStruct [field "cron" (TPtr new_CronDetails)].
Definition new_Condition : gotype :=
  TStruct [omit "cron" (TPtr new_Cron); omit "minDocCount" (TPtr (TInt 64));
    omit "minIndexAge" (TPtr TString); omit "minRolloverAge" (TPtr TString);
    omit "minSize" (TPtr TString)].
Definition new_Transition : gotype :=
  TStruct [field "conditions" new_Condition; field "stateName" TString].
Definition new_State : gotype :=
  TStruct [field "actions" (TSlice new_Action); field "name" TString;
    omit "transitions" (TSlice new_Transition)].
Definition new_OpenSearchISMPolicySpec : gotype :=
  TStruct [omit "opensearchCluster" (TForeign "corev1.LocalObjectReference");
    field "defaultState" TString; field "description" TString;
    omit "applyToExistingIndices" (TPtr TBool); omit "errorNotification" (TPtr new_ErrorNotification);
    omit "ismTemplate" (TPtr new_ISMTemplate); omit "policyId" TString;
    field "states" (TSlice new_State)].
Definition new_OpenSearchISMPolicy : gotype :=
  TStruct [omit "kind" TString; omit "apiVersion" TString;
    omit "metadata" (TForeign "metav1.ObjectMeta"); omit "spec" new_OpenSearchISMPolicySpec;
    omit "status" new_OpensearchISMPolicyStatus].

(** [opensearchrole_types.go] *)

Definition new_OpensearchRoleState : gotype := TString.
Definition new_IndexPermissionSpec : gotype :=
  TStruct [omit "indexPatterns" (TSlice TString); omit "dls" TString; omit "fls" (TSlice TString);
    omit "allowedActions" (TSlice TString); omit "maskedFields" (TSlice TString)].
Definition new_TenantPermissionsSpec : gotype :=
  TStruct [omit "tenantPatterns" (TSlice TString); omit "allowedActions" (TSlice TString)].
Definition new_OpensearchRoleSpec : gotype :=
  TStruct [field "opensearchCluster" (TForeign "corev1.LocalObjectReference");
    omit "clusterPermissions" (TSlice TString);
    omit "indexPermissions" (TSlice new_IndexPermissionSpec);
    omit "tenantPermissions" (TSlice new_TenantPermissionsSpec)].
Definition new_OpensearchRoleStatus : gotype :=
  TStruct [omit "state" new_OpensearchRoleState; omit "reason" TString;
    omit "existingRole" (TPtr TBool); omit "managedCluster" (TPtr TString)].
Definition new_OpensearchRole : gotype :=
  TStruct [omit "kind" TString; omit "apiVersion" TString;
    omit "metadata" (TForeign "metav1.ObjectMeta"); omit "spec" new_OpensearchRoleSpec;
    omit "status" new_OpensearchRoleStatus].

(** [opensearchsnapshotpolicy_types.go] *)

Definition new_OpensearchSnapshotPolicyState : gotype := TString.
Definition new_SnapshotConfig : gotype :=
  TStruct [omit "dateFormat" TString; omit "dateFormatTimezone" TString; omit "indices" TString;
    field "repository" TString; omit "ignoreUnavailable" (TPtr TBool);
    omit "includeGlobalState" (TPtr TBool); omit "partial" (TPtr TBool);
    omit "metadata" (TMap TString)].
Definition new_CronExpression : gotype := TStruct [field "expression" TString; field "timezone" TString].
Definition new_CronSchedule : gotype := TStruct [field "cron" new_CronExpression].
Definition new_SnapshotCreation : gotype :=
  TStruct [field "schedule" new_CronSchedule; omit "timeLimit" (TPtr TString)].
Definition new_SnapshotDeleteCondition : gotype :=
  TStruct [omit "maxCount" (TPtr (TInt 64)); omit "maxAge" (TPtr TString);
    omit "minCount" (TPtr (TInt 64))].
Definition new_SnapshotDeletion : gotype :=
  TStruct [omit "schedule" (TPtr new_CronSchedule); omit "timeLimit" (TPtr TString);
    omit "deleteCondition" (TPtr new_SnapshotDeleteCondition)].
Definition new_NotificationChannel : gotype := TStruct [field "id" TString].
Definition new_NotificationConditions : gotype :=
  TStruct [omit "creation" (TPtr TBool); omit "deletion" (TPtr TBool); omit "failure" (TPtr TBool)].
Definition new_SnapshotNotification : gotype :=
  TStruct [field "channel" new_NotificationChannel;
    omit "conditions" (TPtr new_NotificationConditions)].
Definition new_OpensearchSnapshotPolicySpec : gotype :=
  TStruct [field "opensearchCluster" (TForeign "corev1.LocalObjectReference");
    field "policyName" TString; omit "description" (TPtr TString); omit "enabled" (TPtr TBool);
    field "snapshotConfig" new_SnapshotConfig; field "creation" new_SnapshotCreation;
    omit "deletion" (TPtr new_SnapshotDeletion); omit "notification" (TPtr new_SnapshotNotification)].
Definition new_OpensearchSnapshotPolicyStatus : gotype :=
  TStruct [omit "state" new_OpensearchSnapshotPolicyState; omit "reason" TString;
    omit "snapshotPolicyName" TString; omit "managedCluster" (TPtr TString);
    omit "existingSnapshotPolicy" (TPtr TBool)].
Definition new_OpensearchSnapshotPolicy : gotype :=
  TStruct [omit "kind" TString; omit "apiVersion" TString;
    omit "metadata" (TForeign "metav1.ObjectMeta"); omit "spec" new_OpensearchSnapshotPolicySpec;
    omit "status" new_OpensearchSnapshotPolicyStatus].

(** [opensearchtenant_types.go] *)

Definition new_OpensearchTenantState : gotype := TString.
Definition new_OpensearchTenantSpec : gotype :=
  TStruct [field "opensearchCluster" (TForeign "corev1.LocalObjectReference");
    omit "description" TString].
Definition new_OpensearchTenantStatus : gotype :=
  TStruct [omit "state" new_OpensearchTenantState; omit "reason" TString;
    omit "existingTenant" (TPtr TBool); omit "managedCluster" (TPtr TString)].
Definition new_OpensearchTenant : gotype :=
  TStruct [omit "kind" TString; omit "apiVersion" TString;
    omit "metadata" (TForeign "metav1.ObjectMeta"); omit "spec" new_OpensearchTenantSpec;
    omit "status" new_OpensearchTenantStatus].

(** [opensearchuser_types.go] *)

Definition new_OpensearchUserState : gotype := TString.
Definition new_OpensearchUserSpec : gotype :=
  TStruct [field "opensearchCluster" (TForeign "corev1.LocalObjectReference");
    field "passwordFrom" (TForeign "corev1.SecretKeySelector");
    omit "opendistroSecurityRoles" (TSlice TString); omit "backendRoles" (TSlice TString);
    omit "attributes" (TMap TString)].
Definition new_OpensearchUserStatus : gotype :=
  TStruct [omit "state" new_OpensearchUserState; omit "reason" TString;
    omit "managedCluster" (TPtr TString)].
Definition new_OpensearchUser : gotype :=
  TStruct [omit "kind" TString; omit "apiVersion" TString;
    omit "metadata" (TForeign "metav1.ObjectMeta"); omit "spec" new_OpensearchUserSpec;
    omit "status" new_OpensearchUserStatus].

(** [opensearchuserrolebinding_types.go] *)

Definition new_OpensearchUserRoleBindingState : gotype := TString.
Definition new_OpensearchUserRoleBindingSpec : gotype :=
  TStruct [field "opensearchCluster" (TForeign "corev1.LocalObjectReference");
    field "roles" (TSlice TString); omit "users" (TSlice TString);
    omit "backendRoles" (TSlice TString)].
Definition new_OpensearchUserRoleBindingStatus : gotype :=
  TStruct [omit "state" new_OpensearchUserRoleBindingState; omit "reason" TString;
    omit "managedCluster" (TPtr TString); omit "provisionedRoles" (TSlice TString);
    omit "provisionedUsers" (TSlice TString); omit "provisionedBackendRoles" (TSlice TString)].
Definition new_OpensearchUserRoleBinding : gotype :=
  TStruct [omit "kind" TString; omit "apiVersion" TString;
    omit "metadata" (TForeign "metav1.ObjectMeta"); omit "spec" new_OpensearchUserRoleBindingSpec;
    omit "status" new_OpensearchUserRoleBindingStatus].

(** [util.go] *)

Definition new_OpensearchClusterSelector : gotype :=
  TStruct [omit "name" TString; omit "namespace" TString].
