(* ===== verification/Conversion.v ===== *)
(** * Conversion: objects of the deprecated group as objects of the new one

    [controllers/migration_controller.go] converts by encoding an object (or a part of one) of one
    group and decoding it as the type of the other, and moves the status with reflection.  Models
    these conversions on values of the types in [OldTypes] and [NewTypes].  [Migration] works with
    the documents; the theorems say that this is enough: whatever is converted has the same document
    afterwards. *)

From S2P Require Import Prelude Prog Resources Api Json Schema OldTypes NewTypes Migration.

(** ** The conversions *)

Section Convert.
Context `{FL : ForeignLib}.

Definition viaJson (t u : gotype) (v : val) : option val := Unmarshal u (Marshal t v).

(** The nil list of component statuses becomes an empty one. *)
Definition ensureComponents (status : val) : val :=
  match status with
  | VStruct vs =>
      VStruct (map (fun kv => if kv.1 == "componentsStatus"
                              then (kv.1, match kv.2 with VNil => VSlice [] | v => v end) else kv) vs)
  | v => v
  end.

Definition convertSpec : val -> option val := viaJson old_ClusterSpec new_ClusterSpec.
Definition convertStatus (v : val) : option val :=
  ensureComponents <$> viaJson old_ClusterStatus new_ClusterStatus v.
Definition convertStatusBack (v : val) : option val :=
  ensureComponents <$> viaJson new_ClusterStatus old_ClusterStatus v.

(** The nine kinds of resources, converted as a whole. *)
Definition resourceTypes : list (string * (gotype * gotype)) :=
  [("OpensearchUser", (old_OpensearchUser, new_OpensearchUser));
   ("OpensearchRole", (old_OpensearchRole, new_OpensearchRole));
   ("OpensearchUserRoleBinding", (old_OpensearchUserRoleBinding, new_OpensearchUserRoleBinding));
   ("OpensearchTenant", (old_OpensearchTenant, new_OpensearchTenant));
   ("OpensearchActionGroup", (old_OpensearchActionGroup, new_OpensearchActionGroup));
   ("OpenSearchISMPolicy", (old_OpenSearchISMPolicy, new_OpenSearchISMPolicy));
   ("OpensearchSnapshotPolicy", (old_OpensearchSnapshotPolicy, new_OpensearchSnapshotPolicy));
   ("OpensearchIndexTemplate", (old_OpensearchIndexTemplate, new_OpensearchIndexTemplate));
   ("OpensearchComponentTemplate", (old_OpensearchComponentTemplate, new_OpensearchComponentTemplate))].
Definition convertResource (kind : string) (v : val) : option val :=
  '(t, u) ← assoc kind resourceTypes; viaJson t u v.

(** ** Reflection on the status *)

Definition setAssoc {A} (k : string) (a : A) (l : list (string * A)) : list (string * A) :=
  map (fun kv => if kv.1 == k then (k, a) else kv) l.

(** The Go field [Status] is the member [status], [ManagedCluster] is [managedCluster]. *)
Definition getStatusFieldValue (obj : val) : option val :=
  match obj with VStruct vs => assoc "status" vs | _ => None end.
Definition setStatusFieldValue (obj : val) (statusValue : option val) : val :=
  match obj, statusValue with
  | VStruct vs, Some s => VStruct (setAssoc "status" s vs)
  | _, _ => obj
  end.
Definition statusType (t : gotype) : option gotype :=
  match t with TStruct fs => snd <$> fieldOf "status" fs | _ => None end.
Definition clearStatusField (t : gotype) (obj : val) : val :=
  match statusType t with
  | Some s => setStatusFieldValue obj (Some (zero s))
  | None => obj
  end.
Definition clearManagedClusterField (obj : val) : val :=
  match getStatusFieldValue obj with
  | Some (VStruct ss) => setStatusFieldValue obj (Some (VStruct (setAssoc "managedCluster" VNil ss)))
  | _ => obj
  end.

(** [createGenericNewFromOld]: the object that is created has no status; the status that was
    converted with the rest is put on the object that the server then has, without the cluster it
    was managed by. *)
Definition objectToCreate (t : gotype) (newResource : val) : val * option val :=
  (clearStatusField t newResource, getStatusFieldValue newResource).
Definition objectWithStatus (created : val) (oldStatusValue : option val) : val :=
  match oldStatusValue with
  | Some _ => clearManagedClusterField (setStatusFieldValue created oldStatusValue)
  | None => created
  end.

(** ** Theorems *)

(** Every conversion that the migration makes. *)
Definition conversions : list (gotype * gotype) :=
  (old_ClusterSpec, new_ClusterSpec) :: (old_ClusterStatus, new_ClusterStatus) ::
  (new_ClusterStatus, old_ClusterStatus) :: map snd resourceTypes.

Lemma conversions_sub p : p ∈ conversions -> sub p.1 p.2 = true.
Proof.
  assert (forallb (λ p, sub p.1 p.2) conversions = true) as H by (vm_compute; reflexivity).
  rewrite forallb_forall in H. intros Hp%list_elem_of_In. by apply H.
Qed.

Lemma assoc_set {A} k (a : A) l : k ∈ l.*1 -> assoc k (setAssoc k a l) = Some a.
Proof.
  induction l as [|[k' b] l IH]; cbn; [by intros ?%not_elem_of_nil|]. intros Hk. case_bool_decide as E; cbn.
  - by rewrite decide_True.
  - rewrite decide_False by done. apply IH. by apply elem_of_cons in Hk as [->|].
Qed.
Lemma assoc_set_ne {A} k k' (a : A) l : k' <> k -> assoc k' (setAssoc k a l) = assoc k' l.
Proof.
  intros Hne. induction l as [|[k2 b] l IH]; cbn; [done|]. case_bool_decide as E; cbn.
  - subst. rewrite !decide_False by done. exact IH.
  - case_decide; [done|exact IH].
Qed.
Lemma set_set {A} k (a b : A) l : setAssoc k a (setAssoc k b l) = setAssoc k a l.
Proof.
  unfold setAssoc. rewrite map_map. apply map_ext. intros [k' c]. cbn. destruct (decide (k' = k)) as [->|Hne].
  - rewrite (bool_decide_true (k = k)) by done. cbn. by rewrite bool_decide_true.
  - rewrite (bool_decide_false (k' = k)) by done. cbn. by rewrite bool_decide_false.
Qed.
Lemma set_same {A} k (a : A) l : NoDup l.*1 -> assoc k l = Some a -> setAssoc k a l = l.
Proof.
  induction l as [|[k' b] l IH]; cbn; [done|]. intros [Hk Hn]%NoDup_cons. case_decide as E.
  - intros [= ->]. subst. rewrite bool_decide_true by done. f_equal. clear IH Hn.
    induction l as [|[k2 c] l IH]; [done|]. cbn in *. apply not_elem_of_cons in Hk as [Hne Hk].
    rewrite bool_decide_false by done. f_equal. by apply IH.
  - intros Ha. rewrite bool_decide_false by done. f_equal. by apply IH.
Qed.

(** The resources have a status of their own type. *)
Lemma resources_have_status kind t u :
  assoc kind resourceTypes = Some (t, u) ->
  (t, u) ∈ conversions /\ exists gs, u = TStruct gs /\ NoDup (names gs) /\ "status" ∈ names gs.
Proof.
  intros H%assoc_elem. split.
  { do 3 apply list_elem_of_further. apply list_elem_of_fmap. by exists (kind, (t, u)). }
  assert (forallb (λ p, match p.2.2 with
    | TStruct gs => bool_decide (NoDup (names gs)) && bool_decide ("status" ∈ names gs) | _ => false end)
    resourceTypes = true) as Hf by (vm_compute; reflexivity).
  rewrite forallb_forall in Hf. apply list_elem_of_In in H. specialize (Hf _ H). cbn in Hf.
  destruct u as [| | | | | | |gs]; try done. apply andb_true_iff in Hf as [H1 H2]. exists gs.
  by apply bool_decide_eq_true in H1, H2.
Qed.

(** C14: nothing is lost in the migration: each of the twelve conversions between the groups accepts
    every value of the type it starts from, gives a value of the type it ends in, and the document
    of the result is that of the original, member by member; so fields that only the new group has
    are unset. *)
Theorem conversion_lossless (t u : gotype) (v : val) :
  (t, u) ∈ conversions -> typed t v ->
  exists w, viaJson t u v = Some w /\ typed u w /\ same (Marshal u w) (Marshal t v).
Proof.
  intros Hc%conversions_sub Ht. destruct (all_convert t u v Hc Ht) as (w & E & Hw & Hsame & _). by exists w.
Qed.

Lemma convert_typed t u v : (t, u) ∈ conversions -> typed t v ->
  exists w, viaJson t u v = Some w /\ typed u w.
Proof. intros Hc%conversions_sub Ht. destruct (all_convert t u v Hc Ht) as (w & ? & ? & _). by exists w. Qed.

(** A resource is created without a status and with everything else it had; afterwards it gets the
    status back, but for the cluster it is managed by: together the converted resource, which the
    next reconciliation takes for one that no cluster manages yet. *)
Theorem status_moved kind t u v :
  assoc kind resourceTypes = Some (t, u) -> typed t v ->
  exists w c s st, convertResource kind v = Some w /\ objectToCreate u w = (c, Some s) /\
    statusType u = Some st /\ getStatusFieldValue c = Some (zero st) /\
    (forall vs vs' k, w = VStruct vs -> c = VStruct vs' -> k <> "status" -> assoc k vs' = assoc k vs) /\
    objectWithStatus c (Some s) = clearManagedClusterField w.
Proof.
  intros Hk Ht. destruct (resources_have_status kind t u Hk) as (Hc & gs & -> & Hn & Hs).
  destruct (convert_typed _ _ _ Hc Ht) as (w & E & Hw). apply typed_struct in Hw as (ws & -> & Hnw & Hws).
  apply elem_of_names in Hs as (gu & Hg & Hst). pose proof (fieldOf_NoDup gs gu Hn Hg) as Hf. rewrite Hst in Hf.
  rewrite Forall_forall in Hws. destruct (Hws _ Hg) as (s & Hs & _). rewrite Hst in Hs.
  assert ("status" ∈ ws.*1) as Hin by (rewrite Hnw, <- Hst; apply elem_of_names; by exists gu).
  exists (VStruct ws), (VStruct (setAssoc "status" (zero gu.2) ws)), s, gu.2.
  unfold convertResource, objectToCreate, clearStatusField, statusType. rewrite Hk, Hf. cbn. rewrite Hs.
  split_and!; [exact E|done|done|by apply assoc_set| |].
  - intros vs vs' k [= <-] [= <-] Hne. by apply assoc_set_ne.
  - by rewrite set_set, set_same; [|rewrite Hnw|].
Qed.
End Convert.

(** ** Examples *)

Module ConversionSamples.

#[local] Instance documents : ForeignLib :=
  {| zero_of := fun _ => JObj []; decode_foreign := fun _ d => Some d |}.

Definition tenant : val :=
  VStruct [("kind", VStr ""); ("apiVersion", VStr "");
    ("metadata", VDoc (JObj [("name", JStr "t"); ("namespace", JStr "ns")]));
    ("spec", VStruct [("opensearchCluster", VDoc (JObj [("name", JStr "os")])); ("description", VStr "d")]);
    ("status", VStruct [("state", VStr "CREATED"); ("reason", VStr ""); ("existingTenant", VPtr (VBool false));
                        ("managedCluster", VPtr (VStr "uid"))])].

Lemma conversion_lossless_witness :
  exists w, viaJson old_OpensearchTenant new_OpensearchTenant tenant = Some w /\
    same (Marshal new_OpensearchTenant w) (Marshal old_OpensearchTenant tenant).
Proof.
  destruct (conversion_lossless old_OpensearchTenant new_OpensearchTenant tenant) as (w & E & _ & Hs).
  - apply list_elem_of_In. cbn. tauto.
  - apply typedb_typed. vm_compute. reflexivity.
  - by exists w.
Defined.

Lemma status_moved_witness :
  exists w c s, convertResource "OpensearchTenant" tenant = Some w /\
    objectToCreate new_OpensearchTenant w = (c, Some s) /\
    objectWithStatus c (Some s) = clearManagedClusterField w.
Proof.
  destruct (status_moved "OpensearchTenant" old_OpensearchTenant new_OpensearchTenant tenant)
    as (w & c & s & st & E & Ec & _ & _ & _ & Hb).
  - reflexivity.
  - apply typedb_typed. vm_compute. reflexivity.
  - by exists w, c, s.
Defined.

(** The value itself need not survive, only its document: an image section that is there and empty
    is gone after the conversion. *)
Example empty_image_dropped :
  let before := VStruct [("image", VNil); ("imagePullPolicy", VNil); ("imagePullSecrets", VNil);
                         ("resources", VDoc (JObj [])); ("version", VNil)] in
  viaJson old_InitHelperConfig new_InitHelperConfig before =
    Some (VStruct [("image", VMissing); ("imagePullPolicy", VMissing); ("imagePullSecrets", VMissing);
                   ("resources", VDoc (JObj [])); ("version", VNil)]).
Proof. vm_compute. reflexivity. Qed.

(** The other direction would lose what only the new group has. *)
Example new_spec_not_kept : sub new_ClusterSpec old_ClusterSpec = false.
Proof. vm_compute. reflexivity. Qed.

End ConversionSamples.
