(* ===== verification/RequestTypes.v ===== *)
(** * RequestTypes: the documents that are sent to OpenSearch

    The structs of [opensearch-gateway/requests], field by field, with the names and options of their
    JSON tags. *)

From S2P Require Import Prelude Schema.

(** [ActionGroup.go] *)

Definition req_ActionGroup : gotype :=
  TStruct [field "allowed_actions" (TSlice TString); omit "type" TString; omit "description" TString].

(** [IsmPolicy.go] *)

Definition req_DestinationURL : gotype := TStruct [omit "url" TString].
Definition req_Destination : gotype :=
  TStruct [omit "slack" (TPtr req_DestinationURL); omit "amazon" (TPtr req_DestinationURL);
    omit "chime" (TPtr req_DestinationURL); omit "custom_webhook" (TPtr req_DestinationURL)].
Definition req_MessageTemplate : gotype := TStruct [omit "source" TString].
Definition req_ErrorNotification : gotype :=
  TStruct [omit "destination" (TPtr req_Destination); omit "channel" TString;
    omit "message_template" (TPtr req_MessageTemplate)].
Definition req_ISMTemplate : gotype :=
  TStruct [field "index_patterns" (TSlice TString); omit "priority" (TInt 64)].
Definition req_AliasDetails : gotype :=
  TStruct [omit "index" (TPtr TString); omit "aliases" (TSlice TString); omit "routing" (TPtr TString);
    omit "is_write_index" (TPtr TBool)].
Definition req_AliasAction : gotype :=
  TStruct [omit "add" (TPtr req_AliasDetails); omit "remove" (TPtr req_AliasDetails)].
Definition req_Alias : gotype := TStruct [field "actions" (TSlice req_AliasAction)].
Definition req_Allocation : gotype :=
  TStruct [field "exclude" TString; field "include" TString; field "require" TString;
    field "wait_for" TString].
Definition req_Close : gotype := TStruct [].
Definition req_Delete : gotype := TStruct [].
Definition req_ForceMerge : gotype := TStruct [field "max_num_segments" (TInt 64)].
Definition req_IndexPriority : gotype := TStruct [field "priority" (TInt 64)].
Definition req_Notification : gotype :=
  TStruct [field "destination" TString; field "message_template" req_MessageTemplate].
Definition req_Open : gotype := TStruct [].
Definition req_ReadOnly : gotype := TStruct [].
Definition req_ReadWrite : gotype := TStruct [].
Definition req_ReplicaCount : gotype := TStruct [field "number_of_replicas" (TInt 64)].
Definition req_Retry : gotype :=
  TStruct [omit "backoff" TString; field "count" (TInt 64); omit "delay" TString].
Definition req_Rollover : gotype :=
  TStruct [omit "min_doc_count" (TPtr (TInt 64)); omit "min_index_age" (TPtr TString);
    omit "min_primary_shard_size" (TPtr TString); omit "min_size" (TPtr TString)].
Definition req_Rollup : gotype := TStruct [].
Definition req_Shrink : gotype :=
  TStruct [omit "force_unsafe" (TPtr TBool); omit "max_shard_size" (TPtr TString);
    omit "num_new_shards" (TPtr (TInt 64)); omit "percentage_of_source_shards" (TPtr (TInt 64));
    omit "target_index_name_template" (TPtr TString)].
Definition req_Snapshot : gotype := TStruct [field "repository" TString; field "snapshot" TString].
Definition req_Action : gotype :=
  TStruct [omit "alias" (TPtr req_Alias); omit "allocation" (TPtr req_Allocation);
    omit "close" (TPtr req_Close); omit "delete" (TPtr req_Delete);
    omit "force_merge" (TPtr req_ForceMerge); omit "index_priority" (TPtr req_IndexPriority);
    omit "notification" (TPtr req_Notification); omit "open" (TPtr req_Open);
    omit "read_only" (TPtr req_ReadOnly); omit "read_write" (TPtr req_ReadWrite);
    omit "replica_count" (TPtr req_ReplicaCount); omit "retry" (TPtr req_Retry);
    omit "rollover" (TPtr req_Rollover); omit "rollup" (TPtr req_Rollup);
    omit "shrink" (TPtr req_Shrink); omit "snapshot" (TPtr req_Snapshot);
    omit "timeout" (TPtr TString)].
Definition req_CronDetails : gotype := TStruct [field "expression" TString; field "timezone" TString].
Definition req_Cron : gotype := TStruct [field "cron" (TPtr req_CronDetails)].
Definition req_Condition : gotype :=
  TStruct [omit "cron" (TPtr req_Cron); omit "min_doc_count" (TPtr (TInt 64));
    omit "min_index_age" (TPtr TString); omit "min_rollover_age" (TPtr TString);
    omit "min_size" (TPtr TString)].
Definition req_Transition : gotype :=
  TStruct [field "conditions" req_Condition; field "state_name" TString].
Definition req_State : gotype :=
  TStruct [field "actions" (TSlice req_Action); field "name" TString;
    omit "transitions" (TSlice req_Transition)].
Definition req_ISMPolicySpec : gotype :=
  TStruct [field "default_state" TString; field "description" TString;
    omit "error_notification" (TPtr req_ErrorNotification);
    omit "ism_template" (TSlice req_ISMTemplate); field "states" (TSlice req_State)].
Definition req_ISMPolicy : gotype := TStruct [field "policy" req_ISMPolicySpec].

(** [ReRouteMoveAction.go] *)

Definition req_ReRouteMoveAction : gotype :=
  TStruct [field "index" TString; field "shard" TString; field "from_node" TString;
    field "to_node" TString].

(** [RoleMapping.go] *)

Definition req_RoleMapping : gotype :=
  TStruct [omit "backend_roles" (TSlice TString); omit "hosts" (TSlice TString);
    omit "users" (TSlice TString)].

(** [Roles.go] *)

Definition req_IndexPermissionSpec : gotype :=
  TStruct [omit "index_patterns" (TSlice TString); omit "dls" TString; omit "fls" (TSlice TString);
    omit "allowed_actions" (TSlice TString); omit "masked_fields" (TSlice TString)].
Definition req_TenantPermissionsSpec : gotype :=
  TStruct [omit "tenant_patterns" (TSlice TString); omit "allowed_actions" (TSlice TString)].
Definition req_Role : gotype :=
  TStruct [omit "cluster_permissions" (TSlice TString);
    omit "index_permissions" (TSlice req_IndexPermissionSpec);
    omit "tenant_permissions" (TSlice req_TenantPermissionsSpec)].

(** [SnapshotPolicy.go] *)

Definition req_SnapshotConfig : gotype :=
  TStruct [omit "date_format" TString; omit "date_format_timezone" TString; omit "indices" TString;
    field "repository" TString; omit "ignore_unavailable" (TPtr TBool);
    omit "include_global_state" (TPtr TBool); omit "partial" (TPtr TBool);
    omit "metadata" (TMap TString)].
Definition req_CronExpression : gotype := TStruct [field "expression" TString; field "timezone" TString].
Definition req_CronSchedule : gotype := TStruct [field "cron" req_CronExpression].
Definition req_SnapshotCreation : gotype :=
  TStruct [field "schedule" req_CronSchedule; omit "time_limit" (TPtr TString)].
Definition req_SnapshotDeleteCondition : gotype :=
  TStruct [omit "max_count" (TPtr (TInt 64)); omit "max_age" (TPtr TString);
    omit "min_count" (TPtr (TInt 64))].
Definition req_SnapshotDeletion : gotype :=
  TStruct [omit "schedule" (TPtr req_CronSchedule); omit "time_limit" (TPtr TString);
    omit "condition" (TPtr req_SnapshotDeleteCondition)].
Definition req_NotificationChannel : gotype := TStruct [field "id" TString].
Definition req_NotificationConditions : gotype :=
  TStruct [omit "creation" (TPtr TBool); omit "deletion" (TPtr TBool); omit "failure" (TPtr TBool)].
Definition req_SnapshotNotification : gotype :=
  TStruct [field "channel" req_NotificationChannel;
    omit "conditions" (TPtr req_NotificationConditions)].
Definition req_SnapshotPolicySpec : gotype :=
  TStruct [field "name" TString; omit "description" (TPtr TString); omit "enabled" (TPtr TBool);
    field "snapshot_config" req_SnapshotConfig; field "creation" req_SnapshotCreation;
    omit "deletion" (TPtr req_SnapshotDeletion); omit "notification" (TPtr req_SnapshotNotification)].
Definition req_SnapshotPolicy : gotype := TStruct [field "policy" req_SnapshotPolicySpec].

(** [SnapshotRepository.go] *)

Definition req_SnapshotRepository : gotype :=
  TStruct [field "type" TString; omit "settings" (TMap TString)].

(** [Templates.go] *)

Definition req_DatastreamTimestampFieldSpec : gotype := TStruct [field "name" TString].
Definition req_Datastream : gotype :=
  TStruct [omit "timestamp_field" (TPtr req_DatastreamTimestampFieldSpec)].
Definition req_IndexAlias : gotype :=
  TStruct [omit "index" TString; omit "alias" TString;
    omit "filter" (TPtr (TForeign "apiextensionsv1.JSON")); omit "routing" TString;
    omit "is_write_index" TBool].
Definition req_Index : gotype :=
  TStruct [omit "settings" (TPtr (TForeign "apiextensionsv1.JSON"));
    omit "mappings" (TPtr (TForeign "apiextensionsv1.JSON")); omit "aliases" (TMap req_IndexAlias)].
Definition req_IndexTemplate : gotype :=
  TStruct [field "index_patterns" (TSlice TString); omit "data_stream" (TPtr req_Datastream);
    omit "template" req_Index; omit "composed_of" (TSlice TString); omit "priority" (TInt 64);
    omit "version" (TInt 64); omit "_meta" (TPtr (TForeign "apiextensionsv1.JSON"))].
Definition req_ComponentTemplate : gotype :=
  TStruct [field "template" req_Index; omit "version" (TInt 64);
    omit "_meta" (TPtr (TForeign "apiextensionsv1.JSON"))].

(** [Tenants.go] *)

Definition req_Tenant : gotype := TStruct [field "description" TString].

(** [Users.go] *)

Definition req_User : gotype :=
  TStruct [omit "password" TString; omit "opendistro_security_roles" (TSlice TString);
    omit "backend_roles" (TSlice TString); omit "attributes" (TMap TString)].
