(* ===== verification/ReadBack.v ===== *)
(** * ReadBack: documents that OpenSearch returns as they were sent

    The reconcilers send documents of the types in [RequestTypes] and decide whether OpenSearch has
    to be changed by decoding its answer into the same type and comparing the values with
    [cmp.Equal(..., cmpopts.EquateEmpty())].  An encoded value does not always decode to itself (an
    empty list in a field with [omitempty] is gone); the comparison has to make up for that. *)

From S2P Require Import Prelude Prog Resources Api Json Schema RequestTypes.

#[global] Instance val_eq_dec : EqDecision val.
Proof.
  refine (fix go v w : Decision (v = w) :=
    let _ : EqDecision val := @go in
    match v, w with
    | VStr s, VStr s' => cast_if (decide (s = s'))
    | VBool b, VBool b' => cast_if (decide (b = b'))
    | VInt n, VInt n' => cast_if (decide (n = n'))
    | VDoc d, VDoc d' => cast_if (decide (d = d'))
    | VPtr v, VPtr w => cast_if (decide (v = w))
    | VSlice l, VSlice l' => cast_if (decide (l = l'))
    | VMap m, VMap m' => cast_if (decide (m = m'))
    | VStruct m, VStruct m' => cast_if (decide (m = m'))
    | VNil, VNil | VMissing, VMissing => left eq_refl
    | _, _ => right _
    end); abstract congruence.
Defined.

(** [cmp.Equal] with [cmpopts.EquateEmpty()] on values of the same type.  Documented: basic values
    are equal by [==], pointers if what they point to is, structs if their fields are; slices and
    maps of length zero are equal whether they are nil or not, others if their elements are. *)
Definition lengthZero (v : val) : bool :=
  match v with VNil | VSlice [] | VMap [] => true | _ => false end.
Definition fieldwise (R : val -> val -> bool) (l l' : list (string * val)) : Prop :=
  Forall2 (λ kv kw, kv.1 = kw.1 /\ R kv.2 kw.2 = true) l l'.
Class ValCmp := { CmpValues : val -> val -> bool }.
Class ValCmpLaws `{VC : ValCmp} := {
  cmp_same v : CmpValues v v = true;
  cmp_empty v w : lengthZero v = true -> lengthZero w = true -> CmpValues v w = true;
  cmp_ptr v w : CmpValues v w = true -> CmpValues (VPtr v) (VPtr w) = true;
  cmp_slice l l' : Forall2 (λ v w, CmpValues v w = true) l l' -> CmpValues (VSlice l) (VSlice l') = true;
  cmp_map m m' : fieldwise CmpValues m m' -> CmpValues (VMap m) (VMap m') = true;
  cmp_struct vs ws : fieldwise CmpValues vs ws -> CmpValues (VStruct vs) (VStruct ws) = true }.

(** The documents of roles, role mappings, users, tenants, action groups, templates, policies and
    snapshot repositories. *)
Definition requestTypes : list gotype :=
  [req_Role; req_RoleMapping; req_User; req_Tenant; req_ActionGroup; req_IndexTemplate;
   req_ComponentTemplate; req_ISMPolicySpec; req_SnapshotPolicySpec; req_SnapshotRepository].

(** Structs with distinct fields of their own, and pointers to what cannot be nil. *)
Fixpoint plain (t : gotype) : bool :=
  match t with
  | TPtr t => negb (nilable t) && plain t
  | TSlice t | TMap t => plain t
  | TStruct fs =>
      bool_decide (NoDup (names fs)) && forallb (fun ft => negb (f_Via ft.1) && plain ft.2) fs
  | _ => true
  end.

Section ReadBack.
Context `{FL : ForeignLib} `{VL : ValCmpLaws}.

(** The value is decoded again as one that the comparison takes for the same. *)
Definition comesBack (t : gotype) (v : val) : Prop :=
  exists w, Unmarshal t (Marshal t v) = Some w /\ CmpValues w v = true.

Lemma requests_plain t : t ∈ requestTypes -> plain t = true.
Proof.
  assert (forallb plain requestTypes = true) as H by (vm_compute; reflexivity).
  rewrite forallb_forall in H. intros Ht%list_elem_of_In. by apply H.
Qed.

(** What is left out for being empty is filled in with something equal. *)
Lemma zero_for_empty t v : typed t v -> isEmptyValue v = true -> CmpValues (zero t) v = true.
Proof.
  destruct t; cbn [typed zero]; intros Ht He.
  - destruct Ht as [s ->]. destruct s; [apply cmp_same|done].
  - destruct Ht as [b ->]. destruct b; [done|apply cmp_same].
  - destruct Ht as (n & -> & _). destruct n; [apply cmp_same|done..].
  - by destruct Ht as (d & -> & _).
  - destruct Ht as [->|(w & -> & _)]; [apply cmp_same|done].
  - destruct Ht as [->|(l & -> & _)]; [apply cmp_same|]. destruct l; [by apply cmp_empty|done].
  - destruct Ht as [->|(m & -> & _)]; [apply cmp_same|]. destruct m; [by apply cmp_empty|done].
  - by destruct Ht as (vs & -> & _).
Qed.

Lemma field_comes_back fs vs ft v :
  NoDup (names fs) -> ft ∈ fs -> assoc (f_Name ft.1) vs = Some v -> field_typed typed ft.1 ft.2 v ->
  f_Via ft.1 = false -> (typed ft.2 v -> comesBack ft.2 v) ->
  exists w, decodedField fs (members fs vs) ft = Some (f_Name ft.1, w) /\ CmpValues w v = true.
Proof.
  intros Hn Hf Ev Ht Hvia Hb. unfold decodedField.
  rewrite member_lookup.
  2: { apply Forall_forall. intros [k d] (ft' & v' & Hf' & <- & _)%members_elem. apply elem_of_names. by exists ft'. }
  rewrite (lookup_members fs vs ft v) by done. destruct Ht as [[-> Hv]|[Hm Ht]]; [congruence|].
  unfold encoded. destruct (omitted ft.1 v) eqn:Ho.
  - assert (f_Omit ft.1 && isEmptyValue v = true) as [_ He]%andb_true_iff by (by destruct v).
    rewrite Hvia. cbn. eexists. split; [done|]. by apply zero_for_empty.
  - destruct (Hb Ht) as (w & -> & Hw). by exists w.
Qed.

(** Lists decoded element by element. *)
Lemma mapM_related {A B} (f : A -> option B) (R : A -> B -> Prop) (l : list A) :
  Forall (λ a, exists b, f a = Some b /\ R a b) l ->
  exists l', mapM f l = Some l' /\ Forall2 R l l'.
Proof.
  induction 1 as [|a l (b & E & Hb) _ (l' & E' & Hl)]; [by exists []|].
  exists (b :: l'). cbn. rewrite E. cbn. rewrite E'. split; [done|by constructor].
Qed.

Lemma struct_comes_back fs :
  Forall (λ ft, forall v, plain ft.2 = true -> typed ft.2 v -> comesBack ft.2 v) fs ->
  forall v, plain (TStruct fs) = true -> typed (TStruct fs) v -> comesBack (TStruct fs) v.
Proof.
  intros IH v [Hd%bool_decide_eq_true Hp]%andb_true_iff (vs & -> & Hn & Hvs)%typed_struct.
  rewrite forallb_forall in Hp. rewrite Forall_forall in IH, Hvs. unfold comesBack.
  rewrite Marshal_struct, Unmarshal_struct.
  destruct (mapM_related (decodedField fs (members fs vs))
              (λ ft kw, kw.1 = f_Name ft.1 /\ exists v, assoc (f_Name ft.1) vs = Some v /\ CmpValues kw.2 v = true) fs)
    as (ws & E & Hws).
  { apply Forall_forall. intros ft Hf. destruct (Hvs _ Hf) as (v & Ev & Ht).
    destruct (andb_prop _ _ (Hp _ (proj1 (list_elem_of_In _ _) Hf))) as [Hvia Hpf].
    destruct (field_comes_back fs vs ft v) as (w & Ew & Hw); [done..| | |].
    - by destruct (f_Via ft.1).
    - intros Ht'. by apply IH.
    - exists (f_Name ft.1, w). split; [done|]. split; [done|]. by exists v. }
  rewrite E. exists (VStruct ws). split; [done|]. apply cmp_struct. unfold fieldwise.
  apply Forall2_same_length_lookup. pose proof (Forall2_length _ _ _ Hws) as Hl.
  assert (length vs = length fs) as Hlv.
  { apply (f_equal length) in Hn. unfold names in Hn. by rewrite !length_fmap in Hn. }
  split; [lia|]. intros i [k w] [k' v] Hw Hv. assert (is_Some (fs !! i)) as [ft Hft].
  { apply lookup_lt_is_Some. rewrite <- Hlv. by eapply lookup_lt_Some. }
  destruct (Forall2_lookup_lr _ _ _ _ _ _ Hws Hft Hw) as (Ek & v' & Ev & Hc). cbn in *. subst k.
  assert (k' = f_Name ft.1) as ->.
  { apply (f_equal (.!! i)) in Hn. unfold names in Hn. rewrite !list_lookup_fmap, Hft, Hv in Hn. by injection Hn. }
  split; [done|]. rewrite (assoc_NoDup _ vs v) in Ev; [by simplify_eq| |by eapply list_elem_of_lookup_2].
  by rewrite Hn.
Qed.

Lemma plain_comes_back t v : plain t = true -> typed t v -> comesBack t v.
Proof.
  revert v. induction t as [| |b|n|t IH|t IH|t IH|fs IH] using gotype_nested_ind; intros v Hp Ht;
    [..|by apply struct_comes_back]; unfold comesBack.
  - destruct Ht as [s ->]. eexists. split; [done|apply cmp_same].
  - destruct Ht as [b ->]. eexists. split; [done|apply cmp_same].
  - destruct Ht as (n & -> & Hn). exists (VInt n). cbn. rewrite decide_True by done. split; [done|apply cmp_same].
  - destruct Ht as (d & -> & Hd & E). exists (VDoc d). split; [|apply cmp_same]. cbn. by destruct d; rewrite ?E.
  - destruct Ht as [->|(w & -> & Ht)]; [eexists; split; [done|apply cmp_same]|].
    apply andb_true_iff in Hp as [Hn%negb_true_iff Hp]. pose proof (not_null t w Hn Ht) as Hj.
    destruct (IH w Hp Ht) as (x & E & Hx). exists (VPtr x). split; [|by apply cmp_ptr]. cbn in *.
    rewrite E. by destruct (Marshal t w).
  - destruct Ht as [->|(l & -> & Ht)]; [eexists; split; [done|apply cmp_same]|]. cbn in *.
    destruct (mapM_related (Unmarshal t ∘ Marshal t) (λ v w, CmpValues w v = true) l) as (l' & E & Hl).
    { eapply Forall_impl; [exact Ht|]. intros w Hw. by apply IH. }
    exists (VSlice l'). split; [|by apply cmp_slice, Forall2_flip].
    assert (mapM (Unmarshal t) (map (Marshal t) l) = Some l') as ->; [|done]. rewrite <- E. clear.
    induction l as [|w l IHl]; [done|]. cbn. by rewrite IHl.
  - destruct Ht as [->|(m & -> & _ & Ht)]; [eexists; split; [done|apply cmp_same]|]. cbn in *.
    destruct (mapM_related (λ kv : string * val, pair kv.1 <$> Unmarshal t (Marshal t kv.2))
                (λ kv kw, kw.1 = kv.1 /\ CmpValues kw.2 kv.2 = true) m) as (m' & E & Hm).
    { eapply Forall_impl; [exact Ht|]. intros [k w] Hw. destruct (IH w Hp Hw) as (x & E & Hx).
      exists (k, x). cbn in *. by rewrite E. }
    exists (VMap m'). split; [|by apply cmp_map, Forall2_flip].
    assert (mapM (λ kv : string * json, pair kv.1 <$> Unmarshal t kv.2)
              (map (λ kv, (kv.1, Marshal t kv.2)) m) = Some m') as ->; [|done]. rewrite <- E. clear.
    induction m as [|[k w] m IHm]; [done|]. cbn. by rewrite IHm.
Qed.

(** C34: nothing is written twice for the sake of its encoding: whatever document of a role, role
    mapping, user, tenant, action group, template, policy or snapshot repository is sent, decoding
    it as it was sent gives a value that the comparison takes for the one in hand. *)
Theorem read_back_equal (t : gotype) (v : val) :
  t ∈ requestTypes -> typed t v ->
  exists w, Unmarshal t (Marshal t v) = Some w /\ CmpValues w v = true.
Proof. intros Hp%requests_plain Ht. by apply plain_comes_back. Qed.

End ReadBack.

(** The value itself need not come back: without [EquateEmpty] the comparison would differ. *)
Theorem empty_list_lost `{FL : ForeignLib} :
  let v := VStruct [("cluster_permissions", VSlice []); ("index_permissions", VNil);
                    ("tenant_permissions", VNil)] in
  typed req_Role v /\ Marshal req_Role v = JObj [] /\
  Unmarshal req_Role (Marshal req_Role v) =
    Some (VStruct [("cluster_permissions", VNil); ("index_permissions", VNil); ("tenant_permissions", VNil)]).
Proof. cbv zeta. split; [apply typedb_typed|]; by vm_compute. Qed.

Module ReadBackSamples.

#[local] Instance no_foreign : ForeignLib :=
  {| zero_of := fun _ => JObj []; decode_foreign := fun _ d => Some d |}.

(** A comparison with the documented laws: equality of values without empty lists and maps. *)
Fixpoint normal (v : val) : val :=
  match v with
  | VPtr v => VPtr (normal v)
  | VSlice [] | VMap [] => VNil
  | VSlice l => VSlice (map normal l)
  | VMap m => VMap (map (fun kv => (kv.1, normal kv.2)) m)
  | VStruct vs => VStruct (map (fun kv => (kv.1, normal kv.2)) vs)
  | v => v
  end.
#[local] Instance normal_cmp : ValCmp := {| CmpValues := fun v w => bool_decide (normal v = normal w) |}.

Lemma normal_members (l l' : list (string * val)) :
  fieldwise CmpValues l l' ->
  map (fun kv => (kv.1, normal kv.2)) l = map (fun kv => (kv.1, normal kv.2)) l'.
Proof.
  induction 1 as [|[k v] [k' w] l l' [E H] _ IH]; [done|]. cbn in *. apply bool_decide_eq_true in H.
  by rewrite E, H, IH.
Qed.
Lemma normal_cmp_laws : ValCmpLaws.
Proof.
  split; intros; apply bool_decide_eq_true; cbn.
  - done.
  - destruct v as [| | | | | |[]|[]| |], w as [| | | | | |[]|[]| |]; done.
  - f_equal. by apply bool_decide_eq_true in H.
  - assert (map normal l = map normal l') as E.
    { induction H as [|a b l l' Hab _ IH]; [done|]. cbn. apply bool_decide_eq_true in Hab. by rewrite Hab, IH. }
    by destruct H; [|f_equal].
  - pose proof (normal_members _ _ H) as E. by destruct H; [|f_equal].
  - f_equal. by apply normal_members.
Qed.

Definition a_role : val :=
  VStruct [("cluster_permissions", VSlice []); ("index_permissions", VNil); ("tenant_permissions", VNil)].
Lemma read_back_equal_witness :
  exists w, Unmarshal req_Role (Marshal req_Role a_role) = Some w /\ CmpValues w a_role = true.
Proof.
  pose proof normal_cmp_laws. apply (read_back_equal req_Role a_role); [left|apply typedb_typed; reflexivity].
Defined.

End ReadBackSamples.
