(* ===== verification/CrControllers.v ===== *)
(** * CrControllers: the controllers of the nine kinds of resources

    Models [Reconcile] of [controllers/opensearch*_controller.go] and
    [OpensearchUserReconciler.handleSecretEvent].  A controller fetches its resource, holds it
    with the finalizer [OpensearchFinalizer] and runs the reconciler of the kind; a resource
    that is being deleted is cleaned up and then let go.

    The controllers make requests of their own, for the resource with its finalizers; the
    programs of the reconcilers are embedded by [lift], so a reconciler cannot touch the
    finalizers. *)

From S2P Require Import Prelude Prog Resources Api K8sClient Helpers OsClient OsData Fixtures ReconcilerUtil ManagedCR Owned Security Tenants Templates PolicyCR IsmPolicy SnapshotPolicy.

(** ** Requests *)

(** The part of the metadata that the controllers look at. *)
Record Meta := mkMeta { mt_DeletionTimestamp : option string; mt_Finalizers : list string }.

Inductive creq :=
| CGet (k : kind) (name ns : string)
| CUpdate (k : kind) (m : Meta) (o : obj k)
| CInner (q : req).

(** The client overwrites the object given to an update with the server's. *)
Definition cresp (q : creq) : Type :=
  match q with
  | CGet k _ _ => result (Meta * obj k)
  | CUpdate k _ _ => result (Meta * obj k)
  | CInner q => resp q
  end.

Abbreviation cio := (prog cresp).
Abbreviation chist := (hist cresp).
Abbreviation cask := (@call creq cresp).

Fixpoint lift {A} (p : io A) : cio A :=
  match p with
  | Ret a => Ret a
  | Panic m => Panic m
  | Call q k => Call (CInner q : creq) (fun r => lift (k r))
  end.

(** The exchanges of the embedded programs. *)
Fixpoint inner (h : chist) : ohist :=
  match h with
  | [] => []
  | Ev q r :: h' =>
      match q return cresp q -> ohist with
      | CInner q => fun r => Ev q r :: inner h'
      | _ => fun _ => inner h'
      end r
  end.

Definition lifted (P : ohist -> req -> Prop) (h : chist) (q : creq) : Prop :=
  match q with CInner q => P (inner h) q | _ => False end.

Lemma wp_lift {A} (p : io A) P Q (h : chist) :
  wp p P Q (inner h) -> wp (lift p) (lifted P) (λ h' o, Q (inner h') o) h.
Proof.
  revert h. induction p as [a|m|q k IH]; intros h; [done|done|].
  intros [HP HQ]. split; [done|]. intros r. apply IH, HQ.
Qed.

(** ** The controller *)

Definition OpensearchFinalizer : string := "opensearch.org/opensearch-data".

(** [controllerutil.AddFinalizer], [RemoveFinalizer] and [ContainsFinalizer]. *)
Definition ContainsFinalizer (m : Meta) (f : string) : bool := bool_decide (f ∈ mt_Finalizers m).
Definition AddFinalizer (m : Meta) (f : string) : Meta :=
  if ContainsFinalizer m f then m
  else mkMeta (mt_DeletionTimestamp m) (mt_Finalizers m ++ [f]).
Definition RemoveFinalizer (m : Meta) (f : string) : Meta :=
  mkMeta (mt_DeletionTimestamp m) (filter (λ x, x <> f) (mt_Finalizers m)).

Definition IgnoreNotFound (e : err) : option err := if IsNotFound e then None else Some e.

Section Controller.
Context (k : kind) (reconcile : obj k -> io (Result * option err)) (delete_ : obj k -> io (option err)).

Definition crReconcile (name ns : string) : cio (Result * option err) :=
  let! r := cask (CGet k name ns) in
  match r with
  | Err e => Ret (noResult, IgnoreNotFound e)
  | Ok (meta, instance) =>
      match mt_DeletionTimestamp meta with
      | None =>
          let! u := cask (CUpdate k (AddFinalizer meta OpensearchFinalizer) instance) in
          match u with
          | Err e => Ret (noResult, Some e)
          | Ok (_, instance) => lift (reconcile instance)
          end
      | Some _ =>
          if ContainsFinalizer meta OpensearchFinalizer then
            let! e := lift (delete_ instance) in
            match e with
            | Some e => Ret (noResult, Some e)
            | None =>
                let! u := cask (CUpdate k (RemoveFinalizer meta OpensearchFinalizer) instance) in
                Ret (noResult, err_of u)
            end
          else Ret (noResult, None)
      end
  end.

End Controller.

(** The nine controllers. *)
Section Controllers.
Context `{RP : RetryPolicy} `{PE : ProcEnv} `{CR : Crypto} `{CL : CmpLib}.

Definition UserControllerReconcile := crReconcile KUser UserReconcile UserDelete.
Definition RoleControllerReconcile := crReconcile KRole RoleReconcile RoleDelete.
Definition UserRoleBindingControllerReconcile :=
  crReconcile KBinding BindingReconcile BindingDelete.
Definition TenantControllerReconcile := crReconcile KTenant TenantReconcile TenantDelete.
Definition ActionGroupControllerReconcile :=
  crReconcile KActionGroup ActionGroupReconcile ActionGroupDelete.
Definition IndexTemplateControllerReconcile :=
  crReconcile KIndexTemplate IndexTemplateReconcile IndexTemplateDelete.
Definition ComponentTemplateControllerReconcile :=
  crReconcile KComponentTemplate ComponentTemplateReconcile ComponentTemplateDelete.
Definition ISMPolicyControllerReconcile := crReconcile KISMPolicy IsmReconcile IsmDelete.
Definition SnapshotPolicyControllerReconcile :=
  crReconcile KSnapshotPolicy SnapshotPolicyReconcile SnapshotPolicyDelete.

End Controllers.

(** ** Which users a secret belongs to *)

Definition OsUserNameAnnotation : string := "opensearchuser/name".
Definition OsUserNamespaceAnnotation : string := "opensearchuser/namespace".

(** The requests are those of the users a secret names; Go visits the keys of the data in any
    order. *)
Definition handleSecretEvent (annotations data : gmap string string) : list (string * string) :=
  match annotations !! OsUserNamespaceAnnotation with
  | None => []
  | Some namespace =>
      match annotations !! OsUserNameAnnotation with
      | Some name => [(name, namespace)]
      | None => (λ kv : string * string, (kv.1, namespace)) <$> map_to_list data
      end
  end.

(** ** The finalizer protocol *)

Definition csaw (h : chist) (q : creq) (r : cresp q) : Prop := Ev q r ∈ h.

Lemma csaw_here q (r : cresp q) h : csaw (Ev q r :: h) q r.
Proof. constructor. Qed.
Lemma csaw_extends h h' q (r : cresp q) : extends h h' -> csaw h q r -> csaw h' q r.
Proof. intros He. by apply extends_elem. Qed.

Section Protocol.
Context (k : kind) (reconcile : obj k -> io (Result * option err)) (delete_ : obj k -> io (option err)).
Context (name ns : string).

(** The API server has the resource with the finalizer on it. *)
Definition finalizer_held (h : chist) : Prop :=
  (exists m o, csaw h (CGet k name ns) (Ok (m, o)) /\ OpensearchFinalizer ∈ mt_Finalizers m) \/
  (exists m o r, csaw h (CUpdate k m o) (Ok r) /\ OpensearchFinalizer ∈ mt_Finalizers m).

Inductive cr_allowed (h : chist) : creq -> Prop :=
| ca_get : cr_allowed h (CGet k name ns)
(** A resource in use is written back with the finalizer. *)
| ca_hold m o :
    csaw h (CGet k name ns) (Ok (m, o)) -> mt_DeletionTimestamp m = None ->
    cr_allowed h (CUpdate k (AddFinalizer m OpensearchFinalizer) o)
(** The reconciler does nothing, neither in Kubernetes nor in OpenSearch, before that. *)
| ca_inner q : finalizer_held h -> cr_allowed h (CInner q)
(** A resource that is being deleted is let go when its [Delete] has returned without error. *)
| ca_letgo m o :
    csaw h (CGet k name ns) (Ok (m, o)) -> is_Some (mt_DeletionTimestamp m) ->
    reaches (delete_ o) [] None (inner h) ->
    cr_allowed h (CUpdate k (RemoveFinalizer m OpensearchFinalizer) o).

Lemma AddFinalizer_held m : OpensearchFinalizer ∈ mt_Finalizers (AddFinalizer m OpensearchFinalizer).
Proof.
  unfold AddFinalizer, ContainsFinalizer. case_bool_decide; [done|]. cbn. set_solver.
Qed.
Lemma RemoveFinalizer_gone m :
  OpensearchFinalizer ∉ mt_Finalizers (RemoveFinalizer m OpensearchFinalizer).
Proof. cbn. rewrite list_elem_of_filter. tauto. Qed.

Lemma finalizer_held_extends h h' : extends h h' -> finalizer_held h -> finalizer_held h'.
Proof.
  intros He [(m & o & Hs & Hf)|(m & o & r & Hs & Hf)]; [left; exists m, o|right; exists m, o, r];
    (split; [by eapply csaw_extends|done]).
Qed.

(** An embedded program, once the finalizer is there. *)
Lemma wp_lift_held {A} (p : io A) h (Q : chist -> outcome A -> Prop) :
  finalizer_held h ->
  (forall h' o, extends h h' -> (forall a, o = Returned a -> reaches p (inner h) a (inner h')) ->
     Q h' o) ->
  wp (lift p) cr_allowed Q h.
Proof.
  intros Hf HQ. eapply wp_mono_ext; [..|apply wp_lift, reaches_wp].
  - intros h' [| |q] He; [done..|]. intros _. apply ca_inner. by eapply finalizer_held_extends.
  - intros h' o He Hr. by apply HQ.
Qed.

Lemma wp_crReconcile : wp (crReconcile k reconcile delete_ name ns) cr_allowed (λ _ _, True) [].
Proof.
  unfold crReconcile. wp_step; [constructor|]. destruct r as [[m o]|e]; [|by wp_step].
  destruct (mt_DeletionTimestamp m) eqn:Ed.
  - destruct (ContainsFinalizer _ _) eqn:Ef; [|by wp_step]. apply bool_decide_eq_true in Ef.
    wp_step. apply wp_lift_held; [left; exists m, o; split; [apply csaw_here|done]|].
    intros h' [[e|]|msg] He Hr; wp_step; [by wp_step| |done].
    wp_step; [|by wp_step]. apply ca_letgo; [eapply csaw_extends; [done|apply csaw_here]|by eexists|].
    by apply Hr.
  - wp_step; [apply ca_hold; [apply csaw_here|done]|]. destruct r as [[m' o']|e]; [|by wp_step].
    apply wp_lift_held; [|done]. right. do 3 eexists. split; [apply csaw_here|apply AddFinalizer_held].
Qed.

(** C19: the finalizer protocol of the controllers of the nine kinds of resources.  Whatever the
    servers answer, the reconciler of a resource does nothing before the API server has the
    resource with the finalizer on it, and the finalizer is only taken off a resource that is
    being deleted, after its [Delete] has returned without an error. *)
Theorem controller_finalizer_protocol (w : env cresp) :
  calls_ok cr_allowed (run w (crReconcile k reconcile delete_ name ns) []).2.
Proof. eapply wp_sound; [apply wp_crReconcile|done]. Qed.

(** A successful [Delete] means [gone]. *)
Lemma wp_letgo (gone : obj k -> ohist -> Prop) :
  (forall o, wp (delete_ o) (λ _ _, True) (λ h r, r = Returned None -> gone o h) []) ->
  wp (crReconcile k reconcile delete_ name ns)
    (λ h q, forall m o, q = CUpdate k m o -> OpensearchFinalizer ∉ mt_Finalizers m ->
       gone o (inner h)) (λ _ _, True) [].
Proof.
  intros Hd. eapply wp_mono; [|done|apply wp_crReconcile]. intros h q Ha m o -> Hf.
  inversion Ha; subst;
    repeat match goal with
    | E : existT _ _ = existT _ _ |- _ => apply Eqdep_dec.inj_pair2_eq_dec in E; [subst|apply kind_eq_dec]
    end.
  - by destruct (Hf (AddFinalizer_held _)).
  - by eapply (wp_reaches _ _ _ _ _ _ (Hd o)).
Qed.

End Protocol.

(** The finalizer is only taken off when [gone]. *)
Definition letgo_when {k} (gone : obj k -> ohist -> Prop) (h : chist) (q : creq) : Prop :=
  forall m o, q = CUpdate k m o -> OpensearchFinalizer ∉ mt_Finalizers m -> gone o (inner h).

Lemma owned_letgo `{RP : RetryPolicy} `{PE : ProcEnv} `{CR : Crypto} k
    (ops : OwnedOps k) path doc {L : OwnedLaws ops path doc} reconcile name ns (w : env cresp) :
  calls_ok (letgo_when (owned_gone ops path))
    (run w (crReconcile k reconcile (ownedDelete ops) name ns) []).2.
Proof. eapply wp_sound; [|done]. apply wp_letgo. intros o. by apply wp_ownedDelete_gone. Qed.

(** C20: letting go of a role, tenant, action group or template: the finalizer is only taken off
    when the resource was not the operator's (or was never looked for), or its cluster is gone or
    being deleted, or OpenSearch has said that it does not have it, or has accepted its
    deletion. *)
Theorem released_means_gone `{RP : RetryPolicy} `{PE : ProcEnv} `{CR : Crypto} `{CL : CmpLib}
    name ns (w : env cresp) :
  calls_ok (letgo_when (owned_gone roleOwned rolePath))
    (run w (RoleControllerReconcile name ns) []).2 /\
  calls_ok (letgo_when (owned_gone tenantOwned tenantPath))
    (run w (TenantControllerReconcile name ns) []).2 /\
  calls_ok (letgo_when (owned_gone actionGroupOwned actionGroupPath))
    (run w (ActionGroupControllerReconcile name ns) []).2 /\
  calls_ok (letgo_when (owned_gone indexTemplateOwned indexTemplateAt))
    (run w (IndexTemplateControllerReconcile name ns) []).2 /\
  calls_ok (letgo_when (owned_gone componentTemplateOwned componentTemplateAt))
    (run w (ComponentTemplateControllerReconcile name ns) []).2.
Proof.
  split_and!; [apply (owned_letgo KRole roleOwned rolePath roleDoc)
    |apply (owned_letgo KTenant tenantOwned tenantPath tenantDoc)
    |apply (owned_letgo KActionGroup actionGroupOwned actionGroupPath actionGroupDoc)
    |apply (owned_letgo KIndexTemplate indexTemplateOwned indexTemplateAt indexTemplateDoc)
    |apply (owned_letgo KComponentTemplate componentTemplateOwned componentTemplateAt
              componentTemplateDoc)].
Qed.
