(* ===== verification/Setup.v ===== *)
(** * Setup: which changes wake which controller

    Models the [SetupWithManager] of every controller and validator: the kind it is for and the other
    kinds whose changes it is told of.  What controller-runtime documents of the event handlers is
    [EventLib]; a request is the name and the namespace of the object to reconcile. *)

From S2P Require Import Prelude Prog Resources Api K8sClient Helpers Schema CrControllers Fixtures.

(** A kind with its API group. *)
Record GroupKind := mkGroupKind { gk_group : string; gk_kind : string }.
#[global] Instance GroupKind_dec : EqDecision GroupKind.
Proof. solve_decision. Defined.

Definition opster (kind : string) : GroupKind := mkGroupKind "opensearch.opster.io" kind.
Definition current (kind : string) : GroupKind := mkGroupKind "opensearch.org" kind.
Definition core (kind : string) : GroupKind := mkGroupKind "" kind.
Definition apps (kind : string) : GroupKind := mkGroupKind "apps" kind.

(** [Owns]: the controlling owner is to be reconciled; [Watches] with the handler for the object
    itself, or with [handleSecretEvent]. *)
Inductive Source :=
| Owns (k : GroupKind)
| WatchesObject (k : GroupKind)
| WatchesUsers (k : GroupKind).

Inductive Setup :=
| Controller (name : string) (for_ : GroupKind) (sources : list Source)
| Validator (for_ : GroupKind).

(** Without [Named] a controller has the name of its kind in lower case. *)
Definition unnamed (for_ : GroupKind) : list Source -> Setup := Controller (lower (gk_kind for_)) for_.

(** ** The registrations *)

Definition setup_OpenSearchClusterReconciler : Setup :=
  unnamed (current "OpenSearchCluster")
    [Owns (core "Pod"); Owns (core "Secret"); Owns (core "ConfigMap"); Owns (core "Service");
     Owns (apps "Deployment"); Owns (apps "StatefulSet"); Owns (core "PersistentVolumeClaim")].
Definition setup_OpensearchUserReconciler : Setup :=
  unnamed (current "OpensearchUser") [Owns (current "OpenSearchCluster"); WatchesUsers (core "Secret")].
Definition setup_OpensearchRoleReconciler : Setup :=
  unnamed (current "OpensearchRole") [Owns (current "OpenSearchCluster")].
Definition setup_OpensearchISMPolicyReconciler : Setup :=
  unnamed (current "OpenSearchISMPolicy") [Owns (current "OpenSearchCluster")].
Definition setup_OpensearchTenantReconciler : Setup :=
  unnamed (current "OpensearchTenant") [Owns (current "OpenSearchCluster")].
Definition setup_OpensearchUserRoleBindingReconciler : Setup :=
  unnamed (current "OpensearchUserRoleBinding") [Owns (current "OpenSearchCluster")].
Definition setup_OpensearchActionGroupReconciler : Setup :=
  unnamed (current "OpensearchActionGroup") [Owns (current "OpenSearchCluster")].
Definition setup_OpensearchIndexTemplateReconciler : Setup :=
  unnamed (current "OpensearchIndexTemplate") [Owns (current "OpenSearchCluster")].
Definition setup_OpensearchComponentTemplateReconciler : Setup :=
  unnamed (current "OpensearchComponentTemplate") [Owns (current "OpenSearchCluster")].
Definition setup_OpensearchSnapshotPolicyReconciler : Setup :=
  unnamed (current "OpensearchSnapshotPolicy") [Owns (current "OpenSearchCluster")].

(** The migrations, and the validators of both groups. *)

Definition setup_ClusterMigrationReconciler : Setup :=
  Controller "clustermigration" (opster "OpenSearchCluster") [WatchesObject (current "OpenSearchCluster")].
Definition setup_UserMigrationReconciler : Setup :=
  Controller "usermigration" (opster "OpensearchUser") [WatchesObject (current "OpensearchUser")].
Definition setup_RoleMigrationReconciler : Setup :=
  Controller "rolemigration" (opster "OpensearchRole") [WatchesObject (current "OpensearchRole")].
Definition setup_UserRoleBindingMigrationReconciler : Setup :=
  Controller "userrolebindingmigration" (opster "OpensearchUserRoleBinding") [WatchesObject (current "OpensearchUserRoleBinding")].
Definition setup_TenantMigrationReconciler : Setup :=
  Controller "tenantmigration" (opster "OpensearchTenant") [WatchesObject (current "OpensearchTenant")].
Definition setup_ActionGroupMigrationReconciler : Setup :=
  Controller "actiongroupmigration" (opster "OpensearchActionGroup") [WatchesObject (current "OpensearchActionGroup")].
Definition setup_ISMPolicyMigrationReconciler : Setup :=
  Controller "ismpolicymigration" (opster "OpenSearchISMPolicy") [WatchesObject (current "OpenSearchISMPolicy")].
Definition setup_SnapshotPolicyMigrationReconciler : Setup :=
  Controller "snapshotpolicymigration" (opster "OpensearchSnapshotPolicy") [WatchesObject (current "OpensearchSnapshotPolicy")].
Definition setup_IndexTemplateMigrationReconciler : Setup :=
  Controller "indextemplatemigration" (opster "OpensearchIndexTemplate") [WatchesObject (current "OpensearchIndexTemplate")].
Definition setup_ComponentTemplateMigrationReconciler : Setup :=
  Controller "componenttemplatemigration" (opster "OpensearchComponentTemplate") [WatchesObject (current "OpensearchComponentTemplate")].

Definition setup_OpenSearchIndexTemplateValidator : Setup :=
  Validator (current "OpensearchIndexTemplate").
Definition setup_OpenSearchComponentTemplateValidator : Setup :=
  Validator (current "OpensearchComponentTemplate").
Definition setup_OpenSearchUserValidator : Setup :=
  Validator (current "OpensearchUser").
Definition setup_OpenSearchRoleValidator : Setup :=
  Validator (current "OpensearchRole").
Definition setup_OpenSearchTenantValidator : Setup :=
  Validator (current "OpensearchTenant").
Definition setup_OpenSearchUserRoleBindingValidator : Setup :=
  Validator (current "OpensearchUserRoleBinding").
Definition setup_OpenSearchActionGroupValidator : Setup :=
  Validator (current "OpensearchActionGroup").
Definition setup_OpenSearchISMPolicyValidator : Setup :=
  Validator (current "OpenSearchISMPolicy").
Definition setup_OpenSearchSnapshotPolicyValidator : Setup :=
  Validator (current "OpensearchSnapshotPolicy").
Definition setup_OpenSearchClusterValidator : Setup :=
  Validator (current "OpenSearchCluster").
Definition setup_OpenSearchClusterLegacyValidator : Setup :=
  Validator (opster "OpenSearchCluster").
Definition setup_OpenSearchUserLegacyValidator : Setup :=
  Validator (opster "OpensearchUser").
Definition setup_OpenSearchRoleLegacyValidator : Setup :=
  Validator (opster "OpensearchRole").
Definition setup_OpenSearchTenantLegacyValidator : Setup :=
  Validator (opster "OpensearchTenant").
Definition setup_OpenSearchActionGroupLegacyValidator : Setup :=
  Validator (opster "OpensearchActionGroup").
Definition setup_OpenSearchComponentTemplateLegacyValidator : Setup :=
  Validator (opster "OpensearchComponentTemplate").
Definition setup_OpenSearchIndexTemplateLegacyValidator : Setup :=
  Validator (opster "OpensearchIndexTemplate").
Definition setup_OpenSearchISMPolicyLegacyValidator : Setup :=
  Validator (opster "OpenSearchISMPolicy").
Definition setup_OpenSearchSnapshotPolicyLegacyValidator : Setup :=
  Validator (opster "OpensearchSnapshotPolicy").
Definition setup_OpenSearchUserRoleBindingLegacyValidator : Setup :=
  Validator (opster "OpensearchUserRoleBinding").

Definition controllers : list Setup :=
  [setup_OpenSearchClusterReconciler; setup_OpensearchUserReconciler;
   setup_OpensearchRoleReconciler; setup_OpensearchISMPolicyReconciler;
   setup_OpensearchTenantReconciler; setup_OpensearchUserRoleBindingReconciler;
   setup_OpensearchActionGroupReconciler; setup_OpensearchIndexTemplateReconciler;
   setup_OpensearchComponentTemplateReconciler; setup_OpensearchSnapshotPolicyReconciler].
Definition migrations : list Setup :=
  [setup_ClusterMigrationReconciler; setup_UserMigrationReconciler; setup_RoleMigrationReconciler;
   setup_UserRoleBindingMigrationReconciler; setup_TenantMigrationReconciler;
   setup_ActionGroupMigrationReconciler; setup_ISMPolicyMigrationReconciler;
   setup_SnapshotPolicyMigrationReconciler; setup_IndexTemplateMigrationReconciler;
   setup_ComponentTemplateMigrationReconciler].
Definition validators : list Setup :=
  [setup_OpenSearchIndexTemplateValidator; setup_OpenSearchComponentTemplateValidator;
   setup_OpenSearchUserValidator; setup_OpenSearchRoleValidator; setup_OpenSearchTenantValidator;
   setup_OpenSearchUserRoleBindingValidator; setup_OpenSearchActionGroupValidator;
   setup_OpenSearchISMPolicyValidator; setup_OpenSearchSnapshotPolicyValidator;
   setup_OpenSearchClusterValidator; setup_OpenSearchClusterLegacyValidator;
   setup_OpenSearchUserLegacyValidator; setup_OpenSearchRoleLegacyValidator;
   setup_OpenSearchTenantLegacyValidator; setup_OpenSearchActionGroupLegacyValidator;
   setup_OpenSearchComponentTemplateLegacyValidator;
   setup_OpenSearchIndexTemplateLegacyValidator; setup_OpenSearchISMPolicyLegacyValidator;
   setup_OpenSearchSnapshotPolicyLegacyValidator; setup_OpenSearchUserRoleBindingLegacyValidator].

(** ** Events *)

Record OwnerRef := mkOwnerRef { ow_Kind : GroupKind; ow_Name : string; ow_Controller : bool }.
Record Changed := mkChanged {
  ch_Kind : GroupKind;
  ch_Name : string;
  ch_Namespace : string;
  ch_Owners : list OwnerRef;
  ch_Annotations : gmap string string;
  ch_Data : gmap string string }.

Abbreviation Request := (string * string)%type.

(** [handler.EnqueueRequestForOwner] with [OnlyControllerOwner]. *)
Class EventLib := { enqueueOwner : GroupKind -> Changed -> list Request }.
Class EventLaws `{EL : EventLib} := {
  enqueueOwner_spec k o r :
    r ∈ enqueueOwner k o <->
    exists ref, ref ∈ ch_Owners o /\ ow_Controller ref = true /\ ow_Kind ref = k /\
                r = (ow_Name ref, ch_Namespace o) }.

Section Events.
Context `{EL : EventLib}.

Definition fromSource (for_ : GroupKind) (o : Changed) (s : Source) : list Request :=
  match s with
  | Owns k => if bool_decide (ch_Kind o = k) then enqueueOwner for_ o else []
  | WatchesObject k => if bool_decide (ch_Kind o = k) then [(ch_Name o, ch_Namespace o)] else []
  | WatchesUsers k =>
      if bool_decide (ch_Kind o = k) then handleSecretEvent (ch_Annotations o) (ch_Data o) else []
  end.

(** The requests a controller gets when an object changes. *)
Definition requests (s : Setup) (o : Changed) : list Request :=
  match s with
  | Controller _ for_ sources =>
      (if bool_decide (ch_Kind o = for_) then [(ch_Name o, ch_Namespace o)] else []) ++
      flat_map (fromSource for_ o) sources
  | Validator _ => []
  end.

(** What the cluster controller is told of. *)
Definition watchedChildren : list GroupKind :=
  [core "Pod"; core "Secret"; core "ConfigMap"; core "Service"; apps "Deployment"; apps "StatefulSet";
   core "PersistentVolumeClaim"].

Lemma elem_of_from_owns for_ o k r :
  r ∈ fromSource for_ o (Owns k) <-> ch_Kind o = k /\ r ∈ enqueueOwner for_ o.
Proof. cbn. case_bool_decide; [naive_solver|]. rewrite elem_of_nil. naive_solver. Qed.

Lemma owns_children o r :
  r ∈ requests setup_OpenSearchClusterReconciler o <->
  (ch_Kind o = current "OpenSearchCluster" /\ r = (ch_Name o, ch_Namespace o)) \/
  (ch_Kind o ∈ watchedChildren /\ r ∈ enqueueOwner (current "OpenSearchCluster") o).
Proof.
  unfold setup_OpenSearchClusterReconciler, unnamed, requests. rewrite elem_of_app. f_equiv.
  - case_bool_decide; [rewrite list_elem_of_singleton; naive_solver|]. rewrite elem_of_nil. naive_solver.
  - cbn [flat_map]. rewrite !elem_of_app, elem_of_nil, !elem_of_from_owns. unfold watchedChildren.
    rewrite !elem_of_cons, elem_of_nil. naive_solver.
Qed.

(** ** Theorems *)

(** What wakes the reconciliation of a cluster: a change of the cluster itself, and a change of a
    pod, secret, config map, service, deployment, stateful set or claim that it controls; of its
    jobs, disruption budgets and service monitors it is not told. *)
Theorem cluster_woken `{ELL : !EventLaws} (o : Changed) (name : string) :
  (name, ch_Namespace o) ∈ requests setup_OpenSearchClusterReconciler o <->
  (ch_Kind o = current "OpenSearchCluster" /\ name = ch_Name o) \/
  (ch_Kind o ∈ watchedChildren /\
   exists ref, ref ∈ ch_Owners o /\ ow_Controller ref = true /\
               ow_Kind ref = current "OpenSearchCluster" /\ ow_Name ref = name).
Proof. rewrite owns_children, enqueueOwner_spec. naive_solver. Qed.

(** The nine other controllers. *)
Definition resourceControllers : list Setup := tail controllers.

Lemma resource_sources s :
  s ∈ resourceControllers ->
  exists n k l, s = Controller n k l /\ k <> current "OpenSearchCluster" /\
    Forall (λ x, x = Owns (current "OpenSearchCluster") \/ x = WatchesUsers (core "Secret")) l.
Proof.
  unfold resourceControllers. cbn [tail controllers]. rewrite !elem_of_cons, elem_of_nil.
  intros H. repeat (destruct H as [->|H]; [do 3 eexists; split_and!; [reflexivity|done|repeat (apply Forall_cons; split; [tauto|]); constructor]|]).
  done.
Qed.

(** C35: a change of a cluster wakes none of the controllers of users, roles, bindings, tenants, action
    groups, templates and policies: they are registered with [Owns], which looks for an owner of
    the cluster, and a cluster has none.  The comments there promise that they get notified when
    clusters change. *)
Theorem cluster_change_unnoticed `{ELL : !EventLaws} (s : Setup) (o : Changed) :
  s ∈ resourceControllers -> ch_Kind o = current "OpenSearchCluster" -> ch_Owners o = [] ->
  requests s o = [].
Proof.
  intros (n & k & l & -> & Hk & Hl)%resource_sources Ho Hw. cbn [requests].
  rewrite bool_decide_false by congruence. cbn [app]. induction Hl as [|x l Hx _ IH]; [done|].
  cbn [flat_map]. rewrite IH, app_nil_r. destruct Hx as [->| ->]; cbn.
  - rewrite bool_decide_true by done. apply elem_of_nil_inv. intros r. rewrite enqueueOwner_spec, Hw.
    intros (ref & []%not_elem_of_nil & _).
  - by rewrite bool_decide_false by (rewrite Ho; discriminate).
Qed.

End Events.

(** ** Completeness *)

Definition resourceKinds : list string :=
  ["OpenSearchCluster"; "OpensearchUser"; "OpensearchRole"; "OpensearchUserRoleBinding";
   "OpensearchTenant"; "OpensearchActionGroup"; "OpenSearchISMPolicy"; "OpensearchSnapshotPolicy";
   "OpensearchIndexTemplate"; "OpensearchComponentTemplate"].

Definition setupFor (s : Setup) : GroupKind :=
  match s with Controller _ k _ => k | Validator k => k end.
Definition controllerName (s : Setup) : option string :=
  match s with Controller n _ _ => Some n | Validator _ => None end.

(** Each of the ten kinds has, up to order, exactly one controller, one migration and one validator
    in each group, and no two controllers share a name, which the manager would refuse. *)
Theorem registered_once :
  map setupFor controllers ≡ₚ map current resourceKinds /\
  map setupFor migrations ≡ₚ map opster resourceKinds /\
  map setupFor validators ≡ₚ map current resourceKinds ++ map opster resourceKinds /\
  NoDup (omap controllerName (controllers ++ migrations)).
Proof.
  assert (forall l l' : list GroupKind, bool_decide (NoDup l) && bool_decide (NoDup l') &&
            bool_decide (l ⊆ l') && bool_decide (l' ⊆ l) = true -> l ≡ₚ l') as Hp.
  { intros l l' (((H1%bool_decide_eq_true & H2%bool_decide_eq_true)%andb_true_iff & H3%bool_decide_eq_true)%andb_true_iff
                 & H4%bool_decide_eq_true)%andb_true_iff.
    apply NoDup_Permutation; [done..|]. intros x. split; [apply H3|apply H4]. }
  split_and!; [apply Hp; vm_compute; reflexivity..|].
  apply (bool_decide_unpack _). vm_compute. exact I.
Qed.

Module SetupSamples.

#[local] Instance handlers : EventLib :=
  {| enqueueOwner := fun k o =>
       map (fun ref => (ow_Name ref, ch_Namespace o))
         (filter (fun ref => ow_Controller ref = true /\ ow_Kind ref = k) (ch_Owners o)) |}.
Lemma handlers_laws : EventLaws.
Proof.
  split. intros k o r. cbn. rewrite list_elem_of_In, in_map_iff. split.
  - intros (ref & <- & H%list_elem_of_In%list_elem_of_filter). exists ref. naive_solver.
  - intros (ref & H1 & H2 & H3 & ->). exists ref. split; [done|]. apply list_elem_of_In, list_elem_of_filter. done.
Qed.

Definition a_set : Changed :=
  mkChanged (apps "StatefulSet") "os-nodes" "ns" [mkOwnerRef (current "OpenSearchCluster") "os" true] ∅ ∅.
Definition a_cluster : Changed := mkChanged (current "OpenSearchCluster") "os" "ns" [] ∅ ∅.

Lemma cluster_woken_witness : ("os", "ns") ∈ requests setup_OpenSearchClusterReconciler a_set.
Proof.
  pose proof handlers_laws. apply (cluster_woken a_set "os"). right. split.
  - unfold watchedChildren. cbn. set_solver.
  - eexists. split; [left|done].
Defined.

Lemma cluster_change_unnoticed_witness : requests setup_OpensearchUserReconciler a_cluster = [].
Proof.
  pose proof handlers_laws. apply (cluster_change_unnoticed setup_OpensearchUserReconciler a_cluster); [|done..].
  left.
Defined.

End SetupSamples.
