(* ===== verification/Patch.v ===== *)
(** * Patch: what the operator compares before it updates an object

    Models [pkg/patch] (the annotation with the last applied configuration, the deletion of
    nulls, the calculation of a patch) and [pkg/types/base_types.go].  A byte sequence that
    holds JSON is its syntax tree; [Json.canon] is a round trip through a Go map.  The merge
    patches of Kubernetes and the compression of an annotation are parameters. *)

From S2P Require Import Prelude Prog Resources Api Json.

(** ** Objects

    The metadata the code reads and writes; [ro_Fields] are the other members of the object's
    JSON, among them [spec] and [status]. *)
Record RObj := mkRObj {
  ro_Name : string;
  ro_Namespace : string;
  ro_ResourceVersion : string;
  ro_DeletionTimestamp : option string;
  ro_Labels : gmap string string;
  ro_Annotations : gmap string string;
  ro_Unstructured : bool;
  ro_Fields : list (string * json) }.

#[global] Instance RObj_eq_dec : EqDecision RObj.
Proof. solve_decision. Defined.

Definition ro_set_Labels (m : gmap string string) (o : RObj) : RObj :=
  mkRObj (ro_Name o) (ro_Namespace o) (ro_ResourceVersion o) (ro_DeletionTimestamp o) m
    (ro_Annotations o) (ro_Unstructured o) (ro_Fields o).
Definition ro_set_Annotations (m : gmap string string) (o : RObj) : RObj :=
  mkRObj (ro_Name o) (ro_Namespace o) (ro_ResourceVersion o) (ro_DeletionTimestamp o)
    (ro_Labels o) m (ro_Unstructured o) (ro_Fields o).
Definition ro_set_ResourceVersion (v : string) (o : RObj) : RObj :=
  mkRObj (ro_Name o) (ro_Namespace o) v (ro_DeletionTimestamp o) (ro_Labels o)
    (ro_Annotations o) (ro_Unstructured o) (ro_Fields o).

(** [json.Marshal] of an object: metadata that is not set is omitted. *)
Definition strings_json (m : gmap string string) : json :=
  JObj (prod_map id JStr <$> map_to_list m).
Definition field (k v : string) : list (string * json) := if v == "" then [] else [(k, JStr v)].
Definition fieldMap (k : string) (m : gmap string string) : list (string * json) :=
  if decide (m = ∅) then [] else [(k, strings_json m)].
Definition marshalObj (o : RObj) : json :=
  JObj (("metadata", JObj (field "name" (ro_Name o) ++ field "namespace" (ro_Namespace o) ++
                           field "resourceVersion" (ro_ResourceVersion o) ++
                           field "deletionTimestamp" (default "" (ro_DeletionTimestamp o)) ++
                           fieldMap "labels" (ro_Labels o) ++
                           fieldMap "annotations" (ro_Annotations o))) :: ro_Fields o).

(** ** Deletion of nulls *)

(** [val == nil || isZero(val)]: of the values that JSON decodes to, the empty string is zero. *)
Definition isZeroOrNull (v : json) : bool :=
  match v with JNull => true | JStr s => s == "" | _ => false end.

(** A member that goes: null, zero, or an object that loses all its members. *)
Definition dropped (v filtered : json) : bool :=
  match v, filtered with
  | JObj (_ :: _), JObj [] => true
  | _, _ => isZeroOrNull v
  end.

(** [deleteNullInObj] and [deleteNullInSlice]; nothing is taken out of a slice. *)
Fixpoint deleteNull (v : json) : json :=
  match v with
  | JArr l => JArr (map deleteNull l)
  | JObj m =>
      JObj (flat_map (fun kv => if dropped kv.2 (deleteNull kv.2) then []
                                else [(kv.1, deleteNull kv.2)]) m)
  | _ => v
  end.

Definition DeleteNullInJson (jsonBytes : json) : result json :=
  match unmarshalMap jsonBytes with
  | Err e => Err (Wrapped "could not unmarshal json patch: " e)
  | Ok patchMap => Ok (canon (deleteNull (canon (JObj patchMap))))
  end.

(** ** Options *)

Definition remove_member (k : string) (m : list (string * json)) : list (string * json) :=
  filter (λ kv, kv.1 <> k) m.

Definition deleteStatusField (obj : json) : result json :=
  match unmarshalMap obj with
  | Err e => Err (Wrapped "could not unmarshal byte sequence: " e)
  | Ok m => Ok (canon (JObj (remove_member "status" m)))
  end.

(** The claim templates of a stateful set: an element that is an object gets fixed values. *)
Definition fixClaimTemplate (v : json) : json :=
  match v with
  | JObj m => JObj (m ++ [("kind", JStr ""); ("apiVersion", JStr "");
                          ("status", JObj [("phase", JStr "Pending")])])
  | _ => v
  end.
Definition at_member (k : string) (f : json -> json) (v : json) : json :=
  match v with
  | JObj m => JObj (map (fun kv => (kv.1, if kv.1 == k then f kv.2 else kv.2)) m)
  | _ => v
  end.
Definition fixClaimTemplates (v : json) : json :=
  match v with JArr l => JArr (map fixClaimTemplate l) | _ => v end.
Definition deleteVolumeClaimTemplateFields (obj : json) : result json :=
  match unmarshalMap obj with
  | Err e => Err (Wrapped "could not unmarshal byte sequence: " e)
  | Ok m => Ok (canon (at_member "spec" (at_member "volumeClaimTemplates" fixClaimTemplates)
                         (JObj m)))
  end.

Definition CalculateOption : Type := json -> json -> result (json * json).
Definition onBoth (f : json -> result json) : CalculateOption := fun current modified =>
  match f current with
  | Err e => Err (Wrapped "could not delete status field from current byte sequence: " e)
  | Ok current =>
      match f modified with
      | Err e => Err (Wrapped "could not delete status field from modified byte sequence: " e)
      | Ok modified => Ok (current, modified)
      end
  end.
Definition IgnoreStatusFields : CalculateOption := onBoth deleteStatusField.
Definition IgnoreVolumeClaimTemplateTypeMetaAndStatus : CalculateOption :=
  onBoth deleteVolumeClaimTemplateFields.

(** ** The annotation *)

Definition LastAppliedConfig : string := "opensearch.org/last-applied".
Definition MaxAnnotationSize : Z := 256 * 1024.

(** [Marshal] gives the bytes of a document; [zipEncode] is base64 of an archive with them as
    its one file.  Documented: decoding gives them back. *)
Class AnnotationLib := {
  Marshal : json -> string;
  zipEncode : string -> result string;
  b64Decode : string -> option string;
  isZip : string -> bool;
  unZip : string -> result string }.
Class AnnotationLaws `{AN : AnnotationLib} := {
  Marshal_nonempty : forall v, Marshal v <> "";
  unZip_zip : forall s e, zipEncode s = Ok e ->
    exists d, b64Decode e = Some d /\ isZip d = true /\ unZip d = Ok s }.

Section Annotator.
Context `{AN : AnnotationLib}.

Definition GetOriginalConfiguration (obj : RObj) : result (option string) :=
  match ro_Annotations obj !! LastAppliedConfig with
  | None => Ok None
  | Some original =>
      match b64Decode original with
      | Some decoded =>
          if isZip decoded then
            match unZip decoded with Ok s => Ok (Some s) | Err e => Err e end
          else Ok (Some decoded)
      | None => Ok (Some original)
      end
  end.

Definition SetOriginalConfiguration (obj : RObj) (original : string) : RObj * option err :=
  if original == "" then (obj, None)
  else
    match zipEncode original with
    | Err e => (obj, Some e)
    | Ok encoded =>
        if bool_decide (MaxAnnotationSize < Z.of_nat (String.length encoded)) then (obj, None)
        else (ro_set_Annotations (<[LastAppliedConfig := encoded]> (ro_Annotations obj)) obj, None)
    end.

(** [GetModifiedConfiguration(obj, false)]: the document without the annotation, and the object
    as it is left: the annotation is put back, as the empty string if there was none. *)
Definition withoutAnnotation (obj : RObj) : RObj :=
  ro_set_Annotations (delete LastAppliedConfig (ro_Annotations obj)) obj.
Definition GetModifiedConfiguration (obj : RObj) : RObj * json :=
  let original := default "" (ro_Annotations obj !! LastAppliedConfig) in
  (ro_set_Annotations (<[LastAppliedConfig := original]> (ro_Annotations obj)) obj,
   marshalObj (withoutAnnotation obj)).

Definition SetLastAppliedAnnotation (obj : RObj) : RObj * option err :=
  let (obj, modified) := GetModifiedConfiguration obj in
  match DeleteNullInJson modified with
  | Err e => (obj, Some e)
  | Ok modifiedWithoutNulls => SetOriginalConfiguration obj (Marshal modifiedWithoutNulls)
  end.

End Annotator.

(** ** The patch *)

(** [strategicpatch], [jsonmergepatch] and [jsonpatch]; the object gives the patch metadata. *)
Class Patchers := {
  CreateThreeWayMergePatch : option string -> json -> json -> RObj -> result json;
  StrategicMergePatch : json -> json -> RObj -> result json;
  CreateTwoWayMergePatch : json -> json -> RObj -> result json;
  CreateThreeWayJSONMergePatch : option string -> json -> json -> result json;
  MergePatch : json -> json -> result json;
  CreateMergePatch : json -> json -> result json }.

Definition emptyPatch : json := JObj [].

(** [errors.Wrap] of a failing step. *)
Definition wrapping {A B} (msg : string) (r : result A) (k : A -> result B) : result B :=
  match r with
  | Err e => Err (Wrapped msg e)
  | Ok a => k a
  end.
Notation "'try' msg 'as' x ':=' r 'in' k" := (wrapping msg r (fun x => k))
  (at level 10, msg at level 9, x pattern, r at level 200, k at level 200) : go_scope.

Section Calculate.
Context `{AN : AnnotationLib} `{PA : Patchers}.

Fixpoint applyOptions (opts : list CalculateOption) (current modified : json)
    : result (json * json) :=
  match opts with
  | [] => Ok (current, modified)
  | opt :: opts =>
      try "Failed to apply option function: " as (current, modified) := opt current modified in
      applyOptions opts current modified
  end.

(** A patch that is not empty is applied to the current object, to see whether it changes it. *)
Definition effective (apply create : json -> json -> result json) (applyMsg createMsg : string)
    (current patch : json) : result json :=
  if decide (patch = emptyPatch) then Ok patch
  else
    try applyMsg as patched := apply current patch in
    try createMsg as patch := create current patched in Ok patch.

Definition unstructuredJsonMergePatch (original : option string) (modified current : json)
    : result json :=
  try "Failed to generate merge patch: " as patch :=
    CreateThreeWayJSONMergePatch original modified current in
  effective MergePatch CreateMergePatch "Failed to merge generated patch to current object: "
    "Failed to create patch between the current and patched current object: " current patch.

Definition structuredPatch (currentObject : RObj) (original : option string)
    (modified current : json) : result json :=
  try "Failed to generate strategic merge patch: " as patch :=
    CreateThreeWayMergePatch original modified current currentObject in
  effective (fun c p => StrategicMergePatch c p currentObject)
    (fun c p => CreateTwoWayMergePatch c p currentObject)
    "Failed to apply patch again to check for an actual diff: "
    "Failed to create patch again to check for an actual diff: " current patch.

(** The calculated patch ([PatchResult.Patch]). *)
Definition Calculate (opts : list CalculateOption) (currentObject modifiedObject : RObj)
    : result json :=
  match applyOptions opts (marshalObj currentObject) (marshalObj modifiedObject) with
  | Err e => Err e
  | Ok (current, modified) =>
      try "Failed to delete null from current object: " as current := DeleteNullInJson current in
      try "Failed to delete null from modified object: " as modified :=
        DeleteNullInJson modified in
      try "Failed to get original configuration: " as original :=
        GetOriginalConfiguration currentObject in
      if ro_Unstructured currentObject then
        try "Failed to generate merge patch: " as patch :=
          unstructuredJsonMergePatch original modified current in Ok patch
      else structuredPatch currentObject original modified current
  end.

Definition IsEmpty (patch : json) : bool := bool_decide (patch = emptyPatch).

End Calculate.

(** ** Metadata *)

Record MetaBase := mkMetaBase {
  mb_Annotations : gmap string string; mb_Labels : gmap string string }.

(** [base.Merge(meta)]: the entries of the base win. *)
Definition MergeMeta (base : MetaBase) (labels annotations : gmap string string)
    : gmap string string * gmap string string :=
  (mb_Labels base ∪ labels, mb_Annotations base ∪ annotations).

(** ** Lemmas *)

(** No member, at any depth, is null or the empty string. *)
Fixpoint clean (v : json) : Prop :=
  match v with
  | JArr l => fold_right (fun v P => clean v /\ P) True l
  | JObj m => fold_right (fun kv P => isZeroOrNull kv.2 = false /\ clean kv.2 /\ P) True m
  | _ => True
  end.

Lemma deleteNull_obj m :
  deleteNull (JObj m) =
    JObj (flat_map (fun kv => if dropped kv.2 (deleteNull kv.2) then []
                              else [(kv.1, deleteNull kv.2)]) m).
Proof. done. Qed.

Lemma dropped_zero v w : dropped v w = false -> isZeroOrNull v = false.
Proof. destruct v as [| | | | |[|? ?]], w as [| | | | |[|? ?]]; done. Qed.

Lemma deleteNull_zero v : isZeroOrNull (deleteNull v) = isZeroOrNull v.
Proof. by destruct v. Qed.

Lemma deleteNull_clean v : clean (deleteNull v).
Proof.
  induction v as [|b|n|s|l IH|m IH] using json_nested_ind; try done.
  - cbn. induction IH as [|v l Hv _ IHl]; cbn; [done|by split].
  - cbn. induction IH as [|[k v] m Hv _ IHm]; [done|]. cbn [flat_map fst snd].
    destruct (dropped v (deleteNull v)) eqn:Ed; [done|]. cbn [app fold_right fst snd].
    split_and!; [|done|done]. rewrite deleteNull_zero. by eapply dropped_zero.
Qed.

(** What is left of a member is not dropped again. *)
Lemma dropped_again v : dropped v (deleteNull v) = false -> dropped (deleteNull v) (deleteNull v) = false.
Proof.
  destruct v as [| | | | |m]; try done. intros Hd. cbn [deleteNull] in *.
  destruct (flat_map _ m) as [|x m'] eqn:E; [|done]. by destruct m.
Qed.

Lemma deleteNull_idem v : deleteNull (deleteNull v) = deleteNull v.
Proof.
  induction v as [|b|n|s|l IH|m IH] using json_nested_ind; try done.
  - cbn. f_equal. rewrite map_map. by induction IH as [|v l Hv _ IHl]; cbn; [|rewrite Hv, IHl].
  - rewrite !deleteNull_obj. f_equal. induction IH as [|[k v] m Hv _ IHm]; [done|].
    cbn [flat_map fst snd]. destruct (dropped v (deleteNull v)) eqn:Ed; [done|].
    cbn [app flat_map fst snd]. cbn [snd] in Hv. rewrite Hv, dropped_again by done.
    cbn [app]. by rewrite IHm.
Qed.

(** Nothing of an encoded map's order is lost. *)
Lemma sort_members_sorted m : NoDup m.*1 -> Sorted String.le m.*1 -> sort_members m = m.
Proof.
  intros Hn Hs. unfold sort_members.
  assert (map_keys m = m.*1) as ->.
  { apply (Sorted_unique String.le); [apply Sorted_map_keys|done|].
    apply NoDup_Permutation; [apply NoDup_map_keys|done|]. intros k. apply elem_of_map_keys. }
  rewrite <- list_fmap_compose. transitivity (id <$> m); [|apply list_fmap_id].
  apply list_fmap_ext.
  intros i [k v] Hi. cbn. rewrite (map_lookup_NoDup k v); [done|done|].
  by eapply list_elem_of_lookup_2.
Qed.

Lemma StronglySorted_sublist {A} (R : relation A) l l' :
  StronglySorted R l' -> sublist l l' -> StronglySorted R l.
Proof.
  intros Hs Hl. induction Hl as [|x l l' Hl IH|x l l' Hl IH]; [done| |];
    apply StronglySorted_inv in Hs as [Hs Hf]; [|auto]. constructor; [auto|].
  rewrite Forall_forall in *. intros y Hy. apply Hf.
  by eapply elem_of_sublist.
Qed.

Definition canonical (v : json) : Prop := canon v = v.

Lemma canonical_obj m :
  canonical (JObj m) -> NoDup m.*1 /\ Sorted String.le m.*1 /\ Forall (λ kv, canonical kv.2) m.
Proof.
  unfold canonical. cbn [canon]. intros [= H].
  assert (m.*1 = map_keys (map (λ kv, (kv.1, canon kv.2)) m)) as Hk.
  { by rewrite <- sort_members_keys, H. }
  split_and!; [rewrite Hk; apply NoDup_map_keys|rewrite Hk; apply Sorted_map_keys|].
  apply Forall_forall. intros [k v] Hkv. assert (NoDup m.*1) as Hn by (rewrite Hk; apply NoDup_map_keys).
  pose proof (map_lookup_NoDup k v m Hn Hkv) as Hl.
  assert (map_lookup k (map (λ kv, (kv.1, canon kv.2)) m) = Some v) as Hc.
  { by rewrite <- sort_members_lookup, H. }
  rewrite map_lookup_map, Hl in Hc. by injection Hc.
Qed.

Lemma canonical_of_obj m :
  NoDup m.*1 -> Sorted String.le m.*1 -> Forall (λ kv, canonical kv.2) m -> canonical (JObj m).
Proof.
  intros Hn Hs Hf. unfold canonical. cbn [canon]. f_equal.
  assert (map (λ kv, (kv.1, canon kv.2)) m = m) as ->; [|by apply sort_members_sorted].
  clear -Hf. induction Hf as [|[k v] m Hv _ IH]; cbn; [done|]. cbn in Hv. by rewrite Hv, IH.
Qed.

Lemma canonical_canon v : canonical (canon v).
Proof. apply canon_idem. Qed.

Lemma deleteNull_keys (m : list (string * json)) :
  sublist (A := string) (flat_map (λ kv, if dropped kv.2 (deleteNull kv.2) then []
                           else [(kv.1, deleteNull kv.2)]) m).*1 m.*1.
Proof.
  induction m as [|[k v] m IH]; [constructor|]. cbn [flat_map fst snd].
  destruct (dropped _ _); cbn; by constructor.
Qed.

Lemma deleteNull_canonical v : canonical v -> canonical (deleteNull v).
Proof.
  induction v as [|b|n|s|l IH|m IH] using json_nested_ind; try done.
  - unfold canonical. cbn. intros [= H]. f_equal. rewrite map_map.
    induction IH as [|v l Hv _ IHl]; cbn in *; [done|]. injection H as H1 H2.
    by rewrite Hv, IHl.
  - intros (Hn & Hs & Hf)%canonical_obj. rewrite deleteNull_obj. apply canonical_of_obj.
    + eapply sublist_NoDup; [done|apply deleteNull_keys].
    + apply StronglySorted_Sorted. eapply StronglySorted_sublist;
        [apply Sorted_StronglySorted; [apply _|exact Hs]|apply deleteNull_keys].
    + clear Hn Hs. induction IH as [|[k v] m Hv _ IHm]; cbn [flat_map fst snd]; [constructor|].
      apply Forall_cons in Hf as [Hf1 Hf2]. destruct (dropped _ _); [by apply IHm|].
      constructor; [by apply Hv|by apply IHm].
Qed.

(** The result of [DeleteNullInJson] is clean and stays as it is; it depends on the decoded
    document alone. *)
Lemma DeleteNullInJson_obj m : DeleteNullInJson (JObj m) = Ok (deleteNull (canon (JObj m))).
Proof.
  unfold DeleteNullInJson. cbn [unmarshalMap].
  by rewrite (deleteNull_canonical _ (canonical_canon (JObj m))).
Qed.

Lemma deleteNull_canon_obj m : exists m', deleteNull (canon (JObj m)) = JObj m'.
Proof. by eexists. Qed.

Lemma DeleteNullInJson_clean v r :
  DeleteNullInJson v = Ok r -> clean r /\ DeleteNullInJson r = Ok r.
Proof.
  intros Hr. assert (exists m, DeleteNullInJson (JObj m) = Ok r) as [m Hm].
  { unfold DeleteNullInJson in *. destruct v; try done; by eexists. }
  rewrite DeleteNullInJson_obj in Hm.
  assert (r = deleteNull (canon (JObj m))) as -> by congruence. clear Hr Hm.
  split; [apply deleteNull_clean|].
  pose proof (deleteNull_canonical _ (canonical_canon (JObj m))) as Hc. unfold canonical in Hc.
  pose proof (deleteNull_idem (canon (JObj m))) as Hi.
  destruct (deleteNull_canon_obj m) as [m' Em]. rewrite Em in *.
  by rewrite DeleteNullInJson_obj, Hc, Hi.
Qed.

Lemma DeleteNullInJson_same v w : same v w -> DeleteNullInJson v = DeleteNullInJson w.
Proof.
  intros H. inversion H; subst; try done. unfold DeleteNullInJson, unmarshalMap.
  by rewrite (proj2 (canon_same _ _) H).
Qed.

Section AnnotatorLaws.
Context `{AN : AnnotationLib} {ANL : AnnotationLaws}.

(** The document that is recorded for an object. *)
Definition applied (obj : RObj) : result json :=
  DeleteNullInJson (marshalObj (withoutAnnotation obj)).

Lemma applied_ok obj : exists v, applied obj = Ok v.
Proof. unfold applied, DeleteNullInJson, marshalObj. cbn [unmarshalMap]. by eexists. Qed.

Lemma set_Annotations_without m obj :
  delete LastAppliedConfig m = delete LastAppliedConfig (ro_Annotations obj) ->
  withoutAnnotation (ro_set_Annotations m obj) = withoutAnnotation obj.
Proof. intros H. unfold withoutAnnotation, ro_set_Annotations. cbn. by rewrite H. Qed.

(** What [SetLastAppliedAnnotation] leaves is the object but for the annotation. *)
Lemma SetLastApplied_keeps obj :
  withoutAnnotation (SetLastAppliedAnnotation obj).1 = withoutAnnotation obj.
Proof.
  unfold SetLastAppliedAnnotation, GetModifiedConfiguration. cbv zeta.
  set (obj1 := ro_set_Annotations _ obj).
  assert (withoutAnnotation obj1 = withoutAnnotation obj) as H1.
  { apply set_Annotations_without. by rewrite delete_insert_eq. }
  destruct (DeleteNullInJson _) as [v|e]; [|done]. unfold SetOriginalConfiguration.
  destruct (_ == _); [done|]. destruct (zipEncode _) as [enc|e]; [|done].
  case_bool_decide; [done|]. cbn [fst]. rewrite <- H1. apply set_Annotations_without.
  by rewrite delete_insert_eq.
Qed.

(** The annotation holds the document: it is read back as it was recorded. *)
Lemma GetOriginal_SetLastApplied obj v enc :
  applied obj = Ok v -> zipEncode (Marshal v) = Ok enc ->
  Z.of_nat (String.length enc) <= MaxAnnotationSize ->
  let (obj', e) := SetLastAppliedAnnotation obj in
  e = None /\ GetOriginalConfiguration obj' = Ok (Some (Marshal v)).
Proof.
  intros Hv He Hl. unfold SetLastAppliedAnnotation, GetModifiedConfiguration. cbv zeta.
  unfold applied in Hv. rewrite Hv. unfold SetOriginalConfiguration.
  rewrite bool_decide_false by apply Marshal_nonempty. rewrite He, bool_decide_false by lia.
  split; [done|]. unfold GetOriginalConfiguration. cbn [ro_Annotations ro_set_Annotations].
  rewrite lookup_insert_eq. destruct (unZip_zip _ _ He) as (d & -> & -> & ->). done.
Qed.

End AnnotatorLaws.

(** ** Theorems *)

(** C38: documents without nulls: what is left of a document has no member that is null or
    the empty string, at any depth, is encoded with sorted names, is left alone by another
    pass, and is the same for documents that differ only in the order of their members. *)
Theorem delete_null_spec (v w r : json) :
  DeleteNullInJson v = Ok r ->
  clean r /\ canonical r /\ DeleteNullInJson r = Ok r /\
  (same v w -> DeleteNullInJson w = Ok r).
Proof.
  intros Hr. destruct (DeleteNullInJson_clean v r Hr) as [Hc Hi]. split_and!; [done| |done|].
  - unfold DeleteNullInJson in Hr. destruct (unmarshalMap v); [|done].
    assert (r = canon (deleteNull (canon (JObj a)))) as -> by congruence. apply canonical_canon.
  - intros Hs. by rewrite <- (DeleteNullInJson_same v w Hs).
Qed.

(** The last applied configuration: recording it changes nothing of an object but the
    annotation, and what is recorded is read back: the document of the object without the
    annotation and without nulls, unless its encoding is too large. *)
Theorem last_applied_roundtrip `{ANL : AnnotationLaws} (obj : RObj) (v : json) (enc : string) :
  applied obj = Ok v -> zipEncode (Marshal v) = Ok enc ->
  withoutAnnotation (SetLastAppliedAnnotation obj).1 = withoutAnnotation obj /\
  applied (SetLastAppliedAnnotation obj).1 = Ok v /\
  (Z.of_nat (String.length enc) <= MaxAnnotationSize ->
   GetOriginalConfiguration (SetLastAppliedAnnotation obj).1 = Ok (Some (Marshal v))).
Proof.
  intros Hv He. pose proof (SetLastApplied_keeps obj) as Hk.
  split_and!; [done|unfold applied in *; by rewrite Hk|]. intros Hl.
  pose proof (GetOriginal_SetLastApplied obj v enc Hv He Hl) as H.
  by destruct (SetLastAppliedAnnotation obj) as [obj' e]; destruct H.
Qed.

Module Samples.

(** Documents are printed without escapes; an archive is the text with a letter in front. *)
Definition quoted (s : string) : string :=
  let q := String (Ascii.ascii_of_nat 34) EmptyString in q +:+ s +:+ q.
Fixpoint print (v : json) : string :=
  match v with
  | JNull => "null"
  | JBool b => if b then "true" else "false"
  | JNum n => Itoa n
  | JStr s => quoted s
  | JArr l => "[" +:+ Join (map print l) "," +:+ "]"
  | JObj m => "{" +:+ Join (map (fun kv => quoted kv.1 +:+ ":" +:+ print kv.2) m) "," +:+ "}"
  end.

#[export] Instance plain : AnnotationLib :=
  {| Marshal := fun v => String " "%char (print v); zipEncode := fun s => Ok (String "z"%char s);
     b64Decode := fun s => Some s; isZip := fun s => String.prefix "z" s;
     unZip := fun s => match s with String _ s => Ok s | EmptyString => Err (OtherErr "empty") end |}.
#[export] Instance plain_laws : AnnotationLaws.
Proof.
  split; [done|]. intros s e [= <-]. eexists. split_and!; [done|by destruct s|done].
Qed.

Definition an_object : RObj :=
  mkRObj "config" "ns" "7" None {["team" := "search"]} ∅ false
    [("data", JObj [("b", JNull); ("a", JStr "1")]); ("kind", JStr "ConfigMap")].

Lemma delete_null_spec_witness :
  clean (JObj [("a", JStr "1")]) /\ canonical (JObj [("a", JStr "1")]) /\
  DeleteNullInJson (JObj [("a", JStr "1")]) = Ok (JObj [("a", JStr "1")]) /\
  (same (JObj [("b", JNull); ("a", JStr "1")]) (JObj [("a", JStr "1"); ("b", JNull)]) ->
   DeleteNullInJson (JObj [("a", JStr "1"); ("b", JNull)]) = Ok (JObj [("a", JStr "1")])).
Proof. apply (delete_null_spec (JObj [("b", JNull); ("a", JStr "1")])). by vm_compute. Defined.

Definition recorded : json :=
  match applied an_object with Ok v => v | Err _ => JNull end.
Definition archive : string := String "z"%char (Marshal recorded).

Lemma last_applied_roundtrip_witness :
  let obj' := (SetLastAppliedAnnotation an_object).1 in
  withoutAnnotation obj' = withoutAnnotation an_object /\ applied obj' = Ok recorded /\
  (Z.of_nat (String.length archive) <= MaxAnnotationSize ->
   GetOriginalConfiguration obj' = Ok (Some (Marshal recorded))).
Proof. apply (last_applied_roundtrip an_object recorded archive); by vm_compute. Defined.

End Samples.
