(* ===== verification/ResourceReconciler.v ===== *)
(** * ResourceReconciler: bringing an object of Kubernetes into its desired state

    Models [pkg/reconciler/resource.go]: the options, [CreateIfNotExist], [delete] and
    [ReconcileResource], with their requests to the API server ([rreq]).  This is the program
    behind the request [Api.ReconcileResource] of the other files.  The objects the operator
    reconciles are no custom resource definitions, so waiting for one to be established is left
    out. *)

From S2P Require Import Prelude Prog Resources Api K8sClient Json Patch.

(** ** Errors and requests *)

(** A [StatusError] of the API server, an unknown resource type, any other error, and a wrapped
    one. *)
Inductive rerr :=
| RStatus (code : Z) (reason message : string)
| RNoMatch (msg : string)
| RNotRegistered (msg : string)
| RPlain (msg : string)
| RWrap (msg : string) (e : rerr).

Fixpoint RIsNotFound (e : rerr) : bool :=
  match e with
  | RStatus _ reason _ => reason == "NotFound"
  | RWrap _ e => RIsNotFound e
  | _ => false
  end.

Inductive policy := Background | Foreground | Orphan.

Inductive rreq :=
| RGet (name ns : string)
| RCreate (o : RObj)
| RUpdate (o : RObj)
| RDelete (o : RObj) (p : option policy).

(** The client overwrites the object given to a creation or an update with the server's. *)
Definition rresp (q : rreq) : Type :=
  match q with
  | RGet _ _ | RCreate _ | RUpdate _ => RObj + rerr
  | RDelete _ _ => option rerr
  end.

Abbreviation rio := (prog rresp).
Abbreviation rhist := (hist rresp).
Abbreviation rask := (@call rreq rresp).

(** ** Desired states

    [ds_state] is the state itself or the one it answers when asked, if that is one of the
    three; the hooks may change the objects they are given. *)
Record DStateOps := mkDState {
  ds_state : option DesiredState;
  ds_BeforeUpdate : RObj -> RObj -> RObj * RObj * option rerr;
  ds_BeforeCreate : RObj -> RObj * option rerr;
  ds_BeforeDelete : RObj -> RObj * option rerr;
  ds_ShouldCreate : option (RObj -> bool + rerr);
  ds_ShouldUpdate : option (RObj -> RObj -> bool + rerr);
  ds_ShouldDelete : option (RObj -> bool + rerr) }.

Definition StaticDesiredState (s : DesiredState) : DStateOps :=
  mkDState (Some s) (fun current desired => (current, desired, None)) (fun o => (o, None))
    (fun o => (o, None)) None None None.

Definition DesiredStateHook (d : RObj -> RObj * option rerr) : DStateOps :=
  mkDState None (fun current desired => let (current, e) := d current in (current, desired, e))
    d d None None None.

(** ** Options *)

(** [strings.Contains]. *)
Fixpoint Contains (s substr : string) : bool :=
  String.prefix substr s ||
  match s with
  | EmptyString => false
  | String _ s => Contains s substr
  end.

Definition MatchImmutableNoStatefulSet (errorMessage : string) : bool :=
  if Contains errorMessage "immutable" then true
  else if Contains errorMessage "may not change once set" then true
  else false.
Definition MatchImmutableErrorMessages (errorMessage : string) : bool :=
  if Contains errorMessage "immutable" then true
  else if Contains errorMessage "may not change once set" then true
  else if Contains errorMessage "updates to statefulset spec for fields other than" then true
  else false.

Record GroupKind := mkGK { gk_Group : string; gk_Kind : string }.
#[global] Instance GroupKind_eq_dec : EqDecision GroupKind.
Proof. solve_decision. Defined.

Definition DefaultRecreateRequeueDelay : Z := 10.
Definition DefaultRecreateEnabledGroupKinds : list GroupKind :=
  [mkGK "" "Service"; mkGK "apps" "StatefulSet"; mkGK "apps" "DaemonSet"; mkGK "apps" "Deployment"].
Definition ImmutableFieldChangeErrorHelp : string :=
  "recreating object on immutable field change has to be enabled explicitly through the reconciler options".

Record ReconcilerOpts := mkOpts {
  op_EnableRecreateWorkloadOnImmutableFieldChange : bool;
  op_Help : string;
  op_RecreateRequeueDelay : option Z;
  op_RecreateEnabledResourceCondition : option (GroupKind -> bool);
  op_RecreateImmediately : bool;
  op_RecreatePropagationPolicy : option policy;
  op_RecreateErrorMessageSubstring : option string;
  op_RecreateErrorMessageCondition : option (string -> bool);
  op_PatchCalculateOptions : option (list CalculateOption) }.

(** The options a reconciler may be given. *)
Inductive ResourceReconcilerOption :=
| WithEnableRecreateWorkload
| WithRecreateRequeueDelay (delay : Z)
| WithRecreateEnabledForAll
| WithRecreateEnabledFor (condition : GroupKind -> bool)
| WithRecreateEnabledForNothing
| WithRecreateImmediately
| WithRecreateErrorMessageSubstring (substring : string)
| WithRecreateErrorMessageCondition (condition : string -> bool)
| WithRecreateErrorMessageIgnored
| WithPatchCalculateOptions (options : list CalculateOption).

Definition applyOption (opt : ResourceReconcilerOption) (o : ReconcilerOpts) : ReconcilerOpts :=
  let 'mkOpts en help delay cond imm pol sub msg calc := o in
  match opt with
  | WithEnableRecreateWorkload => mkOpts true help delay cond imm pol sub msg calc
  | WithRecreateRequeueDelay d => mkOpts en help (Some d) cond imm pol sub msg calc
  | WithRecreateEnabledForAll => mkOpts en help delay (Some (fun _ => true)) imm pol sub msg calc
  | WithRecreateEnabledFor c => mkOpts en help delay (Some c) imm pol sub msg calc
  | WithRecreateEnabledForNothing =>
      mkOpts en help delay (Some (fun _ => false)) imm pol sub msg calc
  | WithRecreateImmediately => mkOpts en help delay cond true pol sub msg calc
  | WithRecreateErrorMessageSubstring s => mkOpts en help delay cond imm pol (Some s) msg calc
  | WithRecreateErrorMessageCondition c => mkOpts en help delay cond imm pol sub (Some c) calc
  | WithRecreateErrorMessageIgnored => mkOpts en help delay cond imm pol (Some "") msg calc
  | WithPatchCalculateOptions l => mkOpts en help delay cond imm pol sub msg (Some l)
  end.

(** The defaults that are filled in. *)
Definition NewGenericReconciler (o : ReconcilerOpts) : ReconcilerOpts :=
  let 'mkOpts en help delay cond imm pol sub msg calc := o in
  let (sub, msg) :=
    match sub, msg with
    | None, None => (None, Some MatchImmutableErrorMessages)
    | None, Some c => (Some "immutable", Some c)
    | Some s, c => (Some s, c)
    end in
  mkOpts en help (Some (default DefaultRecreateRequeueDelay delay))
    (Some (default (fun gk => bool_decide (gk ∈ DefaultRecreateEnabledGroupKinds)) cond)) imm
    (Some (default Background pol)) sub msg (Some (default [IgnoreStatusFields] calc)).

Definition NewReconcilerWith (opts : list ResourceReconcilerOption) : ReconcilerOpts :=
  NewGenericReconciler
    (fold_left (fun o opt => applyOption opt o) opts
       (mkOpts false ImmutableFieldChangeErrorHelp None None false None None None None)).

Definition shouldRecreate (o : ReconcilerOpts) (message : string) : bool :=
  match op_RecreateErrorMessageCondition o with
  | Some c => c message
  | None => Contains message (default "" (op_RecreateErrorMessageSubstring o))
  end.

(** ** The reconciler *)

Definition zeroObj : RObj := mkRObj "" "" "" None ∅ ∅ false [].
Definition BanzaiCloudManagedComponent : string := "banzaicloud.io/managed-component".

Section Reconciler.
Context `{AN : AnnotationLib} `{PA : Patchers}.
Context (opts : ReconcilerOpts) (gk : GroupKind).

Definition wrapR (msg : string) (e : rerr) : option rerr := Some (RWrap msg e).

(** Created or not, the current object, an error; and the desired object as it is left. *)
Definition CreateIfNotExist (desired : RObj) (desiredState : option DStateOps)
    : rio (RObj * (bool * option RObj * option rerr)) :=
  let! r := rask (RGet (ro_Name desired) (ro_Namespace desired)) in
  match r with
  | inl current => Ret (desired, (false, Some current, None))
  | inr e =>
      if negb (RIsNotFound e) then
        Ret (desired, (false, None, wrapR "getting resource failed" e))
      else
        let desired := (SetLastAppliedAnnotation desired).1 in
        let '(desired, stop) :=
          match desiredState with
          | None => (desired, None)
          | Some ds =>
              let '(desired, e) := ds_BeforeCreate ds desired in
              match e with
              | Some e =>
                  (desired, Some (None, wrapR "failed to prepare desired state before creation" e))
              | None =>
                  (desired, match ds_ShouldCreate ds with
                            | None => None
                            | Some should =>
                                match should desired with
                                | inr e => Some (Some desired, Some e)
                                | inl false => Some (Some desired, None)
                                | inl true => None
                                end
                            end)
              end
          end in
        match stop with
        | Some (current, e) => Ret (desired, (false, current, e))
        | None =>
            let! c := rask (RCreate desired) in
            match c with
            | inr e => Ret (desired, (false, None, wrapR "creating resource failed" e))
            | inl desired => Ret (desired, (true, Some zeroObj, None))
            end
        end
  end.

Definition deleteResource_ (desired : RObj) (desiredState : DStateOps) : rio (option rerr) :=
  let! r := rask (RGet (ro_Name desired) (ro_Namespace desired)) in
  match r with
  | inr (RNoMatch _) | inr (RNotRegistered _) => Ret None
  | inr e => if RIsNotFound e then Ret None else Ret (wrapR "getting resource failed" e)
  | inl current =>
      let (current, e) := ds_BeforeDelete desiredState current in
      match e with
      | Some e => Ret (wrapR "failed to prepare desired state before deletion" e)
      | None =>
          match ds_ShouldDelete desiredState with
          | Some should =>
              match should desired with
              | inr e => Ret (Some e)
              | inl false => Ret None
              | inl true =>
                  let! e := rask (RDelete current None) in
                  Ret match e with Some e => wrapR "failed to delete resource" e | None => None end
              end
          | None =>
              let! e := rask (RDelete current None) in
              Ret match e with Some e => wrapR "failed to delete resource" e | None => None end
          end
      end
  end.

(** The metadata of the desired object, with what the current one has besides. *)
Definition mergeCurrent (current desired : RObj) : RObj :=
  let (labels, annotations) :=
    MergeMeta (mkMetaBase (ro_Annotations desired) (ro_Labels desired))
      (ro_Labels current) (ro_Annotations current) in
  let annotations :=
    match ro_Annotations current !! BanzaiCloudManagedComponent with
    | Some _ => annotations
    | None => delete BanzaiCloudManagedComponent annotations
    end in
  ro_set_Labels labels (ro_set_Annotations annotations desired).

(** The update was refused: the object is deleted, and perhaps created again at once. *)
Definition recreate (current desired : RObj) (desiredState : DStateOps)
    : rio (RObj * (option Result * option rerr)) :=
  if op_RecreateImmediately opts then
    let! e := rask (RDelete current (op_RecreatePropagationPolicy opts)) in
    match e with
    | Some e => Ret (desired, (None, wrapR "failed to delete current resource" e))
    | None =>
        let! (desired, (created, _, e)) :=
          CreateIfNotExist (ro_set_ResourceVersion "" desired) (Some desiredState) in
        match e with
        | Some e => Ret (desired, (None, wrapR "failed to recreate resource" e))
        | None =>
            if negb created then Ret (desired, (None, Some (RPlain "resource already exists")))
            else Ret (desired, (None, None))
        end
    end
  else
    let! e := rask (RDelete current (Some Foreground)) in
    match e with
    | Some e => Ret (desired, (None, wrapR "failed to delete current resource" e))
    | None => Ret (desired, (Some (mkResult true (default 0 (op_RecreateRequeueDelay opts))), None))
    end.

Definition updateFailed (current desired : RObj) (desiredState : DStateOps) (e : rerr)
    : rio (RObj * (option Result * option rerr)) :=
  match e with
  | RStatus code reason message =>
      if (code == 422) && (reason == "Invalid") && shouldRecreate opts message then
        if op_EnableRecreateWorkloadOnImmutableFieldChange opts then
          if negb (default (fun _ => false) (op_RecreateEnabledResourceCondition opts) gk) then
            Ret (desired, (None, wrapR "resource type is not allowed to be recreated" e))
          else recreate current desired desiredState
        else Ret (desired, (None, wrapR (op_Help opts) e))
      else Ret (desired, (None, wrapR "updating resource failed" e))
  | _ => Ret (desired, (None, wrapR "updating resource failed" e))
  end.

Definition updateResource (current desired : RObj) (desiredState : DStateOps)
    : rio (RObj * (option Result * option rerr)) :=
  let desired := (SetLastAppliedAnnotation desired).1 in
  let desired := ro_set_ResourceVersion (ro_ResourceVersion current) desired in
  let! r := rask (RUpdate desired) in
  match r with
  | inl desired => Ret (desired, (None, None))
  | inr e => updateFailed current desired desiredState e
  end.

(** The object exists: compare and update it. *)
Definition syncResource (current desired : RObj) (desiredState : DStateOps)
    : rio (RObj * (option Result * option rerr)) :=
  match ro_DeletionTimestamp current with
  | Some _ => Ret (desired, (Some (mkResult false 2), None))
  | None =>
      let desired := mergeCurrent current desired in
      let should := match ds_ShouldUpdate desiredState with
                    | Some should => should current desired
                    | None => inl true
                    end in
      match should with
      | inr e => Ret (desired, (None, Some e))
      | inl false => Ret (desired, (None, None))
      | inl true =>
          let '(current, desired, e) := ds_BeforeUpdate desiredState current desired in
          match e with
          | Some e => Ret (desired, (None, wrapR "failed to get desired state dynamically" e))
          | None =>
              match Calculate (default [] (op_PatchCalculateOptions opts)) current desired with
              | Ok patch =>
                  if IsEmpty patch then Ret (desired, (None, None))
                  else updateResource current desired desiredState
              | Err _ => updateResource current desired desiredState
              end
          end
      end
  end.

Definition ReconcileResource_ (desired : RObj) (desiredState : DStateOps)
    : rio (RObj * (option Result * option rerr)) :=
  match ds_state desiredState with
  | Some StateAbsent =>
      let! e := deleteResource_ desired desiredState in
      Ret (desired, (None, match e with
                           | Some e => wrapR "failed to delete resource" e
                           | None => None
                           end))
  | st =>
      let! (desired, (created, current, e)) := CreateIfNotExist desired (Some desiredState) in
      match e with
      | Some e => Ret (desired, (None, wrapR "failed to create resource" e))
      | None =>
          if (created : bool) then Ret (desired, (None, None))
          else match st, current with
               | Some StateCreated, _ => Ret (desired, (None, None))
               | _, Some current => syncResource current desired desiredState
               | _, None => Ret (desired, (None, None))
               end
      end
  end.

End Reconciler.

(** ** What may be asked of the API server *)

Definition rsaw (h : rhist) (q : rreq) (r : rresp q) : Prop := Ev q r ∈ h.

Lemma rsaw_here q (r : rresp q) h : rsaw (Ev q r :: h) q r.
Proof. constructor. Qed.
Lemma rsaw_extends h h' q (r : rresp q) : extends h h' -> rsaw h q r -> rsaw h' q r.
Proof. intros He. by apply extends_elem. Qed.

Section Allowed.
Context `{AN : AnnotationLib} `{PA : Patchers}.
Context (opts : ReconcilerOpts) (gk : GroupKind) (desired : RObj) (s : DesiredState).

Definition read (h : rhist) (current : RObj) : Prop :=
  rsaw h (RGet (ro_Name desired) (ro_Namespace desired)) (inl current).
Definition missing_ (h : rhist) : Prop :=
  exists e, rsaw h (RGet (ro_Name desired) (ro_Namespace desired)) (inr e) /\ RIsNotFound e = true.

(** The desired object as it is sent to replace [current]. *)
Definition replacement (current : RObj) : RObj :=
  ro_set_ResourceVersion (ro_ResourceVersion current)
    (SetLastAppliedAnnotation (mergeCurrent current desired)).1.

(** The two differ, or could not be compared. *)
Definition differs (current : RObj) : Prop :=
  match Calculate (default [] (op_PatchCalculateOptions opts)) current
          (mergeCurrent current desired) with
  | Ok patch => patch <> emptyPatch
  | Err _ => True
  end.

(** The API server has refused the replacement for a field that cannot be changed, and objects
    of this kind may be recreated. *)
Definition refused (h : rhist) (current : RObj) : Prop :=
  exists message,
    rsaw h (RUpdate (replacement current)) (inr (RStatus 422 "Invalid" message)) /\
    shouldRecreate opts message = true /\
    op_EnableRecreateWorkloadOnImmutableFieldChange opts = true /\
    default (fun _ => false) (op_RecreateEnabledResourceCondition opts) gk = true.

Inductive rr_allowed (h : rhist) : rreq -> Prop :=
| ra_get : rr_allowed h (RGet (ro_Name desired) (ro_Namespace desired))
(** A missing object is created as desired. *)
| ra_create :
    s <> StateAbsent -> missing_ h -> rr_allowed h (RCreate (SetLastAppliedAnnotation desired).1)
(** An object that differs, and is not being deleted, is replaced. *)
| ra_update current :
    s = StatePresent -> read h current -> ro_DeletionTimestamp current = None ->
    differs current -> rr_allowed h (RUpdate (replacement current))
(** An object that is not wanted is deleted. *)
| ra_absent current : s = StateAbsent -> read h current -> rr_allowed h (RDelete current None)
(** A refused replacement: the object is deleted, and created again at once or later. *)
| ra_recreate current p :
    s = StatePresent -> read h current -> refused h current ->
    (op_RecreateImmediately opts = false -> p = Some Foreground) ->
    rr_allowed h (RDelete current p)
| ra_again current :
    s = StatePresent -> read h current -> refused h current -> missing_ h ->
    op_RecreateImmediately opts = true ->
    rr_allowed h (RCreate (SetLastAppliedAnnotation
                             (ro_set_ResourceVersion "" (replacement current))).1).

Lemma missing_extends h h' : extends h h' -> missing_ h -> missing_ h'.
Proof. intros He (e & Hs & Hn). exists e. split; [by eapply rsaw_extends|done]. Qed.
Lemma refused_extends h h' c : extends h h' -> refused h c -> refused h' c.
Proof. intros He (m & Hs & Hn). exists m. split; [by eapply rsaw_extends|done]. Qed.

(** [CreateIfNotExist] for an object with the name of the desired one. *)
Lemma wp_CreateIfNotExist o h (Q : rhist -> outcome (RObj * (bool * option RObj * option rerr)) -> Prop) :
  (ro_Name o, ro_Namespace o) = (ro_Name desired, ro_Namespace desired) ->
  (forall h', extends h h' -> missing_ h' -> rr_allowed h' (RCreate (SetLastAppliedAnnotation o).1)) ->
  (forall h' o' c e, extends h h' -> Q h' (Returned (o', (true, c, e)))) ->
  (forall h' o' c e, extends h h' -> (e = None -> o' = o /\ exists x, c = Some x /\ read h' x) ->
     Q h' (Returned (o', (false, c, e)))) ->
  wp (CreateIfNotExist o (Some (StaticDesiredState s))) rr_allowed Q h.
Proof.
  intros [= Hn Hm] Hc Ht Hf. unfold CreateIfNotExist. rewrite Hn, Hm. wp_step; [constructor|].
  destruct r as [current|e].
  - wp_step. apply Hf; [ext|]. intros _. split; [done|]. exists current. split; [done|apply rsaw_here].
  - destruct (RIsNotFound e) eqn:En; cbn [negb]; [|wp_step; apply Hf; [ext|done]].
    cbv zeta. cbn [StaticDesiredState ds_BeforeCreate ds_ShouldCreate].
    wp_step; [apply Hc; [ext|]; exists e; split; [apply rsaw_here|done]|].
    destruct r as [o'|e']; wp_step; [apply Ht; ext|apply Hf; [ext|done]].
Qed.

(** The replacement has the name of the desired object. *)
Lemma SetLastApplied_name o :
  ro_Name (SetLastAppliedAnnotation o).1 = ro_Name o /\
  ro_Namespace (SetLastAppliedAnnotation o).1 = ro_Namespace o.
Proof.
  pose proof (SetLastApplied_keeps o) as H. split.
  - exact (f_equal ro_Name H).
  - exact (f_equal ro_Namespace H).
Qed.

Lemma replacement_name current :
  (ro_Name (replacement current), ro_Namespace (replacement current)) =
  (ro_Name desired, ro_Namespace desired).
Proof.
  unfold replacement. destruct (SetLastApplied_name (mergeCurrent current desired)) as [H1 H2].
  cbn [ro_Name ro_Namespace ro_set_ResourceVersion]. by rewrite H1, H2.
Qed.

Lemma wp_recreate current h :
  s = StatePresent -> read h current -> refused h current ->
  wp (recreate opts current (replacement current) (StaticDesiredState s)) rr_allowed
    (λ _ _, True) h.
Proof.
  intros Hs Hr Hx. unfold recreate. destruct (op_RecreateImmediately opts) eqn:Ei.
  - wp_step; [by apply ra_recreate; rewrite ?Ei|]. destruct r as [e|]; [by wp_step|]. wp_step.
    apply wp_CreateIfNotExist.
    + apply (replacement_name current).
    + intros h' He Hm. apply ra_again; [done|eapply rsaw_extends; [|exact Hr]; ext| |done|done].
      eapply refused_extends; [|exact Hx]; ext.
    + intros h' o' c [e|] He; wp_step; by wp_step.
    + intros h' o' c [e|] He _; wp_step; by wp_step.
  - wp_step; [by apply ra_recreate|]. destruct r; by wp_step.
Qed.

Lemma wp_updateFailed current e h :
  s = StatePresent -> read h current -> rsaw h (RUpdate (replacement current)) (inr e) ->
  wp (updateFailed opts gk current (replacement current) (StaticDesiredState s) e) rr_allowed
    (λ _ _, True) h.
Proof.
  intros Hs Hr He. unfold updateFailed. destruct e as [code reason message| | | |]; try by wp_step.
  destruct ((code == 422) && _ && _) eqn:Ec; [|by wp_step].
  apply andb_prop in Ec as [[Hc Hi]%andb_prop Hm].
  apply bool_decide_eq_true in Hc as ->. apply bool_decide_eq_true in Hi as ->.
  destruct (op_EnableRecreateWorkloadOnImmutableFieldChange opts) eqn:Een; [|by wp_step].
  destruct (default _ _ gk) eqn:Eg; cbn [negb]; [|by wp_step].
  apply wp_recreate; [done|done|]. by exists message.
Qed.

Lemma wp_syncResource current h :
  s = StatePresent -> read h current ->
  wp (syncResource opts gk current desired (StaticDesiredState s)) rr_allowed (λ _ _, True) h.
Proof.
  intros Hs Hr. unfold syncResource. destruct (ro_DeletionTimestamp current) eqn:Ed; [by wp_step|].
  cbv zeta. cbn [StaticDesiredState ds_ShouldUpdate ds_BeforeUpdate].
  assert (differs current -> wp (updateResource opts gk current (mergeCurrent current desired)
    (StaticDesiredState s)) rr_allowed (λ _ _, True) h) as Hu.
  { intros Hd. unfold updateResource. cbv zeta. fold (replacement current).
    wp_step; [by apply ra_update|]. destruct r as [o|e]; [by wp_step|].
    apply wp_updateFailed; [done|eapply rsaw_extends; [|exact Hr]; ext|apply rsaw_here]. }
  unfold differs in Hu. destruct (Calculate _ _ _) as [patch|e]; [|by apply Hu].
  unfold IsEmpty. case_bool_decide; [by wp_step|by apply Hu].
Qed.

Lemma wp_ReconcileResource h :
  wp (ReconcileResource_ opts gk desired (StaticDesiredState s)) rr_allowed (λ _ _, True) h.
Proof.
  unfold ReconcileResource_. cbn [StaticDesiredState ds_state].
  assert (s = StateAbsent \/ s <> StateAbsent) as [->|Hs] by (destruct s; (by left) || by right).
  { wp_step. unfold deleteResource_. wp_step; [constructor|].
    destruct r as [current|e].
    - cbn [StaticDesiredState ds_BeforeDelete ds_ShouldDelete]. wp_step; [apply ra_absent; [done|apply rsaw_here]|].
      destruct r; wp_step; wp_step; by wp_step.
    - destruct e; cbn [RIsNotFound]; repeat (case_match || case_bool_decide); wp_step; wp_step; by wp_step. }
  assert (wp (let! (desired0, (created, current, e)) :=
                CreateIfNotExist desired (Some (StaticDesiredState s)) in
              match e with
              | Some e => Ret (desired0, (None, wrapR "failed to create resource" e))
              | None =>
                  if (created : bool) then Ret (desired0, (None, None))
                  else match Some s, current with
                       | Some StateCreated, _ => Ret (desired0, (None, None))
                       | _, Some current => syncResource opts gk current desired0 (StaticDesiredState s)
                       | _, None => Ret (desired0, (None, None))
                       end
              end) rr_allowed (λ _ _, True) h) as H; [|by destruct s].
  wp_step. apply wp_CreateIfNotExist; [done| | |].
  - intros h' _ Hm. by apply ra_create.
  - intros h' o c [e|] _; wp_step; by wp_step.
  - intros h' o c [e|] He Hok; wp_step; [by wp_step|].
    destruct (Hok eq_refl) as (-> & x & -> & Hr).
    assert (s = StateCreated \/ s = StatePresent) as [Es|Es] by (destruct s; auto; done).
    + rewrite Es. by wp_step.
    + pose proof (wp_syncResource x h' Es Hr) as Hw. rewrite Es in Hw |- *. exact Hw.
Qed.

End Allowed.

(** ** Theorems *)

Section Theorems.
Context `{AN : AnnotationLib} `{PA : Patchers}.

(** C21: what a reconciliation asks of the API server: an object is created only after it was
    found missing and with the desired content; one that exists is replaced only when it is not
    being deleted and differs (or cannot be compared), with the version that was read; it is
    deleted only if the desired state is its absence, or when the replacement was refused for a
    field that cannot change, recreating was enabled and allowed for its kind. *)
Theorem resource_protocol (opts : ReconcilerOpts) (gk : GroupKind) (desired : RObj)
    (s : DesiredState) (w : forall q, rhist -> rresp q) :
  calls_ok (rr_allowed opts gk desired s)
    (run w (ReconcileResource_ opts gk desired (StaticDesiredState s)) []).2.
Proof.
  eapply (wp_sound w); [apply wp_ReconcileResource|done].
Qed.

(** An object in its desired state is only read: the reconciliation returns no requeue
    and no error, and the one request it makes is the read. *)
Theorem in_sync_only_read (opts : ReconcilerOpts) (gk : GroupKind) (desired current : RObj)
    (w : forall q, rhist -> rresp q) :
  w (RGet (ro_Name desired) (ro_Namespace desired)) [] = inl current ->
  ro_DeletionTimestamp current = None ->
  Calculate (default [] (op_PatchCalculateOptions opts)) current (mergeCurrent current desired) =
    Ok emptyPatch ->
  run w (ReconcileResource_ opts gk desired (StaticDesiredState StatePresent)) [] =
    (Returned (mergeCurrent current desired, (None, None)),
     [Ev (RGet (ro_Name desired) (ro_Namespace desired)) (inl current)]).
Proof.
  intros Hw Hd Hc. unfold ReconcileResource_, CreateIfNotExist.
  cbn [StaticDesiredState ds_state]. rewrite !run_bind. unfold call at 1. cbn [run].
  cbv zeta. rewrite Hw. cbn [run].
  unfold syncResource. rewrite Hd. cbv zeta.
  cbn [StaticDesiredState ds_ShouldUpdate ds_BeforeUpdate]. by rewrite Hc.
Qed.

(** Metadata others have put on an object survive its replacement: the replacement has
    the labels of both, with the desired value where both have one, likewise the annotations
    but for the two the operator handles itself, the version that was read, and the other
    fields as desired. *)
Theorem replacement_keeps_metadata (desired current : RObj) (k : string) :
  k <> LastAppliedConfig -> k <> BanzaiCloudManagedComponent ->
  let sent := replacement desired current in
  ro_Labels sent = ro_Labels desired ∪ ro_Labels current /\
  ro_Annotations sent !! k = (ro_Annotations desired ∪ ro_Annotations current) !! k /\
  ro_ResourceVersion sent = ro_ResourceVersion current /\ ro_Fields sent = ro_Fields desired.
Proof.
  intros Hk Hb. cbv zeta. unfold replacement.
  pose proof (SetLastApplied_keeps (mergeCurrent current desired)) as H.
  split_and!; [exact (f_equal ro_Labels H)| |done|exact (f_equal ro_Fields H)].
  pose proof (f_equal (λ o, ro_Annotations o !! k) H) as Ha. cbn in Ha.
  rewrite !lookup_delete_ne in Ha by done. cbn. rewrite Ha.
  destruct (ro_Annotations current !! BanzaiCloudManagedComponent); [done|].
  by rewrite lookup_delete_ne.
Qed.

End Theorems.

Module Samples.
Import Patch.Samples.

(** A patch is the wanted document, unless it is the current one. *)
Definition plainPatch (modified current : json) : result json :=
  Ok (if decide (modified = current) then emptyPatch else modified).
#[export] Instance patchers : Patchers :=
  {| CreateThreeWayMergePatch := fun _ m c _ => plainPatch m c;
     StrategicMergePatch := fun _ p _ => Ok p;
     CreateTwoWayMergePatch := fun c p _ => plainPatch p c;
     CreateThreeWayJSONMergePatch := fun _ m c => plainPatch m c;
     MergePatch := fun _ p => Ok p;
     CreateMergePatch := fun c p => plainPatch p c |}.

Definition stored : RObj := (SetLastAppliedAnnotation an_object).1.
Definition serving (q : rreq) (h : rhist) : rresp q :=
  match q with
  | RGet _ _ => inl stored
  | RCreate o | RUpdate o => inl o
  | RDelete _ _ => None
  end.

Lemma in_sync_only_read_witness :
  run serving (ReconcileResource_ (NewReconcilerWith []) (mkGK "" "ConfigMap") an_object
                 (StaticDesiredState StatePresent)) [] =
    (Returned (mergeCurrent stored an_object, (None, None)), [Ev (RGet "config" "ns") (inl stored)]).
Proof.
  apply (in_sync_only_read (NewReconcilerWith []) (mkGK "" "ConfigMap") an_object stored serving);
    by vm_compute.
Defined.

Definition labelled : RObj :=
  mkRObj "config" "ns" "9" None {["team" := "ops"; "owner" := "x"]} {["note" := "1"]} false [].
Lemma replacement_keeps_metadata_witness :
  ro_Annotations (replacement an_object labelled) !! "note" = Some "1" /\
  ro_Labels (replacement an_object labelled) !! "team" = Some "search" /\
  ro_Labels (replacement an_object labelled) !! "owner" = Some "x".
Proof.
  destruct (replacement_keeps_metadata an_object labelled "note") as (Hl & Ha & _);
    [by vm_compute|by vm_compute|]. rewrite Hl, Ha.
  split_and!; reflexivity.
Defined.

End Samples.
