(* ===== verification/Tls.v ===== *)
(** * Tls: the certificates of a cluster

    Models [pkg/reconcilers/tls.go], [ReadOrGenerateCaCert] of [pkg/reconcilers/util/util.go] and
    the data of [pkg/tls/pki.go].  Generating and signing are requests ([NewCA],
    [SignCertificate]) whose answers are arbitrary, the programs behind them are in [Pki]; parsing
    a certificate is a parameter.  The reconciler is built without an event recorder, so recording
    an event is a nil dereference. *)

From S2P Require Import Prelude Prog Resources Api K8sClient Helpers RContext.

(** ** Certificates *)

(** The standard library: the first PEM block of a text, and the fields of a certificate that the
    code reads; times are in nanoseconds. *)
Record X509Cert := mkX509 { x_NotAfter : Z; x_RawIssuer : string; x_RawSubject : string }.
Class X509Lib := {
  pemDecode : string -> option string;
  ParseCertificate : string -> result X509Cert }.

Definition hour : Z := 3600 * 1000000000.
Definition aYear : Z := 365 * 24 * hour.

Definition SecretDataCA (ca : PEMCert) : gmap string string :=
  {["ca.crt" := certBytes ca; "ca.key" := keyBytes ca]}.
Definition SecretData (cert ca : PEMCert) : gmap string string :=
  {["tls.crt" := certBytes cert; "tls.key" := keyBytes cert; "ca.crt" := certBytes ca]}.
Definition CAFromSecret (data : gmap string string) : PEMCert :=
  mkPEM (default "" (data !! "ca.crt")) (default "" (data !! "ca.key")).

Definition newCA (name : string) : io (result PEMCert) := ask (Local_ (NewCA name)).
Definition signCertificate (ca : PEMCert) (commonName orgUnit : string)
    (dnsnames : list string) (validity : Z) : io (result PEMCert) :=
  let validity := if bool_decide (validity <= 0) then aYear else validity in
  ask (Local_ (SignCertificate ca commonName orgUnit dnsnames validity)).

Definition nilPointer : string :=
  "runtime error: invalid memory address or nil pointer dereference".

Section Certificates.
Context `{XL : X509Lib}.

(** [pem.Decode] answers nil for a text without a block, which is dereferenced. *)
Definition NewCertValidater (pemData : string) : io (result X509Cert) :=
  match pemDecode pemData with
  | None => Panic nilPointer
  | Some der => Ret (ParseCertificate der)
  end.

Definition IsExpiringSoon (expiryThreshold : Z) (cert : X509Cert) : io bool :=
  let! now := ask (Local_ TimeNow) in
  Ret (bool_decide (x_NotAfter cert - expiryThreshold < now)).

Definition IsSignedByCA (cert : X509Cert) (ca : PEMCert) : io (result bool) :=
  let! r := NewCertValidater (certBytes ca) in
  Ret match r with
      | Err e => Err e
      | Ok caCert => Ok (x_RawIssuer cert == x_RawSubject caCert)
      end.

(** The conversion of a duration to hours as a floating-point number is taken to be exact. *)
Definition saturate (d : Z) : Z := Z.max (- 2 ^ 63) (Z.min d (2 ^ 63 - 1)).
Definition getDaysRemainingFromCertificate (data : string) : io (result Z) :=
  match pemDecode data with
  | None => Ret (Err (OtherErr "failed to decode valid PEM from provided certificate data"))
  | Some der =>
      match ParseCertificate der with
      | Err e => Ret (Err e)
      | Ok cert =>
          let! now := ask (Local_ TimeNow) in
          Ret (Ok (Z.quot (saturate (x_NotAfter cert - now)) (24 * hour)))
      end
  end.

End Certificates.

(** ** The reconciler *)

Inductive certContextType := CertContextTransport | CertContextHttp.
Record certDescription := mkCertDescription {
  cd_certContext : certContextType;
  cd_commonName : string;
  cd_dnsNames : list string }.

Definition CaCertKey : string := "ca.crt".
Definition TLSCertKey : string := "tls.crt".
Definition TLSPrivateKeyKey : string := "tls.key".
Definition SecretTypeTLS : string := "kubernetes.io/tls".

Definition DiscoveryServiceName (cr : OpenSearchCluster) : string := cl_Name cr +:+ "-discovery".
Definition BootstrapPodName (cr : OpenSearchCluster) : string := cl_Name cr +:+ "-bootstrap-0".

Definition contextSide (instance : OpenSearchCluster) (c : certContextType) : option TlsSide :=
  match cluster_tls instance with
  | None => None
  | Some t => match c with CertContextTransport => tls_Transport t | CertContextHttp => tls_Http t end
  end.

Definition resolveCertDuration (instance : OpenSearchCluster) (c : certContextType) : Z :=
  match contextSide instance c with
  | Some side => default aYear (tl_Duration side)
  | None => aYear
  end.
Definition resolveTransportCertDuration (instance : OpenSearchCluster) : Z :=
  resolveCertDuration instance CertContextTransport.
Definition resolveHttpCertDuration (instance : OpenSearchCluster) : Z :=
  resolveCertDuration instance CertContextHttp.

Definition setData (data : gmap string string) (s : Secret) : Secret :=
  mkSecret (secret_Name s) (secret_Namespace s) (secret_Annotations s) data
    (secret_StringData s) (secret_ResourceVersion s) (secret_Type s) (secret_OwnerReferences s).

Section Reconciler.
Context `{SV : Semver} `{PE : ProcEnv} `{XL : X509Lib} `{CL : CtrlLib}.
Context (instance : OpenSearchCluster).

#[local] Abbreviation namespace := (cl_Namespace instance).
#[local] Abbreviation clusterName := (cl_Name instance).

(** A new secret of the cluster. *)
Definition ownedSecret (name type_ : string) (data : gmap string string) : result Secret :=
  match SetControllerReference clusterName (cl_UID instance) [] with
  | Err e => Err e
  | Ok refs => Ok (mkSecret name namespace ∅ data ∅ "" type_ refs)
  end.

Definition ReadOrGenerateCaCert : io (result PEMCert) :=
  let secretName := clusterName +:+ "-ca" in
  let! r := GetSecret secretName namespace in
  match r with
  | Ok caSecret => Ret (Ok (CAFromSecret (secret_Data caSecret)))
  | Err _ =>
      let! r := newCA clusterName in
      match r with
      | Err e => Ret (Err e)
      | Ok ca =>
          match ownedSecret secretName "" (SecretDataCA ca) with
          | Err e => Ret (Err e)
          | Ok caSecret =>
              let! (_, (_, e)) := CreateSecret caSecret in
              Ret match e with Some e => Err e | None => Ok ca end
          end
      end
  end.

Definition getReferencedCaCertOrDefault (secretReference : string) : io (result PEMCert) :=
  if secretReference == "" then ReadOrGenerateCaCert
  else
    let! r := GetSecret secretReference namespace in
    Ret match r with
        | Err e => Err e
        | Ok caSecret =>
            let data := secret_Data caSecret in
            Ok (CAFromSecret
                  match secret_Annotations caSecret !! "cert-manager.io/issuer-kind" with
                  | Some _ => {["ca.crt" := default "" (data !! "tls.crt");
                                "ca.key" := default "" (data !! "tls.key")]}
                  | None => data
                  end)
        end.

Definition certShouldBeRenewed (cd : certDescription) (existingCertData : string) : io bool :=
  let! side := deref (contextSide instance (cd_certContext cd)) in
  let renewBeforeExpirationDays := tl_RotateDaysBeforeExpiry side in
  let! r := getDaysRemainingFromCertificate existingCertData in
  Ret match r with
      | Err _ => false
      | Ok daysRemaining =>
          bool_decide (0 < renewBeforeExpirationDays) &&
          bool_decide (daysRemaining < renewBeforeExpirationDays)
      end.

Definition generateNewCertIfNeeded (ca : PEMCert) (cd : certDescription)
    (existingCertData : option string) : io (result (option PEMCert)) :=
  let! keep := match existingCertData with
               | None => Ret false
               | Some data => let! b := certShouldBeRenewed cd data in Ret (negb b)
               end in
  if (keep : bool) then Ret (Ok None)
  else
    let certDuration := resolveCertDuration instance (cd_certContext cd) in
    let! r := signCertificate ca (cd_commonName cd) clusterName (cd_dnsNames cd)
                certDuration in
    Ret match r with Err e => Err e | Ok nodeCert => Ok (Some nodeCert) end.

(** *** One certificate per node *)

Definition podDnsNames (podName : string) : list string :=
  [podName; clusterName; DiscoveryServiceName instance;
   podName +:+ "." +:+ clusterName;
   clusterName +:+ "." +:+ namespace;
   podName +:+ "." +:+ clusterName +:+ "." +:+ namespace;
   clusterName +:+ "." +:+ namespace +:+ ".svc";
   podName +:+ "." +:+ clusterName +:+ "." +:+ namespace +:+ ".svc";
   clusterName +:+ "." +:+ namespace +:+ ".svc." +:+ ClusterDnsBase;
   podName +:+ "." +:+ clusterName +:+ "." +:+ namespace +:+ ".svc." +:+ ClusterDnsBase].

Definition crt (podName : string) : string := podName +:+ ".crt".
Definition key (podName : string) : string := podName +:+ ".key".
Definition putCert (podName : string) (cert : PEMCert) (data : gmap string string)
    : gmap string string :=
  <[key podName := keyBytes cert]> (<[crt podName := certBytes cert]> data).

Definition generateBootstrapCertIfNeeded (ca : PEMCert) (data : gmap string string)
    : io (result (gmap string string)) :=
  let bootstrapPodName := BootstrapPodName instance in
  if negb (st_Initialized (cl_Status instance)) &&
     (bool_decide (data !! crt bootstrapPodName = None) ||
      bool_decide (data !! key bootstrapPodName = None)) then
    let! r := signCertificate ca bootstrapPodName clusterName
                (podDnsNames bootstrapPodName) (resolveTransportCertDuration instance) in
    Ret match r with Err e => Err e | Ok nodeCert => Ok (putCert bootstrapPodName nodeCert data) end
  else Ret (Ok data).

Definition podNames : list string :=
  flat_map (fun nodePool =>
    map (fun i => clusterName +:+ "-" +:+ np_Component nodePool +:+ "-" +:+ Itoa (Z.of_nat i))
      (seq 0 (Z.to_nat (np_Replicas nodePool)))) (sp_NodePools (cl_Spec instance)).

(** What a worker is started with: a certificate without its key does not count. *)
Definition existingCert (data : gmap string string) (podName : string) : option string :=
  match data !! crt podName with
  | Some cert => match data !! key podName with Some _ => Some cert | None => None end
  | None => None
  end.

(** A worker writes under the mutex; the group remembers the first error. *)
Definition workerDone (podName : string) (r : result (option PEMCert))
    (st : gmap string string * option err) : gmap string string * option err :=
  match r with
  | Ok (Some newCertData) => (putCert podName newCertData st.1, st.2)
  | Ok None => st
  | Err e => (st.1, match st.2 with Some e0 => Some e0 | None => Some e end)
  end.

(** The workers run one after the other here; [TlsWorkers] shows that every schedule of
    the error group ends with the same secret. *)
Definition nodeWorker (ca : PEMCert) (podName : string) (st : gmap string string * option err)
    : io ((gmap string string * option err) + unit) :=
  let! r := generateNewCertIfNeeded ca
              (mkCertDescription CertContextTransport podName (podDnsNames podName))
              (existingCert st.1 podName) in
  Ret (inl (workerDone podName r st)).

Definition generatePerNode (ca : PEMCert) (data : gmap string string)
    : io (result (gmap string string)) :=
  let data := <[CaCertKey := certBytes ca]> data in
  let! r := generateBootstrapCertIfNeeded ca data in
  match r with
  | Err e => Ret (Err e)
  | Ok data =>
      let! r := for_range podNames (data, None) (nodeWorker ca) in
      Ret match r with
          | inl (data, None) => Ok data
          | inl (_, Some e) => Err e
          | inr _ => Ok data
          end
  end.

(** One certificate for the cluster. *)
Definition generateGlobal (ca : PEMCert) (cd : certDescription) (data : gmap string string)
    : io (result (gmap string string)) :=
  let! r := generateNewCertIfNeeded ca cd (data !! TLSCertKey) in
  Ret match r with
      | Err e => Err e
      | Ok None => Ok data
      | Ok (Some newCertData) => Ok (SecretData newCertData ca)
      end.

(** The secret as it is, or a new one. *)
Definition fetchOrNew (name type_ : string) : io (result Secret) :=
  let! r := GetSecret name namespace in
  Ret match r with
      | Ok s => Ok s
      | Err e => if negb (IsNotFound e) then Err e else ownedSecret name type_ ∅
      end.

(** *** The settings *)

Definition transportSetting (name : string) : string := "plugins.security.ssl.transport." +:+ name.
Definition httpSetting (name : string) : string := "plugins.security.ssl.http." +:+ name.
Definition hotReload : string * string :=
  ("plugins.security.ssl.certificates_hot_reload.enabled", "true").
(** [fmt.Sprintf] with a list in brackets and quotes. *)
Definition quotedList (l : list string) : string :=
  "[" +:+ Quote (JoinWith l (Quote ",")) +:+ "]".

(** [certDir] is the directory of the certificate, [caDir] that of the CA. *)
Definition pemSettings (setting : string -> string) (certDir caDir : string)
    : list (string * string) :=
  [(setting "pemcert_filepath", certDir +:+ "/" +:+ TLSCertKey);
   (setting "pemkey_filepath", certDir +:+ "/" +:+ TLSPrivateKeyKey);
   (setting "pemtrustedcas_filepath", caDir +:+ "/" +:+ CaCertKey)].
Definition perNodeSettings : list (string * string) :=
  [(transportSetting "pemcert_filepath", "tls-transport/${HOSTNAME}.crt");
   (transportSetting "pemkey_filepath", "tls-transport/${HOSTNAME}.key");
   (transportSetting "enforce_hostname_verification", "true")].

Definition home : string := GetOpenSearchHome (sp_General (cl_Spec instance)).

Definition mountFolder (interfaceName name secretName : string) (c : ReconcilerContext)
    : ReconcilerContext :=
  let mountPath := if name == "ca" then home +:+ "/config/tls-" +:+ interfaceName +:+ "-ca"
                   else home +:+ "/config/tls-" +:+ interfaceName in
  rc_mount (mkVolume (interfaceName +:+ "-" +:+ name) (VolSecret secretName))
    (mkMount (interfaceName +:+ "-" +:+ name) false mountPath "") c.

(** Existing certificates: one secret, or a second one with the CA. *)
Definition mountExisting (interfaceName : string) (side : TlsSide) (c : ReconcilerContext)
    : ReconcilerContext :=
  if tl_CaSecret side == "" then mountFolder interfaceName "certs" (tl_Secret side) c
  else if tl_CaSecret side == tl_Secret side then
    mountFolder interfaceName "certs" (tl_Secret side) c
  else mountFolder interfaceName "ca" (tl_CaSecret side)
         (mountFolder interfaceName "certs" (tl_Secret side) c).
Definition singleSecret (side : TlsSide) : bool :=
  (tl_CaSecret side == "") || (tl_CaSecret side == tl_Secret side).

Definition addHotReload (side : TlsSide) (c : ReconcilerContext) : io ReconcilerContext :=
  if tl_EnableHotReload side then
    let! b := SupportsHotReload instance in
    if (b : bool) then AddConfigs [hotReload] c else Ret c
  else Ret c.

(** The secret is stored, and mounted as [volume]. *)
Definition storeAndMount (nodeSecretName : string) (nodeSecret : Secret)
    (volume mountPath : string) (c : ReconcilerContext) : io (ReconcilerContext * option err) :=
  let! (_, (_, e)) := CreateSecret nodeSecret in
  match e with
  | Some e => Ret (c, Some e)
  | None => Ret (rc_mount (mkVolume volume (VolSecret nodeSecretName))
                   (mkMount volume false mountPath "") c, None)
  end.

(** *** The transport layer *)

Definition transportCert : string := clusterName +:+ "-transport-cert".
Definition httpCert : string := clusterName +:+ "-http-cert".
Definition adminSecretName : string := clusterName +:+ "-admin-cert".

Definition transportDescription : certDescription :=
  mkCertDescription CertContextTransport clusterName
    [clusterName; clusterName +:+ "." +:+ namespace; clusterName +:+ "." +:+ namespace +:+ ".svc";
     clusterName +:+ "." +:+ namespace +:+ ".svc." +:+ ClusterDnsBase].

(** The end of [handleTransportGenerate]: the secret is stored, mounted and configured. *)
Definition storeTransport (config : TlsSide) (nodeSecret : Secret) (c : ReconcilerContext)
    : io (ReconcilerContext * option err) :=
  let! (c, e) := storeAndMount transportCert nodeSecret "transport-cert"
                   (home +:+ "/config/tls-transport") c in
  match e with
  | Some e => Ret (c, Some e)
  | None =>
      let nodes_dn := if tl_PerNode config then "CN=" +:+ clusterName +:+ "-*,OU=" +:+ clusterName
                      else "CN=" +:+ clusterName +:+ ",OU=" +:+ clusterName in
      let! c := AddConfigs
        (("plugins.security.nodes_dn", quotedList [nodes_dn]) ::
         (if tl_PerNode config then perNodeSettings
          else [(transportSetting "pemcert_filepath", "tls-transport/" +:+ TLSCertKey);
                (transportSetting "pemkey_filepath", "tls-transport/" +:+ TLSPrivateKeyKey);
                (transportSetting "enforce_hostname_verification", "false")]) ++
         [(transportSetting "pemtrustedcas_filepath", "tls-transport/" +:+ CaCertKey)]) c in
      Ret (c, None)
  end.

Definition handleTransportGenerate (config : TlsSide) (c : ReconcilerContext)
    : io (ReconcilerContext * option err) :=
  let! r := getReferencedCaCertOrDefault (tl_CaSecret config) in
  match r with
  | Err e => Ret (c, Some e)
  | Ok ca =>
      let! r := fetchOrNew transportCert (if tl_PerNode config then "" else SecretTypeTLS) in
      match r with
      | Err e => Ret (c, Some e)
      | Ok nodeSecret =>
          let! r := if tl_PerNode config then generatePerNode ca (secret_Data nodeSecret)
                    else generateGlobal ca transportDescription (secret_Data nodeSecret) in
          match r with
          | Err e => Ret (c, Some e)
          | Ok data => storeTransport config (setData data nodeSecret) c
          end
      end
  end.

Definition handleTransportExistingCerts (tlsConfig : TlsSide) (c : ReconcilerContext)
    : io (ReconcilerContext * option err) :=
  if tl_Secret tlsConfig == "" then Ret (c, Some (OtherErr "missing secret in spec"))
  else
    let! c :=
      if tl_PerNode tlsConfig then
        AddConfigs perNodeSettings (mountFolder "transport" "certs" (tl_Secret tlsConfig) c)
      else
        let c := mountExisting "transport" tlsConfig c in
        let! c := AddConfigs
          (pemSettings transportSetting "tls-transport"
             (if singleSecret tlsConfig then "tls-transport" else "tls-transport-ca") ++
           [(transportSetting "enforce_hostname_verification", "false")]) c in
        addHotReload tlsConfig c in
    let! c := AddConfigs [("plugins.security.nodes_dn", quotedList (tl_NodesDn tlsConfig))] c in
    Ret (c, None).

Definition handleTransport (config : TlsSide) (c : ReconcilerContext)
    : io (ReconcilerContext * option err) :=
  if tl_Generate config then handleTransportGenerate config c
  else handleTransportExistingCerts config c.

(** *** The HTTP layer *)

Definition httpDescription (config : TlsSide) : certDescription :=
  let dnsNames :=
    [clusterName; g_ServiceName (sp_General (cl_Spec instance)); DiscoveryServiceName instance;
     clusterName +:+ "." +:+ namespace; clusterName +:+ "." +:+ namespace +:+ ".svc";
     clusterName +:+ "." +:+ namespace +:+ ".svc." +:+ ClusterDnsBase] in
  mkCertDescription CertContextHttp clusterName
    match tl_CustomFQDN config with
    | Some fqdn => if fqdn == "" then dnsNames else fqdn :: dnsNames
    | None => dnsNames
    end.

Definition provideHttp (tlsConfig : TlsSide) (c : ReconcilerContext)
    : io (ReconcilerContext * option err) :=
  if tl_Generate tlsConfig then
    let! r := getReferencedCaCertOrDefault (tl_CaSecret tlsConfig) in
    match r with
    | Err e => Ret (c, Some e)
    | Ok ca =>
        let! r := fetchOrNew httpCert SecretTypeTLS in
        match r with
        | Err e => Ret (c, Some e)
        | Ok nodeSecret =>
            let! r := generateGlobal ca (httpDescription tlsConfig) (secret_Data nodeSecret) in
            match r with
            | Err e => Ret (c, Some e)
            | Ok data =>
                storeAndMount httpCert (setData data nodeSecret) "http-cert"
                  (home +:+ "/config/tls-http") c
            end
        end
    end
  else if tl_Secret tlsConfig == "" then Ret (c, Some (OtherErr "missing secret in spec"))
  else Ret (mountExisting "http" tlsConfig c, None).

Definition handleHttp (tlsConfig : TlsSide) (c : ReconcilerContext)
    : io (ReconcilerContext * option err) :=
  let! (c, e) := provideHttp tlsConfig c in
  match e with
  | Some e => Ret (c, Some e)
  | None =>
      let! c := AddConfigs
        ((httpSetting "enabled", "true") ::
         pemSettings httpSetting "tls-http"
           (if tl_Generate tlsConfig || singleSecret tlsConfig then "tls-http" else "tls-http-ca")) c in
      let! c := addHotReload tlsConfig c in
      Ret (c, None)
  end.

(** *** The admin certificate *)

Definition shouldCreateAdminCert (ca : PEMCert) : io (result bool) :=
  let! r := GetSecret adminSecretName namespace in
  match r with
  | Err e => Ret (if IsNotFound e then Ok true else Err e)
  | Ok secret =>
      match secret_Data secret !! TLSCertKey with
      | None => Ret (Ok true)
      | Some data =>
          let! r := NewCertValidater data in
          match r with
          | Err e => Ret (Err e)
          | Ok cert =>
              let! soon := IsExpiringSoon (5 * 24 * hour) cert in
              if (soon : bool) then Ret (Ok true)
              else
                let! r := IsSignedByCA cert ca in
                Ret match r with Err e => Err e | Ok verified => Ok (negb verified) end
          end
      end
  end.

Definition createAdminSecret (ca : PEMCert) : io (result (option Result)) :=
  let! r := shouldCreateAdminCert ca in
  match r with
  | Err e => Ret (Err (Wrapped "failed to determine if admin cert should be created: " e))
  | Ok false => Ret (Ok None)
  | Ok true =>
      let! r := signCertificate ca "admin" clusterName [] (resolveTransportCertDuration instance) in
      match r with
      | Err _ => Panic nilPointer
      | Ok adminCert =>
          match ownedSecret adminSecretName SecretTypeTLS (SecretData adminCert ca) with
          | Err e => Ret (Err e)
          | Ok adminSecret =>
              let! (_, (res, e)) := CreateSecret adminSecret in
              Ret match e with Some e => Err e | None => Ok res end
          end
      end
  end.

(** No certificate of the administrator is given. *)
Definition generatesAdmin : bool :=
  match sp_Security (cl_Spec instance) with
  | Some s => match sec_Config s with
              | Some config => sc_AdminSecret config == ""
              | None => true
              end
  | None => true
  end.

(** The two branches on the version differ in the side with the distinguished names. *)
Definition handleAdminCertificate (c : ReconcilerContext)
    : io (ReconcilerContext * result (option Result)) :=
  let! changed := SecurityChangeVersion instance in
  if generatesAdmin then
    let! ref := TlsCASecretRef instance in
    let! r := getReferencedCaCertOrDefault ref in
    match r with
    | Err e => Ret (c, Err e)
    | Ok ca =>
        let! r := createAdminSecret ca in
        match r with
        | Err e => Ret (c, Err e)
        | Ok res =>
            let! c := AddConfigs [("plugins.security.authcz.admin_dn",
                                   quotedList ["CN=admin,OU=" +:+ clusterName])] c in
            Ret (c, Ok res)
        end
    end
  else
    let! side := deref (contextSide instance
                          (if (changed : bool) then CertContextHttp else CertContextTransport)) in
    let! c := AddConfigs [("plugins.security.authcz.admin_dn", quotedList (tl_AdminDn side))] c in
    Ret (c, Ok None).

Definition TLSReconcile (c : ReconcilerContext) : io (ReconcilerContext * (Result * option err)) :=
  match cluster_tls instance with
  | None => Ret (c, (noResult, None))
  | Some tlsConfig =>
      let! (c, e) := if tls_side_enabled (tls_Transport tlsConfig) then
                       let! config := deref (tls_Transport tlsConfig) in handleTransport config c
                     else Ret (c, None) in
      match e with
      | Some e => Ret (c, (noResult, Some e))
      | None =>
          let! (c, e) := if tls_side_enabled (tls_Http tlsConfig) then
                           let! config := deref (tls_Http tlsConfig) in handleHttp config c
                         else let! c := AddConfig (httpSetting "enabled") "false" c in Ret (c, None) in
          match e with
          | Some e => Ret (c, (noResult, Some e))
          | None =>
              let! enabled := IsSecurityPluginEnabled instance in
              if (enabled : bool) then
                let! (c, r) := handleAdminCertificate c in
                Ret (c, match r with
                        | Ok res => (default noResult res, None)
                        | Err e => (noResult, Some e)
                        end)
              else Ret (c, (noResult, None))
          end
      end
  end.

End Reconciler.

(** ** What a certificate may replace *)

Section Guards.
Context `{SV : Semver} `{PE : ProcEnv} `{XL : X509Lib} `{CL : CtrlLib}.
Context (instance : OpenSearchCluster).

(** [cert] was signed by [ca] as it is described, for the configured duration. *)
Definition signed (h : ohist) (ca : PEMCert) (cd : certDescription) (cert : PEMCert) : Prop :=
  let v := resolveCertDuration instance (cd_certContext cd) in
  saw h (Local_ (SignCertificate ca (cd_commonName cd) (cl_Name instance) (cd_dnsNames cd)
                   (if bool_decide (v <= 0) then aYear else v))) (Ok cert).

(** The certificate [data] is to be rotated: it is readable, rotation is on, and fewer days than
    configured were left at a time that was read. *)
Definition due (h : ohist) (ctx : certContextType) (data : string) : Prop :=
  exists side der cert now,
    contextSide instance ctx = Some side /\ pemDecode data = Some der /\
    ParseCertificate der = Ok cert /\ saw h (Local_ TimeNow) now /\
    0 < tl_RotateDaysBeforeExpiry side /\
    Z.quot (saturate (x_NotAfter cert - now)) (24 * hour) < tl_RotateDaysBeforeExpiry side.

(** The certificate [data] stays: it is not readable, rotation is off, or at least the configured
    days were left at a time that was read. *)
Definition kept (h : ohist) (ctx : certContextType) (data : string) : Prop :=
  exists side, contextSide instance ctx = Some side /\
    (pemDecode data = None \/
     exists der, pemDecode data = Some der /\
       ((exists e, ParseCertificate der = Err e) \/
        exists cert now, ParseCertificate der = Ok cert /\ saw h (Local_ TimeNow) now /\
          (tl_RotateDaysBeforeExpiry side <= 0 \/
           tl_RotateDaysBeforeExpiry side <= Z.quot (saturate (x_NotAfter cert - now)) (24 * hour)))).

Lemma signed_extends h h' ca cd cert : extends h h' -> signed h ca cd cert -> signed h' ca cd cert.
Proof. intros He. by apply saw_extends. Qed.
Lemma kept_extends h h' ctx data : extends h h' -> kept h ctx data -> kept h' ctx data.
Proof.
  intros He (side & Hs & [?|(der & Hd & [?|(cert & now & H1 & H2 & H3)])]); exists side; (split; [done|]);
    [by left|right; exists der; split; [done|]..]; [by left|right].
  exists cert, now. split_and!; [done|by eapply saw_extends|done].
Qed.
Lemma due_extends h h' ctx data : extends h h' -> due h ctx data -> due h' ctx data.
Proof.
  intros He (side & der & cert & now & H1 & H2 & H3 & H4 & H5).
  exists side, der, cert, now. split_and!; try done; [by eapply saw_extends|apply H5..].
Qed.

(** Nothing but reads (the time and the signer among them), whatever the outcome. *)
Definition reading (P : ohist -> req -> Prop) (h : ohist) : Prop :=
  forall h' q, extends h h' -> reads q -> P h' q.

(** Steps over returned values. *)
Ltac settle := repeat (cbn [negb]; wp_step).

Lemma wp_generateNewCertIfNeeded ca cd ex P (Q : ohist -> outcome (result (option PEMCert)) -> Prop) h :
  reading P h ->
  (forall h' m, extends h h' -> Q h' (Panicked m)) ->
  (forall h' e, extends h h' -> Q h' (Returned (Err e))) ->
  (forall h' d, extends h h' -> ex = Some d -> kept h' (cd_certContext cd) d -> Q h' (Returned (Ok None))) ->
  (forall h' cert, extends h h' -> signed h' ca cd cert ->
     (ex = None \/ exists d, ex = Some d /\ due h' (cd_certContext cd) d) ->
     Q h' (Returned (Ok (Some cert)))) ->
  wp (generateNewCertIfNeeded instance ca cd ex) P Q h.
Proof.
  intros HP Hm He Hn Hs. unfold generateNewCertIfNeeded, signCertificate.
  assert (forall h1, extends h h1 -> (ex = None \/ exists d, ex = Some d /\ due h1 (cd_certContext cd) d) ->
    let v := resolveCertDuration instance (cd_certContext cd) in
    wp (let! r := ask (Local_ (SignCertificate ca (cd_commonName cd) (cl_Name instance)
                  (cd_dnsNames cd) (if bool_decide (v <= 0) then aYear else v))) in
        Ret match r with Err e => Err e | Ok nodeCert => Ok (Some nodeCert) end) P Q h1) as Hsign.
  { intros h1 H1 Hd v. wp_step; [by apply HP|]. destruct r as [cert|e]; wp_step; [|apply He; ext].
    apply Hs; [ext|apply saw_here|]. destruct Hd as [?|(d & ? & ?)]; [by left|right].
    exists d. split; [done|]. eapply due_extends; [|done]. ext. }
  destruct ex as [data|]; [|wp_step; wp_step; apply Hsign; [ext|by left]].
  unfold certShouldBeRenewed, getDaysRemainingFromCertificate. wp_step. wp_step. wp_step.
  apply wp_deref; [|intros m _; apply Hm; ext]. intros side Hside. wp_step.
  destruct (pemDecode data) as [der|] eqn:Ed.
  2:{ settle. eapply Hn; [ext|done|]. exists side. split; [done|by left]. }
  destruct (ParseCertificate der) as [cert|e] eqn:Ec.
  2:{ settle. eapply Hn; [ext|done|]. exists side. split; [done|right]. exists der. split; [done|left; by exists e]. }
  wp_step. wp_step; [by apply HP|]. do 4 wp_step.
  destruct (bool_decide (0 < _) && bool_decide (_ < _)) eqn:Er.
  2:{ settle. eapply Hn; [ext|done|]. exists side. split; [done|right]. exists der. split; [done|right].
      exists cert, r. split_and!; [done|apply saw_here|]. apply andb_false_iff in Er as [Er|Er];
        apply bool_decide_eq_false in Er; lia. }
  apply andb_prop in Er as [Er1%bool_decide_eq_true Er2%bool_decide_eq_true].
  wp_step. wp_step. apply Hsign; [ext|]. right. exists data. split; [done|].
  exists side, der, cert, r. split_and!; try done. apply saw_here.
Qed.

(** *** The secret with one certificate per node *)

Lemma crt_inj p q : crt p = crt q -> p = q.
Proof. by intros [? _]%str_app_inj. Qed.
Lemma key_inj p q : key p = key q -> p = q.
Proof. by intros [? _]%str_app_inj. Qed.
Lemma crt_key p q : crt p <> key q.
Proof. by intros [_ ?]%str_app_inj. Qed.

Lemma putCert_self p cert data :
  putCert p cert data !! crt p = Some (certBytes cert) /\
  putCert p cert data !! key p = Some (keyBytes cert).
Proof.
  unfold putCert. rewrite lookup_insert_ne by (intros H; by eapply crt_key).
  by rewrite !lookup_insert_eq.
Qed.
Lemma putCert_ne p cert data k :
  k <> crt p -> k <> key p -> putCert p cert data !! k = data !! k.
Proof. intros H1 H2. unfold putCert. by rewrite !lookup_insert_ne by done. Qed.
Lemma putCert_other p q cert data :
  p <> q -> putCert p cert data !! crt q = data !! crt q /\
            putCert p cert data !! key q = data !! key q.
Proof.
  intros Hn. split; apply putCert_ne; intros H.
  - by apply crt_inj in H.
  - by apply crt_key in H.
  - symmetry in H. by apply crt_key in H.
  - by apply key_inj in H.
Qed.

(** The nodes of the pools, and the bootstrap pod until the cluster has been initialized. *)
Definition is_node (pod : string) : Prop :=
  pod ∈ podNames instance \/
  pod = BootstrapPodName instance /\ st_Initialized (cl_Status instance) = false.

(** The node had no complete certificate, or one to be rotated. *)
Definition replaced (h : ohist) (old : gmap string string) (pod : string) : Prop :=
  is_node pod /\
  (existingCert old pod = None \/
   exists d, existingCert old pod = Some d /\ due h CertContextTransport d).

Definition podDescription (pod : string) : certDescription :=
  mkCertDescription CertContextTransport pod (podDnsNames instance pod).

(** A new certificate for the node, with its key. *)
Definition renewed (h : ohist) (ca : PEMCert) (old new : gmap string string) (pod : string) : Prop :=
  exists cert, signed h ca (podDescription pod) cert /\ replaced h old pod /\
    new !! crt pod = Some (certBytes cert) /\ new !! key pod = Some (keyBytes cert).

Definition unchanged (old new : gmap string string) (pod : string) : Prop :=
  new !! crt pod = old !! crt pod /\ new !! key pod = old !! key pod.

(** The entries of a node: as they were, or a new certificate with its key. *)
Definition node_ok (h : ohist) (ca : PEMCert) (old new : gmap string string) (pod : string) : Prop :=
  unchanged old new pod \/ renewed h ca old new pod.

(** A node that was looked after: its certificate is there with its key and stays, or it is new. *)
Definition node_done (h : ohist) (ca : PEMCert) (old new : gmap string string) (pod : string) : Prop :=
  (unchanged old new pod /\ exists d, existingCert old pod = Some d /\ kept h CertContextTransport d) \/
  renewed h ca old new pod.

Definition nodes_ok (h : ohist) (ca : PEMCert) (old new : gmap string string) : Prop :=
  (forall pod, node_ok h ca old new pod) /\
  (forall k, (forall pod, k <> crt pod /\ k <> key pod) -> new !! k = old !! k).

Lemma replaced_extends h h' old pod : extends h h' -> replaced h old pod -> replaced h' old pod.
Proof.
  intros He [Hn [?|(d & Hd & Hu)]]; (split; [done|]); [by left|right]. exists d.
  split; [done|by eapply due_extends].
Qed.
Lemma renewed_extends h h' ca old new pod :
  extends h h' -> renewed h ca old new pod -> renewed h' ca old new pod.
Proof.
  intros He (c & Hs & Hr & Hc). exists c.
  split_and!; [by eapply signed_extends|by eapply replaced_extends|apply Hc..].
Qed.
Lemma nodes_ok_extends h h' ca old new : extends h h' -> nodes_ok h ca old new -> nodes_ok h' ca old new.
Proof.
  intros He [H1 H2]. split; [|done]. intros pod. destruct (H1 pod) as [?|?]; [by left|].
  right. by eapply renewed_extends.
Qed.
Lemma node_done_extends h h' ca old new pod :
  extends h h' -> node_done h ca old new pod -> node_done h' ca old new pod.
Proof.
  intros He [(Hu & d & Hd & Hk)|?]; [left|right; by eapply renewed_extends]. split; [done|].
  exists d. split; [done|by eapply kept_extends].
Qed.
Lemma nodes_ok_refl h ca old : nodes_ok h ca old old.
Proof. split; [by left|done]. Qed.

Lemma node_ok_existing h ca old new pod :
  node_ok h ca old new pod -> existingCert new pod = existingCert old pod \/ replaced h old pod.
Proof. unfold existingCert. intros [[-> ->]|(c & _ & Hr & _)]; [by left|by right]. Qed.

Lemma nodes_ok_put h ca old new pod cert :
  nodes_ok h ca old new -> signed h ca (podDescription pod) cert -> replaced h old pod ->
  nodes_ok h ca old (putCert pod cert new).
Proof.
  intros [H1 H2] Hs Hr. split.
  - intros q. destruct (decide (pod = q)) as [<-|Hn].
    + right. exists cert. split_and!; [done|done|apply putCert_self..].
    + destruct (putCert_other pod q cert new Hn) as [E1 E2]. destruct (H1 q) as [[? ?]|(c & ?)].
      * left. split; congruence.
      * right. exists c. by rewrite E1, E2.
  - intros k Hk. rewrite putCert_ne by apply Hk. by apply H2.
Qed.

Lemma existingCert_put pod cert data : existingCert (putCert pod cert data) pod = Some (certBytes cert).
Proof. unfold existingCert. destruct (putCert_self pod cert data) as [-> ->]. done. Qed.
Lemma existingCert_put_other p q cert data :
  p <> q -> existingCert (putCert p cert data) q = existingCert data q.
Proof. intros Hn. unfold existingCert. by destruct (putCert_other p q cert data Hn) as [-> ->]. Qed.

Lemma replaced_of h ca old new pod :
  node_ok h ca old new pod -> is_node pod ->
  (existingCert new pod = None \/
   exists d, existingCert new pod = Some d /\ due h CertContextTransport d) ->
  replaced h old pod.
Proof. intros [E|?]%node_ok_existing Hn Hr; [|done]. split; [done|]. by rewrite <- E. Qed.

Lemma node_done_put h ca old new pod cert q :
  signed h ca (podDescription pod) cert -> replaced h old pod -> pod = q \/ node_done h ca old new q ->
  node_done h ca old (putCert pod cert new) q.
Proof.
  intros Hs Hr Hq. destruct (decide (pod = q)) as [<-|Hn].
  - right. exists cert. split_and!; [done|done|apply putCert_self..].
  - destruct Hq as [?|[[[E1 E2] Hd]|(c & ?)]]; [done|left; split; [|done]|right; exists c];
      destruct (putCert_other pod q cert new Hn) as [F1 F2]; unfold unchanged; by rewrite F1, F2.
Qed.
Lemma node_done_kept h ca old new pod d :
  node_ok h ca old new pod -> existingCert new pod = Some d -> kept h CertContextTransport d ->
  node_done h ca old new pod.
Proof.
  intros [[E1 E2]|?] Hd Hk; [left|by right]. split; [done|]. exists d. split; [|done].
  unfold existingCert in *. by rewrite <- E1, <- E2.
Qed.

Lemma wp_nodeWorker ca old pod d e P (Q : ohist -> outcome _ -> Prop) h :
  reading P h -> is_node pod -> nodes_ok h ca old d ->
  (forall h' m, extends h h' -> Q h' (Panicked m)) ->
  (forall h' d' e', extends h h' -> nodes_ok h' ca old d' ->
     (forall q, node_done h ca old d q -> node_done h' ca old d' q) ->
     (e' = None -> e = None /\ node_done h' ca old d' pod) ->
     Q h' (Returned (inl (d', e')))) ->
  wp (nodeWorker instance ca pod (d, e)) P Q h.
Proof.
  intros HP Hnode Hok Hm HQ. unfold nodeWorker. cbn [fst snd]. wp_step.
  apply wp_generateNewCertIfNeeded; [done| | | |]; cbn [cd_certContext].
  - intros h' m He. wp_step. by apply Hm.
  - intros h' e0 He. do 2 wp_step. cbn. apply HQ; [done|by eapply nodes_ok_extends| |by destruct e].
    intros q. by apply node_done_extends.
  - intros h' d0 He Hd Hk. do 2 wp_step. cbn. apply HQ; [done|by eapply nodes_ok_extends| |].
    + intros q. by apply node_done_extends.
    + intros ->. split; [done|]. eapply (nodes_ok_extends _ _ _ _ _ He) in Hok as [Hok _].
      by eapply node_done_kept.
  - intros h' cert He Hs Hr. do 2 wp_step. cbn.
    pose proof (nodes_ok_extends _ _ _ _ _ He Hok) as [Hok' _].
    assert (replaced h' old pod) as Hrep by (by eapply replaced_of).
    apply HQ; [done| | |].
    + apply nodes_ok_put; [by eapply nodes_ok_extends|done|done].
    + intros q Hq. apply node_done_put; [done|done|right]. by eapply node_done_extends.
    + intros ->. split; [done|]. apply node_done_put; [done|done|by left].
Qed.

Lemma reading_extends P h h' : extends h h' -> reading P h -> reading P h'.
Proof. intros He HP h1 q H1. apply HP. by etransitivity. Qed.

Lemma wp_nodeWorkers ca old pods d P (Q : ohist -> outcome _ -> Prop) h :
  reading P h -> (forall p, p ∈ pods -> is_node p) -> nodes_ok h ca old d ->
  (forall h' m, extends h h' -> Q h' (Panicked m)) ->
  (forall h' d' e', extends h h' -> nodes_ok h' ca old d' ->
     (e' = None -> forall p, p ∈ pods -> node_done h' ca old d' p) ->
     Q h' (Returned (inl (d', e')))) ->
  wp (for_range pods (d, None) (nodeWorker instance ca)) P Q h.
Proof.
  intros HP Hnode Hok Hm HQ.
  apply wp_for_range with (Inv := λ xs st h', extends h h' /\ xs ⊆ pods /\ nodes_ok h' ca old st.1 /\
    (st.2 = None -> forall p, p ∈ pods -> p ∈ xs \/ node_done h' ca old st.1 p)).
  - split_and!; [ext|done|done|]. intros _ p Hp. by left.
  - intros x xs [d0 e0] h0 (He & Hx & Hok0 & Hc). cbn [fst snd] in *.
    eapply wp_nodeWorker; [by eapply reading_extends|apply Hnode; set_solver|done| |].
    + intros h' m H'. wp_step. apply Hm. ext.
    + intros h' d' e' H' Hok' Hk Hn. split_and!; [ext|set_solver|done|]. cbn [fst snd].
      intros ->. destruct (Hn eq_refl) as [-> Hd']. intros p Hp.
      destruct (Hc eq_refl p Hp) as [[->|Hp']%elem_of_cons|Hp']; [by right|by left|right; auto].
  - intros [d0 e0] h0 (He & _ & Hok0 & Hc). apply HQ; [done|done|]. intros -> p Hp.
    destruct (Hc eq_refl p Hp) as [[]%elem_of_nil|?]; done.
Qed.

Lemma wp_generatePerNode ca data P (Q : ohist -> outcome _ -> Prop) h :
  reading P h ->
  (forall h' m, extends h h' -> Q h' (Panicked m)) ->
  (forall h' e, extends h h' -> Q h' (Returned (Err e))) ->
  (forall h' new, extends h h' -> nodes_ok h' ca (<[CaCertKey := certBytes ca]> data) new ->
     (forall p, p ∈ podNames instance ->
        node_done h' ca (<[CaCertKey := certBytes ca]> data) new p) -> Q h' (Returned (Ok new))) ->
  wp (generatePerNode instance ca data) P Q h.
Proof.
  intros HP Hm He HQ. unfold generatePerNode. cbv zeta. set (old := <[CaCertKey := _]> data).
  assert (forall h1 d, extends h h1 -> nodes_ok h1 ca old d ->
    wp (let! r := for_range (podNames instance) (d, None) (nodeWorker instance ca) in
        Ret match r with
            | inl (data, None) => Ok data
            | inl (_, Some e) => Err e
            | inr _ => Ok d
            end) P Q h1) as Hloop.
  { intros h1 d H1 Hok. wp_step. eapply wp_nodeWorkers; [by eapply reading_extends|by left|done| |].
    - intros h' m H'. wp_step. apply Hm. ext.
    - intros h' d' [e|] H' Hok' Hc; do 2 wp_step; [apply He; ext|]. apply HQ; [ext|done|auto]. }
  wp_step. unfold generateBootstrapCertIfNeeded, signCertificate.
  destruct (negb _ && _) eqn:Eb.
  - wp_step; [by apply HP|]. destruct r as [cert|e]; do 2 wp_step; [|apply He; ext].
    apply Hloop; [ext|]. apply nodes_ok_put; [apply nodes_ok_refl|apply saw_here|].
    apply andb_prop in Eb as [Ei%negb_true_iff Eb]. split; [by right|left]. unfold existingCert.
    apply orb_prop in Eb as [Eb|Eb]; apply bool_decide_eq_true in Eb; rewrite Eb; [done|].
    by destruct (old !! crt _).
  - do 2 wp_step. apply Hloop; [ext|apply nodes_ok_refl].
Qed.

(** *** The secret with one certificate *)

(** As it was, since there is a certificate (with or without its key) that stays; or nothing but a
    new one and its authority, because there was none or it is to be rotated. *)
Definition global_ok (h : ohist) (cd : certDescription) (ca : PEMCert) (old new : gmap string string)
    : Prop :=
  (new = old /\ exists d, old !! TLSCertKey = Some d /\ kept h (cd_certContext cd) d) \/
  (exists cert, signed h ca cd cert /\ new = SecretData cert ca /\
     (old !! TLSCertKey = None \/ exists d, old !! TLSCertKey = Some d /\ due h (cd_certContext cd) d)).

Lemma wp_generateGlobal ca cd data P (Q : ohist -> outcome _ -> Prop) h :
  reading P h ->
  (forall h' m, extends h h' -> Q h' (Panicked m)) ->
  (forall h' e, extends h h' -> Q h' (Returned (Err e))) ->
  (forall h' new, extends h h' -> global_ok h' cd ca data new ->
     Q h' (Returned (Ok new))) ->
  wp (generateGlobal instance ca cd data) P Q h.
Proof.
  intros HP Hm He HQ. unfold generateGlobal. wp_step. apply wp_generateNewCertIfNeeded; [done| | | |].
  - intros h' m H'. wp_step. by apply Hm.
  - intros h' e H'. do 2 wp_step. by apply He.
  - intros h' d H' Hd Hk. do 2 wp_step. apply HQ; [done|]. left. split; [done|by exists d].
  - intros h' cert H' Hs Hr. do 2 wp_step. apply HQ; [done|]. right. by exists cert.
Qed.

(** ** What may be asked *)

Definition caName : string := cl_Name instance +:+ "-ca".
Definition getSecret (name : string) : req := Get KSecret name (cl_Namespace instance).
Definition storeSecret (s : Secret) : req := ReconcileResource KSecret s StatePresent.

(** The certificate authority of a secret that was referenced. *)
Definition caOf (s : Secret) : PEMCert :=
  match secret_Annotations s !! "cert-manager.io/issuer-kind" with
  | Some _ => mkPEM (default "" (secret_Data s !! "tls.crt")) (default "" (secret_Data s !! "tls.key"))
  | None => CAFromSecret (secret_Data s)
  end.

(** [ca] is the referenced authority, or the cluster's own as it was read or has been stored. *)
Definition known_ca (h : ohist) (reference : string) (ca : PEMCert) : Prop :=
  if decide (reference = "") then
    (exists s, saw h (getSecret caName) (Ok s) /\ ca = CAFromSecret (secret_Data s)) \/
    (exists s s' res, ownedSecret instance caName "" (SecretDataCA ca) = Ok s /\
       saw h (storeSecret s) (s', (res, None)))
  else exists s, saw h (getSecret reference) (Ok s) /\ ca = caOf s.

(** The secret as it was read, or a new one where there was none. *)
Definition base_secret (h : ohist) (name type_ : string) (s : Secret) : Prop :=
  saw h (getSecret name) (Ok s) \/
  exists e, saw h (getSecret name) (Err e) /\ IsNotFound e = true /\
            ownedSecret instance name type_ ∅ = Ok s.

(** The admin certificate is missing, expires soon, or names another issuer. *)
Definition admin_due (h : ohist) (ca : PEMCert) : Prop :=
  (exists e, saw h (getSecret (adminSecretName instance)) (Err e) /\ IsNotFound e = true) \/
  (exists s, saw h (getSecret (adminSecretName instance)) (Ok s) /\
     (secret_Data s !! TLSCertKey = None \/
      exists d der cert, secret_Data s !! TLSCertKey = Some d /\ pemDecode d = Some der /\
        ParseCertificate der = Ok cert /\
        ((exists now, saw h (Local_ TimeNow) now /\ x_NotAfter cert - 5 * 24 * hour < now) \/
         (exists der' caCert, pemDecode (certBytes ca) = Some der' /\
            ParseCertificate der' = Ok caCert /\ x_RawIssuer cert <> x_RawSubject caCert)))).

Inductive tls_allowed (h : ohist) : req -> Prop :=
| ta_reads q : reads q -> tls_allowed h q
(** The cluster's own authority is stored after its secret could not be read. *)
| ta_ca ca e s :
    saw h (getSecret caName) (Err e) -> saw h (Local_ (NewCA (cl_Name instance))) (Ok ca) ->
    ownedSecret instance caName "" (SecretDataCA ca) = Ok s -> tls_allowed h (storeSecret s)
| ta_per_node side ca old new :
    contextSide instance CertContextTransport = Some side -> tl_Generate side = true ->
    tl_PerNode side = true -> known_ca h (tl_CaSecret side) ca ->
    base_secret h (transportCert instance) "" old ->
    nodes_ok h ca (<[CaCertKey := certBytes ca]> (secret_Data old)) new ->
    (forall pod, pod ∈ podNames instance ->
       node_done h ca (<[CaCertKey := certBytes ca]> (secret_Data old)) new pod) ->
    tls_allowed h (storeSecret (setData new old))
| ta_global_transport side ca old new :
    contextSide instance CertContextTransport = Some side -> tl_Generate side = true ->
    tl_PerNode side = false -> known_ca h (tl_CaSecret side) ca ->
    base_secret h (transportCert instance) SecretTypeTLS old ->
    global_ok h (transportDescription instance) ca (secret_Data old) new ->
    tls_allowed h (storeSecret (setData new old))
| ta_http side ca old new :
    contextSide instance CertContextHttp = Some side -> tl_Generate side = true ->
    known_ca h (tl_CaSecret side) ca ->
    base_secret h (httpCert instance) SecretTypeTLS old ->
    global_ok h (httpDescription instance side) ca (secret_Data old) new ->
    tls_allowed h (storeSecret (setData new old))
| ta_admin ref ca cert s :
    known_ca h ref ca -> admin_due h ca ->
    signed h ca (mkCertDescription CertContextTransport "admin" []) cert ->
    ownedSecret instance (adminSecretName instance) SecretTypeTLS (SecretData cert ca) = Ok s ->
    tls_allowed h (storeSecret s).

Lemma reading_tls h : reading tls_allowed h.
Proof. intros h' q _ Hq. by apply ta_reads. Qed.

Lemma known_ca_extends h h' ref ca : extends h h' -> known_ca h ref ca -> known_ca h' ref ca.
Proof.
  intros He. unfold known_ca. case_decide.
  - intros [(s & H1 & H2)|(s & s' & r & H1 & H2)]; [left; exists s|right; exists s, s', r];
      (split; [|done]) || (split; [done|]); by eapply saw_extends.
  - intros (s & H1 & H2). exists s. split; [by eapply saw_extends|done].
Qed.
Lemma base_secret_extends h h' n t s : extends h h' -> base_secret h n t s -> base_secret h' n t s.
Proof.
  intros He [?|(e & ? & ?)]; [left; by eapply saw_extends|right]. exists e.
  split; [by eapply saw_extends|done].
Qed.

Lemma wp_getReferencedCaCertOrDefault ref (Q : ohist -> outcome (result PEMCert) -> Prop) h :
  (forall h' e, extends h h' -> Q h' (Returned (Err e))) ->
  (forall h' ca, extends h h' -> known_ca h' ref ca -> Q h' (Returned (Ok ca))) ->
  wp (getReferencedCaCertOrDefault instance ref) tls_allowed Q h.
Proof.
  intros He Hk. unfold getReferencedCaCertOrDefault, known_ca in *.
  destruct (decide (ref = "")) as [->|Hr].
  - rewrite bool_decide_true by done. unfold ReadOrGenerateCaCert, GetSecret, newCA, CreateSecret.
    cbv zeta. fold caName. wp_step; [by apply ta_reads|]. destruct r as [s|e].
    { wp_step. apply Hk; [ext|]. left. exists s. split; [apply saw_here|done]. }
    wp_step; [by apply ta_reads|]. destruct r as [ca|e']; [|wp_step; apply He; ext].
    destruct (ownedSecret _ _ _ _) as [s|e'] eqn:Eo; [|wp_step; apply He; ext].
    wp_step; [eapply ta_ca; [apply saw_there, saw_here|apply saw_here|done]|].
    destruct r as [s' [res [e'|]]]; wp_step; [apply He; ext|]. apply Hk; [ext|]. right.
    exists s, s', res. split; [done|apply saw_here].
  - rewrite bool_decide_false by done. unfold GetSecret. wp_step; [by apply ta_reads|].
    destruct r as [s|e]; wp_step; [|apply He; ext]. apply Hk; [ext|]. exists s.
    split; [apply saw_here|]. unfold caOf. by destruct (secret_Annotations s !! _).
Qed.

Lemma wp_fetchOrNew name type_ (Q : ohist -> outcome (result Secret) -> Prop) h :
  (forall h' e, extends h h' -> Q h' (Returned (Err e))) ->
  (forall h' s, extends h h' -> base_secret h' name type_ s -> Q h' (Returned (Ok s))) ->
  wp (fetchOrNew instance name type_) tls_allowed Q h.
Proof.
  intros He Hs. unfold fetchOrNew, GetSecret. wp_step; [by apply ta_reads|].
  destruct r as [s|e]; wp_step; [apply Hs; [ext|left; apply saw_here]|].
  destruct (IsNotFound e) eqn:En; cbn [negb]; [|apply He; ext].
  destruct (ownedSecret _ _ _ _) as [s|e'] eqn:Eo; [|apply He; ext].
  apply Hs; [ext|]. right. exists e. split_and!; [apply saw_here|done|done].
Qed.

(** The rest of the reconciler only reads and records events. *)
Definition harmless {A} (p : io A) : Prop := only reads p.
Lemma harmless_AddConfigs l c : harmless (AddConfigs l c).
Proof. eapply only_mono; [|apply only_AddConfigs]. by intros []. Qed.
Lemma harmless_AddConfig k v c : harmless (AddConfig k v c).
Proof. eapply only_mono; [|apply only_AddConfig]. by intros []. Qed.
Lemma harmless_version c d b : harmless (CheckVersionConstraint c d b).
Proof. unfold harmless, CheckVersionConstraint. only_auto. Qed.
Lemma harmless_deref {A} (p : option A) : harmless (deref p).
Proof. apply only_deref. Qed.
Lemma wp_harmless {A B} (p : io A) (f : A -> io B) h :
  harmless p -> (forall h' a, extends h h' -> wp (f a) tls_allowed (λ _ _, True) h') ->
  wp (bind p f) tls_allowed (λ _ _, True) h.
Proof. intros Hp Hf. eapply wp_only_bind; [done|by intros; apply ta_reads|done|done]. Qed.
Lemma wp_harmless1 {A} (p : io A) h : harmless p -> wp p tls_allowed (λ _ _, True) h.
Proof. intros Hp. eapply wp_only; [done|by intros; apply ta_reads|done]. Qed.

Lemma harmless_addHotReload side c : harmless (addHotReload instance side c).
Proof.
  unfold harmless, addHotReload, SupportsHotReload. destruct (tl_EnableHotReload _); [|apply only_ret].
  apply only_bind; [apply harmless_version|]. intros []; [apply harmless_AddConfigs|apply only_ret].
Qed.
Lemma harmless_existing side c : harmless (handleTransportExistingCerts instance side c).
Proof.
  unfold harmless, handleTransportExistingCerts. destruct (_ == _); [apply only_ret|].
  apply only_bind; [|intros ?; apply only_bind; [apply harmless_AddConfigs|intros; apply only_ret]].
  destruct (tl_PerNode _); [apply harmless_AddConfigs|].
  apply only_bind; [apply harmless_AddConfigs|intros; apply harmless_addHotReload].
Qed.

(** Storing a secret that may be stored. *)
Lemma wp_storeAndMount {B} n s v m c (f : _ -> io B) h :
  tls_allowed h (storeSecret s) ->
  (forall h' x, extends h h' -> wp (f x) tls_allowed (λ _ _, True) h') ->
  wp (bind (storeAndMount n s v m c) f) tls_allowed (λ _ _, True) h.
Proof.
  intros Ha Hf. wp_step. unfold storeAndMount, CreateSecret. wp_step; [done|].
  destruct r as [s' [res [e|]]]; do 2 wp_step; apply Hf; ext.
Qed.

Lemma wp_storeTransport side s c h :
  tls_allowed h (storeSecret s) ->
  wp (storeTransport instance side s c) tls_allowed (λ _ _, True) h.
Proof.
  intros Ha. unfold storeTransport. apply wp_storeAndMount; [done|].
  intros h' [c' [e|]] H'; [by wp_step|]. cbv zeta.
  apply wp_harmless; [apply harmless_AddConfigs|]. intros. by wp_step.
Qed.

Lemma wp_handleTransportGenerate side c h :
  contextSide instance CertContextTransport = Some side -> tl_Generate side = true ->
  wp (handleTransportGenerate instance side c) tls_allowed (λ _ _, True) h.
Proof.
  intros Hside Hg. unfold handleTransportGenerate. wp_step.
  apply wp_getReferencedCaCertOrDefault; [intros; by do 2 wp_step|]. intros h1 ca H1 Hca. wp_step. wp_step.
  apply wp_fetchOrNew; [intros; by do 2 wp_step|]. intros h2 old H2 Hold. wp_step. wp_step.
  destruct (tl_PerNode side) eqn:Ep.
  - apply wp_generatePerNode; [apply reading_tls|by intros; wp_step|intros; by do 2 wp_step|].
    intros h3 new H3 Hn Hc. wp_step. apply wp_storeTransport.
    eapply ta_per_node; [done..| | |done|done].
    + eapply known_ca_extends; [|done]. ext.
    + by eapply base_secret_extends.
  - apply wp_generateGlobal; [apply reading_tls|by intros; wp_step|intros; by do 2 wp_step|].
    intros h3 new H3 Hn. wp_step. apply wp_storeTransport.
    eapply ta_global_transport; [done..| | |done].
    + eapply known_ca_extends; [|done]. ext.
    + by eapply base_secret_extends.
Qed.

Lemma wp_provideHttp {B} side c (f : _ -> io B) h :
  contextSide instance CertContextHttp = Some side ->
  (forall h' x, extends h h' -> wp (f x) tls_allowed (λ _ _, True) h') ->
  wp (bind (provideHttp instance side c) f) tls_allowed (λ _ _, True) h.
Proof.
  intros Hside Hf. wp_step. unfold provideHttp. destruct (tl_Generate side) eqn:Eg.
  - wp_step. apply wp_getReferencedCaCertOrDefault; [intros; do 3 wp_step; apply Hf; ext|].
    intros h1 ca H1 Hca. wp_step. wp_step.
    apply wp_fetchOrNew; [intros; do 3 wp_step; apply Hf; ext|]. intros h2 old H2 Hold. wp_step. wp_step.
    apply wp_generateGlobal; [apply reading_tls|by intros; wp_step|intros; do 3 wp_step; apply Hf; ext|].
    intros h3 new H3 Hn. wp_step. unfold storeAndMount, CreateSecret. wp_step.
    + eapply ta_http; [done..| | |done].
      * eapply known_ca_extends; [|done]. ext.
      * by eapply base_secret_extends.
    + destruct r as [s' [res [e|]]]; do 2 wp_step; apply Hf; ext.
  - destruct (_ == _); do 2 wp_step; apply Hf; ext.
Qed.

Lemma wp_handleHttp side c h :
  contextSide instance CertContextHttp = Some side ->
  wp (handleHttp instance side c) tls_allowed (λ _ _, True) h.
Proof.
  intros Hside. unfold handleHttp. apply wp_provideHttp; [done|].
  intros h1 [c1 [e|]] H1; [by wp_step|].
  apply wp_harmless; [apply harmless_AddConfigs|]. intros h2 c2 H2.
  apply wp_harmless; [apply harmless_addHotReload|]. intros. by wp_step.
Qed.

Lemma wp_shouldCreateAdminCert ca (Q : ohist -> outcome (result bool) -> Prop) h :
  (forall h' m, extends h h' -> Q h' (Panicked m)) ->
  (forall h' r, extends h h' -> (r = Ok true -> admin_due h' ca) -> Q h' (Returned r)) ->
  wp (shouldCreateAdminCert instance ca) tls_allowed Q h.
Proof.
  intros Hm HQ. unfold shouldCreateAdminCert, GetSecret. wp_step; [by apply ta_reads|].
  destruct r as [s|e]; [|wp_step; apply HQ; [ext|]; intros Ht; left; exists e; split;
                         [apply saw_here|by destruct (IsNotFound e)]].
  destruct (_ !! TLSCertKey) as [d|] eqn:Ed;
    [|wp_step; apply HQ; [ext|]; intros _; right; exists s; split; [apply saw_here|by left]].
  unfold NewCertValidater. destruct (pemDecode d) as [der|] eqn:Er; [|do 2 wp_step; apply Hm; ext].
  do 2 wp_step. destruct (ParseCertificate der) as [cert|e] eqn:Ec; [|wp_step; apply HQ; [ext|done]].
  unfold IsExpiringSoon. wp_step. wp_step. wp_step; [by apply ta_reads|]. do 2 wp_step. case_bool_decide as Hx.
  { wp_step. apply HQ; [ext|]. intros _. right. exists s. split; [apply saw_there, saw_here|right].
    exists d, der, cert. split_and!; [done..|left]. exists r. split; [apply saw_here|done]. }
  unfold IsSignedByCA, NewCertValidater. wp_step. wp_step.
  destruct (pemDecode (certBytes ca)) as [der'|] eqn:Er'; [|do 2 wp_step; apply Hm; ext]. do 4 wp_step.
  destruct (ParseCertificate der') as [caCert|e] eqn:Ec'; [|apply HQ; [ext|done]].
  apply HQ; [ext|]. intros [= Hn%negb_true_iff%bool_decide_eq_false]. right. exists s.
  split; [apply saw_there, saw_here|right]. exists d, der, cert. split_and!; [done..|right].
  by exists der', caCert.
Qed.

Lemma wp_createAdminSecret ref ca h :
  known_ca h ref ca -> wp (createAdminSecret instance ca) tls_allowed (λ _ _, True) h.
Proof.
  intros Hk. unfold createAdminSecret. wp_step. apply wp_shouldCreateAdminCert; [by intros; wp_step|].
  intros h1 [[|]|e] H1 Hd; wp_step; [|by wp_step|by wp_step]. unfold signCertificate. cbv zeta.
  wp_step; [by apply ta_reads|]. destruct r as [cert|e]; [|by wp_step].
  destruct (ownedSecret _ _ _ _) as [s|e] eqn:Eo; [|by wp_step]. unfold CreateSecret. wp_step.
  - eapply ta_admin; [eapply known_ca_extends; [|exact Hk]; ext| |apply saw_here|done].
    assert (admin_due h1 ca) as [(e & He & Hn)|(s0 & Hs0 & Hr)] by auto; [left; exists e|right; exists s0];
      (split; [by apply saw_there|]); [done|].
    destruct Hr as [?|(d & der & ct & H2 & H3 & H4 & [(now & Hnow & ?)|?])]; [by left|right..];
      exists d, der, ct; split_and!; try done; [left|by right]. exists now. split; [by apply saw_there|done].
  - destruct r as [s' [res [e|]]]; by wp_step.
Qed.

Lemma wp_handleAdminCertificate c h :
  wp (handleAdminCertificate instance c) tls_allowed (λ _ _, True) h.
Proof.
  unfold handleAdminCertificate. refine (wp_harmless _ _ h _ _); [apply harmless_version|].
  intros h0 changed H0. destruct (generatesAdmin instance).
  - apply wp_harmless; [unfold harmless, TlsCASecretRef, SecurityChangeVersion; destruct (cluster_tls _);
      [apply only_bind; [apply harmless_version|intros; apply only_ret]|apply only_ret]|].
    intros h1 ref H1. wp_step. apply wp_getReferencedCaCertOrDefault; [intros; by do 2 wp_step|].
    intros h2 ca H2 Hk. wp_step. wp_step. eapply wp_mono; [done| |by eapply wp_createAdminSecret].
    intros h3 [[res|e]|m] _; wp_step; [|by wp_step|done].
    apply wp_harmless; [apply harmless_AddConfigs|]. intros. by wp_step.
  - apply wp_harmless; [apply harmless_deref|]. intros h1 side H1.
    apply wp_harmless; [apply harmless_AddConfigs|]. intros. by wp_step.
Qed.

Lemma wp_TLSReconcile c h : wp (TLSReconcile instance c) tls_allowed (λ _ _, True) h.
Proof.
  unfold TLSReconcile. destruct (cluster_tls instance) as [t|] eqn:Et; [|by wp_step].
  assert (forall ctx, contextSide instance ctx =
    match ctx with CertContextTransport => tls_Transport t | CertContextHttp => tls_Http t end) as Hc.
  { intros ctx. unfold contextSide. by rewrite Et. }
  wp_step. eapply wp_mono with (Q := λ _ _, True); [done| |].
  - intros h1 [[c1 [e|]]|m] _; wp_step; [by wp_step| |done]. wp_step.
    eapply wp_mono with (Q := λ _ _, True); [done| |].
    + intros h2 [[c2 [e|]]|m] _; wp_step; [by wp_step| |done].
      apply wp_harmless; [unfold IsSecurityPluginEnabled; apply only_bind;
        [apply harmless_version|intros; apply only_ret]|].
      intros h3 [] H3; [|by wp_step]. wp_step. eapply wp_mono; [done| |apply wp_handleAdminCertificate].
      intros h4 [[c4 [res|e]]|m] _; by repeat wp_step.
    + destruct (tls_side_enabled (tls_Http t)).
      * wp_step. apply wp_deref; [|by intros; wp_step]. intros side Es. wp_step.
        apply wp_handleHttp. by rewrite Hc.
      * apply wp_harmless; [apply harmless_AddConfig|]. intros. by wp_step.
  - destruct (tls_side_enabled (tls_Transport t)); [|by wp_step].
    wp_step. apply wp_deref; [|by intros; wp_step]. intros side Es. wp_step.
    unfold handleTransport. destruct (tl_Generate side) eqn:Eg; [|apply wp_harmless1, harmless_existing].
    apply wp_handleTransportGenerate; [by rewrite Hc|done].
Qed.

End Guards.
