(* ===== verification/TlsWorkers.v ===== *)
(** * TlsWorkers: every schedule of the certificate workers gives the same secret

    [handleTransportGenerate] starts one goroutine per pod in an error group with a limit; each
    writes its certificate into the shared map under a mutex.  [Tls] runs them in order.  Here
    the group is a transition system: a goroutine is started while the limit allows, with what
    the map holds for its pod at that time, and the running goroutines end in any order. *)

From S2P Require Import Prelude Prog Resources Api K8sClient Helpers RContext Fixtures Tls.

Section Workers.
(** [answer p ex] is what [generateNewCertIfNeeded] answers to the worker of [p]. *)
Context (limit : nat) (answer : string -> option string -> result (option PEMCert)).

Record group := mkGroup {
  gr_todo : list string;
  gr_running : list (string * option string);
  gr_data : gmap string string;
  gr_err : option err }.

Inductive gstep : group -> group -> Prop :=
| g_spawn p todo running data e :
    (length running < limit)%nat ->
    gstep (mkGroup (p :: todo) running data e)
          (mkGroup todo (running ++ [(p, existingCert data p)]) data e)
| g_finish p ex r1 r2 todo data e :
    gstep (mkGroup todo (r1 ++ (p, ex) :: r2) data e)
          (mkGroup todo (r1 ++ r2) (workerDone p (answer p ex) (data, e)).1
             (workerDone p (answer p ex) (data, e)).2).

Definition start (pods : list string) (data : gmap string string) : group :=
  mkGroup pods [] data None.
(** [eg.Wait()] returns. *)
Definition over (g : group) : Prop := gr_todo g = [] /\ gr_running g = [].

(** The workers in order. *)
Definition inOrder (pods : list string) (data : gmap string string)
    : gmap string string * option err :=
  foldl (fun st p => workerDone p (answer p (existingCert st.1 p)) st) (data, None) pods.

(** Each step brings the end nearer. *)
Definition remaining (g : group) : nat := 2 * length (gr_todo g) + length (gr_running g).

Lemma gstep_remaining g g' : gstep g g' -> (remaining g' < remaining g)%nat.
Proof.
  destruct 1; unfold remaining; cbn [gr_todo gr_running]; rewrite ?length_app; cbn [length]; lia.
Qed.

Lemma gstep_progress g : (0 < limit)%nat -> ~ over g -> exists g', gstep g g'.
Proof.
  intros Hl Hn. destruct g as [todo [|[p ex] running] data e].
  - destruct todo as [|p todo]; [by destruct Hn|]. eexists. apply g_spawn. cbn. lia.
  - eexists. apply (g_finish p ex []).
Qed.

(** ** Confluence *)

Section Run.
Context (data0 : gmap string string).

(** What the worker of a pod does to the map. *)
Definition put (p : string) (m : gmap string string) : gmap string string :=
  match answer p (existingCert data0 p) with
  | Ok (Some cert) => putCert p cert m
  | _ => m
  end.
Definition succeeds (p : string) : Prop := exists x, answer p (existingCert data0 p) = Ok x.

Lemma putCert_comm p q c d m : p <> q -> putCert p c (putCert q d m) = putCert q d (putCert p c m).
Proof.
  intros Hn. assert (crt p <> crt q) by (by intros ?%crt_inj).
  assert (key p <> key q) by (by intros ?%key_inj). pose proof (crt_key p q). pose proof (crt_key q p).
  unfold putCert. apply map_eq. intros k.
  rewrite !lookup_insert. repeat case_decide; congruence.
Qed.

Lemma put_comm p q m : p <> q -> put p (put q m) = put q (put p m).
Proof.
  intros Hn. unfold put. destruct (answer p _) as [[c|]|], (answer q _) as [[d|]|]; try done.
  by apply putCert_comm.
Qed.

Lemma puts_perm fin fin' : NoDup fin -> fin ≡ₚ fin' -> foldr put data0 fin = foldr put data0 fin'.
Proof.
  intros Hn Hp. refine (foldr_permutation eq put data0 fin fin' _ Hp). intros j1 a1 j2 a2 b Hj H1 H2.
  apply put_comm. intros ->. by apply Hj, (NoDup_lookup fin j1 j2 a2).
Qed.

Lemma puts_existing fin p : p ∉ fin -> existingCert (foldr put data0 fin) p = existingCert data0 p.
Proof.
  induction fin as [|q fin IH]; cbn; [done|]. intros [Hn Hp]%not_elem_of_cons. rewrite <- IH by done.
  unfold put at 1. destruct (answer q _) as [[c|]|]; [|done|done]. by apply existingCert_put_other.
Qed.

(** The finished workers have done their part, the running ones were started with what the map
    held in the beginning. *)
Definition ran (pods fin : list string) (g : group) : Prop :=
  pods ≡ₚ fin ++ (gr_running g).*1 ++ gr_todo g /\
  Forall (λ w, w.2 = existingCert data0 w.1) (gr_running g) /\
  gr_data g = foldr put data0 fin /\ (gr_err g = None <-> Forall succeeds fin).

Lemma workerDone_put p fin data e :
  data = foldr put data0 fin -> (e = None <-> Forall succeeds fin) ->
  let st := workerDone p (answer p (existingCert data0 p)) (data, e) in
  st.1 = foldr put data0 (p :: fin) /\ (st.2 = None <-> Forall succeeds (p :: fin)).
Proof.
  intros -> He. cbn [foldr]. set (m := foldr put data0 fin). unfold put, succeeds in *.
  rewrite Forall_cons.
  destruct (answer p _) as [[c|]|e'] eqn:Ea; cbn; (split; [done|]).
  - rewrite He. split; [|by intros [_ ?]]. intros ?. split; [by eexists|done].
  - rewrite He. split; [|by intros [_ ?]]. intros ?. split; [by eexists|done].
  - split; [by destruct e|]. by intros [[] _].
Qed.

Lemma ran_step pods fin g g' :
  NoDup pods -> ran pods fin g -> gstep g g' -> exists fin', ran pods fin' g'.
Proof.
  intros Hn (Hp & Hf & Hd & He) Hs. destruct Hs as [p todo running data e Hl|p ex r1 r2 todo data e];
    cbn [gr_todo gr_running gr_data gr_err] in *.
  - exists fin. split_and!; [|cbn|done|done].
    + cbn [gr_running gr_todo]. rewrite fmap_app. cbn. by rewrite <- (assoc_L (++)).
    + rewrite Forall_app, Forall_singleton. split; [done|]. cbn. rewrite Hd. apply puts_existing.
      intros Hin. rewrite Hp in Hn. apply NoDup_app in Hn as (_ & Hn & _). apply (Hn p Hin). set_solver.
  - exists (p :: fin). rewrite Forall_app, Forall_cons in Hf. destruct Hf as (Hf1 & Hex & Hf2).
    cbn in Hex. subst ex. destruct (workerDone_put p fin data e Hd He) as [E1 E2].
    split_and!; [|by apply Forall_app|done|done]. cbn [gr_running gr_todo]. rewrite Hp.
    rewrite !fmap_app. cbn. solve_Permutation.
Qed.

Lemma ran_start pods : ran pods [] (start pods data0).
Proof. by split_and!. Qed.

Lemma ran_reach pods g :
  NoDup pods -> rtc gstep (start pods data0) g -> exists fin, ran pods fin g.
Proof.
  intros Hn Hr. revert g Hr. apply rtc_ind_r; [exists []; apply ran_start|].
  intros g g' _ Hs [fin IH]. by eapply ran_step.
Qed.

Lemma inOrder_puts pods :
  NoDup pods ->
  (inOrder pods data0).1 = foldr put data0 (rev pods) /\
  ((inOrder pods data0).2 = None <-> Forall succeeds (rev pods)).
Proof.
  induction pods as [|p pods IH] using rev_ind; intros Hn.
  - split; [done|]. split; [by constructor|done].
  - apply NoDup_app in Hn as (Hn & Hp & _). destruct (IH Hn) as [IH1 IH2].
    unfold inOrder in *. rewrite foldl_app, rev_app_distr. cbn [foldl rev app].
    set (st := foldl _ _ pods) in *.
    assert (existingCert st.1 p = existingCert data0 p) as ->.
    { rewrite IH1. apply puts_existing. rewrite list_elem_of_In, <- in_rev, <- list_elem_of_In.
      intros Hin. apply (Hp p Hin). by left. }
    destruct st as [data e]. by apply workerDone_put.
Qed.

(** Every complete run ends like the one in order. *)
Lemma any_schedule pods g :
  NoDup pods -> rtc gstep (start pods data0) g -> over g ->
  gr_data g = (inOrder pods data0).1 /\ (gr_err g = None <-> (inOrder pods data0).2 = None).
Proof.
  intros Hn Hr [Ht Hw]. destruct (ran_reach pods g Hn Hr) as (fin & Hp & _ & Hd & He).
  rewrite Ht, Hw in Hp. cbn in Hp. rewrite app_nil_r in Hp.
  destruct (inOrder_puts pods Hn) as [E1 E2]. assert (fin ≡ₚ rev pods) as Hf.
  { rewrite <- Hp. apply Permutation_rev. }
  rewrite Hd, E1, He, E2. split; [|by rewrite Hf]. apply puts_perm; [|done]. by rewrite <- Hp.
Qed.

End Run.
End Workers.

(** ** The names of the pods *)

Lemma podName_inj cluster c d i j :
  cluster +:+ "-" +:+ c +:+ "-" +:+ Itoa (Z.of_nat i) = cluster +:+ "-" +:+ d +:+ "-" +:+ Itoa (Z.of_nat j) ->
  c = d /\ i = j.
Proof.
  intros H. apply app_inj_l, app_inj_l in H.
  apply (last_sep_inj "-" c d) in H as [-> H]; [|apply Itoa_no_dash; lia..].
  apply Itoa_inj in H. split; [done|lia].
Qed.

Lemma podNames_NoDup instance :
  NoDup (np_Component <$> sp_NodePools (cl_Spec instance)) -> NoDup (podNames instance).
Proof.
  unfold podNames. induction (sp_NodePools (cl_Spec instance)) as [|np pools IH]; cbn; [constructor|].
  intros [Hc Hn]%NoDup_cons. apply NoDup_app. split_and!.
  - apply NoDup_fmap_2_strong; [|apply NoDup_seq].
    intros i j _ _ H. by apply podName_inj in H as [_ ->].
  - intros x (i & -> & _)%list_elem_of_fmap. rewrite list_elem_of_In, in_flat_map. intros (q & Hq & Hx).
    apply in_map_iff in Hx as (j & Hx & _). apply podName_inj in Hx as [Hx _]. apply Hc. rewrite <- Hx.
    apply list_elem_of_fmap_2, list_elem_of_In, Hq.
  - by apply IH.
Qed.

(** ** Theorems *)

(** C23: certificates of the nodes, any schedule: with pairwise different pools, the error group
    that generates them cannot get stuck and each of its steps brings its end nearer, and when it
    has ended, the secret is the one of the run in order, and there is an error exactly when
    there is one in that run. *)
Theorem certificates_any_schedule (instance : OpenSearchCluster) (limit : nat)
    (answer : string -> option string -> result (option PEMCert)) (data : gmap string string)
    (g : group) :
  NoDup (np_Component <$> sp_NodePools (cl_Spec instance)) -> (0 < limit)%nat ->
  rtc (gstep limit answer) (start (podNames instance) data) g ->
  (over g \/ exists g', gstep limit answer g g') /\
  (forall g', gstep limit answer g g' -> (remaining g' < remaining g)%nat) /\
  (over g -> gr_data g = (inOrder answer (podNames instance) data).1 /\
             (gr_err g = None <-> (inOrder answer (podNames instance) data).2 = None)).
Proof.
  intros Hn Hl Hr. split_and!.
  - destruct (decide (gr_todo g = [])) as [Ht|Ht]; [|right; apply gstep_progress; [done|by intros []]].
    destruct (decide (length (gr_running g) = 0%nat)) as [Hw|Hw];
      [left; by apply nil_length_inv in Hw|right; apply gstep_progress; [done|]].
    intros [_ E]. by rewrite E in Hw.
  - intros g'. apply gstep_remaining.
  - eapply any_schedule; [by apply podNames_NoDup|done].
Qed.

(** C22: the secrets of a cluster's certificates: whatever the servers answer, the TLS reconciler
    stores only the following, all signed by the referenced authority or the cluster's own, for the
    names and the duration of their kind.  A new authority, after the secret of the old one could
    not be read.  The transport secret with a certificate per node: a node without certificate or
    key, or whose certificate is due, gets new ones; every other entry stays, and each node of the
    pools has either a new certificate or one with its key that was found not to be due (as an
    unreadable one is).  The secret with a single certificate, for transport or HTTP: as it is when
    it has a certificate that is not due (whether or not with a key), and otherwise replaced as a
    whole by a new one.  The admin certificate, when it is missing, expires within five days or
    names another issuer. *)
Theorem certificates_guarded `{SV : Semver} `{PE : ProcEnv} `{XL : X509Lib} `{CL : CtrlLib}
    (instance : OpenSearchCluster) (c : ReconcilerContext) (w : oenv) :
  calls_ok (tls_allowed instance) (run w (TLSReconcile instance c) []).2.
Proof. eapply wp_run, wp_TLSReconcile. Qed.

(** C37: the certificate authority of a cluster is replaced when its secret cannot be read: any
    error of the read, and not only that the secret is missing, makes the reconciler generate a
    new authority and, if that succeeds, store it in the place of the one that may be there.  Stated
    for the errors that do not say that the secret is missing. *)
Theorem ca_replaced_on_read_error `{CL : CtrlLib} (instance : OpenSearchCluster) (w : oenv)
    (e : err) (ca : PEMCert) (s : Secret) :
  w (getSecret instance (caName instance)) [] = Err e -> IsNotFound e = false ->
  (forall h, w (Local_ (NewCA (cl_Name instance))) h = Ok ca) ->
  ownedSecret instance (caName instance) "" (SecretDataCA ca) = Ok s ->
  exists r, saw (run w (ReadOrGenerateCaCert instance) []).2 (storeSecret s) r.
Proof.
  intros Hr _ Hg Ho. unfold ReadOrGenerateCaCert, GetSecret, newCA, CreateSecret. cbv zeta.
  fold (caName instance). rewrite run_bind. unfold call at 1. cbn [run]. cbv zeta.
  unfold getSecret in Hr. rewrite Hr. rewrite run_bind. unfold call at 1. cbn [run]. cbv zeta.
  rewrite Hg, Ho. rewrite run_bind. unfold call at 1. cbn [run]. cbv zeta.
  destruct (w (ReconcileResource KSecret s StatePresent) _) as [s' [res e']]. cbn [run snd].
  eexists. apply saw_here.
Qed.

(** The admin certificate is not renewed after that: the check compares the name of the issuer,
    which is the name of the cluster, for the new authority like for the old one. *)
Theorem admin_certificate_of_old_ca `{XL : X509Lib} (instance : OpenSearchCluster)
    (ca : PEMCert) (w : oenv) (s : Secret) d der cert caDer caCert :
  w (getSecret instance (adminSecretName instance)) [] = Ok s ->
  secret_Data s !! TLSCertKey = Some d -> pemDecode d = Some der -> ParseCertificate der = Ok cert ->
  (forall h, w (Local_ TimeNow) h <= x_NotAfter cert - 5 * 24 * hour) ->
  pemDecode (certBytes ca) = Some caDer -> ParseCertificate caDer = Ok caCert ->
  x_RawSubject caCert = x_RawIssuer cert ->
  (run w (shouldCreateAdminCert instance ca) []).1 = Returned (Ok false).
Proof.
  intros Hs Hd Hp Hc Ht Hp' Hc' Hi. unfold shouldCreateAdminCert, GetSecret. rewrite run_bind.
  unfold call at 1. cbn [run]. cbv zeta. unfold getSecret in Hs. rewrite Hs, Hd.
  unfold NewCertValidater, IsExpiringSoon, IsSignedByCA, NewCertValidater. rewrite Hp, Hp'.
  cbn [bind]. rewrite Hc. unfold call at 1. cbv beta iota. rewrite !run_bind. cbn [run]. cbv zeta.
  cbn [run]. rewrite !run_bind. cbn [run]. cbv zeta. rewrite bool_decide_false by (apply Z.le_ngt, Ht). rewrite Hc'.
  rewrite !run_bind. cbn [run fst]. by rewrite Hi, bool_decide_true.
Qed.

Module TlsSamples.
Import Samples.

#[local] Instance owner : CtrlLib :=
  {| SetControllerReference := fun name uid refs => Ok (mkOwner name uid true :: refs) |}.

Definition a_cluster : OpenSearchCluster := cluster_with true true [nodes] (running []).

(** The first worker ends last. *)
Definition signs (p : string) (ex : option string) : result (option PEMCert) :=
  match ex with Some _ => Ok None | None => Ok (Some (mkPEM (p +:+ " cert") (p +:+ " key"))) end.
Lemma schedule :
  rtc (gstep 8 signs) (start (podNames a_cluster) ∅)
    (mkGroup [] [] (putCert "os-nodes-0" (mkPEM "os-nodes-0 cert" "os-nodes-0 key")
       (putCert "os-nodes-1" (mkPEM "os-nodes-1 cert" "os-nodes-1 key")
          (putCert "os-nodes-2" (mkPEM "os-nodes-2 cert" "os-nodes-2 key") ∅))) None).
Proof.
  change (podNames a_cluster) with ["os-nodes-0"; "os-nodes-1"; "os-nodes-2"].
  do 3 (eapply rtc_l; [apply g_spawn; cbn; lia|]).
  eapply rtc_l; [apply (g_finish _ _ "os-nodes-2" None [_; _])|].
  eapply rtc_l; [apply (g_finish _ _ "os-nodes-1" None [_])|].
  eapply rtc_l; [apply (g_finish _ _ "os-nodes-0" None [])|]. apply rtc_refl.
Qed.

Lemma certificates_any_schedule_witness :
  putCert "os-nodes-0" (mkPEM "os-nodes-0 cert" "os-nodes-0 key")
    (putCert "os-nodes-1" (mkPEM "os-nodes-1 cert" "os-nodes-1 key")
       (putCert "os-nodes-2" (mkPEM "os-nodes-2 cert" "os-nodes-2 key") ∅)) =
  (inOrder signs (podNames a_cluster) ∅).1.
Proof.
  assert (NoDup (np_Component <$> sp_NodePools (cl_Spec a_cluster))) as Hn by apply NoDup_singleton.
  destruct (certificates_any_schedule a_cluster 8 signs ∅ _ Hn ltac:(lia) schedule) as (_ & _ & H).
  apply H. done.
Defined.

Definition a_ca : PEMCert := mkPEM "new ca" "new key".
Definition unreadable : oenv := fun q _ =>
  match q return resp q with
  | Local_ (NewCA _) => Ok a_ca
  | q' => down q'
  end.
Definition ca_secret : Secret :=
  mkSecret "os-ca" "ns" ∅ (SecretDataCA a_ca) ∅ "" "" [mkOwner "os" "uid" true].
Lemma ca_replaced_on_read_error_witness :
  exists r, saw (run unreadable (ReadOrGenerateCaCert a_cluster) []).2 (storeSecret ca_secret) r.
Proof.
  apply (ca_replaced_on_read_error a_cluster unreadable (OtherErr "down") a_ca ca_secret);
    done.
Defined.

End TlsSamples.
