(* ===== verification/Der.v ===== *)
(** * Der: the encoding of ASN.1 values, and a reader for it

    What [pkg/tls/pki.go] uses of [encoding/asn1]: [Marshal] on a list of raw values.  A byte is an
    integer from 0 to 255, a length is an [int] of 64 bits.  The reader is written from the
    encoding rules and not from the writer; [read_write] says that it reads back what was
    written. *)

From S2P Require Import Prelude.

(** ** The writer *)

(** The bytes of a length; an [int] has at most eight. *)
Fixpoint lengthLength (more : nat) (i : Z) : nat :=
  match more with
  | O => 1%nat
  | S more => if bool_decide (255 < i) then S (lengthLength more (Z.shiftr i 8)) else 1%nat
  end.
Fixpoint appendLength (n : nat) (i : Z) : list Z :=
  match n with
  | O => []
  | S n => Z.shiftr i (8 * Z.of_nat n) mod 256 :: appendLength n i
  end.

(** Tags below 31 have one byte. *)
Definition appendTagAndLength (class tag : Z) (isCompound : bool) (length : Z) : list Z :=
  let b := Z.shiftl class 6 in
  let b := if isCompound then Z.lor b 32 else b in
  Z.lor b tag ::
  (if bool_decide (128 <= length) then
     let l := lengthLength 7 length in
     Z.lor 128 (Z.of_nat l) :: appendLength l length
   else [length]).

Record RawValue := mkRaw {
  rv_Class : Z;
  rv_Tag : Z;
  rv_IsCompound : bool;
  rv_Bytes : list Z;
  rv_FullBytes : list Z }.

Definition len (l : list Z) : Z := Z.of_nat (length l).

Definition marshalRaw (v : RawValue) : list Z :=
  match rv_FullBytes v with
  | [] => appendTagAndLength (rv_Class v) (rv_Tag v) (rv_IsCompound v) (len (rv_Bytes v)) ++ rv_Bytes v
  | full => full
  end.

(** A sequence has the universal tag 16. *)
Definition MarshalRaws (l : list RawValue) : list Z :=
  let body := concat (map marshalRaw l) in
  appendTagAndLength 0 16 true (len body) ++ body.

(** ** The reader *)

Definition bigEndian (l : list Z) : Z := foldl (fun a b => a * 256 + b) 0 l.

Definition takeExactly (n : nat) (l : list Z) : option (list Z * list Z) :=
  if bool_decide (n <= length l)%nat then Some (take n l, drop n l) else None.

Definition readLength (l : list Z) : option (Z * list Z) :=
  match l with
  | [] => None
  | b :: l =>
      if bool_decide (b < 128) then Some (b, l)
      else '(digits, l) ← takeExactly (Z.to_nat (b - 128)) l; Some (bigEndian digits, l)
  end.

(** An element: its identifier and its contents. *)
Definition readElement (l : list Z) : option ((Z * list Z) * list Z) :=
  match l with
  | [] => None
  | tag :: l =>
      '(n, l) ← readLength l; '(contents, l) ← takeExactly (Z.to_nat n) l; Some ((tag, contents), l)
  end.

(** An element has two bytes or more, so there are no more elements than bytes. *)
Fixpoint readElements (fuel : nat) (l : list Z) : option (list (Z * list Z)) :=
  match l, fuel with
  | [], _ => Some []
  | _, O => None
  | _, S fuel => '(e, l) ← readElement l; es ← readElements fuel l; Some (e :: es)
  end.

Definition readSequence (l : list Z) : option (list (Z * list Z)) :=
  '((tag, body), rest) ← readElement l;
  if bool_decide (tag = 48 /\ rest = []) then readElements (length body) body else None.

(** ** What was written is read *)

Definition int64 (n : Z) : Prop := 0 <= n < 2 ^ 63.

Lemma bigEndian_appendLength n i a :
  0 <= i ->
  foldl (fun a b => a * 256 + b) a (appendLength n i) =
    a * 2 ^ (8 * Z.of_nat n) + i mod 2 ^ (8 * Z.of_nat n).
Proof.
  intros Hi. revert a. induction n as [|n IH]; intros a; cbn [appendLength foldl].
  { cbn. rewrite Z.mod_1_r. lia. }
  rewrite IH, Z.shiftr_div_pow2 by lia.
  replace (8 * Z.of_nat (S n)) with (8 * Z.of_nat n + 8) by lia.
  rewrite Z.pow_add_r by lia. change (2 ^ 8) with 256.
  rewrite (Z.rem_mul_r i) by lia. ring.
Qed.

Lemma appendLength_length n i : length (appendLength n i) = n.
Proof. induction n; cbn; congruence. Qed.

Lemma lengthLength_enough more i :
  0 <= i < 2 ^ (8 * Z.of_nat (S more)) ->
  (1 <= lengthLength more i <= S more)%nat /\ i < 2 ^ (8 * Z.of_nat (lengthLength more i)).
Proof.
  revert i. induction more as [|more IH]; intros i Hi; cbn [lengthLength]; [lia|].
  case_bool_decide; [|split; [lia|cbn; lia]].
  destruct (IH (Z.shiftr i 8)) as [H1 H2].
  - rewrite Z.shiftr_div_pow2 by lia. split; [apply Z.div_pos; lia|].
    apply Z.div_lt_upper_bound; [lia|]. rewrite <- Z.pow_add_r by lia.
    eapply Z.lt_le_trans; [apply Hi|]. apply Z.pow_le_mono_r; lia.
  - split; [lia|]. rewrite Z.shiftr_div_pow2 in H2 by lia.
    replace (8 * Z.of_nat (S (lengthLength more (Z.shiftr i 8))))
      with (8 * Z.of_nat (lengthLength more (Z.shiftr i 8)) + 8) by lia.
    rewrite Z.pow_add_r by lia. rewrite Z.shiftr_div_pow2 by lia. change (2 ^ 8) with 256 in *.
    pose proof (Z.div_mod i 256 ltac:(lia)). pose proof (Z.mod_pos_bound i 256 ltac:(lia)). nia.
Qed.

Lemma takeExactly_app (l k : list Z) : takeExactly (length l) (l ++ k) = Some (l, k).
Proof.
  unfold takeExactly. rewrite length_app, bool_decide_true by lia.
  by rewrite take_app_length, drop_app_length.
Qed.

Lemma readLength_written class tag c n l :
  int64 n -> readLength (tail (appendTagAndLength class tag c n) ++ l) = Some (n, l).
Proof.
  intros [H0 Hn]. unfold appendTagAndLength. cbn [tail]. case_bool_decide as Hs; cbn [app readLength].
  2: { by rewrite bool_decide_true by lia. }
  destruct (lengthLength_enough 7 n) as [Hl Hb]; [by split; [|etrans; [apply Hn|]]|].
  cbv zeta. revert Hl Hb. generalize (lengthLength 7 n). intros k Hl Hb.
  assert (Z.lor 128 (Z.of_nat k) = 128 + Z.of_nat k) as ->.
  { do 9 (destruct k as [|k]; [done|]). lia. }
  rewrite bool_decide_false by lia. replace (Z.to_nat (128 + Z.of_nat k - 128)) with k by lia.
  rewrite <- (appendLength_length k n) at 1. rewrite takeExactly_app. cbn.
  unfold bigEndian. rewrite bigEndian_appendLength by done. by rewrite Z.mod_small by lia.
Qed.

(** The identifier of an element and its contents. *)
Definition identifier (class tag : Z) (isCompound : bool) : Z :=
  Z.lor (if isCompound then Z.lor (Z.shiftl class 6) 32 else Z.shiftl class 6) tag.

Lemma readElement_written class tag c body l :
  int64 (len body) ->
  readElement (appendTagAndLength class tag c (len body) ++ body ++ l) =
    Some ((identifier class tag c, body), l).
Proof.
  intros Hn. change (appendTagAndLength class tag c (len body)) with
    (identifier class tag c :: tail (appendTagAndLength class tag c (len body))).
  cbn [app readElement]. rewrite readLength_written by done. cbn.
  unfold len. by rewrite Nat2Z.id, takeExactly_app.
Qed.

(** What a raw value stands for, if it stands for one element. *)
Definition written (v : RawValue) (e : Z * list Z) : Prop :=
  forall l, readElement (marshalRaw v ++ l) = Some (e, l).

Lemma written_raw class tag c body :
  int64 (len body) -> written (mkRaw class tag c body []) (identifier class tag c, body).
Proof. intros Hn l. unfold marshalRaw. cbn. rewrite <- app_assoc. by apply readElement_written. Qed.

Lemma written_not_nil v e : written v e -> marshalRaw v <> [].
Proof. intros Hw E. specialize (Hw []). by rewrite E in Hw. Qed.

Lemma readElements_written vs es fuel :
  Forall2 written vs es -> (length (concat (map marshalRaw vs)) <= fuel)%nat ->
  readElements fuel (concat (map marshalRaw vs)) = Some es.
Proof.
  intros Hw. revert fuel. induction Hw as [|v e vs es Hv _ IH]; intros fuel Hf; [by destruct fuel|].
  cbn [map concat] in *. pose proof (written_not_nil v e Hv) as Hn. rewrite length_app in Hf.
  destruct fuel as [|fuel]; [destruct (marshalRaw v); cbn in *; [done|lia]|].
  cbn [readElements]. pose proof (Hv (concat (map marshalRaw vs))) as E.
  destruct (marshalRaw v ++ _) as [|b l] eqn:El; [done|]. rewrite E. cbn.
  rewrite IH; [done|]. destruct (marshalRaw v); cbn in *; [done|lia].
Qed.

Lemma read_write vs es :
  Forall2 written vs es -> int64 (len (concat (map marshalRaw vs))) ->
  readSequence (MarshalRaws vs) = Some es.
Proof.
  intros Hw Hn. unfold readSequence, MarshalRaws. rewrite <- (app_nil_r (_ ++ _)), <- app_assoc.
  rewrite readElement_written by done. cbn. by apply readElements_written.
Qed.
