(* ===== verification/Pki.v ===== *)
(** * Pki: making certificates

    Models the rest of [pkg/tls/pki.go]: [GenerateCA], [CreateAndSignCertificate] and the extension
    with the names of a certificate.  This is the program behind the requests [NewCA] and
    [SignCertificate] of [Tls].  Random numbers, keys, the clock and the signature are requests
    ([preq]); the encodings of keys and of PEM are parameters ([PkiLib]), and what the
    documentation of the standard library says of them is [documented]. *)

From S2P Require Import Prelude Prog Resources Api K8sClient Helpers RContext Tls Der Fixtures.

(** ** The standard library *)

(** [pkix.Extension] and the fields of [x509.Certificate] that the code sets. *)
Record Extension := mkExtension { ex_Id : list Z; ex_Critical : bool; ex_Value : list Z }.
Inductive ExtKeyUsage := ExtKeyUsageServerAuth | ExtKeyUsageClientAuth.
Record Certificate := mkCertificate {
  ct_SerialNumber : Z;
  ct_CommonName : string;
  ct_OrganizationalUnit : list string;
  ct_NotBefore : Z;
  ct_NotAfter : Z;
  ct_IsCA : bool;
  ct_BasicConstraintsValid : bool;
  ct_KeyUsage : Z;
  ct_ExtKeyUsage : list ExtKeyUsage;
  ct_ExtraExtensions : list Extension }.

Definition KeyUsageDigitalSignature : Z := 1.
Definition KeyUsageCertSign : Z := 32.
Definition KeyUsageCRLSign : Z := 64.

(** Keys and their texts; [AddDate] is on times in nanoseconds.  [pem.Encode] cannot fail on a
    buffer in memory. *)
Class PkiLib := {
  PrivateKey : Type;
  PublicKey : Type;
  Public : PrivateKey -> PublicKey;
  MarshalPKCS1PrivateKey : PrivateKey -> string;
  MarshalPKCS8PrivateKey : PrivateKey -> result string;
  pemEncode : string -> string -> string;
  X509KeyPair : string -> string -> result (list string * PrivateKey);
  AddDate : Z -> Z -> Z -> Z -> Z;
  rawName : string -> list string -> string }.

Section Requests.
Context `{PL : PkiLib}.

(** The parent of a certificate that signs itself is its template. *)
Inductive preq :=
| RandInt (limit : Z)
| GenerateKey (bits : Z)
| Now
| CreateCertificate (template : Certificate) (parent : Certificate + X509Cert) (pub : PublicKey)
    (priv : PrivateKey).
Definition presp (q : preq) : Type :=
  match q with
  | RandInt _ => result Z
  | GenerateKey _ => result PrivateKey
  | Now => Z
  | CreateCertificate _ _ _ _ => result string
  end.

End Requests.

Abbreviation pki := (prog presp).
Abbreviation phist := (hist presp).
Abbreviation penv := (env presp).
Abbreviation pask := (@call preq presp).

(** ** The names of a certificate *)

Definition bytesOf (s : string) : list Z :=
  map (fun c => Z.of_nat (Ascii.nat_of_ascii c)) (String.list_ascii_of_string s).

(** The common name is not used. *)
Definition calculateExtension (commonName : string) (dnsNames : list string) : Extension :=
  let rawValues := mkRaw 0 0 false [] [136; 5; 42; 3; 4; 5; 5] ::
    map (fun name => mkRaw 2 2 false (bytesOf name) []) dnsNames in
  mkExtension [2; 5; 29; 17] true (MarshalRaws rawValues).

(** ** Certificates *)

Section Pki.
Context `{XL : X509Lib} `{PL : PkiLib}.

Definition caTemplate (name : string) (serial notBefore notAfter : Z) : Certificate :=
  mkCertificate serial name [] notBefore notAfter true true
    (Z.lor KeyUsageDigitalSignature (Z.lor KeyUsageCertSign KeyUsageCRLSign)) [] [].

Definition GenerateCA (name : string) : pki (result PEMCert) :=
  let! r := pask (RandInt (Z.shiftl 1 128)) in
  match r with
  | Err e => Ret (Err e)
  | Ok serial =>
      let! notBefore := pask Now in
      let! now := pask Now in
      let caCertTemplate := caTemplate name serial notBefore (AddDate now 10 0 0) in
      let! r := pask (GenerateKey 4096) in
      match r with
      | Err e => Ret (Err e)
      | Ok caPrivateKey =>
          let! r := pask (CreateCertificate caCertTemplate (inl caCertTemplate) (Public caPrivateKey)
                            caPrivateKey) in
          match r with
          | Err e => Ret (Err e)
          | Ok caBytes =>
              Ret (Ok (mkPEM (pemEncode "CERTIFICATE" caBytes)
                         (pemEncode "RSA PRIVATE KEY" (MarshalPKCS1PrivateKey caPrivateKey))))
          end
      end
  end.

Definition leafTemplate (commonName orgUnit : string) (dnsnames : list string)
    (serial notBefore notAfter : Z) : Certificate :=
  mkCertificate serial commonName [orgUnit] notBefore notAfter false false KeyUsageDigitalSignature
    [ExtKeyUsageClientAuth; ExtKeyUsageServerAuth]
    match dnsnames with [] => [] | _ => [calculateExtension commonName dnsnames] end.

Definition orAYear (validity : Z) : Z := if bool_decide (validity <= 0) then aYear else validity.

(** The end of [CreateAndSignCertificate]: the certificate is signed and encoded. *)
Definition signAndEncode (x509cert : Certificate) (cacert : X509Cert) (keypair caKey : PrivateKey)
    : pki (result PEMCert) :=
  let! r := pask (CreateCertificate x509cert (inr cacert) (Public keypair) caKey) in
  match r with
  | Err e => Ret (Err e)
  | Ok signed =>
      match MarshalPKCS8PrivateKey keypair with
      | Err e => Ret (Err e)
      | Ok pkcs8key =>
          Ret (Ok (mkPEM (pemEncode "CERTIFICATE" signed) (pemEncode "PRIVATE KEY" pkcs8key)))
      end
  end.

Definition CreateAndSignCertificate (ca : PEMCert) (commonName orgUnit : string)
    (dnsnames : list string) (validity : Z) : pki (result PEMCert) :=
  match X509KeyPair (certBytes ca) (keyBytes ca) with
  | Err e => Ret (Err e)
  | Ok ([], _) => Panic "runtime error: index out of range [0] with length 0"
  | Ok (der :: _, caKey) =>
      match ParseCertificate der with
      | Err e => Ret (Err e)
      | Ok cacert =>
          let! r := pask (GenerateKey 4096) in
          match r with
          | Err e => Ret (Err e)
          | Ok keypair =>
              let! r := pask (RandInt (Z.shiftl 1 128)) in
              match r with
              | Err e => Ret (Err e)
              | Ok serial =>
                  let! now := pask Now in
                  let notAfter := now + orAYear validity in
                  let! notBefore := pask Now in
                  signAndEncode (leafTemplate commonName orgUnit dnsnames serial notBefore notAfter)
                    cacert keypair caKey
              end
          end
      end
  end.

(** ** What the standard library documents *)

Definition psaw (h : phist) (q : preq) (r : presp q) : Prop := Ev q r ∈ h.

(** The times of a certificate have no fractions of a second. *)
Definition seconds (t : Z) : Z := t / 1000000000 * 1000000000.

Definition subjectOf (parent : Certificate + X509Cert) : string :=
  match parent with
  | inl t => rawName (ct_CommonName t) (ct_OrganizationalUnit t)
  | inr c => x_RawSubject c
  end.

(** The certificates that were created in [h] parse to what the template says, with the name of the
    parent as issuer; PEM can be decoded; and the text of a certificate and of its key is a key
    pair. *)
Record documented (h : phist) : Prop := {
  doc_create t parent pub priv der :
    psaw h (CreateCertificate t parent pub priv) (Ok der) ->
    ParseCertificate der =
      Ok (mkX509 (seconds (ct_NotAfter t)) (subjectOf parent)
            (rawName (ct_CommonName t) (ct_OrganizationalUnit t)));
  doc_pem type_ der : pemDecode (pemEncode type_ der) = Some der;
  doc_pair t parent key priv der :
    psaw h (CreateCertificate t parent (Public key) priv) (Ok der) ->
    X509KeyPair (pemEncode "CERTIFICATE" der)
      (pemEncode "RSA PRIVATE KEY" (MarshalPKCS1PrivateKey key)) = Ok ([der], key) }.

(** The text of a certificate parses to this. *)
Definition reads_as (text : string) (c : X509Cert) : Prop :=
  exists der, pemDecode text = Some der /\ ParseCertificate der = Ok c.

(** ** Lemmas *)

Definition leafOf (cacert : X509Cert) (commonName orgUnit : string) (notAfter : Z) : X509Cert :=
  mkX509 (seconds notAfter) (x_RawSubject cacert) (rawName commonName [orgUnit]).

(** What a certificate that was returned is: signed with the key of the authority, for the time
    that was read. *)
Definition issued (h : phist) (ca : PEMCert) (commonName orgUnit : string) (dnsnames : list string)
    (validity : Z) (cert : PEMCert) : Prop :=
  exists caDer chain caKey cacert serial notBefore now keypair der pkcs8key,
    X509KeyPair (certBytes ca) (keyBytes ca) = Ok (caDer :: chain, caKey) /\
    ParseCertificate caDer = Ok cacert /\
    psaw h (CreateCertificate
              (leafTemplate commonName orgUnit dnsnames serial notBefore (now + orAYear validity))
              (inr cacert) (Public keypair) caKey) (Ok der) /\
    psaw h Now now /\ psaw h (GenerateKey 4096) (Ok keypair) /\
    MarshalPKCS8PrivateKey keypair = Ok pkcs8key /\
    cert = mkPEM (pemEncode "CERTIFICATE" der) (pemEncode "PRIVATE KEY" pkcs8key).

Lemma psaw_here q (r : presp q) h : psaw (Ev q r :: h) q r.
Proof. constructor. Qed.
Lemma psaw_there e q (r : presp q) h : psaw h q r -> psaw (e :: h) q r.
Proof. by constructor. Qed.

(** An error is one of the authority, or the answer to a request. *)
Definition unusable (ca : PEMCert) (e : err) : Prop :=
  X509KeyPair (certBytes ca) (keyBytes ca) = Err e \/
  exists der chain key, X509KeyPair (certBytes ca) (keyBytes ca) = Ok (der :: chain, key) /\
                        ParseCertificate der = Err e.
Definition failed (h : phist) (e : err) : Prop :=
  psaw h (RandInt (Z.shiftl 1 128)) (Err e) \/ psaw h (GenerateKey 4096) (Err e) \/
  (exists t parent pub priv, psaw h (CreateCertificate t parent pub priv) (Err e)) \/
  (exists key, MarshalPKCS8PrivateKey key = Err e).

Definition signing_done (ca : PEMCert) (commonName orgUnit : string) (dnsnames : list string)
    (validity : Z) (h : phist) (o : outcome (result PEMCert)) : Prop :=
  match o with
  | Returned (Ok cert) => issued h ca commonName orgUnit dnsnames validity cert
  | Returned (Err e) => unusable ca e \/ failed h e
  | Panicked _ => exists key, X509KeyPair (certBytes ca) (keyBytes ca) = Ok ([], key)
  end.

Lemma wp_CreateAndSign ca cn ou dns v :
  wp (CreateAndSignCertificate ca cn ou dns v) (λ _ _, True) (signing_done ca cn ou dns v) [].
Proof.
  unfold CreateAndSignCertificate, signAndEncode.
  repeat wp_step; try done; cbn [signing_done]; subst; unfold unusable, failed;
    try (eauto 10 using psaw_here, psaw_there; done).
  do 10 eexists. split_and!; eauto 10 using psaw_here, psaw_there.
Qed.

Lemma run_CreateAndSign (pw : penv) ca cn ou dns v :
  let r := run pw (CreateAndSignCertificate ca cn ou dns v) [] in signing_done ca cn ou dns v r.2 r.1.
Proof. cbv zeta. eapply wp_sound; [apply wp_CreateAndSign|done]. Qed.

Lemma issued_reads h ca cn ou dns v cert :
  documented h -> issued h ca cn ou dns v cert ->
  exists caDer chain caKey cacert now,
    X509KeyPair (certBytes ca) (keyBytes ca) = Ok (caDer :: chain, caKey) /\
    ParseCertificate caDer = Ok cacert /\ psaw h Now now /\
    reads_as (certBytes cert) (leafOf cacert cn ou (now + orAYear v)).
Proof.
  intros [Hc Hp _] (caDer & chain & caKey & cacert & s & nb & now & k & der & k8 & H1 & H2 & H3 & H4 & _ & _ & ->).
  exists caDer, chain, caKey, cacert, now. split_and!; try done. exists der. split; [apply Hp|].
  by rewrite (Hc _ _ _ _ _ H3).
Qed.

(** A generated authority: its certificate was signed with its own key. *)
Definition generated (h : phist) (name : string) (ca : PEMCert) : Prop :=
  exists serial notBefore notAfter key der,
    let t := caTemplate name serial notBefore notAfter in
    psaw h (CreateCertificate t (inl t) (Public key) key) (Ok der) /\
    ca = mkPEM (pemEncode "CERTIFICATE" der) (pemEncode "RSA PRIVATE KEY" (MarshalPKCS1PrivateKey key)).

Lemma wp_GenerateCA name :
  wp (GenerateCA name) (λ _ _, True)
    (λ h o, match o with
            | Returned (Ok ca) => generated h name ca
            | Returned (Err e) => failed h e
            | Panicked _ => False
            end) [].
Proof.
  unfold GenerateCA. repeat wp_step; try done; subst; unfold failed;
    try (eauto 10 using psaw_here, psaw_there; done).
  do 5 eexists. split; [apply psaw_here|done].
Qed.

Lemma CAFromSecret_SecretDataCA ca : CAFromSecret (SecretDataCA ca) = ca.
Proof. by destruct ca. Qed.

Lemma generated_pair h name ca :
  documented h -> generated h name ca ->
  exists der key notAfter,
    X509KeyPair (certBytes ca) (keyBytes ca) = Ok ([der], key) /\ pemDecode (certBytes ca) = Some der /\
    ParseCertificate der = Ok (mkX509 (seconds notAfter) (rawName name []) (rawName name [])).
Proof.
  intros [Hc Hp Hk] (s & nb & na & key & der & Hs & ->). exists der, key, na. cbn [certBytes keyBytes].
  split_and!; [by eapply Hk|apply Hp|]. by rewrite (Hc _ _ _ _ _ Hs).
Qed.

Lemma seconds_le t : seconds t <= t.
Proof. unfold seconds. rewrite Z.mul_comm. by apply Z.mul_div_le. Qed.

Lemma orAYear_int64 v : v < 2 ^ 63 -> orAYear v < 2 ^ 63.
Proof. unfold orAYear. by case_bool_decide. Qed.

Lemma days_left_kept (x rot : Z) : 0 <= rot -> x < 2 ^ 63 -> rot * (24 * hour) <= x ->
  ~ Z.quot (saturate x) (24 * hour) < rot.
Proof.
  intros Hr Hx H. assert (saturate x = x) as -> by (unfold saturate, hour in *; lia).
  rewrite Z.quot_div_nonneg by (unfold hour in *; lia).
  apply Z.le_ngt, Z.div_le_lower_bound; unfold hour in *; lia.
Qed.
Lemma days_left_due (x rot : Z) : 0 < rot -> x < rot * (24 * hour) ->
  Z.quot (saturate x) (24 * hour) < rot.
Proof.
  intros Hr H. assert (saturate x < rot * (24 * hour)) by (unfold saturate, hour in *; lia).
  destruct (decide (0 <= saturate x)).
  - rewrite Z.quot_div_nonneg by (unfold hour in *; lia). apply Z.div_lt_upper_bound; unfold hour in *; lia.
  - pose proof (Z.quot_opp_l (saturate x) (24 * hour) ltac:(done)).
    pose proof (Z.quot_pos (- saturate x) (24 * hour) ltac:(lia) ltac:(done)). lia.
Qed.

Lemma run_renewal (instance : OpenSearchCluster) cd side (w : oenv) text c :
  contextSide instance (cd_certContext cd) = Some side -> reads_as text c ->
  run w (certShouldBeRenewed instance cd text) [] =
    let now := w (Local_ TimeNow) [] in
    (Returned (bool_decide (0 < tl_RotateDaysBeforeExpiry side) &&
               bool_decide (Z.quot (saturate (x_NotAfter c - now)) (24 * hour) <
                            tl_RotateDaysBeforeExpiry side)),
     [Ev (Local_ TimeNow) now]).
Proof.
  intros Hs (der & Hp & Hc). unfold certShouldBeRenewed, getDaysRemainingFromCertificate.
  by rewrite Hs, Hp, Hc.
Qed.

Lemma run_kept (instance : OpenSearchCluster) ca cd (w : oenv) text h :
  run w (certShouldBeRenewed instance cd text) [] = (Returned false, h) ->
  run w (generateNewCertIfNeeded instance ca cd (Some text)) [] = (Returned (Ok None), h).
Proof. intros H. unfold generateNewCertIfNeeded. by rewrite !run_bind, H. Qed.

Definition signRequest (instance : OpenSearchCluster) (ca : PEMCert) (cd : certDescription) : local_op :=
  SignCertificate ca (cd_commonName cd) (cl_Name instance) (cd_dnsNames cd)
    (orAYear (resolveCertDuration instance (cd_certContext cd))).

Lemma run_renewed (instance : OpenSearchCluster) ca cd (w : oenv) text h :
  run w (certShouldBeRenewed instance cd text) [] = (Returned true, h) ->
  exists a, saw (run w (generateNewCertIfNeeded instance ca cd (Some text)) []).2
              (Local_ (signRequest instance ca cd)) a.
Proof.
  intros H. unfold generateNewCertIfNeeded. rewrite !run_bind, H. cbn [run negb].
  rewrite run_bind. unfold signCertificate. cbn. eexists. apply saw_here.
Qed.

(** ** Theorems *)

(** C40: a certificate in its life: the one that signing returns for a node, with the duration of the
    specification, is kept by later reconciliations, which then only read the clock, as long as
    rotation is off or at least the configured days are left; but if the duration is shorter than
    these days, every reconciliation, from the next on, signs a new one. *)
Theorem issued_certificate_rotation (instance : OpenSearchCluster) (ca : PEMCert)
    (cd : certDescription) (side : TlsSide) (pw : penv) (cert : PEMCert) :
  let duration := resolveCertDuration instance (cd_certContext cd) in
  let signing := run pw (CreateAndSignCertificate ca (cd_commonName cd) (cl_Name instance)
                           (cd_dnsNames cd) duration) [] in
  let rotation := tl_RotateDaysBeforeExpiry side * (24 * hour) in
  contextSide instance (cd_certContext cd) = Some side -> duration < 2 ^ 63 ->
  documented signing.2 -> signing.1 = Returned (Ok cert) ->
  exists issuedAt, psaw signing.2 Now issuedAt /\
    forall w : oenv, let now := w (Local_ TimeNow) [] in issuedAt <= now ->
      let later := run w (generateNewCertIfNeeded instance ca cd (Some (certBytes cert))) [] in
      (rotation <= 0 \/ now + rotation <= seconds (issuedAt + orAYear duration) ->
         later = (Returned (Ok None), [Ev (Local_ TimeNow) now])) /\
      (0 < rotation -> orAYear duration < rotation ->
         exists a, saw later.2 (Local_ (signRequest instance ca cd)) a).
Proof.
  cbv zeta. intros Hs Hd Hdoc Hr.
  pose proof (run_CreateAndSign pw ca (cd_commonName cd) (cl_Name instance) (cd_dnsNames cd)
                (resolveCertDuration instance (cd_certContext cd))) as Hw. cbv zeta in Hw. rewrite Hr in Hw.
  destruct (issued_reads _ _ _ _ _ _ _ Hdoc Hw) as (caDer & chain & caKey & cacert & t & _ & _ & Ht & Hc).
  exists t. split; [done|]. intros w Hn. pose proof (run_renewal _ _ _ w _ _ Hs Hc) as Hrun.
  cbv zeta in Hrun. cbn [x_NotAfter leafOf] in Hrun.
  set (d := orAYear _) in *. set (now := w (Local_ TimeNow) []) in *.
  assert (seconds (t + d) <= t + d) by apply seconds_le.
  assert (d < 2 ^ 63) by by apply orAYear_int64.
  split; [intros Hk|intros Hpos Hk].
  - apply run_kept. rewrite Hrun. do 2 f_equal. destruct (decide (0 < tl_RotateDaysBeforeExpiry side)).
    + rewrite (bool_decide_false (Z.quot _ _ < _)); [by rewrite andb_false_r|].
      apply days_left_kept; unfold hour in *; lia.
    + by rewrite bool_decide_false.
  - eapply run_renewed. rewrite Hrun, !bool_decide_true; [done| |unfold hour in *; lia].
    apply days_left_due; unfold hour in *; lia.
Qed.

(** The chain of trust: a generated authority, stored in its secret and read back, signs without
    a panic, an error is the answer to a request for a number, a key or a signature, and what it
    signs is accepted by the check of the admin certificate against the same authority. *)
Theorem generated_ca_signs (name : string) (ca : PEMCert) (pw pw' : penv) commonName orgUnit
    (dnsnames : list string) (validity : Z) :
  let made := run pw (GenerateCA name) [] in
  let stored := CAFromSecret (SecretDataCA ca) in
  let signing := run pw' (CreateAndSignCertificate stored commonName orgUnit dnsnames validity) [] in
  documented made.2 -> documented signing.2 -> made.1 = Returned (Ok ca) ->
  match signing.1 with
  | Returned (Ok cert) =>
      forall w : oenv, exists c,
        (run w (NewCertValidater (certBytes cert)) []).1 = Returned (Ok c) /\
        (run w (IsSignedByCA c stored) []).1 = Returned (Ok true)
  | Returned (Err e) => failed signing.2 e
  | Panicked _ => False
  end.
Proof.
  cbv zeta. rewrite CAFromSecret_SecretDataCA. intros Hd Hd' Hm.
  destruct (wp_sound pw _ _ _ [] (wp_GenerateCA name) I) as [Hg _]. rewrite Hm in Hg.
  destruct (generated_pair _ _ _ Hd Hg) as (der & key & na & Hk & Hp & Hc).
  pose proof (run_CreateAndSign pw' ca commonName orgUnit dnsnames validity) as Hs. cbv zeta in Hs.
  destruct (run pw' _ []) as [[[cert|e]|m] h]; cbn [fst snd signing_done] in *.
  - destruct (issued_reads _ _ _ _ _ _ _ Hd' Hs) as (d' & ch & k' & cc & now & E & Ep & _ & (der' & Hp' & Hc')).
    rewrite Hk in E. simplify_eq. intros w. exists (leafOf cc commonName orgUnit (now + orAYear validity)).
    unfold IsSignedByCA, NewCertValidater. rewrite Hp, Hp', Hc'. split; [done|].
    rewrite Ep, run_bind. cbn. by rewrite bool_decide_true.
  - destruct Hs as [[Hs|(d' & ch & k' & Hs & Hs')]|Hs]; [congruence| |done]. congruence.
  - destruct Hs as [k' Hs]. congruence.
Qed.

End Pki.

(** ** The names can be read back *)

Definition stringOf (l : list Z) : string :=
  String.string_of_list_ascii (map (fun z => Ascii.ascii_of_nat (Z.to_nat z)) l).
(** The DNS names among general names have the tag 2 of the context. *)
Definition readDnsNames (value : list Z) : option (list string) :=
  match readSequence value with
  | None => None
  | Some es => Some (map (fun e => stringOf e.2)
                       (filter (fun e : Z * list Z => e.1 = identifier 2 2 false) es))
  end.

Lemma stringOf_bytesOf s : stringOf (bytesOf s) = s.
Proof.
  unfold stringOf, bytesOf. rewrite map_map.
  rewrite (map_ext _ id) by (intros c; rewrite Nat2Z.id; apply Ascii.ascii_nat_embedding).
  rewrite map_id. apply String.string_of_list_ascii_of_string.
Qed.

Lemma len_app l k : len (l ++ k) = len l + len k.
Proof. unfold len. rewrite length_app. lia. Qed.
Lemma int64_app_r l k : int64 (len (l ++ k)) -> int64 (len k).
Proof. rewrite len_app. unfold int64, len. lia. Qed.
Lemma int64_app_l l k : int64 (len (l ++ k)) -> int64 (len l).
Proof. rewrite len_app. unfold int64, len. lia. Qed.

Lemma written_names names :
  int64 (len (concat (map marshalRaw (map (fun name => mkRaw 2 2 false (bytesOf name) []) names)))) ->
  Forall2 written (map (fun name => mkRaw 2 2 false (bytesOf name) []) names)
    (map (fun name => (identifier 2 2 false, bytesOf name)) names).
Proof.
  induction names as [|name names IH]; intros H; constructor.
  - apply written_raw. cbn [map concat] in H. apply int64_app_l in H. by apply int64_app_r in H.
  - apply IH. cbn [map concat] in H. by eapply int64_app_r.
Qed.

(** C33: the names of a certificate: the extension is the critical one for alternative names, and a
    reader of its encoding finds exactly the given DNS names, in their order, whatever bytes they
    consist of, besides one registered identifier. *)
Theorem san_roundtrip (commonName : string) (dnsNames : list string) :
  let san := calculateExtension commonName dnsNames in
  int64 (len (ex_Value san)) ->
  ex_Id san = [2; 5; 29; 17] /\ ex_Critical san = true /\
  readDnsNames (ex_Value san) = Some dnsNames /\
  (readSequence (ex_Value san) ≫= head) = Some (identifier 2 8 false, [42; 3; 4; 5; 5]).
Proof.
  cbv zeta. unfold calculateExtension, readDnsNames. cbn [ex_Id ex_Critical ex_Value]. intros H.
  apply int64_app_r in H.
  rewrite (read_write _ ((identifier 2 8 false, [42; 3; 4; 5; 5]) ::
             map (fun name => (identifier 2 2 false, bytesOf name)) dnsNames)); [|constructor|done].
  - split_and!; try done. f_equal. rewrite filter_cons_False by done. clear H.
    induction dnsNames as [|name names IH]; [done|]. cbn [map]. rewrite filter_cons_True by done.
    cbn [map snd]. f_equal; [apply stringOf_bytesOf|apply IH].
  - by intros l.
  - cbn [map concat] in H. by eapply written_names, int64_app_r.
Qed.

(** ** Examples *)

Module PkiSamples.
Import Samples.

(** One key; a text is its own encoding. *)
#[local] Instance texts : X509Lib :=
  {| pemDecode := Some;
     ParseCertificate := fun der =>
       if der == "leaf" then Ok (mkX509 (seconds (5 + aYear)) "os" "os-nodes-0")
       else Ok (mkX509 (seconds (5 + 10 * aYear)) "os" "os") |}.
#[local] Instance keys : PkiLib :=
  {| PrivateKey := unit; PublicKey := unit; Public := id;
     MarshalPKCS1PrivateKey := fun _ => "key"; MarshalPKCS8PrivateKey := fun _ => Ok "key";
     pemEncode := fun _ text => text; X509KeyPair := fun cert _ => Ok ([cert], tt);
     AddDate := fun t years _ _ => t + years * aYear; rawName := fun commonName _ => commonName |}.

Definition signer : penv := fun q _ =>
  match q return presp q with
  | RandInt _ => Ok 1
  | GenerateKey _ => Ok tt
  | Now => 5
  | CreateCertificate _ (inl _) _ _ => Ok "ca"
  | CreateCertificate _ (inr _) _ _ => Ok "leaf"
  end.

(** An exchange as the documentation has it. *)
Definition as_documented (e : @event preq presp) : Prop :=
  match e with
  | Ev q r =>
      match q return presp q -> Prop with
      | CreateCertificate t parent pub priv => fun r =>
          forall der, r = Ok der ->
            ParseCertificate der =
              Ok (mkX509 (seconds (ct_NotAfter t)) (subjectOf parent) (ct_CommonName t))
      | _ => fun _ => True
      end r
  end.
Lemma documented_all (h : phist) : Forall as_documented h -> documented h.
Proof.
  intros H. split; [|done|by intros ? ? [] ? ?]. intros t parent pub priv der Hs.
  by apply (proj1 (Forall_forall _ _) H _ Hs).
Qed.

Definition a_ca : PEMCert := mkPEM "ca" "key".
Definition node : certDescription := mkCertDescription CertContextTransport "os-nodes-0" ["os-nodes-0"].
Definition rotating (days : Z) : TlsSide :=
  mkTlsSide (Some true) true "" "" true days None false [] [] None.
Definition a_cluster (days : Z) : OpenSearchCluster :=
  mkCluster "os" "ns" "uid" None []
    (mkClusterSpec (plain_general false ∅ [])
       false (Some (mkSecurity (Some (mkTlsConfig (Some (rotating days)) None)) None)) [nodes]
       no_dashboards no_init_helper no_bootstrap) (running []).

(** Ten days later. *)
Definition ten_days_later : oenv := fun q _ =>
  match q return resp q with
  | Local_ TimeNow => 5 + 240 * hour
  | q' => down q'
  end.

Definition signing := run signer (CreateAndSignCertificate a_ca "os-nodes-0" "os" ["os-nodes-0"] aYear) [].
Lemma signing_documented : documented signing.2.
Proof.
  apply documented_all. repeat constructor. intros der E. change (Ok "leaf" = Ok der) in E. simplify_eq.
  reflexivity.
Qed.
Lemma issuedAt_only (t : presp Now) : psaw signing.2 Now t -> t = 5.
Proof.
  intros H. assert (Forall (λ e, match e with Ev q r => match q return presp q -> Prop with
    | Now => fun t => t = 5 | _ => fun _ => True end r end) signing.2) as F by (repeat constructor).
  apply (proj1 (Forall_forall _ _) F _ H).
Qed.

(** A year's certificate is kept with rotation thirty days before the end, and replaced at once with
    rotation four hundred days before. *)
Lemma issued_certificate_rotation_witness :
  run ten_days_later (generateNewCertIfNeeded (a_cluster 30) a_ca node (Some "leaf")) [] =
    (Returned (Ok None), [Ev (Local_ TimeNow) (5 + 240 * hour)]) /\
  exists a, saw (run ten_days_later (generateNewCertIfNeeded (a_cluster 400) a_ca node (Some "leaf")) []).2
              (Local_ (signRequest (a_cluster 400) a_ca node)) a.
Proof.
  split.
  - destruct (issued_certificate_rotation (a_cluster 30) a_ca node (rotating 30) signer
                (mkPEM "leaf" "key") eq_refl eq_refl signing_documented eq_refl) as (t & Ht & Hk).
    apply issuedAt_only in Ht as ->. apply (Hk ten_days_later); [done|]. by right.
  - destruct (issued_certificate_rotation (a_cluster 400) a_ca node (rotating 400) signer
                (mkPEM "leaf" "key") eq_refl eq_refl signing_documented eq_refl) as (t & Ht & Hk).
    apply issuedAt_only in Ht as ->. by apply (Hk ten_days_later).
Defined.

Lemma generated_ca_signs_witness :
  exists c, (run ten_days_later (NewCertValidater "leaf") []).1 = Returned (Ok c) /\
            (run ten_days_later (IsSignedByCA c a_ca) []).1 = Returned (Ok true).
Proof.
  assert (documented (run signer (GenerateCA "os") []).2) as Hd.
  { apply documented_all. repeat constructor. intros der E. change (Ok "ca" = Ok der) in E. simplify_eq.
    reflexivity. }
  exact (generated_ca_signs "os" a_ca signer signer "os-nodes-0" "os" ["os-nodes-0"] aYear Hd
           signing_documented eq_refl ten_days_later).
Defined.

Lemma san_roundtrip_witness :
  readDnsNames (ex_Value (calculateExtension "os" ["os"; "os.ns.svc"])) = Some ["os"; "os.ns.svc"].
Proof. by apply (san_roundtrip "os" ["os"; "os.ns.svc"]). Defined.

(** A name that needs a length of more than one byte. *)
Example long_name :
  take 12 (ex_Value (calculateExtension "" [String.concat "" (replicate 200 "a")])) =
    [48; 129; 210; 136; 5; 42; 3; 4; 5; 5; 130; 129].
Proof. reflexivity. Qed.

End PkiSamples.
