(* ===== verification/Configuration.v ===== *)
(** * Configuration: the configuration files of a cluster

    Models [pkg/reconcilers/configuration.go] and [CreateAdditionalVolumes] of
    [pkg/reconcilers/util/util.go]: the settings of [opensearch.yml], the config maps that hold
    them, the volumes, and the hash of each pool's configuration, a change of which restarts its
    pods. *)

From S2P Require Import Prelude Prog Resources Api Json K8sClient Helpers OsClient OsData Fixtures RContext.

(** ** Additional volumes *)

Definition opt_source {A} (o : option A) (f : A -> VolumeSource) : list VolumeSource :=
  match o with Some a => [f a] | None => [] end.
Definition flag_source (b : bool) (s : OtherSource) : list VolumeSource :=
  if b then [VolOther s] else [].

Definition volumeSources (v : AdditionalVolume) : list VolumeSource :=
  opt_source (av_ConfigMap v) VolConfigMap ++ opt_source (av_Secret v) VolSecret ++
  flag_source (av_EmptyDir v) SrcEmptyDir ++
  opt_source (av_CSI v) (fun b => VolOther (SrcCSI b)) ++
  opt_source (av_PersistentVolumeClaim v) (fun b => VolOther (SrcPVC b)) ++
  flag_source (av_Projected v) SrcProjected ++ flag_source (av_NFS v) SrcNFS ++
  flag_source (av_HostPath v) SrcHostPath.

(** Each source that has a say overwrites what the ones before it have set. *)
Definition volumeReadOnly (v : AdditionalVolume) : bool :=
  let readOnly := true in
  let readOnly := if av_EmptyDir v then false else readOnly in
  let readOnly := match av_CSI v with Some (Some b) => b | _ => readOnly end in
  let readOnly := match av_PersistentVolumeClaim v with Some b => b | None => readOnly end in
  if av_HostPath v then false else readOnly.

Definition volumeSubPath (v : AdditionalVolume) : string :=
  if bool_decide (is_Some (av_ConfigMap v)) || bool_decide (is_Some (av_Secret v)) ||
     bool_decide (is_Some (av_CSI v)) || av_Projected v
  then TrimSpace (av_SubPath v) else "".

Definition volumeMount (v : AdditionalVolume) : VolumeMount :=
  mkMount (av_Name v) (volumeReadOnly v) (av_Path v) (volumeSubPath v).

(** The names of the volumes that restart pods, sorted, and [namesIndex]: the last such volume of
    a name. *)
Definition restartNames (vs : list AdditionalVolume) : list string :=
  merge_sort String.le (av_Name <$> filter (λ v, av_RestartPods v = true) vs).
Definition namesIndex (vs : list AdditionalVolume) (name : string) : option AdditionalVolume :=
  last (filter (λ v, av_RestartPods v = true /\ av_Name v = name) vs).

(** The values of a map in the order of its keys, one after the other. *)
Definition sortedKeys (m : gmap string string) : list string :=
  merge_sort String.le (map_to_list m).*1.
Definition mapContent (m : gmap string string) : string :=
  foldr (fun k s => default "" (m !! k) +:+ s) "" (sortedKeys m).

Definition volumeContent (namespace : string) (vs : list AdditionalVolume) (name : string)
    (retData : string) : io (string + err) :=
  let! volumeConfig := deref (namesIndex vs name) in
  let! r := match av_ConfigMap volumeConfig with
            | None => Ret (inl (retData, true))
            | Some cmName =>
                let! r := GetConfigMap cmName namespace in
                Ret match r with
                    | Ok cm => inl (retData +:+ mapContent (cm_Data cm), true)
                    | Err e => if IsNotFound e then inl (retData, false) else inr e
                    end
            end in
  match r with
  | inr e => Ret (inr e)
  | inl (retData, false) => Ret (inl retData)
  | inl (retData, true) =>
      match av_Secret volumeConfig with
      | None => Ret (inl retData)
      | Some secretName =>
          let! r := GetSecret secretName namespace in
          Ret match r with
              | Ok secret => inl (retData +:+ mapContent (secret_Data secret))
              | Err e => if IsNotFound e then inl retData else inr e
              end
      end
  end.

Definition CreateAdditionalVolumes (namespace : string) (volumeConfigs : list AdditionalVolume)
    : io (result (list Volume * list VolumeMount * string)) :=
  let! r := for_range (restartNames volumeConfigs) "" (volumeContent namespace volumeConfigs) in
  Ret match r with
      | inl retData =>
          Ok (flat_map (fun v => map (mkVolume (av_Name v)) (volumeSources v)) volumeConfigs,
              map volumeMount volumeConfigs, retData)
      | inr e => Err e
      end.

(** ** Settings *)

(** The value a setting stands for; a floating-point number stays in its notation. *)
Inductive cfgval :=
| CBool (b : bool) | CArr (l : list json) | CObj (m : list (string * json)) | CInt (z : Z)
| CFloat (text : string) | CStr (s : string).

(** [json.Unmarshal], [strconv.ParseFloat] (whether it is one), [yaml.Marshal] and the hexadecimal
    SHA-1 sum. *)
Class ConfigLib := {
  UnmarshalJSON : string -> option json;
  IsFloat : string -> bool;
  YamlMarshal : list (string * cfgval) -> result string;
  Sha1Hex : string -> string }.

Definition first_last (s : string) (a b : ascii) : bool :=
  bool_decide (2 <= String.length s)%nat && bool_decide (String.get 0 s = Some a) &&
  bool_decide (String.get (String.length s - 1) s = Some b).

Definition grpcHosts (l : list string) : string := "[" +:+ JoinWith (map Quote l) ", " +:+ "]".
Definition optSetting (k : string) (o : option Z) : list (string * string) :=
  match o with Some z => [(k, Itoa z)] | None => [] end.
Definition textSetting (k v : string) : list (string * string) := if v == "" then [] else [(k, v)].
Definition hostSetting (k : string) (l : list string) : list (string * string) :=
  match l with [] => [] | _ => [(k, grpcHosts l)] end.

Definition grpcSettings (grpc : option GrpcConfig) : list (string * string) :=
  match grpc with
  | None => []
  | Some g =>
      if negb (grpc_Enable g) then []
      else
        [("aux.transport.types", "[" +:+ Quote "transport-grpc" +:+ "]");
         ("aux.transport.transport-grpc.port",
          if grpc_Port g == "" then "9400-9500" else grpc_Port g)] ++
        hostSetting "grpc.host" (grpc_Host g) ++ hostSetting "grpc.bind_host" (grpc_BindHost g) ++
        hostSetting "grpc.publish_host" (grpc_PublishHost g) ++
        optSetting "grpc.publish_port" (grpc_PublishPort g) ++
        optSetting "grpc.netty.worker_count" (grpc_NettyWorkerCount g) ++
        optSetting "grpc.netty.executor_count" (grpc_NettyExecutorCount g) ++
        optSetting "grpc.netty.max_concurrent_connection_calls"
          (grpc_MaxConcurrentConnectionCalls g) ++
        textSetting "grpc.netty.max_connection_age" (grpc_MaxConnectionAge g) ++
        textSetting "grpc.netty.max_connection_idle" (grpc_MaxConnectionIdle g) ++
        textSetting "grpc.netty.keepalive_timeout" (grpc_KeepaliveTimeout g) ++
        textSetting "grpc.netty.max_msg_size" (grpc_MaxMsgSize g)
  end.

Definition securitySettings (enabled : bool) : list (string * string) :=
  if enabled then
    [("plugins.security.audit.type", "internal_opensearch");
     ("plugins.security.enable_snapshot_restore_privilege", "true");
     ("plugins.security.check_snapshot_restore_write_privileges", "true");
     ("plugins.security.restapi.roles_enabled",
      "[" +:+ Quote "all_access" +:+ ", " +:+ Quote "security_rest_api_access" +:+ "]");
     ("plugins.security.system_indices.enabled", "true");
     ("plugins.security.system_indices.indices",
      "[" +:+ JoinWith (map Quote AdditionalSystemIndices) "," +:+ "]")]
  else [("plugins.security.disabled", "true")].

Section Configuration.
Context `{SV : Semver} `{CL : CtrlLib} `{CF : ConfigLib} `{CB : Combiner}.
Context (instance : OpenSearchCluster).

Definition parseConfigValue (value : string) : cfgval :=
  let number :=
    match Atoi value with
    | Some num => CInt num
    | None => if IsFloat value then CFloat value else CStr value
    end in
  if value == "true" then CBool true
  else if value == "false" then CBool false
  else
    match (if first_last value "[" "]" then UnmarshalJSON value else None) with
    | Some (JArr arr) => CArr arr
    | _ =>
        match (if first_last value "{" "}" then UnmarshalJSON value else None) with
        | Some (JObj obj) => CObj obj
        | _ => number
        end
    end.

(** [yaml.Marshal] of a map, with its entries in some order; the order of the keys is taken. *)
Definition buildConfigString (config : gmap string string) : string :=
  let entries := (fun k => (k, default "" (config !! k))) <$> sortedKeys config in
  match YamlMarshal (prod_map id parseConfigValue <$> entries) with
  | Ok quoted => quoted
  | Err _ => foldr (fun kv s => kv.1 +:+ ": " +:+ kv.2 +:+ String "010" s) "" entries
  end.

Definition ownedConfigMap (name data : string) : result ConfigMap :=
  match SetControllerReference (cl_Name instance) (cl_UID instance) [] with
  | Err e => Err e
  | Ok refs => Ok (mkConfigMap name (cl_Namespace instance) {["opensearch.yml" := data]} refs)
  end.

Definition configName : string := cl_Name instance +:+ "-config".
Definition poolConfigName (nodePool : NodePool) : string :=
  cl_Name instance +:+ "-" +:+ np_Component nodePool +:+ "-config".

(** The settings of a pool: its own come last. *)
Definition mergedConfig (nodePool : NodePool) (config : gmap string string) : gmap string string :=
  np_AdditionalConfig nodePool ∪ config.

Definition generateHash (source : string) : string := Sha1Hex source.

Definition createHashForNodePool (nodePool : NodePool) (data volumeData : string)
    (c : ReconcilerContext) : ReconcilerContext * option Result :=
  match fetchNodePoolHash c (np_Component nodePool) with
  | None => (c, Some (mkResult true 0))
  | Some nodePoolHash =>
      (replaceNodePoolHash (mkHash (nh_Component nodePoolHash) (generateHash (data +:+ volumeData))) c,
       None)
  end.

(** Create a config map; the combined result so far, and whether to stop. *)
Definition storeConfigMap (name data : string) (result : CombinedResult)
    : io (CombinedResult + (Result * option err)) :=
  match ownedConfigMap name data with
  | Err e => Ret (inr (noResult, Some e))
  | Ok cm =>
      let! (_, (res, e)) := CreateConfigMap cm in
      let result := CombineResult result res e in
      Ret match c_Err result with
          | Some e => inr (c_Result result, Some e)
          | None => inl result
          end
  end.

(** Config maps for the pools that have settings of their own. *)
Definition poolConfigMap (config : gmap string string) (nodePool : NodePool)
    (result : CombinedResult) : io (CombinedResult + (Result * option err)) :=
  if decide (np_AdditionalConfig nodePool = ∅) then Ret (inl result)
  else storeConfigMap (poolConfigName nodePool)
         (buildConfigString (mergedConfig nodePool config)) result.

Definition configVolume (c : ReconcilerContext) : ReconcilerContext :=
  rc_mount (mkVolume "config" (VolConfigMap configName))
    (mkMount "config" false
       (GetOpenSearchHome (sp_General (cl_Spec instance)) +:+ "/config/opensearch.yml")
       "opensearch.yml") c.

(** The hashes of all pools. *)
Definition hashPools (addVolumeData : string) (config : gmap string string)
    (pools : list NodePool) (c : ReconcilerContext) (result : CombinedResult)
    : ReconcilerContext * CombinedResult :=
  foldl (fun '(c, result) nodePool =>
    let '(c, res) := createHashForNodePool nodePool
                       (buildConfigString (mergedConfig nodePool config)) addVolumeData c in
    (c, CombineResult result res None)) (c, result) pools.

(** There is nothing to configure. *)
Definition hasNoConfig (c : ReconcilerContext) : bool :=
  bool_decide (g_AdditionalVolumes (sp_General (cl_Spec instance)) = []) &&
  bool_decide (rc_OpenSearchConfig c = ∅) &&
  bool_decide (g_AdditionalConfig (sp_General (cl_Spec instance)) = ∅) &&
  forallb (fun p => bool_decide (np_AdditionalConfig p = ∅)) (sp_NodePools (cl_Spec instance)).

(** The end of [Reconcile]: the config maps of the pools, the volumes and the hashes. *)
Definition configurePools (config : gmap string string) (c : ReconcilerContext)
    (result : CombinedResult) : io (ReconcilerContext * (Result * option err)) :=
  let pools := sp_NodePools (cl_Spec instance) in
  let! r := for_range pools result (poolConfigMap config) in
  match r with
  | inr stop => Ret (c, stop)
  | inl result =>
      let! r := CreateAdditionalVolumes (cl_Namespace instance)
                  (g_AdditionalVolumes (sp_General (cl_Spec instance))) in
      match r with
      | Err e => let result := CombineErr result (Some e) in
                 Ret (c, (c_Result result, c_Err result))
      | Ok (addVolumes, addVolumeMounts, addVolumeData) =>
          let c := rc_set_volumes (addVolumes ++ rc_Volumes c)
                     (addVolumeMounts ++ rc_VolumeMounts c) c in
          let '(c, result) := hashPools addVolumeData config pools c result in
          Ret (c, (c_Result result, c_Err result))
      end
  end.

Definition ConfigurationReconcile (c : ReconcilerContext)
    : io (ReconcilerContext * (Result * option err)) :=
  let general := sp_General (cl_Spec instance) in
  if hasNoConfig c then Ret (c, (noResult, None))
  else
    let! enabled := IsSecurityPluginEnabled instance in
    let! c := AddConfigs (securitySettings enabled) c in
    let! c := AddConfigs (grpcSettings (g_Grpc general)) c in
    let! c := AddConfigs (map_to_list (g_AdditionalConfig general)) c in
    let config := rc_OpenSearchConfig c in
    if decide (config = ∅) then configurePools config c emptyCombined
    else
      let! r := storeConfigMap configName (buildConfigString config) emptyCombined in
      match r with
      | inr stop => Ret (c, stop)
      | inl result => configurePools config (configVolume c) result
      end.

End Configuration.

(** ** Lemmas *)

Lemma added_app l m k v : added (l ++ [(k, v)]) m = <[k := v]> (added l m).
Proof. unfold added. by rewrite foldl_app. Qed.

(** Adding the entries of a map, in whatever order. *)
Lemma added_lookup (l : list (string * string)) (m : gmap string string) :
  NoDup l.*1 -> added l m = list_to_map l ∪ m.
Proof.
  induction l as [|[k v] l IH] using rev_ind; intros Hn; [by rewrite list_to_map_nil, map_empty_union|].
  rewrite fmap_app in Hn. apply NoDup_app in Hn as (Hn & Hk & _). rewrite added_app, IH by done.
  rewrite list_to_map_snoc; [by rewrite insert_union_l|]. intros Hin. apply (Hk k Hin). by left.
Qed.
Lemma added_map (m m0 : gmap string string) : added (map_to_list m) m0 = m ∪ m0.
Proof. rewrite added_lookup by apply NoDup_fst_map_to_list. by rewrite list_to_map_to_list. Qed.

Section Theorems.
Context `{SV : Semver} `{CL : CtrlLib} `{CF : ConfigLib} `{CB : Combiner}.
Context (instance : OpenSearchCluster).
Let general := sp_General (cl_Spec instance).
Let pools := sp_NodePools (cl_Spec instance).

(** The settings of a cluster: those of the specification win over the gRPC ones, these over the
    ones of the security plugin, and these over what other reconcilers have collected. *)
Definition settings (enabled : bool) (c : ReconcilerContext) : gmap string string :=
  g_AdditionalConfig general ∪
  added (grpcSettings (g_Grpc general)) (added (securitySettings enabled) (rc_OpenSearchConfig c)).

(** The hash of a pool. *)
Definition poolHash (config : gmap string string) (volumeData : string) (p : NodePool)
    : NodePoolHash :=
  mkHash (np_Component p)
    (Sha1Hex (buildConfigString (np_AdditionalConfig p ∪ config) +:+ volumeData)).

Lemma CombineResult_requeue result res e :
  Requeue (c_Result (CombineResult result res e)) =
    match res with Some r => Requeue r | None => false end || Requeue (c_Result result).
Proof. destruct res as [r|]; cbn; [|done]. by destruct (Requeue r). Qed.

Lemma hashPools_spec data config l c result :
  NoDup (np_Component <$> l) ->
  let '(c', result') := hashPools data config l c result in
  (forall name, name ∉ (np_Component <$> l) -> fetchNodePoolHash c' name = fetchNodePoolHash c name) /\
  (forall p, p ∈ l -> is_Some (fetchNodePoolHash c (np_Component p)) ->
     fetchNodePoolHash c' (np_Component p) = Some (poolHash config data p)) /\
  (forall p, p ∈ l -> fetchNodePoolHash c (np_Component p) = None -> Requeue (c_Result result') = true) /\
  (Requeue (c_Result result) = true -> Requeue (c_Result result') = true).
Proof.
  revert c result. induction l as [|p l IH]; intros c result Hn; [cbn; split_and!; set_solver|].
  apply NoDup_cons in Hn as [Hp Hn]. unfold hashPools. cbn [foldl].
  destruct (createHashForNodePool _ _ _ c) as [c1 res] eqn:Ec.
  specialize (IH c1 (CombineResult result res None) Hn). unfold hashPools in IH.
  destruct (foldl _ _ l) as [c' result'] eqn:El. destruct IH as (I1 & I2 & I3 & I4).
  unfold createHashForNodePool in Ec.
  assert (forall name, name <> np_Component p -> fetchNodePoolHash c1 name = fetchNodePoolHash c name) as Hne.
  { intros name Hne. destruct (fetchNodePoolHash c (np_Component p)) as [x|] eqn:Ex; injection Ec as <- <-; [|done].
    apply fetchHash_spec in Ex as [Ex _]. rewrite fetch_replace. cbn [nh_Component].
    by rewrite bool_decide_false by congruence. }
  split_and!.
  - intros name [Hn1 Hn2]%not_elem_of_cons. rewrite I1 by done. by apply Hne.
  - intros q [->|Hq]%elem_of_cons Hs.
    + rewrite I1 by done. destruct Hs as [x Hx]. rewrite Hx in Ec. injection Ec as <- <-.
      pose proof Hx as Hx'. apply fetchHash_spec in Hx' as [Ex _]. rewrite fetch_replace, Hx.
      cbn [nh_Component]. rewrite !bool_decide_true by (done || by eexists). cbn. unfold poolHash.
      by rewrite Ex.
    + apply I2; [done|]. rewrite Hne; [done|]. intros E. apply Hp. rewrite <- E.
      by apply list_elem_of_fmap_2.
  - intros q [->|Hq]%elem_of_cons Hs.
    + apply I4. rewrite Hs in Ec. injection Ec as <- <-. by rewrite CombineResult_requeue.
    + eapply I3; [done|]. rewrite Hne; [done|]. intros E. apply Hp. rewrite <- E.
      by apply list_elem_of_fmap_2.
  - intros Hr. apply I4. rewrite CombineResult_requeue, Hr. apply orb_true_r.
Qed.

(** *** The content of the volumes *)

Definition seenMap (h : ohist) (name data : string) : Prop :=
  exists cm, saw h (Get KConfigMap name (cl_Namespace instance)) (Ok cm) /\ data = mapContent (cm_Data cm).
Definition seenSecret (h : ohist) (name data : string) : Prop :=
  exists s, saw h (Get KSecret name (cl_Namespace instance)) (Ok s) /\ data = mapContent (secret_Data s).
Definition absent (h : ohist) (k : kind) (name : string) : Prop :=
  exists e, saw h (Get k name (cl_Namespace instance)) (Err e) /\ IsNotFound e = true.

(** What a volume contributes: its config map (if that is missing, nothing), then its secret. *)
Inductive content (h : ohist) (v : AdditionalVolume) : string -> Prop :=
| co_no_map n : av_ConfigMap v = Some n -> absent h KConfigMap n -> content h v ""
| co_no_secret n a :
    (av_ConfigMap v = None /\ a = "" \/ exists m, av_ConfigMap v = Some m /\ seenMap h m a) ->
    av_Secret v = Some n -> absent h KSecret n -> content h v a
| co_both a b :
    (av_ConfigMap v = None /\ a = "" \/ exists m, av_ConfigMap v = Some m /\ seenMap h m a) ->
    (av_Secret v = None /\ b = "" \/ exists n, av_Secret v = Some n /\ seenSecret h n b) ->
    content h v (a +:+ b).

Lemma content_extends h h' v s : extends h h' -> content h v s -> content h' v s.
Proof.
  intros He. assert (forall n a, seenMap h n a -> seenMap h' n a) as H1.
  { intros n a (cm & ? & ?). exists cm. split; [by eapply saw_extends|done]. }
  assert (forall n a, seenSecret h n a -> seenSecret h' n a) as H2.
  { intros n a (x & ? & ?). exists x. split; [by eapply saw_extends|done]. }
  assert (forall k n, absent h k n -> absent h' k n) as H3.
  { intros k n (e & ? & ?). exists e. split; [by eapply saw_extends|done]. }
  destruct 1 as [n ? ?|n a [?|(m & ? & ?)] ? ?|a b [?|(m & ? & ?)] [?|(n & ? & ?)]];
    [eapply co_no_map|eapply co_no_secret|eapply co_no_secret|eapply co_both..]; eauto 10.
Qed.

(** The contents of the volumes that restart pods, in the order of their names. *)
Definition volume_data (h : ohist) (names : list string) (data : string) : Prop :=
  exists l, data = foldr String.append "" l /\
    Forall2 (λ name s, exists v, namesIndex (g_AdditionalVolumes general) name = Some v /\
                                 content h v s) names l.

Lemma volume_data_snoc h names data name v s :
  volume_data h names data -> namesIndex (g_AdditionalVolumes general) name = Some v ->
  content h v s -> volume_data h (names ++ [name]) (data +:+ s).
Proof.
  intros (l & -> & Hl) Hv Hc. exists (l ++ [s]). split.
  - rewrite foldr_app. cbn [foldr]. rewrite str_app_nil_r. clear. induction l as [|x l IH]; [done|].
    cbn [foldr]. by rewrite str_app_assoc, IH.
  - apply Forall2_app; [done|]. constructor; [by exists v|done].
Qed.
Lemma volume_data_extends h h' names data :
  extends h h' -> volume_data h names data -> volume_data h' names data.
Proof.
  intros He (l & -> & Hl). exists l. split; [done|]. eapply Forall2_impl; [exact Hl|].
  intros x y (v & Hv & Hc). exists v. split; [done|by eapply content_extends].
Qed.

Definition reading (P : ohist -> req -> Prop) (h : ohist) : Prop :=
  forall h' q, extends h h' -> reads q -> P h' q.

Lemma wp_volumeContent name retData P (Q : ohist -> outcome (string + err) -> Prop) h :
  reading P h ->
  (forall h' m, extends h h' -> Q h' (Panicked m)) ->
  (forall h' e, extends h h' -> Q h' (Returned (inr e))) ->
  (forall h' v s, extends h h' -> namesIndex (g_AdditionalVolumes general) name = Some v ->
     content h' v s -> Q h' (Returned (inl (retData +:+ s)))) ->
  wp (volumeContent (cl_Namespace instance) (g_AdditionalVolumes general) name retData) P Q h.
Proof.
  intros HP Hm He HQ. unfold volumeContent. wp_step. apply wp_deref; [|intros m _; wp_step; apply Hm; ext].
  intros v Hv. wp_step.
  (* The secret, after the config map has contributed [a]. *)
  assert (forall h1 a, extends h h1 ->
    (av_ConfigMap v = None /\ a = "" \/ exists m, av_ConfigMap v = Some m /\ seenMap h1 m a) ->
    wp (match av_Secret v with
        | None => Ret (inl (retData +:+ a))
        | Some secretName =>
            let! r := GetSecret secretName (cl_Namespace instance) in
            Ret match r with
                | Ok secret => inl ((retData +:+ a) +:+ mapContent (secret_Data secret))
                | Err e => if IsNotFound e then inl (retData +:+ a) else inr e
                end
        end) P Q h1) as Hsecret.
  { intros h1 a H1 Ha. destruct (av_Secret v) as [n|] eqn:En.
    - unfold GetSecret. wp_step; [by apply HP|].
      assert (av_ConfigMap v = None /\ a = "" \/ exists m, av_ConfigMap v = Some m /\
        seenMap (Ev (Get KSecret n (cl_Namespace instance)) r :: h1) m a) as Ha'.
      { destruct Ha as [?|(m & ? & cm & ? & ?)]; [by left|right]. exists m. split; [done|]. exists cm.
        split; [by apply saw_there|done]. }
      destruct r as [s|e]; wp_step.
      + rewrite str_app_assoc. eapply HQ; [ext|done|]. apply co_both; [done|right].
        exists n. split; [done|]. exists s. split; [apply saw_here|done].
      + destruct (IsNotFound e) eqn:Ee; [|apply He; ext]. eapply HQ; [ext|done|].
        eapply co_no_secret; [done..|]. exists e. split; [apply saw_here|done].
    - wp_step. rewrite <- (str_app_nil_r a). eapply HQ; [ext|done|]. apply co_both; [done|by left]. }
  wp_step. destruct (av_ConfigMap v) as [n|] eqn:En.
  - unfold GetConfigMap. wp_step; [by apply HP|]. destruct r as [cm|e]; wp_step; wp_step.
    + apply Hsecret; [ext|right]. exists n. split; [done|]. exists cm. split; [apply saw_here|done].
    + destruct (IsNotFound e) eqn:Ee; wp_step; [|apply He; ext]. rewrite <- (str_app_nil_r retData).
      eapply HQ; [ext|done|]. eapply co_no_map; [done|]. exists e. split; [apply saw_here|done].
  - wp_step. wp_step. assert (extends h h) as H0 by ext.
    specialize (Hsecret h "" H0 ltac:(by left)). rewrite str_app_nil_r in Hsecret. exact Hsecret.
Qed.

Lemma wp_CreateAdditionalVolumes P (Q : ohist -> outcome _ -> Prop) h :
  reading P h ->
  (forall h' m, extends h h' -> Q h' (Panicked m)) ->
  (forall h' e, extends h h' -> Q h' (Returned (Err e))) ->
  (forall h' vs ms data, extends h h' ->
     volume_data h' (restartNames (g_AdditionalVolumes general)) data ->
     Q h' (Returned (Ok (vs, ms, data)))) ->
  wp (CreateAdditionalVolumes (cl_Namespace instance) (g_AdditionalVolumes general)) P Q h.
Proof.
  intros HP Hm He HQ. unfold CreateAdditionalVolumes. wp_step.
  set (names := restartNames _) in *.
  apply wp_for_range with (Inv := λ xs data h', extends h h' /\
    exists done, names = done ++ xs /\ volume_data h' done data).
  - split; [ext|]. exists []. split; [done|]. exists []. split; [done|constructor].
  - intros x xs data h0 (H0 & done & Hn & Hd). apply wp_volumeContent.
    + intros h' q H'. apply HP. ext.
    + intros h' m H'. wp_step. wp_step. apply Hm. ext.
    + intros h' e H'. do 3 wp_step. apply He. ext.
    + intros h' v s H' Hv Hc. split; [ext|]. exists (done ++ [x]). rewrite <- (assoc_L (++)).
      split; [by rewrite Hn|]. eapply volume_data_snoc; [by eapply volume_data_extends|done|done].
  - intros data h0 (H0 & done & Hn & Hd). wp_step. wp_step. apply HQ; [done|].
    rewrite app_nil_r in Hn. by rewrite Hn.
Qed.

(** *** The reconciler *)

(** The security plugin is enabled, or not. *)
Definition security_is (enabled : bool) : Prop := IsSecurityPluginEnabled instance = Ret enabled.
Lemma security_cases : (exists b, security_is b) \/ exists m, IsSecurityPluginEnabled instance = Panic m.
Proof.
  unfold security_is, IsSecurityPluginEnabled, SecurityChangeVersion, CheckVersionConstraint.
  destruct (NewConstraint _) as [k|e]; [|right; by eexists].
  destruct (NewVersion _) as [v|e]; left; by eexists.
Qed.

Inductive cfg_allowed (c : ReconcilerContext) (h : ohist) : req -> Prop :=
| fa_reads q : reads q -> cfg_allowed c h q
(** The settings of the cluster. *)
| fa_shared enabled cm :
    security_is enabled ->
    ownedConfigMap instance (configName instance) (buildConfigString (settings enabled c)) = Ok cm ->
    cfg_allowed c h (ReconcileResource KConfigMap cm StatePresent)
(** Those of a pool with settings of its own, which win. *)
| fa_pool enabled p cm :
    security_is enabled -> p ∈ pools -> np_AdditionalConfig p <> ∅ ->
    ownedConfigMap instance (poolConfigName instance p)
      (buildConfigString (np_AdditionalConfig p ∪ settings enabled c)) = Ok cm ->
    cfg_allowed c h (ReconcileResource KConfigMap cm StatePresent).

(** A config map with this text was sent. *)
Definition stored (h : ohist) (name : string) (config : gmap string string) : Prop :=
  exists cm r, ownedConfigMap instance name (buildConfigString config) = Ok cm /\
    saw h (ReconcileResource KConfigMap cm StatePresent) r.
Definition stored_settings (h : ohist) (config : gmap string string) : Prop :=
  (config <> ∅ -> stored h (configName instance) config) /\
  (forall p, p ∈ pools -> np_AdditionalConfig p <> ∅ ->
     stored h (poolConfigName instance p) (np_AdditionalConfig p ∪ config)).

(** The hashes that a run leaves, and the config maps that go with them. *)
Definition hashed (c : ReconcilerContext) (h : ohist) (c' : ReconcilerContext) (res : Result) : Prop :=
  exists enabled data,
    security_is enabled /\ volume_data h (restartNames (g_AdditionalVolumes general)) data /\
    stored_settings h (settings enabled c) /\
    forall p, p ∈ pools ->
      (is_Some (fetchNodePoolHash c (np_Component p)) ->
       fetchNodePoolHash c' (np_Component p) = Some (poolHash (settings enabled c) data p)) /\
      (fetchNodePoolHash c (np_Component p) = None -> Requeue res = true).

Lemma wp_storeConfigMap c name data result (Q : ohist -> outcome _ -> Prop) h :
  (forall cm h', ownedConfigMap instance name data = Ok cm ->
     cfg_allowed c h' (ReconcileResource KConfigMap cm StatePresent)) ->
  (forall h' stop, extends h h' -> is_Some (stop.2) -> Q h' (Returned (inr stop))) ->
  (forall h' r, extends h h' -> c_Err r = None ->
     (exists cm a, ownedConfigMap instance name data = Ok cm /\
        saw h' (ReconcileResource KConfigMap cm StatePresent) a) -> Q h' (Returned (inl r))) ->
  wp (storeConfigMap instance name data result) (cfg_allowed c) Q h.
Proof.
  intros Ha Hs Hr. unfold storeConfigMap. destruct (ownedConfigMap _ _ _) as [cm|e].
  - unfold CreateConfigMap. wp_step; [by apply Ha|]. destruct r as [cm' [res e]]. wp_step.
    destruct (c_Err _) eqn:Er; [apply Hs; [ext|by eexists]|apply Hr; [ext|done|]].
    do 2 eexists. split; [done|apply saw_here].
  - wp_step. apply Hs; [ext|by eexists].
Qed.

(** What the adds leave of the context. *)
Lemma settings_spec enabled c :
  added (map_to_list (g_AdditionalConfig general))
    (added (grpcSettings (g_Grpc general)) (added (securitySettings enabled) (rc_OpenSearchConfig c))) =
  settings enabled c.
Proof. apply added_map. Qed.

Lemma wp_adds {B} l c c0 (f : _ -> io B) (Q : ohist -> outcome B -> Prop) h :
  (forall h', extends h h' ->
     wp (f (rc_set_config (added l (rc_OpenSearchConfig c)) c)) (cfg_allowed c0) Q h') ->
  wp (bind (AddConfigs l c) f) (cfg_allowed c0) Q h.
Proof.
  intros Hf. wp_step. apply wp_AddConfigs; [|by intros h' He; wp_step; apply Hf].
  intros h' q _ Hq. apply fa_reads. by destruct q.
Qed.

Lemma stored_extends h h' n m : extends h h' -> stored h n m -> stored h' n m.
Proof. intros He (cm & r & ? & ?). exists cm, r. split; [done|by eapply saw_extends]. Qed.

(** What is promised of the end of a run. *)
Definition configured (c : ReconcilerContext) (h : ohist)
    (o : outcome (ReconcilerContext * (Result * option err))) : Prop :=
  forall c' res, o = Returned (c', (res, None)) -> NoDup (np_Component <$> pools) ->
    (hasNoConfig instance c = true /\ c' = c) \/ hashed c h c' res.

Lemma configured_error c h c' res e : configured c h (Returned (c', (res, Some e))).
Proof. by intros ? ? [=]. Qed.
Lemma configured_stop c h c' (stop : Result * option err) :
  is_Some stop.2 -> configured c h (Returned (c', stop)).
Proof. destruct stop as [res [e|]]; intros [? [=]]. apply configured_error. Qed.

Lemma wp_configurePools `{!CombinerLaws} enabled c c1 result h :
  security_is enabled -> (forall p, fetchNodePoolHash c1 p = fetchNodePoolHash c p) ->
  c_Err result = None ->
  (settings enabled c <> ∅ -> stored h (configName instance) (settings enabled c)) ->
  wp (configurePools instance (settings enabled c) c1 result) (cfg_allowed c) (configured c) h.
Proof.
  intros Hsec Hc1 Hres Hst. unfold configurePools. cbv zeta. fold pools general. wp_step.
  apply wp_for_range with (Inv := λ xs r h', extends h h' /\ c_Err r = None /\
    exists front, pools = front ++ xs /\
      forall p, p ∈ front -> np_AdditionalConfig p <> ∅ ->
        stored h' (poolConfigName instance p) (np_AdditionalConfig p ∪ settings enabled c)).
  - split_and!; [ext|done|]. exists []. split; [done|]. by intros p Hp%elem_of_nil.
  - intros p xs r h1 (H1 & Hr & front & Hp & Hf). unfold poolConfigMap.
    assert (forall h' r', extends h1 h' -> c_Err r' = None -> (np_AdditionalConfig p <> ∅ ->
      stored h' (poolConfigName instance p) (np_AdditionalConfig p ∪ settings enabled c)) ->
      extends h h' /\ c_Err r' = None /\ exists front, pools = front ++ xs /\
        forall q, q ∈ front -> np_AdditionalConfig q <> ∅ ->
          stored h' (poolConfigName instance q) (np_AdditionalConfig q ∪ settings enabled c)) as Hnext.
    { intros h' r' H' Hr' Hs'. split_and!; [ext|done|]. exists (front ++ [p]).
      rewrite <- (assoc_L (++)). split; [done|]. intros q [Hq| ->%list_elem_of_singleton]%elem_of_app Hne; [|by apply Hs'].
      eapply stored_extends; [done|]. by apply Hf. }
    case_decide; [wp_step; by apply Hnext|].
    apply wp_storeConfigMap.
    + intros cm h' Ho. eapply (fa_pool _ _ _ p); [done|rewrite Hp; set_solver|done|done].
    + intros h' stop _ Hs. do 2 wp_step. wp_step. by apply configured_stop.
    + intros h' r' H' Hr' Hs'. by apply Hnext.
  - intros r h1 (H1 & Hr & front & Hp & Hf). rewrite app_nil_r in Hp. subst front.
    wp_step. wp_step. apply wp_CreateAdditionalVolumes.
    + intros h' q _ Hq. by apply fa_reads.
    + intros h' m _. by wp_step.
    + intros h' e _. wp_step. wp_step. cbn [c_Err CombineErr c_Result].
      rewrite Hr, Combine_nil_l. apply configured_error.
    + intros h' vs ms data H' Hd. wp_step. cbv zeta. set (c2 := rc_set_volumes _ _ c1).
      pose proof (hashPools_spec data (settings enabled c) pools c2 r) as Hh.
      destruct (hashPools _ _ _ _ _) as [c' result'] eqn:Eh. wp_step.
      intros c0 res [= <- <- _] Hn. right. destruct (Hh Hn) as (_ & H2 & H3 & _).
      exists enabled, data. split_and!; [done|done| |].
      { split; [intros Hne|intros p Hp Hne]; (eapply stored_extends; [|by eauto]; ext). }
      intros p Hp. split; intros Hf'.
      * apply H2; [done|]. by rewrite <- Hc1 in Hf'.
      * eapply H3; [done|]. by rewrite <- Hc1 in Hf'.
Qed.

Lemma wp_ConfigurationReconcile `{!CombinerLaws} c h :
  wp (ConfigurationReconcile instance c) (cfg_allowed c) (configured c) h.
Proof.
  unfold ConfigurationReconcile. cbv zeta. fold general.
  destruct (hasNoConfig instance c) eqn:En.
  { wp_step. intros c' res [= <- <-] _. by left. }
  destruct security_cases as [(enabled & Hsec)|(m & Hm)]; [|rewrite Hm; by wp_step].
  pose proof Hsec as Hsec'. unfold security_is in Hsec'. rewrite Hsec'. wp_step. wp_step.
  apply wp_adds. intros h1 H1. apply wp_adds. intros h2 H2. apply wp_adds. intros h3 H3.
  cbn [rc_OpenSearchConfig rc_set_config]. rewrite settings_spec.
  case_decide; [by apply wp_configurePools|]. wp_step. apply wp_storeConfigMap.
  - intros cm h' Ho. by eapply fa_shared.
  - intros h' stop _ Hs. do 2 wp_step. by apply configured_stop.
  - intros h' r _ Hr Hs. wp_step. by apply wp_configurePools.
Qed.

End Theorems.

(** ** Theorems *)

(** C24: the config maps of a cluster: whatever the API server answers, the configuration
    reconciler writes only the cluster's own config map, with the settings of the specification
    over those for gRPC, for the security plugin and from the other reconcilers, and one for
    each pool that has settings of its own, which win over all others. *)
Theorem config_maps_guarded `{SV : Semver} `{CL : CtrlLib} `{CF : ConfigLib} `{CBL : CombinerLaws}
    (instance : OpenSearchCluster) (c : ReconcilerContext) (w : oenv) :
  calls_ok (cfg_allowed instance c) (run w (ConfigurationReconcile instance c) []).2.
Proof. exact (proj2 (wp_run w _ _ _ (wp_ConfigurationReconcile instance c []))). Qed.

(** C25: the hashes that make pods restart: when a run ends without an error and there was
    something to configure, every pool with an entry has the hash of its own settings followed by
    the contents of the volumes that restart pods, as they were read, the config maps with the
    same settings have been sent, and a pool without an entry makes the reconciler ask to be
    called again. *)
Theorem config_hashes `{SV : Semver} `{CL : CtrlLib} `{CF : ConfigLib} `{CBL : CombinerLaws}
    (instance : OpenSearchCluster) (c c' : ReconcilerContext) (res : Result) (w : oenv) h :
  NoDup (np_Component <$> sp_NodePools (cl_Spec instance)) -> hasNoConfig instance c = false ->
  run w (ConfigurationReconcile instance c) [] = (Returned (c', (res, None)), h) ->
  hashed instance c h c' res.
Proof.
  intros Hn Hc Hr.
  destruct (wp_run w _ _ _ (wp_ConfigurationReconcile instance c [])) as [Hq _].
  rewrite Hr in Hq. destruct (Hq c' res eq_refl Hn) as [[? _]|?]; [congruence|done].
Qed.

(** The hash is blind to what separates the files of a volume: renaming a file, or moving text
    from one to the next, does not change it. *)
Theorem volume_content_ambiguous (k k' v : string) :
  mapContent {[k := v]} = mapContent {[k' := v]}.
Proof.
  unfold mapContent, sortedKeys. rewrite !map_to_list_singleton. cbn.
  by rewrite !lookup_singleton_eq.
Qed.

(** ** Samples *)

Module ConfigSamples.
Import Samples.

#[local] Instance owner : CtrlLib :=
  {| SetControllerReference := fun name uid refs => Ok (mkOwner name uid true :: refs) |}.
(** One line per setting, and a sum that shows what was summed. *)
#[local] Instance texts : ConfigLib :=
  {| UnmarshalJSON := fun _ => None; IsFloat := fun _ => false;
     YamlMarshal := fun l => Ok (foldr (fun kv s => kv.1 +:+ ";" +:+ s) "" l);
     Sha1Hex := fun s => "sha1(" +:+ s +:+ ")" |}.
#[local] Existing Instance combiner_laws.

Definition warm : NodePool :=
  mkNodePool "warm" 2 "0" noResources "" ["data"] JNull ∅ None JNull None ∅ ∅ [] "" None None
    {["node.attr.temp" := "warm"]} [] [].
Definition keys : AdditionalVolume :=
  mkAddVolume "keys" "/keys" "" None (Some "keys") false None None false false false true.
Definition configured_cluster : OpenSearchCluster :=
  mkCluster "os" "ns" "uid" None []
    (mkClusterSpec
       (plain_general false {["indices.fielddata.cache.size" := "1gb"]} [keys]) false None
       [nodes; warm] no_dashboards no_init_helper no_bootstrap) (running []).
Definition start_context : ReconcilerContext :=
  NewReconcilerContext (sp_NodePools (cl_Spec configured_cluster)).
Definition key_secret : Secret := mkSecret "keys" "ns" ∅ {["a" := "key"]} ∅ "" "Opaque" [].

(** A server that accepts the config maps and has the secret. *)
Definition accepting : oenv := fun q _ =>
  match q return resp q with
  | ReconcileResource k o s => (o, (None, None))
  | Get KSecret _ _ => Ok key_secret
  | q' => down q'
  end.

Lemma config_maps_guarded_witness :
  calls_ok (cfg_allowed configured_cluster start_context)
    (run accepting (ConfigurationReconcile configured_cluster start_context) []).2.
Proof. apply config_maps_guarded. Defined.

Definition final_hashes : list NodePoolHash :=
  [mkHash "nodes"
     "sha1(indices.fielddata.cache.size;plugins.security.disabled;key)";
   mkHash "warm"
     "sha1(indices.fielddata.cache.size;node.attr.temp;plugins.security.disabled;key)"].

Definition the_run := run accepting (ConfigurationReconcile configured_cluster start_context) [].
Definition final : ReconcilerContext :=
  match the_run.1 with Returned (c, _) => c | _ => start_context end.
Lemma config_hashes_witness :
  rc_NodePoolHashes final = final_hashes /\
  hashed configured_cluster start_context the_run.2 final noResult.
Proof.
  split; [vm_compute; reflexivity|]. apply (config_hashes _ _ _ _ accepting).
  - apply NoDup_cons. split; [|apply NoDup_singleton]. intros H%list_elem_of_singleton. discriminate.
  - reflexivity.
  - vm_compute. reflexivity.
Defined.

End ConfigSamples.
