(* ===== verification/ReconcileHelpers.v ===== *)
(** * ReconcileHelpers: images, commands and the paths of a version

    Models [pkg/helpers/reconcile-helpers.go] and the methods of [ImageSpec]. *)

From S2P Require Import Prelude Prog Resources Api K8sClient Helpers RContext.

(** ** The standard library *)

(** [path.Clean], on the elements of a path: [done] holds the ones kept, the last first. *)
Fixpoint cleanElems (rooted : bool) (done elems : list string) : list string :=
  match elems with
  | [] => rev done
  | e :: elems =>
      if (e == "") || (e == ".") then cleanElems rooted done elems
      else if e == ".." then
        match done with
        | d :: done' =>
            if d == ".." then cleanElems rooted (e :: done) elems else cleanElems rooted done' elems
        | [] => cleanElems rooted (if rooted then [] else [e]) elems
        end
      else cleanElems rooted (e :: done) elems
  end.
Definition pathClean (p : string) : string :=
  let rooted := String.prefix "/" p in
  let body := JoinWith (cleanElems rooted [] (Split p "/")) "/" in
  if rooted then "/" +:+ body else if body == "" then "." else body.
(** [path.Join] of two elements; empty ones are dropped. *)
Definition pathJoin (a b : string) : string :=
  match filter (λ e, e <> "") [a; b] with
  | [] => ""
  | l => pathClean (JoinWith l "/")
  end.

(** [strings.ReplaceAll] of one byte. *)
Fixpoint ReplaceAll (s : string) (c : ascii) (new : string) : string :=
  match s with
  | EmptyString => ""
  | String a s' => if bool_decide (a = c) then new +:+ ReplaceAll s' c new
                   else String a (ReplaceAll s' c new)
  end.

(** ** Images *)

Definition GetImage (s : ImageSpec) : string := default "" (img_Image s).
Definition GetImagePullPolicy (s : ImageSpec) : string := default "" (img_PullPolicy s).

(** What is set of the custom image goes into the result; the boolean tells whether that is
    all. *)
Definition useCustomImage (customImageSpec : option ImageSpec) (result : ImageSpec)
    : ImageSpec * bool :=
  match customImageSpec with
  | None => (result, false)
  | Some custom =>
      let policy := match img_PullPolicy custom with Some p => Some p | None => img_PullPolicy result end in
      let secrets := match img_PullSecrets custom with [] => img_PullSecrets result | l => l end in
      match img_Image custom with
      | Some image => (mkImage (Some image) policy secrets, true)
      | None => (mkImage (img_Image result) policy secrets, false)
      end
  end.

Definition zeroImage : ImageSpec := mkImage None None [].
Definition imageOf (custom : option ImageSpec) (repo image version : string) : ImageSpec :=
  let '(result, done) := useCustomImage custom zeroImage in
  if (done : bool) then result
  else mkImage (Some (pathJoin repo image +:+ ":" +:+ version)) (img_PullPolicy result)
         (img_PullSecrets result).

Definition ResolveInitHelperImage (cr : OpenSearchCluster) : ImageSpec :=
  let ih := sp_InitHelper (cl_Spec cr) in
  imageOf (ih_ImageSpec ih) (default "docker.io" (g_DefaultRepo (sp_General (cl_Spec cr)))) "busybox"
    (default "latest" (ih_Version ih)).

(** The node pool that the function is given is not used. *)
Definition ResolveImage (cr : OpenSearchCluster) : ImageSpec :=
  let g := sp_General (cl_Spec cr) in
  imageOf (g_ImageSpec g) (default "docker.io/opensearchproject" (g_DefaultRepo g)) "opensearch"
    (g_Version g).

Definition ResolveDashboardsImage (cr : OpenSearchCluster) : ImageSpec :=
  let g := sp_General (cl_Spec cr) in
  let d := sp_Dashboards (cl_Spec cr) in
  let version := if db_Version d == "" then g_Version g else db_Version d in
  imageOf (db_ImageSpec d) (default "docker.io/opensearchproject" (g_DefaultRepo g))
    "opensearch-dashboards" version.

(** ** Ports and paths *)

Section VersionCheck.
Context `{HV : HcVersion}.

(** The version without its prerelease part is at least 2.0; an error of the constraint leaves
    the empty constraint, which every version meets. *)
Definition isVersion2OrHigher (version : string) : bool :=
  match HNewVersion version with
  | Err _ => false
  | Ok versionPassed =>
      match HSegments versionPassed with
      | [] => false
      | major :: rest =>
          let minor := default 0 (rest !! 0%nat) in
          let patch := default 0 (rest !! 1%nat) in
          match HNewVersion (Itoa major +:+ "." +:+ Itoa minor +:+ "." +:+ Itoa patch) with
          | Err _ => false
          | Ok baseVersion =>
              match HNewConstraint ">= 2.0" with
              | Ok constraints => HCheck constraints baseVersion
              | Err _ => true
              end
          end
      end
  end.

(** The HTTP port, the port of [securityadmin] and the directory of the security configuration. *)
Definition VersionCheck (instance : OpenSearchCluster) : Z * Z * string :=
  let g := sp_General (cl_Spec instance) in
  let httpPort := if bool_decide (0 < g_HttpPort g) then g_HttpPort g else 9200 in
  let opensearchHome := GetOpenSearchHome g in
  if isVersion2OrHigher (g_Version g)
  then (httpPort, httpPort, opensearchHome +:+ "/config/opensearch-security")
  else (httpPort, 9300, opensearchHome +:+ "/plugins/opensearch-security/securityconfig").

End VersionCheck.

(** ** Commands *)

Definition quotedPlugin (plugin : string) : string :=
  " '" +:+ ReplaceAll plugin "'" "\'" +:+ "'".

Definition BuildMainCommand (installerBinary : string) (pluginsList : list string)
    (batchMode : bool) (entrypoint : string) : list string :=
  let com := installerBinary +:+ " install" +:+ (if batchMode then " --batch" else "") in
  match pluginsList with
  | [] => ["/bin/bash"; "-c"; "set -f && " +:+ entrypoint]
  | _ =>
      ["/bin/bash"; "-c";
       "set -f && " +:+ foldl (fun com plugin => com +:+ quotedPlugin plugin) com pluginsList +:+
       " && " +:+ entrypoint]
  end.

Definition BuildMainCommandOSD (installerBinary : string) (pluginsList : list string)
    (entrypoint : string) : list string :=
  ["/bin/bash"; "-c";
   foldl (fun com plugin => com +:+ installerBinary +:+ " install" +:+ quotedPlugin plugin +:+ " && ")
     "" pluginsList +:+ entrypoint].

(** ** Lemmas *)

(** A custom image is taken as it is; otherwise its pull settings are kept. *)
Lemma imageOf_custom custom image repo name version :
  img_Image custom = Some image ->
  imageOf (Some custom) repo name version = custom.
Proof. intros H. unfold imageOf, useCustomImage. rewrite H. by destruct custom as [? [] []]; cbn in *; subst. Qed.
Lemma imageOf_default custom repo name version :
  img_Image custom = None ->
  imageOf (Some custom) repo name version =
    mkImage (Some (pathJoin repo name +:+ ":" +:+ version)) (img_PullPolicy custom)
      (img_PullSecrets custom).
Proof. intros H. unfold imageOf, useCustomImage. rewrite H. by destruct custom as [? [] []]. Qed.

Example pathJoin_repo : pathJoin "docker.io/opensearchproject/" "opensearch" = "docker.io/opensearchproject/opensearch".
Proof. reflexivity. Qed.
Example pathJoin_dots : pathJoin "a/../b/./" "../c" = "c" /\ pathJoin "" "c" = "c" /\ pathJoin "/.." "c" = "/c".
Proof. repeat split. Qed.
