(* ===== verification/SecurityConfig.v ===== *)
(** * SecurityConfig: the configuration of the security plugin

    Models [pkg/reconcilers/securityconfig.go], with [BuildGeneratedSecurityConfigSecret],
    [applyUserHashes] and [EnsureDashboardsCredentialsSecret] of [pkg/helpers/helpers.go],
    [securityconfig_defaults.go] and [NewSecurityconfigUpdateJob] of [pkg/builders/cluster.go]:
    the operator generates a secret with the files of the security configuration and applies it
    by a job, which it runs again when the secret has changed or the job has failed. *)

From S2P Require Import Prelude Prog Resources Api Json K8sClient Helpers OsClient OsData Fixtures.
From S2P Require Import ReconcilerUtil RContext Tls Configuration ReconcileHelpers.

(** ** Third-party and standard library code *)

(** The files of users ([yaml.v3] on [InternalUserConfig]: members that the type does not have
    are dropped). *)
Record User := mkInternalUser {
  iu_Hash : string;
  iu_Reserved : bool;
  iu_BackendRoles : list string;
  iu_Description : string }.
Record InternalUserConfig := mkInternalUsers {
  iuc_MetaType : string;
  iuc_MetaVersion : Z;
  iuc_Admin : User;
  iuc_Kibanaserver : option User }.
#[global] Instance User_eq_dec : EqDecision User.
Proof. solve_decision. Defined.
#[global] Instance InternalUserConfig_eq_dec : EqDecision InternalUserConfig.
Proof. solve_decision. Defined.

(** YAML, the comparison of a bcrypt hash with a password, SHA-1 in base64, and times in RFC 3339. *)
Class SecurityLib := {
  UnmarshalUsers : string -> result InternalUserConfig;
  MarshalUsers : InternalUserConfig -> result string;
  CompareHashAndPassword : string -> string -> bool;
  Sha1Base64 : string -> string;
  ParseRFC3339 : string -> option Z;
  FormatRFC3339 : Z -> string }.

(** The zero time, 1 January of the year 1. *)
Definition zeroTime : Z := -62135596800 * 1000000000.
Definition second : Z := 1000000000.

(** ** The generated secret *)

Definition GeneratedSecurityConfigSecretName (cr : OpenSearchCluster) : string :=
  cl_Name cr +:+ "-security-config-generated".
Definition GeneratedDashboardsCredentialsSecretName (cr : OpenSearchCluster) : string :=
  cl_Name cr +:+ "-dashboards-password".

Definition internalUsersFile : string := "internal_users.yml".
(** The file embedded into the operator. *)
Definition nl : string := String "010" "".
Definition defaultInternalUsers : string :=
  "_meta:" +:+ nl +:+
  "  type: " +:+ Quote "internalusers" +:+ nl +:+
  "  config_version: 2" +:+ nl +:+
  "admin:" +:+ nl +:+
  "  hash: " +:+ Quote "" +:+ nl +:+
  "  reserved: true" +:+ nl +:+
  "  backend_roles:" +:+ nl +:+
  "    - " +:+ Quote "admin" +:+ nl +:+
  "  description: " +:+ Quote "Demo admin user" +:+ nl +:+
  "kibanaserver:" +:+ nl +:+
  "  hash: " +:+ Quote "" +:+ nl +:+
  "  reserved: true" +:+ nl +:+
  "  description: " +:+ Quote "Demo user for the OpenSearch Dashboards server" +:+ nl.
Definition defaultSecurityconfigData : gmap string string :=
  {[internalUsersFile := defaultInternalUsers]}.

Section SecurityConfig.
Context `{RP : RetryPolicy} `{SV : Semver} `{HV : HcVersion} `{PE : ProcEnv} `{CL : CtrlLib}
  `{SL : SecurityLib}.

Definition EnsureDashboardsCredentialsSecret (cr : OpenSearchCluster)
    : io (result Secret * bool) :=
  let given := db_OpensearchCredentialsSecret (sp_Dashboards (cl_Spec cr)) in
  if given != "" then
    let! r := GetSecret given (cl_Namespace cr) in Ret (r, false)
  else
    let generatedName := GeneratedDashboardsCredentialsSecretName cr in
    let! r := GetSecret generatedName (cl_Namespace cr) in
    match r with
    | Ok secret => Ret (Ok secret, true)
    | Err e =>
        if negb (IsNotFound e) then Ret (Err e, true)
        else
          let! randomText := ask (Local_ RandText) in
          let! enabled := IsSecurityPluginEnabled cr in
          let randomPassword := if (enabled : bool) then randomText else "kibanaserver" in
          let dashboardsSecret :=
            mkSecret generatedName (cl_Namespace cr) ∅ ∅
              {["username" := "kibanaserver"; "password" := randomPassword]} "" "" [] in
          let! (_, (_, ce)) := CreateSecret dashboardsSecret in
          match ce with
          | Some e => Ret (Err e, true)
          | None =>
              let! r := GetSecret generatedName (cl_Namespace cr) in
              Ret (r, true)
          end
    end.

(** The fields that the file of users gets besides the hash. *)
Definition adminUser (hash : string) (u : User) : User :=
  mkInternalUser hash true
    (if bool_decide (iu_BackendRoles u = []) then ["admin"]
     else if bool_decide ("admin" ∈ iu_BackendRoles u) then iu_BackendRoles u
     else iu_BackendRoles u ++ ["admin"]) (iu_Description u).
Definition dashboardsUser (hash : string) (u : option User) : User :=
  let u := default (mkInternalUser "" false [] "") u in
  mkInternalUser hash true (iu_BackendRoles u)
    (if iu_Description u == "" then "Demo user for the OpenSearch Dashboards server"
     else iu_Description u).
Definition withHashes (adminHash dashboardsHash : string) (data : InternalUserConfig)
    : InternalUserConfig :=
  mkInternalUsers (iuc_MetaType data) (iuc_MetaVersion data) (adminUser adminHash (iuc_Admin data))
    (Some (dashboardsUser dashboardsHash (iuc_Kibanaserver data))).

(** The hash to keep, or a new one. *)
Definition hashOr (override password : string) : io (result string) :=
  if override != "" then Ret (Ok override) else ask (Local_ (HashPassword password)).

Definition applyUserHashes (internalUserData adminPassword adminHashOverride dashboardsPassword
    dashboardsHashOverride : string) : io (result string) :=
  match UnmarshalUsers internalUserData with
  | Err e => Ret (Err e)
  | Ok data =>
      let! r := hashOr adminHashOverride adminPassword in
      match r with
      | Err e => Ret (Err e)
      | Ok adminHash =>
          let! r := hashOr dashboardsHashOverride dashboardsPassword in
          match r with
          | Err e => Ret (Err e)
          | Ok dashboardsHash => Ret (MarshalUsers (withHashes adminHash dashboardsHash data))
          end
      end
  end.

(** The hash of a user in an earlier file, if it is that of the password. *)
Definition keptHash (hash password : string) : string :=
  if (hash != "") && CompareHashAndPassword hash password then hash else "".
Definition hashOverrides (existingInternal : option string) (adminPassword dashboardsPassword : string)
    : string * string :=
  match existingInternal with
  | None => ("", "")
  | Some text =>
      match UnmarshalUsers text with
      | Err _ => ("", "")
      | Ok existingConfig =>
          (keptHash (iu_Hash (iuc_Admin existingConfig)) adminPassword,
           match iuc_Kibanaserver existingConfig with
           | Some u => keptHash (iu_Hash u) dashboardsPassword
           | None => ""
           end)
      end
  end.

Definition userSecurityConfig (cr : OpenSearchCluster) : string :=
  match sp_Security (cl_Spec cr) with
  | Some s => match sec_Config s with Some c => sc_SecurityconfigSecret c | None => "" end
  | None => ""
  end.

(** The default files, with those of the user's secret over them. *)
Definition baseSecurityConfig (cr : OpenSearchCluster) : io (result (gmap string string)) :=
  if userSecurityConfig cr != "" then
    let! r := GetSecret (userSecurityConfig cr) (cl_Namespace cr) in
    Ret match r with
        | Err e => Err e
        | Ok userSecret => Ok (secret_Data userSecret ∪ defaultSecurityconfigData)
        end
  else Ret (Ok defaultSecurityconfigData).

Definition BuildGeneratedSecurityConfigSecret (cr : OpenSearchCluster) (adminSecret : Secret)
    : io (result Secret) :=
  let! r := baseSecurityConfig cr in
  match r with
  | Err e => Ret (Err e)
  | Ok baseData =>
      match secret_Data adminSecret !! "password" with
      | None => Ret (Err (OtherErr "admin credentials secret missing password field"))
      | Some adminPassword =>
          let! (r, _) := EnsureDashboardsCredentialsSecret cr in
          match r with
          | Err e => Ret (Err e)
          | Ok dashboardsSecret =>
              let dashboardsPassword := default "" (secret_Data dashboardsSecret !! "password") in
              if dashboardsPassword == "" then
                Ret (Err (OtherErr "dashboards credentials secret missing password field"))
              else
                match baseData !! internalUsersFile with
                | None => Ret (Err (OtherErr "securityconfig missing internal_users.yml"))
                | Some internalUsers =>
                    let generatedName := GeneratedSecurityConfigSecretName cr in
                    let! r := GetSecret generatedName (cl_Namespace cr) in
                    match (match r with
                           | Ok existingSecret => inl (secret_Data existingSecret !! internalUsersFile)
                           | Err e => if negb (IsNotFound e) then inr e else inl None
                           end) with
                    | inr e => Ret (Err e)
                    | inl existingInternal =>
                        let '(adminHashOverride, dashboardsHashOverride) :=
                          hashOverrides existingInternal adminPassword dashboardsPassword in
                        let! r := applyUserHashes internalUsers adminPassword adminHashOverride
                                    dashboardsPassword dashboardsHashOverride in
                        Ret match r with
                            | Err e => Err e
                            | Ok internalUsers =>
                                Ok (mkSecret generatedName (cl_Namespace cr) ∅
                                      (<[internalUsersFile := internalUsers]> baseData) ∅ ""
                                      "Opaque" [])
                            end
                    end
                end
          end
      end
  end.

(** ** The commands of the job *)

Definition adminCert : string := "/certs/tls.crt".
Definition adminKey : string := "/certs/tls.key".
Definition caCert : string := "/certs/ca.crt".
Definition securityConfigConnectWaitAttempts : Z := 60.

(** [SecurityAdminBaseCmdTmpl]. *)
Definition SecurityAdminBaseCmd (opensearchHome clusterHostName : string) (httpPort : Z) : string :=
  "ADMIN=" +:+ opensearchHome +:+ "/plugins/opensearch-security/tools/securityadmin.sh;" +:+ nl +:+
  "chmod +x $ADMIN;" +:+ nl +:+
  "wait_count=0;" +:+ nl +:+
  "until curl -k --silent https://" +:+ clusterHostName +:+ ":" +:+ Itoa httpPort +:+ ";" +:+ nl +:+
  "do" +:+ nl +:+
  "  if (( wait_count++ >= " +:+ Itoa securityConfigConnectWaitAttempts +:+ " )); then" +:+ nl +:+
  "    echo " +:+ Quote ("Failed to connect to cluster after " +:+
                         Itoa securityConfigConnectWaitAttempts +:+ " attempts") +:+ ";" +:+ nl +:+
  "    exit 1;" +:+ nl +:+
  "  fi;" +:+ nl +:+
  "  echo 'Waiting to connect to the cluster'; sleep 20;" +:+ nl +:+
  "done;".

(** The loop around [securityadmin] that the two other templates share. *)
Definition adminLoop (what clusterHostName : string) (port : Z) : string :=
  "count=0;" +:+ nl +:+
  "until $ADMIN -cacert " +:+ caCert +:+ " -cert " +:+ adminCert +:+ " -key " +:+ adminKey +:+ " " +:+
  what +:+ " -icl -nhnv -h " +:+ clusterHostName +:+ " -p " +:+ Itoa port +:+ "; do" +:+ nl +:+
  "  if (( count++ >= 20 )); then" +:+ nl +:+
  "    echo " +:+ Quote "Failed to apply securityconfig after 20 attempts" +:+ ";" +:+ nl +:+
  "    exit 1;" +:+ nl +:+
  "  fi;" +:+ nl +:+
  "  sleep 20;" +:+ nl +:+
  "done;".
Definition ApplyAllYmlCmd (path clusterHostName : string) (port : Z) : string :=
  adminLoop ("-cd " +:+ path) clusterHostName port.
Definition ApplySingleYmlCmd (filePath fileType clusterHostName : string) (port : Z) : string :=
  adminLoop ("-f " +:+ filePath +:+ " -t " +:+ fileType) clusterHostName port.

Definition ymlToFileType : gmap string string :=
  list_to_map
    [("internal_users.yml", "internalusers"); ("roles.yml", "roles");
     ("roles_mapping.yml", "rolesmapping"); ("action_groups.yml", "actiongroups");
     ("tenants.yml", "tenants"); ("nodes_dn.yml", "nodesdn"); ("whitelist.yml", "allowlist");
     ("audit.yml", "audit"); ("allowlist.yml", "allowlist"); ("config.yml", "config")].

Definition DnsOfService (cr : OpenSearchCluster) : string :=
  g_ServiceName (sp_General (cl_Spec cr)) +:+ "." +:+ cl_Namespace cr.
Definition BuildClusterSvcHostName (instance : OpenSearchCluster) : string :=
  DnsOfService instance +:+ ".svc." +:+ ClusterDnsBase.

(** The command for one file of the secret: none for a file that is unknown or empty. *)
Definition fileCmd (instance : OpenSearchCluster) (data : gmap string string) (k : string) : string :=
  let '(_, securityConfigPort, securityconfigPath) := VersionCheck instance in
  match ymlToFileType !! k with
  | None => ""
  | Some fileType =>
      if default "" (data !! k) != "" then
        ApplySingleYmlCmd (securityconfigPath +:+ "/" +:+ k) fileType
          (BuildClusterSvcHostName instance) securityConfigPort
      else ""
  end.
Definition baseCmdOf (instance : OpenSearchCluster) : string :=
  SecurityAdminBaseCmd (GetOpenSearchHome (sp_General (cl_Spec instance)))
    (BuildClusterSvcHostName instance) (VersionCheck instance).1.1.
Definition BuildCmdArg (instance : OpenSearchCluster) (secret : Secret) : string :=
  foldl (fun arg k => arg +:+ fileCmd instance (secret_Data secret) k) (baseCmdOf instance)
    (sortedKeys (secret_Data secret)).
Definition applyAllCmd (instance : OpenSearchCluster) : string :=
  let '(_, securityConfigPort, securityconfigPath) := VersionCheck instance in
  baseCmdOf instance +:+
  ApplyAllYmlCmd securityconfigPath (BuildClusterSvcHostName instance) securityConfigPort.

(** The keys and values of the files, in the order of the keys. *)
Definition checksum (data : gmap string string) : string :=
  Sha1Base64 (foldl (fun s k => s +:+ k +:+ default "" (data !! k)) "" (sortedKeys data)).

(** ** The job *)

Definition checksumAnnotation : string := "securityconfig/checksum".
Definition JobLabel : string := "opensearch.org/opensearch-job".

Definition GetUpdateJob (instance : OpenSearchCluster) : SecurityUpdateJobConfig :=
  match sp_Security (cl_Spec instance) with
  | Some (mkSecurity _ (Some c)) => sc_UpdateJob c
  | _ => mkUpdateJob JNull "" ∅ JNull ∅ JNull
  end.

Definition adminCertVolume (adminCertName adminCASecretName : string) : Volume :=
  mkVolume "admin-cert"
    (if adminCASecretName != "" then
       VolProjected [(adminCertName, [TLSCertKey; TLSPrivateKeyKey]); (adminCASecretName, ["ca.crt"])]
     else VolSecret adminCertName).

Definition NewSecurityconfigUpdateJob (instance : OpenSearchCluster)
    (jobName namespace checksum adminCertName adminCASecretName cmdArg : string)
    (volumes : list Volume) (volumeMounts : list VolumeMount) : Job :=
  let g := sp_General (cl_Spec instance) in
  let image := ResolveImage instance in
  let updateJobConfig := GetUpdateJob instance in
  let jobLabels := uj_Labels updateJobConfig ∪ {[JobLabel := jobName]} in
  mkJob jobName namespace {[checksumAnnotation := checksum]} jobLabels 1 2400
    (mkJobPod jobLabels (GetImage image) (GetImagePullPolicy image) (img_PullSecrets image)
       (uj_Resources updateJobConfig) ["/bin/bash"; "-c"] [cmdArg]
       (volumes ++ [adminCertVolume adminCertName adminCASecretName])
       (volumeMounts ++ [mkMount "admin-cert" false "/certs" ""])
       (g_SecurityContext g) (g_PodSecurityContext g) (g_ServiceAccount g)
       (uj_PriorityClassName updateJobConfig) (g_HostNetwork g) (uj_Tolerations updateJobConfig)
       (uj_NodeSelector updateJobConfig) (uj_Affinity updateJobConfig) 5 "Never")
    0 0 0 [].

Definition ownedJob (instance : OpenSearchCluster) (job : Job) : result Job :=
  match SetControllerReference (cl_Name instance) (cl_UID instance) (job_OwnerReferences job) with
  | Err e => Err e
  | Ok refs =>
      Ok (mkJob (job_Name job) (job_Namespace job) (job_Annotations job) (job_Labels job)
            (job_BackoffLimit job) (job_ActiveDeadlineSeconds job) (job_Pod job)
            (job_Succeeded job) (job_Active job) (job_Failed job) refs)
  end.

(** ** Retries *)

Definition securityConfigComponentName : string := "Securityconfig".
Definition securityConfigStatusReady : string := "Ready".
Definition securityConfigStatusRunning : string := "Running".
Definition securityConfigStatusFailed : string := "Failed".
Definition securityConfigRetryConditionPrefix : string := "retry:".
Definition securityConfigLastRetryConditionPrefix : string := "lastRetry:".
Definition securityConfigInitialRetryDelay : Z := 30 * second.
Definition securityConfigMaxRetryDelay : Z := 15 * 60 * second.

Fixpoint doubled (n : nat) (delay : Z) : Z :=
  match n with
  | O => delay
  | S n =>
      let delay := delay * 2 in
      if bool_decide (securityConfigMaxRetryDelay <= delay) then securityConfigMaxRetryDelay
      else doubled n delay
  end.
Definition securityConfigRetryDelay (retryCount : Z) : Z :=
  doubled (Z.to_nat retryCount) securityConfigInitialRetryDelay.

Definition TrimPrefix (s prefix : string) : string :=
  if String.prefix prefix s
  then String.substring (String.length prefix) (String.length s - String.length prefix) s else s.

(** The first condition with the prefix that can be read. *)
Definition readCondition {A} (prefix : string) (parse : string -> option A)
    : list string -> option A :=
  fix go l :=
    match l with
    | [] => None
    | condition :: l =>
        if String.prefix prefix condition then
          match parse (TrimPrefix condition prefix) with Some a => Some a | None => go l end
        else go l
    end.

Definition securityConfigRetryConditions (retryCount lastRetry : Z) : list string :=
  (securityConfigRetryConditionPrefix +:+ Itoa retryCount) ::
  if lastRetry == zeroTime then []
  else [securityConfigLastRetryConditionPrefix +:+ FormatRFC3339 lastRetry].

(** [int] arithmetic. *)
Definition wrap64 (z : Z) : Z := (z + 2 ^ 63) mod 2 ^ 64 - 2 ^ 63.

(** ** The reconciler *)

Context (instance : OpenSearchCluster).

Definition userAdminSecret : string :=
  match sp_Security (cl_Spec instance) with
  | Some (mkSecurity _ (Some c)) => sc_AdminSecret c
  | _ => ""
  end.
Definition determineAdminSecret : io string :=
  if userAdminSecret != "" then Ret userAdminSecret
  else
    let! enabled := IsSecurityPluginEnabled instance in
    Ret (if (enabled : bool) then cl_Name instance +:+ "-admin-cert" else "").

Definition determineAdminCASecret (adminSecretName : string) : io string :=
  let! caSecretName := TlsCASecretRef instance in
  Ret (if (caSecretName == "") || (caSecretName == adminSecretName) then "" else caSecretName).

Definition securityconfigSubpaths (secret : Secret) (c : ReconcilerContext) : ReconcilerContext :=
  let '(_, _, securityconfigPath) := VersionCheck instance in
  rc_set_volumes
    (rc_Volumes c ++ [mkVolume "securityconfig" (VolSecret (secret_Name secret))])
    (rc_VolumeMounts c ++
     map (fun k => mkMount "securityconfig" true (securityconfigPath +:+ "/" +:+ k) k)
       (sortedKeys (secret_Data secret))) c.

(** *** The status of the component *)

Definition updateSecurityConfigComponentStatus (status description : string)
    (conditions : list string) : io (option err) :=
  UpdateComponentStatus instance
    (Some (mkCS securityConfigComponentName status description conditions)).

Definition securityConfigComponentStatus : option ComponentStatus :=
  head (filter (λ cs, cs_Component cs = securityConfigComponentName) (componentsStatus instance)).

Definition securityConfigRetryCount : Z :=
  match securityConfigComponentStatus with
  | None => 0
  | Some cs =>
      default 0 (readCondition securityConfigRetryConditionPrefix Atoi (cs_Conditions cs))
  end.
Definition securityConfigLastRetry : Z :=
  match securityConfigComponentStatus with
  | None => zeroTime
  | Some cs =>
      default zeroTime
        (readCondition securityConfigLastRetryConditionPrefix ParseRFC3339 (cs_Conditions cs))
  end.
Definition currentSecurityConfigRetryConditions : list string :=
  match securityConfigComponentStatus with Some cs => cs_Conditions cs | None => [] end.

(** [time.Since]. *)
Definition since (t : Z) : io Z := let! now := ask (Local_ TimeNow) in Ret (saturate (now - t)).
(** A duration in whole seconds, as results have it; the rest of a second is rounded up. *)
Definition inSeconds (d : Z) : Z := - ((- d) / second).

Definition jobFailed : string := "securityconfig update job failed".

(** A job of the current configuration that has failed: wait for the end of the delay, or record
    another attempt. *)
Definition handleFailedJob : io (Result * bool * option err) :=
  let retryCount := securityConfigRetryCount in
  let delay := securityConfigRetryDelay retryCount in
  let lastRetry := securityConfigLastRetry in
  let! early := if lastRetry == zeroTime then Ret false
                else let! d := since lastRetry in Ret (bool_decide (d < delay)) in
  if (early : bool) then
    let! d := since lastRetry in
    let remaining := delay - d in
    let! e := updateSecurityConfigComponentStatus securityConfigStatusFailed jobFailed
                (securityConfigRetryConditions retryCount lastRetry) in
    match e with
    | Some e => Ret (noResult, true, Some e)
    | None => Ret (mkResult true (inSeconds remaining), true, None)
    end
  else
    let retryCount := wrap64 (retryCount + 1) in
    let! now := ask (Local_ TimeNow) in
    do! ask (RecordEvent "Warning" "Security"
               ("Securityconfig update job failed, retrying (attempt " +:+ Itoa retryCount +:+ ")")) in
    let! e := updateSecurityConfigComponentStatus securityConfigStatusFailed jobFailed
                (securityConfigRetryConditions retryCount now) in
    match e with
    | Some e => Ret (noResult, true, Some e)
    | None => Ret (noResult, false, None)
    end.

(** A status without conditions, and the result with which the reconciliation ends. *)
Definition statusAndResult (status : string) (res : Result) : io (Result * bool * option err) :=
  let! e := updateSecurityConfigComponentStatus status "" [] in
  Ret match e with Some e => (noResult, true, Some e) | None => (res, true, None) end.

Definition handleExistingSecurityConfigJob (job : Job) : io (Result * bool * option err) :=
  if bool_decide (0 < job_Succeeded job) then statusAndResult securityConfigStatusReady noResult
  else if bool_decide (0 < job_Active job) then
    statusAndResult securityConfigStatusRunning (requeueIn 30)
  else if bool_decide (0 < job_Failed job) then handleFailedJob
  else statusAndResult securityConfigStatusRunning (requeueIn 10).

(** *** Reconcile *)

Definition jobName : string := cl_Name instance +:+ "-securityconfig-update".

#[local] Abbreviation ending := (Result * option err)%type.

(** A flag of the status that is not as it should be is set. *)
Definition setFlag (differs : bool) (f : ClusterStatus -> ClusterStatus) : io (option err) :=
  if differs then updateStatusOf instance (with_status f) else Ret None.

Definition readConfigSecret : io (Secret + ending) :=
  let configSecretName := GeneratedSecurityConfigSecretName instance in
  let! r := GetSecret configSecretName (cl_Namespace instance) in
  match r with
  | Ok s => Ret (inl s)
  | Err e =>
      if IsNotFound e then
        do! ask (RecordEvent "Warning" "Security"
                   ("Waiting for generated secret '" +:+ configSecretName +:+
                    "' that contains the securityconfig")) in
        Ret (inr (requeueIn 10, None))
      else Ret (inr (requeueIn 10, Some e))
  end.

(** The first part: the generated secret is brought up to date and read. *)
Definition ensureConfigSecret : io (Secret + ending) :=
  let! (r, managedByOperator) := EnsureAdminCredentialsSecret instance in
  match r with
  | Err e => Ret (inr (mkResult true 30, Some e))
  | Ok adminCredentialsSecret =>
      let! e := setFlag (negb (Bool.eqb managedByOperator (st_AdminSecretCreated (cl_Status instance))))
                  (set_AdminSecretCreated managedByOperator) in
      match e with
      | Some e => Ret (inr (noResult, Some e))
      | None =>
          let! r := BuildGeneratedSecurityConfigSecret instance adminCredentialsSecret in
          match r with
          | Err e => Ret (inr (mkResult true 30, Some e))
          | Ok generated =>
              match ownedSecret instance (secret_Name generated) (secret_Type generated)
                      (secret_Data generated) with
              | Err e => Ret (inr (noResult, Some e))
              | Ok generatedConfigSecret =>
                  let! (_, (_, e)) :=
                    ask (ReconcileResource KSecret generatedConfigSecret StatePresent) in
                  match e with
                  | Some e => Ret (inr (noResult, Some e))
                  | None =>
                      let! e := setFlag (negb (st_ContextSecretCreated (cl_Status instance)))
                                  (set_ContextSecretCreated true) in
                      match e with
                      | Some e => Ret (inr (noResult, Some e))
                      | None => readConfigSecret
                      end
                  end
              end
          end
      end
  end.

(** The job that is there: whether the count of attempts starts anew, or the end of the
    reconciliation. *)
Definition checkOldJob (checksumval : string) : io (bool + ending) :=
  let! r := GetJob jobName (cl_Namespace instance) in
  match r with
  | Err _ => Ret (inl false)
  | Ok job =>
      let current := bool_decide (job_Annotations job !! checksumAnnotation = Some checksumval) in
      let! r := if current then
                  let! (result, done, e) := handleExistingSecurityConfigJob job in
                  Ret match e with
                      | Some e => Some (noResult, Some e)
                      | None => if (done : bool) then Some (result, None) else None
                      end
                else Ret None in
      match r with
      | Some stop => Ret (inr stop)
      | None =>
          let! e := DeleteJob job in
          Ret match e with Some e => inr (noResult, Some e) | None => inl (negb current) end
      end
  end.

(** The last part: a new job. *)
Definition startJob (configSecret : Secret) (adminCertName : string) (c : ReconcilerContext)
    : io ending :=
  let cmdArg := BuildCmdArg instance configSecret in
  let cmdArg := if negb (st_Initialized (cl_Status instance)) || (cmdArg == "")
                then applyAllCmd instance else cmdArg in
  do! ask (RecordEvent "Normal" "Security" "Starting securityconfig update job") in
  let! adminCASecret := determineAdminCASecret adminCertName in
  match ownedJob instance
          (NewSecurityconfigUpdateJob instance jobName (cl_Namespace instance)
             (checksum (secret_Data configSecret)) adminCertName adminCASecret cmdArg
             (rc_Volumes c) (rc_VolumeMounts c)) with
  | Err e => Ret (noResult, Some e)
  | Ok job => let! (_, (_, e)) := CreateJob job in Ret (noResult, e)
  end.

Definition applyConfig (configSecret : Secret) (adminCertName : string) (c : ReconcilerContext)
    : io ending :=
  let! r := checkOldJob (checksum (secret_Data configSecret)) in
  match r with
  | inr stop => Ret stop
  | inl resetRetryCount =>
      let! e := updateSecurityConfigComponentStatus securityConfigStatusRunning ""
                  (if (resetRetryCount : bool) then securityConfigRetryConditions 0 zeroTime
                   else currentSecurityConfigRetryConditions) in
      match e with
      | Some e => Ret (noResult, Some e)
      | None => startJob configSecret adminCertName c
      end
  end.

Definition SecurityconfigReconcile (c : ReconcilerContext) : io (ReconcilerContext * ending) :=
  let! enabled := IsSecurityPluginEnabled instance in
  if negb enabled then Ret (c, (noResult, None))
  else
    let! adminCertName := determineAdminSecret in
    if adminCertName == "" then
      Ret (c, (noResult,
               Some (OtherErr "admin certificate neither provided nor generation is enabled")))
    else
      let! r := ensureConfigSecret in
      match r with
      | inr stop => Ret (c, stop)
      | inl configSecret =>
          let c := securityconfigSubpaths configSecret c in
          let! stop := applyConfig configSecret adminCertName c in
          Ret (c, stop)
      end.

End SecurityConfig.
