(* ===== verification/SecurityJobs.v ===== *)
(** * SecurityJobs: what the reconciler of the security configuration does

    The theorems on [SecurityConfig]: which secrets, status entries and jobs are written and
    when, that an unchanged configuration stays the same to the byte, the delay between two
    attempts, and that attempts are not counted while reconciliations end without an error. *)

From S2P Require Import Prelude Prog Resources Api Json K8sClient Helpers OsClient OsData Fixtures.
From S2P Require Import ReconcilerUtil RContext Tls Configuration ReconcileHelpers SecurityConfig.

(** ** The delay *)

Lemma doubled_spec n d :
  0 < d -> d < securityConfigMaxRetryDelay ->
  doubled n d = Z.min (d * 2 ^ Z.of_nat n) securityConfigMaxRetryDelay.
Proof.
  revert d. induction n as [|n IH]; intros d Hd Hm; cbn [doubled].
  { rewrite Z.mul_1_r. lia. }
  replace (d * 2 ^ Z.of_nat (S n)) with (d * 2 * 2 ^ Z.of_nat n)
    by (rewrite Nat2Z.inj_succ, Z.pow_succ_r by lia; ring).
  pose proof (Z.pow_pos_nonneg 2 (Z.of_nat n) ltac:(lia) ltac:(lia)).
  case_bool_decide; [nia|]. apply IH; lia.
Qed.

(** C39: the delay before a failed job is started again doubles with each attempt from thirty
    seconds on and never exceeds fifteen minutes, for any count that a status may hold. *)
Theorem retry_delay_closed_form (retryCount : Z) :
  securityConfigRetryDelay retryCount =
    Z.min (securityConfigInitialRetryDelay * 2 ^ Z.max 0 retryCount) securityConfigMaxRetryDelay /\
  securityConfigInitialRetryDelay <= securityConfigRetryDelay retryCount <= securityConfigMaxRetryDelay.
Proof.
  assert (securityConfigRetryDelay retryCount =
    Z.min (securityConfigInitialRetryDelay * 2 ^ Z.max 0 retryCount) securityConfigMaxRetryDelay) as ->.
  { unfold securityConfigRetryDelay. rewrite doubled_spec by done. rewrite ZifyInst.of_nat_to_nat_eq. done. }
  pose proof (Z.pow_pos_nonneg 2 (Z.max 0 retryCount) ltac:(lia) ltac:(lia)).
  split; [done|]. unfold securityConfigInitialRetryDelay, securityConfigMaxRetryDelay, second. nia.
Qed.

Lemma delay_at_least n : securityConfigInitialRetryDelay <= securityConfigRetryDelay n.
Proof.
  unfold securityConfigRetryDelay. rewrite doubled_spec by done.
  pose proof (Z.pow_pos_nonneg 2 (Z.of_nat (Z.to_nat n)) ltac:(lia) ltac:(lia)).
  unfold securityConfigInitialRetryDelay, securityConfigMaxRetryDelay, second. nia.
Qed.

(** ** An unchanged configuration *)

(** Documented: YAML written from a value is read back as that value. *)
Class SecurityLaws `{SL : SecurityLib} := {
  UnmarshalMarshal : forall u text, MarshalUsers u = Ok text -> UnmarshalUsers text = Ok u }.

(** The secret with the credentials of Dashboards. *)
Definition dashboardsSecretName (cr : OpenSearchCluster) : string :=
  let given := db_OpensearchCredentialsSecret (sp_Dashboards (cl_Spec cr)) in
  if given == "" then GeneratedDashboardsCredentialsSecretName cr else given.

(** The answers to reading a secret. *)
Definition has_secret (w : oenv) (cr : OpenSearchCluster) (name : string) (s : Secret) : Prop :=
  forall h, w (Get KSecret name (cl_Namespace cr)) h = Ok s.

(** The default files, with those of the user's secret over them. *)
Definition base_is (w : oenv) (cr : OpenSearchCluster) (base : gmap string string) : Prop :=
  (userSecurityConfig cr = "" /\ base = defaultSecurityconfigData) \/
  (userSecurityConfig cr <> "" /\ exists us,
     has_secret w cr (userSecurityConfig cr) us /\
     base = secret_Data us ∪ defaultSecurityconfigData).

Definition hashes_nothing (h : ohist) : Prop :=
  Forall (λ e, forall password, ev_req e <> Local_ (HashPassword password)) h.

Ltac run_get H := rewrite run_bind; unfold call at 1; cbn [run]; cbv zeta; rewrite H.

Section Stable.
Context `{RP : RetryPolicy} `{SV : Semver} `{SL : SecurityLib}.

Lemma run_baseSecurityConfig w cr base h :
  base_is w cr base -> hashes_nothing h ->
  exists h', run w (baseSecurityConfig cr) h = (Returned (Ok base), h') /\ hashes_nothing h'.
Proof.
  intros [(Hu & ->)|(Hu & us & Hw & ->)] Hh; unfold baseSecurityConfig.
  - rewrite Hu. by exists h.
  - rewrite (bool_decide_false _ Hu). cbn [negb]. unfold GetSecret. run_get Hw. cbn [run].
    eexists. split; [done|]. by constructor.
Qed.

Lemma run_dashboardsSecret w cr ds h :
  has_secret w cr (dashboardsSecretName cr) ds -> hashes_nothing h ->
  exists h' b, run w (EnsureDashboardsCredentialsSecret cr) h = (Returned (Ok ds, b), h') /\
    hashes_nothing h'.
Proof.
  unfold dashboardsSecretName, EnsureDashboardsCredentialsSecret, GetSecret. cbv zeta. intros Hw Hh.
  destruct (bool_decide (db_OpensearchCredentialsSecret (sp_Dashboards (cl_Spec cr)) = "")); cbn [negb];
    run_get Hw; cbn [run]; do 2 eexists; split; [done| |done|]; by constructor.
Qed.

Lemma keptHash_match hash password :
  hash <> "" -> CompareHashAndPassword hash password = true -> keptHash hash password = hash.
Proof. intros H1 H2. unfold keptHash. by rewrite (bool_decide_false _ H1), H2. Qed.

Lemma hashOverrides_written `{!SecurityLaws} users text ah dh ap dp :
  MarshalUsers (withHashes ah dh users) = Ok text ->
  ah <> "" -> dh <> "" ->
  CompareHashAndPassword ah ap = true -> CompareHashAndPassword dh dp = true ->
  hashOverrides (Some text) ap dp = (ah, dh).
Proof.
  intros Hm Ha Hd Hca Hcd. unfold hashOverrides. rewrite (UnmarshalMarshal _ _ Hm). cbn.
  by rewrite !keptHash_match.
Qed.

Lemma run_applyUserHashes w text users ap dp ah dh h :
  UnmarshalUsers text = Ok users -> ah <> "" -> dh <> "" ->
  run w (applyUserHashes text ap ah dp dh) h =
    (Returned (MarshalUsers (withHashes ah dh users)), h).
Proof.
  intros Hu Ha Hd. unfold applyUserHashes, hashOr. rewrite Hu.
  by rewrite (bool_decide_false _ Ha), (bool_decide_false _ Hd).
Qed.

End Stable.

(** The secret of the security configuration is stable: while the passwords and the user's
    files stay the same, the secret is generated with the content it has, no password is hashed
    again, and so the checksum that decides about a new job stays the same. *)
Theorem securityconfig_stable `{RP : RetryPolicy} `{SV : Semver} `{SL : SecurityLib}
    `{!SecurityLaws} (cr : OpenSearchCluster) (w : oenv) (adminSecret ds old : Secret)
    (base : gmap string string) (users : InternalUserConfig) (ap dp ah dh text written : string) :
  base_is w cr base -> base !! internalUsersFile = Some text -> UnmarshalUsers text = Ok users ->
  secret_Data adminSecret !! "password" = Some ap ->
  has_secret w cr (dashboardsSecretName cr) ds -> secret_Data ds !! "password" = Some dp -> dp <> "" ->
  ah <> "" -> dh <> "" ->
  CompareHashAndPassword ah ap = true -> CompareHashAndPassword dh dp = true ->
  MarshalUsers (withHashes ah dh users) = Ok written ->
  has_secret w cr (GeneratedSecurityConfigSecretName cr) old ->
  secret_Data old = <[internalUsersFile := written]> base ->
  exists s h, run w (BuildGeneratedSecurityConfigSecret cr adminSecret) [] = (Returned (Ok s), h) /\
    secret_Data s = secret_Data old /\ checksum (secret_Data s) = checksum (secret_Data old) /\
    hashes_nothing h.
Proof.
  intros Hb Ht Hu Hap Hds Hdp Hne Ha Hd Hca Hcd Hm Hold Hdata.
  unfold BuildGeneratedSecurityConfigSecret. rewrite run_bind.
  destruct (run_baseSecurityConfig w cr base [] Hb) as (h1 & -> & H1); [constructor|].
  rewrite Hap, run_bind. destruct (run_dashboardsSecret w cr ds h1 Hds H1) as (h2 & b & -> & H2).
  rewrite Hdp. cbn [default]. rewrite (bool_decide_false _ Hne), Ht.
  unfold GetSecret. cbv zeta. run_get Hold. rewrite Hdata, lookup_insert_eq.
  rewrite (hashOverrides_written users written ah dh ap dp) by done.
  rewrite run_bind, (run_applyUserHashes _ _ users) by done. rewrite Hm. cbn [run].
  do 2 eexists. split; [reflexivity|]. cbn [secret_Data]. split_and!; [done..|]. by constructor.
Qed.

(** ** What is written, and when *)

(** The cluster in the newest status update of a history. *)
Definition written_status (e : @event req resp) : option OpenSearchCluster :=
  match ev_req e with
  | StatusUpdate k o => match k return obj k -> option OpenSearchCluster with KCluster => Some | _ => λ _, None end o
  | _ => None
  end.
Definition last_status (h : ohist) : option OpenSearchCluster := head (omap written_status h).

(** *** The count that a status holds *)

Lemma Atoi_int64 z : - 2 ^ 63 <= z < 2 ^ 63 -> Atoi (Itoa z) = Some z.
Proof.
  intros Hz. destruct (decide (0 <= z)); [apply Atoi_Itoa; lia|].
  destruct z as [|p|p]; [lia..|].
  change (Itoa (Z.neg p)) with (String "-" (pretty (N.pos p))). unfold Atoi.
  change (scan_sign (String "-" (pretty (N.pos p)))) with (true, pretty (N.pos p)). cbv beta iota.
  rewrite (proj2 (pretty_N_digits (N.pos p))). unfold int64_ok. by rewrite bool_decide_true by lia.
Qed.
Lemma Atoi_range s n : Atoi s = Some n -> - 2 ^ 63 <= n < 2 ^ 63.
Proof.
  unfold Atoi. destruct (scan_sign s) as [neg s1]. destruct (scan_digits None s1) as [[v []]|]; try done.
  unfold int64_ok. by case_bool_decide; [intros [= <-]|].
Qed.

Lemma prefix_app p s : String.prefix p (p +:+ s) = true.
Proof.
  induction p as [|x p IH]; [by destruct s|]. rewrite str_app_cons. cbn [String.prefix].
  by destruct (ascii_dec x x).
Qed.
Lemma substring_all s : String.substring 0 (String.length s) s = s.
Proof. induction s as [|x s IH]; [done|]. cbn. by rewrite IH. Qed.
Lemma substring_app p s n : String.substring (String.length p) n (p +:+ s) = String.substring 0 n s.
Proof. by induction p. Qed.
Lemma TrimPrefix_app p s : TrimPrefix (p +:+ s) p = s.
Proof.
  unfold TrimPrefix. rewrite prefix_app, substring_app, str_app_length, Nat.add_comm, Nat.add_sub.
  apply substring_all.
Qed.

Section Count.
Context `{SL : SecurityLib}.

Lemma count_conditions c :
  securityConfigRetryCount c =
    default 0 (readCondition securityConfigRetryConditionPrefix Atoi (currentSecurityConfigRetryConditions c)).
Proof.
  unfold securityConfigRetryCount, currentSecurityConfigRetryConditions.
  by destruct (securityConfigComponentStatus c).
Qed.
Lemma count_range c : - 2 ^ 63 <= securityConfigRetryCount c < 2 ^ 63.
Proof.
  rewrite count_conditions. induction (currentSecurityConfigRetryConditions c) as [|x l IH]; [done|].
  cbn [readCondition]. destruct (String.prefix _ x); [|done].
  destruct (Atoi _) as [n|] eqn:E; [by apply Atoi_range in E|done].
Qed.
(** A count that was written is read back. *)
Lemma count_written c n last :
  currentSecurityConfigRetryConditions c = securityConfigRetryConditions n last ->
  - 2 ^ 63 <= n < 2 ^ 63 -> securityConfigRetryCount c = n.
Proof.
  intros Hc Hn. rewrite count_conditions, Hc. unfold securityConfigRetryConditions. cbn [readCondition].
  by rewrite prefix_app, TrimPrefix_app, Atoi_int64.
Qed.
End Count.

Section Guards.
Context `{RP : RetryPolicy} `{SV : Semver} `{HV : HcVersion} `{PE : ProcEnv} `{CL : CtrlLib}
  `{SL : SecurityLib}.
Context (instance : OpenSearchCluster).

#[local] Abbreviation getSecret := (getSecret instance).
#[local] Abbreviation getJob := (Get KJob (jobName instance) (cl_Namespace instance)).
#[local] Abbreviation deleteJob job := (Delete KJob (job_Name job) (job_Namespace job) PropForeground).

Definition adminSecretRef : string :=
  default (GeneratedAdminCredentialsSecretName instance) (user_credentials_secret instance).

Definition password_in (h : ohist) (name password : string) : Prop :=
  exists s, saw h (getSecret name) (Ok s) /\ secret_Data s !! "password" = Some password.
(** A hash is the answer to hashing the password, or one that the password matches. *)
Definition hash_of (h : ohist) (password hash : string) : Prop :=
  saw h (Local_ (HashPassword password)) (Ok hash) \/ CompareHashAndPassword hash password = true.

Definition base_seen (h : ohist) (base : gmap string string) : Prop :=
  (userSecurityConfig instance = "" /\ base = defaultSecurityconfigData) \/
  (exists us, saw h (getSecret (userSecurityConfig instance)) (Ok us) /\
     base = secret_Data us ∪ defaultSecurityconfigData).

(** The generated secret: the files of the user over the defaults, the file of users with the
    hashes of the two passwords. *)
Definition generated_data (h : ohist) (data : gmap string string) : Prop :=
  exists base text users ah dh ap dp written,
    base_seen h base /\ base !! internalUsersFile = Some text /\ UnmarshalUsers text = Ok users /\
    password_in h adminSecretRef ap /\ password_in h (dashboardsSecretName instance) dp /\ dp <> "" /\
    hash_of h ap ah /\ hash_of h dp dh /\ MarshalUsers (withHashes ah dh users) = Ok written /\
    data = <[internalUsersFile := written]> base.

Definition known_config (h : ohist) (s : Secret) : Prop :=
  saw h (getSecret (GeneratedSecurityConfigSecretName instance)) (Ok s).

(** A failed job whose delay is over. *)
Definition failed_due (h : ohist) (job : Job) : Prop :=
  job_Succeeded job <= 0 /\ job_Active job <= 0 /\ 0 < job_Failed job /\
  (securityConfigLastRetry instance = zeroTime \/
   exists now, saw h (Local_ TimeNow) now /\
     securityConfigRetryDelay (securityConfigRetryCount instance) <=
       saturate (now - securityConfigLastRetry instance)).

Definition job_due (h : ohist) (job : Job) : Prop :=
  saw h getJob (Ok job) /\ exists s, known_config h s /\
    (job_Annotations job !! checksumAnnotation <> Some (checksum (secret_Data s)) \/ failed_due h job).

Definition no_old_job (h : ohist) : Prop :=
  (exists e, saw h getJob (Err e)) \/
  (exists job job' res, saw h getJob (Ok job) /\ saw h (deleteJob job) None /\
     saw h (ReconcileResource KJob job StateAbsent) (job', (res, None))).

(** The fields of the status that are written. *)
Definition own_field (f : ClusterStatus -> ClusterStatus) : Prop :=
  (exists b, f = set_AdminSecretCreated b) \/ f = set_ContextSecretCreated true \/
  (exists cs, cs_Component cs = securityConfigComponentName /\
     f = λ st, set_ComponentsStatus (setComponent cs (st_ComponentsStatus st)) st).

(** The conditions that the status holds when a job is started. *)
Definition conditions_recorded (h : ohist) : Prop :=
  exists c, last_status h = Some c /\
    (currentSecurityConfigRetryConditions c = securityConfigRetryConditions 0 zeroTime \/
     currentSecurityConfigRetryConditions c = currentSecurityConfigRetryConditions instance).

(** The status that was written last counts no attempt, or as many as the instance. *)
Definition uncounted (h : ohist) : Prop :=
  exists c, last_status h = Some c /\
    (securityConfigRetryCount c = 0 \/ securityConfigRetryCount c = securityConfigRetryCount instance).

(** A reconciliation that came as far as the job, and ended without an error. *)
Definition asks_job (q : req) : bool := match q with Get KJob _ _ => true | _ => false end.
#[local] Abbreviation jobless := (λ q : req, asks_job q = false).
Definition ends_uncounted (h : ohist) (o : outcome (ReconcilerContext * (Result * option err))) : Prop :=
  (0 < count_calls asks_job h)%nat -> forall c res, o = Returned (c, (res, None)) -> uncounted h.

(** The secret of the certificate with which the job authenticates. *)
Definition adminSecretUsed : string :=
  if userAdminSecret instance == "" then cl_Name instance +:+ "-admin-cert"
  else userAdminSecret instance.

Inductive sec_allowed (h : ohist) : req -> Prop :=
| sa_reads q : reads q -> sec_allowed h q
(** Credentials are generated when there are none. *)
| sa_credentials name e s :
    (name = GeneratedAdminCredentialsSecretName instance \/
     name = GeneratedDashboardsCredentialsSecretName instance) ->
    saw h (getSecret name) (Err e) -> IsNotFound e = true -> secret_Name s = name ->
    sec_allowed h (storeSecret s)
| sa_config data s :
    generated_data h data ->
    ownedSecret instance (GeneratedSecurityConfigSecretName instance) "Opaque" data = Ok s ->
    sec_allowed h (storeSecret s)
(** Of the cluster that was fetched last, immediately before. *)
| sa_status f c :
    just_saw h (Get KCluster (cl_Name instance) (cl_Namespace instance)) (Ok c) -> own_field f ->
    sec_allowed h (StatusUpdate KCluster (with_status f c))
(** A job goes when the configuration has changed, or it failed and the delay is over. *)
| sa_delete job : job_due h job -> sec_allowed h (deleteJob job)
| sa_absent job :
    saw h (deleteJob job) None -> sec_allowed h (ReconcileResource KJob job StateAbsent)
(** A job starts for the configuration as it was read, and when there is no other: with all files
    until the cluster has been initialized, then with those of the secret. *)
| sa_create s adminCASecret volumes mounts job :
    known_config h s -> no_old_job h -> conditions_recorded h ->
    ownedJob instance
      (NewSecurityconfigUpdateJob instance (jobName instance) (cl_Namespace instance)
         (checksum (secret_Data s)) adminSecretUsed adminCASecret
         (if st_Initialized (cl_Status instance) then BuildCmdArg instance s
          else applyAllCmd instance) volumes mounts) = Ok job ->
    sec_allowed h (ReconcileResource KJob job StatePresent).

(** *** Lemmas *)

Lemma setComponent_first cs l :
  head (filter (λ x, cs_Component x = cs_Component cs) (setComponent cs l)) = Some cs.
Proof.
  induction l as [|x l IH]; cbn [setComponent]; [by rewrite filter_cons_True|].
  case_bool_decide; [by rewrite filter_cons_True|by rewrite filter_cons_False].
Qed.

Lemma foldl_nonempty (f : string -> string) (l : list string) (s : string) :
  s <> "" -> foldl (fun arg k => arg +:+ f k) s l <> "".
Proof.
  revert s. induction l as [|x l IH]; intros s Hs; [done|]. cbn [foldl]. apply IH. by destruct s.
Qed.
Lemma BuildCmdArg_nonempty s : BuildCmdArg instance s <> "".
Proof. by apply foldl_nonempty. Qed.

(** The rules below allow every read. *)
Lemma sec_reads h q : reads q -> sec_allowed h q.
Proof. apply sa_reads. Qed.
#[local] Hint Resolve sec_reads : core.

Lemma wp_store_credentials name e s h (Q : ohist -> outcome _ -> Prop) :
  (name = GeneratedAdminCredentialsSecretName instance \/
   name = GeneratedDashboardsCredentialsSecretName instance) ->
  saw h (getSecret name) (Err e) -> IsNotFound e = true -> secret_Name s = name ->
  (forall r, Q (Ev (storeSecret s) r :: h) (Returned r)) ->
  wp (CreateSecret s) sec_allowed Q h.
Proof. intros Hn Hs He Hnm HQ. unfold CreateSecret. wp_step; [by eapply sa_credentials|apply HQ]. Qed.

(** The end of both functions that make sure that credentials exist. *)
Lemma wp_ensured name s e h (Q : ohist -> outcome (result Secret * bool) -> Prop) :
  (name = GeneratedAdminCredentialsSecretName instance \/
   name = GeneratedDashboardsCredentialsSecretName instance) ->
  saw h (getSecret name) (Err e) -> IsNotFound e = true -> secret_Name s = name ->
  (forall h' r, extends h h' -> (forall x, r = Ok x -> saw h' (getSecret name) (Ok x)) ->
     Q h' (Returned (r, true))) ->
  wp (let! (_, (_, ce)) := CreateSecret s in
      match ce with
      | Some e => Ret (Err e, true)
      | None => let! r := GetSecret name (cl_Namespace instance) in Ret (r, true)
      end) sec_allowed Q h.
Proof.
  intros Hn Hs He Hnm HQ. wp_step. eapply wp_store_credentials; [done..|]. intros [s' [res [e'|]]].
  - do 2 wp_step. apply HQ; [ext|done].
  - wp_step. unfold GetSecret. wp_step; [by apply sec_reads|]. wp_step. apply HQ; [ext|].
    intros x ->. apply saw_here.
Qed.

Lemma wp_EnsureAdmin h (Q : ohist -> outcome (result Secret * bool) -> Prop) :
  (forall h' r b, extends h h' -> (forall x, r = Ok x -> saw h' (getSecret adminSecretRef) (Ok x)) ->
     Q h' (Returned (r, b))) ->
  wp (EnsureAdminCredentialsSecret instance) sec_allowed Q h.
Proof.
  intros HQ. unfold EnsureAdminCredentialsSecret, adminSecretRef in *. cbv zeta.
  destruct (user_credentials_secret instance) as [name|]; cbn [default] in HQ.
  - unfold GetSecret. wp_step; [by apply sec_reads|]. wp_step. apply HQ; [ext|]. intros x ->. apply saw_here.
  - unfold GetSecret at 1. wp_step; [by apply sec_reads|]. destruct r as [s|e].
    { wp_step. apply HQ; [ext|]. intros x [= ->]. apply saw_here. }
    destruct (IsNotFound e) eqn:En; cbn [negb]; [|wp_step; apply HQ; [ext|done]].
    wp_step; [by apply sec_reads|]. eapply wp_ensured; [by left|apply saw_there, saw_here|done|done|].
    intros h' r' H' Hr. apply HQ; [ext|done].
Qed.

Lemma wp_EnsureDashboards h (Q : ohist -> outcome (result Secret * bool) -> Prop) :
  (forall h' m, extends h h' -> Q h' (Panicked m)) ->
  (forall h' r b, extends h h' ->
     (forall x, r = Ok x -> saw h' (getSecret (dashboardsSecretName instance)) (Ok x)) ->
     Q h' (Returned (r, b))) ->
  wp (EnsureDashboardsCredentialsSecret instance) sec_allowed Q h.
Proof.
  intros Hm HQ. unfold EnsureDashboardsCredentialsSecret, dashboardsSecretName in *. cbv zeta in *.
  destruct (bool_decide (db_OpensearchCredentialsSecret _ = "")); cbn [negb].
  2:{ unfold GetSecret. wp_step; [by apply sec_reads|]. wp_step. apply HQ; [ext|]. intros x ->. apply saw_here. }
  unfold GetSecret at 1. wp_step; [by apply sec_reads|]. destruct r as [s|e].
  { wp_step. apply HQ; [ext|]. intros x [= ->]. apply saw_here. }
  destruct (IsNotFound e) eqn:En; cbn [negb]; [|wp_step; apply HQ; [ext|done]].
  wp_step; [by apply sec_reads|].
  destruct (security_cases instance) as [(b & Hb)|(m & Hb)]; unfold security_is in *; rewrite Hb;
    [|wp_step; wp_step; apply Hm; ext].
  do 2 wp_step. eapply wp_ensured; [by right|apply saw_there, saw_here|done|done|].
  intros h' r' H' Hr. apply HQ; [ext|done].
Qed.

Lemma hash_of_extends h h' p x : extends h h' -> hash_of h p x -> hash_of h' p x.
Proof. intros He [?|?]; [left; by eapply saw_extends|by right]. Qed.
Lemma password_in_extends h h' n p : extends h h' -> password_in h n p -> password_in h' n p.
Proof. intros He (s & ? & ?). exists s. split; [by eapply saw_extends|done]. Qed.
Lemma base_seen_extends h h' b : extends h h' -> base_seen h b -> base_seen h' b.
Proof. intros He [?|(us & ? & ?)]; [by left|right]. exists us. split; [by eapply saw_extends|done]. Qed.

(** A hash that is kept is one that the password matches. *)
Definition kept_ok (password override : string) : Prop :=
  override <> "" -> CompareHashAndPassword override password = true.
Lemma keptHash_ok hash password : kept_ok password (keptHash hash password).
Proof. unfold kept_ok, keptHash. destruct (_ && _) eqn:E; [by apply andb_prop in E as [_ ?]|done]. Qed.
Lemma hashOverrides_ok o ap dp :
  kept_ok ap (hashOverrides o ap dp).1 /\ kept_ok dp (hashOverrides o ap dp).2.
Proof.
  assert (forall p, kept_ok p "") as Hn by by intros p [].
  unfold hashOverrides. destruct o as [t|]; [|done]. destruct (UnmarshalUsers t) as [u|]; [|done].
  destruct (iuc_Kibanaserver u); cbn; split; (apply keptHash_ok || apply Hn).
Qed.

Lemma wp_hashOr {B} override password (f : result string -> io B) h (Q : ohist -> outcome B -> Prop) :
  kept_ok password override ->
  (forall h' e, extends h h' -> wp (f (Err e)) sec_allowed Q h') ->
  (forall h' hash, extends h h' -> hash_of h' password hash -> wp (f (Ok hash)) sec_allowed Q h') ->
  wp (bind (hashOr override password) f) sec_allowed Q h.
Proof.
  intros Hk He Hf. unfold hashOr. case_bool_decide as Ho; cbn [negb].
  - wp_step; [by apply sec_reads|]. destruct r as [hash|e]; [|apply He; ext].
    apply Hf; [ext|left; apply saw_here].
  - wp_step. wp_step. apply Hf; [ext|right; by apply Hk].
Qed.

Lemma wp_applyUserHashes text ap ao dp d_o h (Q : ohist -> outcome (result string) -> Prop) :
  kept_ok ap ao -> kept_ok dp d_o ->
  (forall h' e, extends h h' -> Q h' (Returned (Err e))) ->
  (forall h' users ah dh written, extends h h' -> UnmarshalUsers text = Ok users ->
     hash_of h' ap ah -> hash_of h' dp dh -> MarshalUsers (withHashes ah dh users) = Ok written ->
     Q h' (Returned (Ok written))) ->
  wp (applyUserHashes text ap ao dp d_o) sec_allowed Q h.
Proof.
  intros Ha Hd He HQ. unfold applyUserHashes. destruct (UnmarshalUsers text) as [users|e] eqn:Eu;
    [|wp_step; apply He; ext].
  apply wp_hashOr; [done|by intros; wp_step; apply He|]. intros h1 ah H1 Hah.
  apply wp_hashOr; [done|by intros; wp_step; apply He; ext|]. intros h2 dh H2 Hdh. wp_step.
  destruct (MarshalUsers _) as [written|e] eqn:Em; [|apply He; ext].
  eapply HQ; [ext|done|by eapply hash_of_extends|done|done].
Qed.

Lemma wp_base h (Q : ohist -> outcome (result (gmap string string)) -> Prop) :
  (forall h' e, extends h h' -> Q h' (Returned (Err e))) ->
  (forall h' base, extends h h' -> base_seen h' base -> Q h' (Returned (Ok base))) ->
  wp (baseSecurityConfig instance) sec_allowed Q h.
Proof.
  intros He HQ. unfold baseSecurityConfig. case_bool_decide as Hu; cbn [negb].
  - wp_step. apply HQ; [ext|by left].
  - unfold GetSecret. wp_step; [by apply sec_reads|]. wp_step. destruct r as [us|e]; [|apply He; ext].
    apply HQ; [ext|right]. exists us. split; [apply saw_here|done].
Qed.

Lemma wp_BuildGenerated admin h (Q : ohist -> outcome (result Secret) -> Prop) :
  saw h (getSecret adminSecretRef) (Ok admin) ->
  (forall h' m, extends h h' -> Q h' (Panicked m)) ->
  (forall h' e, extends h h' -> Q h' (Returned (Err e))) ->
  (forall h' data, extends h h' -> generated_data h' data ->
     Q h' (Returned (Ok (mkSecret (GeneratedSecurityConfigSecretName instance) (cl_Namespace instance)
                           ∅ data ∅ "" "Opaque" [])))) ->
  wp (BuildGeneratedSecurityConfigSecret instance admin) sec_allowed Q h.
Proof.
  intros Hs Hm He HQ. unfold BuildGeneratedSecurityConfigSecret. wp_step.
  apply wp_base; [by intros; do 2 wp_step; apply He|]. intros h1 base H1 Hb. wp_step.
  destruct (secret_Data admin !! "password") as [ap|] eqn:Eap; [|wp_step; by apply He]. wp_step.
  apply wp_EnsureDashboards; [intros; wp_step; apply Hm; ext|].
  intros h2 [ds|e] b H2 Hds; wp_step; [|wp_step; apply He; ext]. cbv zeta.
  destruct (bool_decide (default "" _ = "")) eqn:Edp; [wp_step; apply He; ext|].
  apply bool_decide_eq_false in Edp.
  destruct (base !! internalUsersFile) as [text|] eqn:Et; [|wp_step; apply He; ext].
  unfold GetSecret. wp_step; [by apply sec_reads|].
  destruct (match r with Ok _ => _ | Err _ => _ end) as [old|e] eqn:Er; [|wp_step; apply He; ext].
  destruct (secret_Data ds !! "password") as [dp|] eqn:Ep; [|done]. cbn [default id from_option] in *.
  pose proof (hashOverrides_ok old ap dp) as [Hk1 Hk2].
  destruct (hashOverrides old ap dp) as [ao d_o]. wp_step.
  apply wp_applyUserHashes; [done|done|intros; do 2 wp_step; apply He; ext|].
  intros h3 users ah dh written H3 Hu Hah Hdh Hw. do 2 wp_step. apply HQ; [ext|].
  exists base, text, users, ah, dh, ap, dp, written. split_and!; try done.
  - eapply base_seen_extends; [|done]. ext.
  - exists admin. split; [eapply saw_extends; [|done]; ext|done].
  - exists ds. split; [eapply saw_extends; [|by apply Hds]; ext|done].
Qed.

(** *** The status *)

Lemma wp_status f h (Q : ohist -> outcome (option err) -> Prop) :
  own_field f ->
  (forall h' e, extends h h' -> Q h' (Returned (Some e))) ->
  (forall h' c, extends h h' -> Q (Ev (StatusUpdate KCluster (with_status f c)) None :: h') (Returned None)) ->
  wp (updateStatusOf instance (with_status f)) sec_allowed Q h.
Proof.
  intros Hf He HQ.
  apply wp_UpdateStatus_last; [intros; by apply sec_reads|intros; by apply sa_status|done|done].
Qed.

Lemma wp_setFlag differs f h (Q : ohist -> outcome (option err) -> Prop) :
  own_field f -> (forall h' e, extends h h' -> Q h' (Returned e)) ->
  wp (setFlag instance differs f) sec_allowed Q h.
Proof.
  intros Hf HQ. unfold setFlag. destruct differs; [|wp_step; apply HQ; ext].
  apply wp_status; [done|by intros; apply HQ|]. intros h' c H'. apply HQ. ext.
Qed.

Lemma wp_component status description conditions h (Q : ohist -> outcome (option err) -> Prop) :
  (forall h' e, extends h h' -> Q h' (Returned (Some e))) ->
  (forall h' c, extends h h' -> last_status h' = Some c ->
     currentSecurityConfigRetryConditions c = conditions -> Q h' (Returned None)) ->
  wp (updateSecurityConfigComponentStatus instance status description conditions) sec_allowed Q h.
Proof.
  intros He HQ. unfold updateSecurityConfigComponentStatus, UpdateComponentStatus.
  apply (wp_status (λ st, set_ComponentsStatus (setComponent (mkCS securityConfigComponentName status
    description conditions) (st_ComponentsStatus st)) st)); [|done|].
  - right. right. eexists. split; [|done]. done.
  - intros h' c H'. eapply HQ; [ext|done|]. unfold currentSecurityConfigRetryConditions.
    unfold securityConfigComponentStatus, componentsStatus. cbn.
    by rewrite (setComponent_first (mkCS securityConfigComponentName status description conditions)).
Qed.

(** *** The job that is there *)

Lemma uncounted_as h c n last :
  last_status h = Some c -> currentSecurityConfigRetryConditions c = securityConfigRetryConditions n last ->
  n = 0 \/ n = securityConfigRetryCount instance -> uncounted h.
Proof.
  intros Hl Hc Hn. exists c. split; [done|]. rewrite (count_written c n last); [done|done|].
  destruct Hn as [-> | ->]; [lia|apply count_range].
Qed.
Lemma recorded_uncounted h : conditions_recorded h -> uncounted h.
Proof.
  intros (c & Hl & [Hc|Hc]); [eapply uncounted_as; [done..|by left]|]. exists c. split; [done|right].
  by rewrite !count_conditions, Hc.
Qed.

Lemma wp_handleExisting job h (Q : ohist -> outcome (Result * bool * option err) -> Prop) :
  (forall h' res e, extends h h' -> (e = None -> uncounted h') -> Q h' (Returned (res, true, e))) ->
  (forall h' res e, extends h h' -> Q h' (Returned (res, false, Some e))) ->
  (forall h' res, extends h h' -> failed_due h' job -> Q h' (Returned (res, false, None))) ->
  wp (handleExistingSecurityConfigJob instance job) sec_allowed Q h.
Proof.
  intros Hd He Hf. unfold handleExistingSecurityConfigJob.
  assert (forall status res, wp (statusAndResult instance status res) sec_allowed Q h) as Hs.
  { intros status res. unfold statusAndResult. wp_step.
    apply wp_component; [by intros; do 2 wp_step; apply Hd|]. intros h' c H' Hl Hc. do 2 wp_step.
    apply Hd; [done|]. intros _. exists c. rewrite (count_conditions c), Hc. by split; [|left]. }
  case_bool_decide as J1; [by apply Hs|]. case_bool_decide as J2; [by apply Hs|].
  case_bool_decide as J3; [|by apply Hs]. unfold handleFailedJob. cbv zeta.
  set (last := securityConfigLastRetry instance) in *. wp_step.
  (* Once the delay is over. *)
  assert (forall h1, extends h h1 ->
    (last = zeroTime \/ exists now, saw h1 (Local_ TimeNow) now /\
       securityConfigRetryDelay (securityConfigRetryCount instance) <= saturate (now - last)) ->
    wp (let! now := ask (Local_ TimeNow) in
        do! ask (RecordEvent "Warning" "Security"
               ("Securityconfig update job failed, retrying (attempt " +:+
                Itoa (wrap64 (securityConfigRetryCount instance + 1)) +:+ ")")) in
        let! e := updateSecurityConfigComponentStatus instance securityConfigStatusFailed jobFailed
                (securityConfigRetryConditions (wrap64 (securityConfigRetryCount instance + 1)) now) in
        match e with
        | Some e => Ret (noResult, true, Some e)
        | None => Ret (noResult, false, None)
        end) sec_allowed Q h1) as Hretry.
  { intros h1 H1 Hl. wp_step; [by apply sec_reads|]. wp_step; [by apply sec_reads|]. wp_step.
    apply wp_component; [intros h2 e H2; do 2 wp_step; apply Hd; [ext|done]|].
    intros h2 c H2 _ _. do 2 wp_step.
    apply Hf; [ext|]. split_and!; [lia..|]. destruct Hl as [?|(now & ? & ?)]; [by left|right].
    exists now. split; [eapply saw_extends; [|done]; ext|done]. }
  case_bool_decide as Hz.
  { wp_step. wp_step. apply Hretry; [ext|by left]. }
  unfold since. wp_step. wp_step; [by apply sec_reads|]. do 4 wp_step. case_bool_decide as Hlt.
  - wp_step. wp_step; [by apply sec_reads|]. do 3 wp_step.
    apply wp_component; [by intros; do 2 wp_step; apply Hd; [ext|]|]. intros h' c H' Hl Hc. do 2 wp_step.
    apply Hd; [ext|]. intros _. by eapply uncounted_as; [..|right].
  - apply Hretry; [ext|right]. exists r. split; [apply saw_here|lia].
Qed.

Lemma job_due_extends h h' job : extends h h' -> job_due h job -> job_due h' job.
Proof.
  intros He (Hj & s & Hs & Hd). split; [by eapply saw_extends|]. exists s.
  split; [by eapply saw_extends|]. destruct Hd as [?|(? & ? & ? & Hr)]; [by left|right].
  split_and!; [done..|]. destruct Hr as [?|(now & ? & ?)]; [by left|right]. exists now.
  split; [by eapply saw_extends|done].
Qed.

Lemma wp_checkOldJob s h (Q : ohist -> outcome (bool + (Result * option err)) -> Prop) :
  known_config h s ->
  (forall h' res e, extends h h' -> (e = None -> uncounted h') -> Q h' (Returned (inr (res, e)))) ->
  (forall h' reset, extends h h' -> no_old_job h' -> Q h' (Returned (inl reset))) ->
  wp (checkOldJob instance (checksum (secret_Data s))) sec_allowed Q h.
Proof.
  intros Hk Hs HQ. unfold checkOldJob, GetJob. wp_step; [by apply sec_reads|].
  destruct r as [job|e]; [|wp_step; apply HQ; [ext|left; exists e; apply saw_here]]. cbv zeta.
  (* The deletion of a job that is due. *)
  assert (forall h1 current, extends (Ev getJob (Ok job) :: h) h1 -> job_due h1 job ->
    wp (let! e := DeleteJob job in
        Ret match e with Some e => inr (noResult, Some e) | None => inl (negb current) end)
      sec_allowed Q h1) as Hdel.
  { intros h1 current H1 Hdue. wp_step. unfold DeleteJob. wp_step; [by apply sa_delete|].
    destruct r as [e|]; [do 3 wp_step; by apply Hs; [ext|]|]. wp_step; [apply sa_absent, saw_here|].
    destruct r as [job' [res [e|]]]; do 3 wp_step; [by apply Hs; [ext|]|]. apply HQ; [ext|right].
    exists job, job', res. split_and!; [|apply saw_there, saw_here|apply saw_here].
    do 2 apply saw_there. eapply saw_extends; [done|apply saw_here]. }
  case_bool_decide as Hc.
  - wp_step. wp_step. apply wp_handleExisting.
    + intros h' res [e|] H' Hu; do 4 wp_step; (apply Hs; [ext|]); [done|by intros; apply Hu].
    + intros h' res e H'. do 4 wp_step. by apply Hs; [ext|].
    + intros h' res H' Hf. do 3 wp_step. apply (Hdel h' true); [done|].
      split; [eapply saw_extends; [done|apply saw_here]|]. exists s.
      split; [eapply saw_extends; [|exact Hk]; ext|by right].
  - wp_step. wp_step. wp_step. apply (Hdel _ false); [ext|]. split; [apply saw_here|]. exists s.
    split; [apply saw_there, Hk|by left].
Qed.

(** The secret of the authority is found without a request. *)
Lemma caSecret_cases admin :
  (exists ca, determineAdminCASecret instance admin = Ret ca) \/
  exists m, determineAdminCASecret instance admin = Panic m.
Proof.
  unfold determineAdminCASecret, TlsCASecretRef, SecurityChangeVersion, CheckVersionConstraint.
  destruct (cluster_tls instance) as [t|]; [|left; by eexists].
  destruct (NewConstraint _) as [k|e]; [|right; by eexists].
  destruct (NewVersion _) as [v|e]; left; by eexists.
Qed.

Lemma wp_startJob s c h :
  known_config h s -> no_old_job h -> conditions_recorded h ->
  wp (startJob instance s adminSecretUsed c) sec_allowed (λ h' _, uncounted h') h.
Proof.
  intros Hk Ho Hr. unfold startJob. cbv zeta. wp_step; [by apply sec_reads|].
  set (h1 := Ev (RecordEvent _ _ _) r :: h).
  assert (known_config h1 s) as Hk1 by by apply saw_there.
  assert (conditions_recorded h1) as Hr1 by done. pose proof (recorded_uncounted _ Hr1) as Hu.
  assert (no_old_job h1) as Ho1.
  { destruct Ho as [(e & ?)|(job & job' & res & ? & ? & ?)]; [left; exists e; by apply saw_there|right].
    exists job, job', res. split_and!; by apply saw_there. }
  clearbody h1.
  rewrite (bool_decide_false (BuildCmdArg instance s = "") (BuildCmdArg_nonempty s)), orb_false_r.
  (* With any secret of the authority. *)
  assert (forall ca, wp (match ownedJob instance
     (NewSecurityconfigUpdateJob instance (jobName instance) (cl_Namespace instance)
        (checksum (secret_Data s)) adminSecretUsed ca
        (if negb (st_Initialized (cl_Status instance)) then applyAllCmd instance
         else BuildCmdArg instance s) (rc_Volumes c) (rc_VolumeMounts c)) with
     | Err e => Ret (noResult, Some e)
     | Ok job => let! (_, (_, e)) := CreateJob job in Ret (noResult, e)
     end) sec_allowed (λ h' _, uncounted h') h1) as Hstart.
  { intros ca. destruct (ownedJob _ _) as [job|e] eqn:Eo; [|by wp_step]. unfold CreateJob. wp_step.
    - eapply sa_create; [done..|]. by destruct (st_Initialized _).
    - destruct r0 as [? [? ?]]. by wp_step. }
  destruct (caSecret_cases adminSecretUsed) as [(ca & ->)|(m & ->)]; [|by wp_step].
  wp_step. wp_step. cbn [seq_post]. apply Hstart.
Qed.

Lemma wp_applyConfig s c h :
  known_config h s ->
  wp (applyConfig instance s adminSecretUsed c) sec_allowed
    (λ h' o, forall res, o = Returned (res, None) -> uncounted h') h.
Proof.
  intros Hk. unfold applyConfig. wp_step. apply wp_checkOldJob; [done| |].
  { intros h' res e H' Hu. do 2 wp_step. intros ? [= _ ->]. by apply Hu. }
  intros h1 reset H1 Ho. do 2 wp_step. apply wp_component; [by intros; do 2 wp_step|].
  intros h2 c2 H2 Hl Hc. wp_step. eapply wp_mono; [done| |apply wp_startJob]; [by intros| | |].
  - eapply saw_extends; [|exact Hk]. ext.
  - destruct Ho as [(e & ?)|(job & job' & res & ? & ? & ?)]; [left; exists e|right; exists job, job', res];
      [by eapply saw_extends|split_and!; by eapply saw_extends].
  - exists c2. split; [done|]. rewrite Hc. destruct reset; [by left|by right].
Qed.

Lemma wp_readConfigSecret h (Q : ohist -> outcome (Secret + (Result * option err)) -> Prop) :
  (forall h' stop, extends h h' -> Q h' (Returned (inr stop))) ->
  (forall h' s, extends h h' -> known_config h' s -> Q h' (Returned (inl s))) ->
  wp (readConfigSecret instance) sec_allowed Q h.
Proof.
  intros Hs HQ. unfold readConfigSecret, GetSecret. cbv zeta. wp_step; [by apply sec_reads|].
  destruct r as [s|e]; [wp_step; apply HQ; [ext|apply saw_here]|]. destruct (IsNotFound e).
  - wp_step; [by apply sec_reads|]. wp_step. apply Hs. ext.
  - wp_step. apply Hs. ext.
Qed.

Lemma wp_ensureConfigSecret h (Q : ohist -> outcome (Secret + (Result * option err)) -> Prop) :
  (forall h' m, extends h h' -> Q h' (Panicked m)) ->
  (forall h' stop, extends h h' -> Q h' (Returned (inr stop))) ->
  (forall h' s, extends h h' -> known_config h' s -> Q h' (Returned (inl s))) ->
  wp (ensureConfigSecret instance) sec_allowed Q h.
Proof.
  intros Hm Hs HQ. unfold ensureConfigSecret. wp_step. apply wp_EnsureAdmin.
  intros h1 [admin|e] b H1 Ha; [|do 2 wp_step; by apply Hs]. do 2 wp_step.
  apply wp_setFlag; [left; by eexists|]. intros h2 [e|] H2; [do 2 wp_step; apply Hs; ext|]. do 2 wp_step.
  apply wp_BuildGenerated; [eapply saw_extends; [done|by apply Ha]|intros; wp_step; apply Hm; ext
    |intros; do 2 wp_step; apply Hs; ext|].
  intros h3 data H3 Hd. wp_step. cbn [secret_Name secret_Type secret_Data].
  destruct (ownedSecret _ _ _ _) as [s|e] eqn:Eo; [|wp_step; apply Hs; ext].
  wp_step; [by eapply sa_config|]. destruct r as [s' [res [e|]]]; [wp_step; apply Hs; ext|]. wp_step.
  apply wp_setFlag; [right; by left|]. intros h4 [e|] H4; [do 2 wp_step; apply Hs; ext|]. wp_step.
  apply wp_readConfigSecret; [intros; apply Hs; ext|]. intros h5 s5 H5 Hk. apply HQ; [ext|done].
Qed.

(** Nothing asks for the job before the configuration has been read. *)
Lemma only_setFlag_jobless b f : only jobless (setFlag instance b f).
Proof.
  unfold setFlag, updateStatusOf. destruct b; [|only_auto]. intros h. by apply wp_UpdateStatus.
Qed.
#[local] Hint Resolve only_setFlag_jobless : only.
Lemma only_ensureConfigSecret : only jobless (ensureConfigSecret instance).
Proof.
  unfold ensureConfigSecret, EnsureAdminCredentialsSecret, BuildGeneratedSecurityConfigSecret,
    baseSecurityConfig, EnsureDashboardsCredentialsSecret, readConfigSecret, CreateSecret, GetSecret,
    applyUserHashes, hashOr, IsSecurityPluginEnabled, SecurityChangeVersion.
  only_auto.
Qed.

Lemma wp_SecurityconfigReconcile c h :
  wp (SecurityconfigReconcile instance c) sec_allowed
    (λ h' o, count_calls asks_job h = 0%nat -> ends_uncounted h' o) h.
Proof.
  unfold SecurityconfigReconcile, ends_uncounted.
  destruct (security_cases instance) as [(b & Hb)|(m & Hb)]; unfold security_is in *; rewrite Hb;
    [|by wp_step]. do 3 wp_step. destruct b; cbn [negb]; [|by wp_step; intros ->; lia].
  assert (determineAdminSecret instance = Ret adminSecretUsed) as ->.
  { unfold determineAdminSecret, adminSecretUsed. rewrite Hb. by case_bool_decide. }
  wp_step. wp_step. wp_step. case_bool_decide; [by wp_step|]. wp_step.
  pose proof (wp_ensureConfigSecret h (λ h' o, forall s, o = Returned (inl s) -> known_config h' s)
    ltac:(done) ltac:(done) ltac:(by intros ? ? ? ? ? [= <-])) as H1.
  pose proof (wp_count_never asks_job _ h only_ensureConfigSecret) as H2.
  eapply wp_mono; [|clear H1 H2|exact (wp_conj _ _ _ _ _ _ H1 H2)]; [by intros ? ? [? _]|].
  intros h' [[s|stop]|m] [Hk Hn]; wp_step; [|wp_step; rewrite Hn; intros ->; lia|done]. cbv zeta. wp_step.
  eapply wp_mono; [done| |by apply wp_applyConfig, Hk]. intros h2 [[res e]|m] Hu; wp_step; [|done].
  wp_step. intros _ _ c' res' [= <- <- ->]. by eapply Hu.
Qed.

End Guards.

(** ** Theorems *)


(** A cluster through any number of reconciliations that come as far as the job and end without an
    error, with any answers; the next one finds the entry as it was written last, while everything
    else of the cluster may change. *)
Inductive kept_trying `{RP : RetryPolicy} `{SV : Semver} `{HV : HcVersion} `{PE : ProcEnv} `{CL : CtrlLib}
    `{SL : SecurityLib} (first : OpenSearchCluster) : OpenSearchCluster -> Prop :=
| kt_first : kept_trying first first
| kt_changed y z :
    kept_trying first y ->
    currentSecurityConfigRetryConditions z = currentSecurityConfigRetryConditions y ->
    kept_trying first z
| kt_reconciled y z (w : oenv) c c' res h :
    kept_trying first y ->
    run w (SecurityconfigReconcile y c) [] = (Returned (c', (res, None)), h) ->
    (0 < count_calls asks_job h)%nat -> last_status h = Some z -> kept_trying first z.

(** C36: attempts are not counted: through any number of reconciliations that end without an error,
    however many failed jobs are started again, the recorded number of attempts is none or that of
    the beginning, and so the delay before the next attempt never exceeds that of the beginning.
    (An attempt does stay recorded when the reconciliation ends with an error after recording it, as
    when the failed job cannot be deleted.) *)
Theorem attempts_not_counted `{RP : RetryPolicy} `{SV : Semver} `{HV : HcVersion} `{PE : ProcEnv}
    `{CL : CtrlLib} `{SL : SecurityLib} (first z : OpenSearchCluster) :
  kept_trying first z ->
  (securityConfigRetryCount z = 0 \/ securityConfigRetryCount z = securityConfigRetryCount first) /\
  securityConfigRetryDelay (securityConfigRetryCount z) <=
    securityConfigRetryDelay (securityConfigRetryCount first).
Proof.
  intros Hk.
  assert (securityConfigRetryCount z = 0 \/ securityConfigRetryCount z = securityConfigRetryCount first)
    as Hz.
  { induction Hk as [|y z _ IH Hc|y z w c c' res h _ IH Hrun Hj Hl]; [by right| |].
    - by rewrite (count_conditions z), Hc, <- count_conditions.
    - pose proof (proj1 (wp_run w _ _ _ (wp_SecurityconfigReconcile y c [])) eq_refl) as Hu.
      rewrite Hrun in Hu. destruct (Hu Hj c' res eq_refl) as (z' & Hz & Hn). cbn [snd] in Hz.
      rewrite Hl in Hz. injection Hz as <-. destruct Hn as [?|He]; [by left|by rewrite He]. }
  split; [done|]. destruct Hz as [-> | ->]; [apply delay_at_least|done].
Qed.

(** ** Samples *)

Module SecuritySamples.
Import Samples.

#[local] Instance owner : CtrlLib :=
  {| SetControllerReference := fun name uid refs => Ok (mkOwner name uid true :: refs) |}.

(** The default file of users, with hashes that show the password. *)
Definition default_users : InternalUserConfig :=
  mkInternalUsers "internalusers" 2 (mkInternalUser "" true ["admin"] "Demo admin user")
    (Some (mkInternalUser "" true [] "Demo user for the OpenSearch Dashboards server")).
Definition hashed_users : InternalUserConfig := withHashes "h(pw)" "h(dash)" default_users.

#[local] Instance lib : SecurityLib :=
  {| UnmarshalUsers := fun text =>
       if text == "hashed users" then Ok hashed_users
       else if text == defaultInternalUsers then Ok default_users else Err (OtherErr "not YAML");
     MarshalUsers := fun u => if u == hashed_users then Ok "hashed users" else Err (OtherErr "unknown");
     CompareHashAndPassword := fun hash password => hash == "h(" +:+ password +:+ ")";
     Sha1Base64 := fun s => "sum of " +:+ s;
     ParseRFC3339 := fun s => Atoi s;
     FormatRFC3339 := Itoa |}.
#[local] Instance laws : SecurityLaws.
Proof.
  split. intros u text. cbn. case_bool_decide as E; [|done]. intros [= <-]. by rewrite E.
Qed.

Definition dashboards_secret : Secret :=
  mkSecret "os-dashboards-password" "ns" ∅ {["username" := "kibanaserver"; "password" := "dash"]} ∅
    "1" "Opaque" [].
Definition config_secret : Secret :=
  mkSecret "os-security-config-generated" "ns" ∅ {[internalUsersFile := "hashed users"]} ∅ "1" "Opaque" [].

Definition tls_on : TlsSide := mkTlsSide (Some true) true "" "" false 0 None false [] [] None.
Definition secured : OpenSearchCluster :=
  mkCluster "os" "ns" "uid" None []
    (mkClusterSpec (plain_general false ∅ []) false
       (Some (mkSecurity (Some (mkTlsConfig (Some tls_on) (Some tls_on))) None)) [nodes] no_dashboards
       no_init_helper no_bootstrap) (running []).

(** The job of this configuration, which has failed. *)
Definition failed_job : Job :=
  let j := NewSecurityconfigUpdateJob secured "os-securityconfig-update" "ns"
             (checksum (secret_Data config_secret)) "os-admin-cert" "" "" [] [] in
  mkJob (job_Name j) (job_Namespace j) (job_Annotations j) (job_Labels j) 1 2400 (job_Pod j) 0 0 1 [].

Definition server : oenv := fun q _ =>
  match q return resp q with
  | Get KSecret name _ =>
      if name == "os-admin-password" then Ok admin_secret
      else if name == "os-dashboards-password" then Ok dashboards_secret
      else if name == "os-security-config-generated" then Ok config_secret
      else Err (OtherErr "unexpected")
  | Get KCluster _ _ => Ok secured
  | Get KJob _ _ => Ok failed_job
  | StatusUpdate _ _ => None
  | Delete _ _ _ _ => None
  | ReconcileResource k o s => (o, (None, None))
  | q' => down q'
  end.

Lemma securityconfig_stable_witness :
  exists s h, run server (BuildGeneratedSecurityConfigSecret secured admin_secret) [] = (Returned (Ok s), h) /\
    secret_Data s = secret_Data config_secret /\
    checksum (secret_Data s) = checksum (secret_Data config_secret) /\ hashes_nothing h.
Proof.
  apply (securityconfig_stable secured server admin_secret dashboards_secret config_secret
           defaultSecurityconfigData default_users "pw" "dash" "h(pw)" "h(dash)" defaultInternalUsers
           "hashed users"); try done; [by left|vm_compute; reflexivity..].
Defined.

(** A failed job is started again: the attempt is recorded, and then overwritten. *)
Definition recorded (h : ohist) : list (list string) :=
  currentSecurityConfigRetryConditions <$> omap written_status h.
Definition empty_context : ReconcilerContext := mkContext [] [] [] ∅ ∅.
Example attempt_recorded_and_lost :
  recorded (run server (SecurityconfigReconcile secured empty_context) []).2 =
    [[]; ["retry:1"; "lastRetry:0"]; []; []].
Proof. vm_compute. reflexivity. Qed.

(** Two attempts, the second one on the cluster that the first one wrote. *)
Definition after (c : OpenSearchCluster) : OpenSearchCluster :=
  default c (last_status (run server (SecurityconfigReconcile c empty_context) []).2).
Lemma attempts_not_counted_witness :
  (securityConfigRetryCount (after (after secured)) = 0 \/
   securityConfigRetryCount (after (after secured)) = securityConfigRetryCount secured) /\
  securityConfigRetryDelay (securityConfigRetryCount (after (after secured))) <=
    securityConfigRetryDelay (securityConfigRetryCount secured).
Proof.
  apply attempts_not_counted.
  assert (forall c, kept_trying secured c -> (run server (SecurityconfigReconcile c empty_context) []).1 =
    Returned (securityconfigSubpaths c config_secret empty_context, (noResult, None)) ->
    Nat.ltb 0 (count_calls asks_job (run server (SecurityconfigReconcile c empty_context) []).2) = true ->
    is_Some (last_status (run server (SecurityconfigReconcile c empty_context) []).2) ->
    kept_trying secured (after c)) as Hstep.
  { intros c Hc Hr Hj [z Hz]. unfold after.
    eapply (kt_reconciled _ c); [done|by rewrite <- Hr, <- surjective_pairing| |].
    - by apply Nat.ltb_lt in Hj.
    - by rewrite Hz. }
  apply Hstep; [apply Hstep; [apply kt_first|..]|..]; vm_compute; try reflexivity; by eexists.
Defined.

End SecuritySamples.
