(* ===== verification/Waits.v ===== *)
(** * Waits: claims, deployments and services, and waiting for the API server

    Models the rest of [pkg/reconcilers/k8s/client.go] and the functions of
    [pkg/helpers/helpers.go] that delete an object and poll until it is gone, or poll until a
    stateful set has a status.  A poll asks its condition at most [PollSteps] times. *)

From S2P Require Import Prelude Prog Resources Api K8sClient Helpers.
From S2P Require Import OsClient OsData ReconcilerUtil.

(** ** The client *)

Definition GetDeployment (name ns : string) : io (result Deployment) :=
  ask (Get KDeployment name ns).
Definition CreateDeployment (d : Deployment) : io (Deployment * (option Result * option err)) :=
  ask (ReconcileResource KDeployment d StatePresent).
Definition DeleteDeployment (d : Deployment) (orphan : bool) : io (option err) :=
  ask (Delete KDeployment (dep_Name d) (dep_Namespace d)
         (if orphan then PropOrphan else PropForeground)).
Definition GetService (name ns : string) : io (result Service) := ask (Get KService name ns).
Definition CreateService (s : Service) : io (Service * (option Result * option err)) :=
  ask (ReconcileResource KService s StatePresent).
Definition UpdateSecret (s : Secret) : io (option err) := ask (Update KSecret s).
Definition GetPVC (name ns : string) : io (result PVC) := ask (Get KPVC name ns).
Definition UpdatePVC (p : PVC) : io (option err) := ask (Update KPVC p).
(** A copy of the pod is written; of two labels with one key the new one wins. *)
Definition UpdatePodLabels (pod : Pod) (newLabels : gmap string string) : io (option err) :=
  ask (Update KPod (pod_with_Labels (newLabels ∪ pod_Labels pod) pod)).

(** ** Polling *)

Definition DeadlineExceeded : err := OtherErr "context deadline exceeded".

Section Poll.
Context {S : Type}.

(** [s] holds the variables that the condition writes. *)
Fixpoint poll_loop (steps : nat) (cond : S -> io (S * (bool * option err))) (s : S)
    : io (S * option err) :=
  match steps with
  | O => Ret (s, Some DeadlineExceeded)
  | Datatypes.S n =>
      let! (s', (done_, e)) := cond s in
      match e with
      | Some e => Ret (s', Some e)
      | None => if (done_ : bool) then Ret (s', None) else poll_loop n cond s'
      end
  end.

Lemma only_poll_loop R n cond s :
  (forall s, only R (cond s)) -> only R (poll_loop n cond s).
Proof.
  intros Hc. revert s. induction n as [|n IH]; intros s; [apply only_ret|]. simpl.
  apply only_bind; [apply Hc|]. intros [s' [done_ [e|]]]; [apply only_ret|].
  destruct done_; [apply only_ret|apply IH].
Qed.

(** What the condition keeps, and what it shows when it ends the poll. *)
Lemma wp_poll_loop (Inv : S -> ohist -> Prop) n cond s P (Q : ohist -> outcome (S * option err) -> Prop) h :
  Inv s h ->
  (forall s h, Inv s h -> wp (cond s) P (λ h' o,
     match o with
     | Returned (s', (_, Some e)) => Q h' (Returned (s', Some e))
     | Returned (s', (true, None)) => Q h' (Returned (s', None))
     | Returned (s', (false, None)) => Inv s' h'
     | Panicked m => Q h' (Panicked m)
     end) h) ->
  (forall s h, Inv s h -> Q h (Returned (s, Some DeadlineExceeded))) ->
  wp (poll_loop n cond s) P Q h.
Proof.
  intros Hi Hc Hd. revert s h Hi. induction n as [|n IH]; intros s h Hi; simpl.
  - wp_step. by apply Hd.
  - wp_step. eapply wp_mono; [done| |by apply Hc].
    intros h' [[s' [[] [e|]]]|m] Ho; simpl in *; repeat wp_step; auto.
Qed.

End Poll.

Section Waits.
Context `{PP : PollPolicy}.

(** [wait.PollUntilContextTimeout] with a condition that writes nothing. *)
Definition Poll (cond : io (bool * option err)) : io (option err) :=
  let! (_, e) := poll_loop PollSteps (fun s : unit => let! r := cond in Ret (s, r)) tt in Ret e.

(** The condition of the waits for a deletion. *)
Definition isGone {A} (get : io (result A)) : io (bool * option err) :=
  let! r := get in
  match r with
  | Err e => if IsNotFound e then Ret (true, None) else Ret (false, Some e)
  | Ok _ => Ret (false, None)
  end.

(** Any answer but not-found is asked for again. *)
Definition WaitForPodDeletion (podName namespace : string) : io (option err) :=
  let! e := Poll (
    let! r := GetPod podName namespace in
    match r with
    | Err e => Ret (IsNotFound e, None)
    | Ok _ => Ret (false, None)
    end) in
  match e with
  | None => Ret None
  | Some e =>
      if e == DeadlineExceeded
      then Ret (Some (OtherErr ("timeout waiting for pod " +:+ podName +:+ " deletion after 30s")))
      else Ret (Some (Wrapped ("error waiting for pod " +:+ podName +:+ " deletion: ") e))
  end.

(** ** Stateful sets *)

Definition WaitForSTSDelete (o : StatefulSet) : io (option err) :=
  let! e := DeleteStatefulSet o true in
  match e with
  | Some e => Ret (Some e)
  | None => Poll (isGone (GetStatefulSet (sts_Name o) (sts_Namespace o)))
  end.

Definition WaitForSTSReplicas (o : StatefulSet) (replicas : Z) : io (option err) :=
  Poll (
    let! r := GetStatefulSet (sts_Name o) (sts_Namespace o) in
    match r with
    | Err e => if IsNotFound e then Ret (false, None) else Ret (false, Some e)
    | Ok existing => Ret (bool_decide (sts_StatusReplicas existing >= replicas), None)
    end).

(** The stateful set as it was last read, whatever the outcome. *)
Definition WaitForSTSStatus (o : StatefulSet) : io (StatefulSet * option err) :=
  poll_loop PollSteps (fun result =>
    let! r := GetStatefulSet (sts_Name o) (sts_Namespace o) in
    match r with
    | Err e => if IsNotFound e then Ret (result, (false, None)) else Ret (result, (false, Some e))
    | Ok existing => Ret (existing, (sts_CurrentRevision existing != "", None))
    end) zeroSts.

Definition DeleteSTSForNodePool (nodePool : NodePool) (clusterName clusterNamespace : string)
    : io (option err) :=
  let! r := GetSTSForNodePool nodePool clusterName clusterNamespace in
  match r with
  | Err e => if IsNotFound e then Ret None else Ret (Some e)
  | Ok sts =>
      let! e := DeleteStatefulSet sts false in
      match e with
      | Some e => Ret (Some e)
      | None => Poll (isGone (GetStatefulSet (sts_Name sts) (sts_Namespace sts)))
      end
  end.

Definition DeleteSecurityUpdateJob (clusterName clusterNamespace : string) : io (option err) :=
  let! r := GetJob (clusterName +:+ "-securityconfig-update") clusterNamespace in
  match r with
  | Err e => if IsNotFound e then Ret None else Ret (Some e)
  | Ok job => DeleteJob job
  end.

(** ** Dashboards *)

Definition GetDashboardsDeployment (clusterName clusterNamespace : string)
    : io (result Deployment) :=
  GetDeployment (clusterName +:+ "-dashboards") clusterNamespace.

Definition DeleteDashboardsDeployment (clusterName clusterNamespace : string)
    : io (option err) :=
  let! r := GetDashboardsDeployment clusterName clusterNamespace in
  match r with
  | Err e => if IsNotFound e then Ret None else Ret (Some e)
  | Ok deploy =>
      let! e := DeleteDeployment deploy false in
      match e with
      | Some e => Ret (Some e)
      | None => Poll (isGone (GetDeployment (dep_Name deploy) clusterNamespace))
      end
  end.

(** ** Footprints and rules *)

Lemma only_Poll R cond : only R cond -> only R (Poll cond).
Proof.
  intros Hc. unfold Poll. apply only_bind; [|intros [_ e]; apply only_ret].
  apply only_poll_loop. intros s. apply only_bind; [done|]. intros r. apply only_ret.
Qed.

Lemma wp_Poll cond P (Q : ohist -> outcome (option err) -> Prop) h :
  (forall h', extends h h' -> wp cond P (λ h'' o,
     match o with
     | Returned (_, Some e) => Q h'' (Returned (Some e))
     | Returned (true, None) => Q h'' (Returned None)
     | Returned (false, None) => extends h h''
     | Panicked m => Q h'' (Panicked m)
     end) h') ->
  (forall h', extends h h' -> Q h' (Returned (Some DeadlineExceeded))) ->
  wp (Poll cond) P Q h.
Proof.
  intros Hc Hd. unfold Poll. wp_step.
  apply (wp_poll_loop (λ _ h', extends h h')); [reflexivity| |].
  - intros [] h1 H1. wp_step. eapply wp_mono; [done| |by apply Hc].
    intros h2 [[[] [e|]]|m] Ho; simpl in *; repeat wp_step; auto.
  - intros [] h1 H1. repeat wp_step. auto.
Qed.

Lemma only_isGone {A} R (get : io (result A)) : only R get -> only R (isGone get).
Proof. intros H. unfold isGone. only_auto. Qed.

Lemma only_WaitForPodDeletion n ns : only reads (WaitForPodDeletion n ns).
Proof.
  unfold WaitForPodDeletion. apply only_bind; [apply only_Poll|]; only_auto.
Qed.
Lemma only_WaitForSTSReplicas o n : only reads (WaitForSTSReplicas o n).
Proof. unfold WaitForSTSReplicas. apply only_Poll. only_auto. Qed.
Lemma only_WaitForSTSStatus o : only reads (WaitForSTSStatus o).
Proof. unfold WaitForSTSStatus. apply only_poll_loop. only_auto. Qed.

(** Deleted, or an error: after success the API server has said that the set is gone. *)
Lemma wp_WaitForSTSDelete o (P : ohist -> req -> Prop) Q h :
  P h (Delete KStatefulSet (sts_Name o) (sts_Namespace o) PropOrphan) ->
  (forall h' q, extends h h' -> reads q -> P h' q) ->
  (forall h' e, extends h h' -> Q h' (Returned (Some e))) ->
  (forall h' e, extends h h' -> IsNotFound e = true ->
     saw h' (Get KStatefulSet (sts_Name o) (sts_Namespace o)) (Err e) -> Q h' (Returned None)) ->
  wp (WaitForSTSDelete o) P Q h.
Proof.
  intros Hd HP He Hn. unfold WaitForSTSDelete, DeleteStatefulSet. wp_step; [done|].
  destruct r as [e|]; [wp_step; apply He; ext|].
  apply wp_Poll; [|intros h1 H1; apply He; ext]. intros h1 H1. unfold isGone, GetStatefulSet.
  wp_step; [apply HP; [ext|done]|]. destruct r as [s|e]; [wp_step; ext|].
  destruct (IsNotFound e) eqn:En; wp_step; [|apply He; ext].
  eapply Hn; [ext|exact En|apply saw_here].
Qed.

(** The set that is returned without an error was read and has a revision. *)
Lemma wp_WaitForSTSStatus o (P : ohist -> req -> Prop) Q h :
  (forall h' q, extends h h' -> reads q -> P h' q) ->
  (forall h' s e, extends h h' -> Q h' (Returned (s, Some e))) ->
  (forall h' s, extends h h' -> sts_CurrentRevision s <> "" ->
     saw h' (Get KStatefulSet (sts_Name o) (sts_Namespace o)) (Ok s) -> Q h' (Returned (s, None))) ->
  wp (WaitForSTSStatus o) P Q h.
Proof.
  intros HP He Hs. unfold WaitForSTSStatus.
  apply (wp_poll_loop (λ _ h', extends h h')); [reflexivity| |intros s h1 H1; by apply He].
  intros s h1 H1. unfold GetStatefulSet. wp_step; [by apply HP|]. destruct r as [s'|e].
  - wp_step. case_bool_decide as Er; cbn [negb]; [ext|]. apply Hs; [ext|done|apply saw_here].
  - destruct (IsNotFound e); wp_step; [ext|]. apply He. ext.
Qed.

(** The functions that delete for good: what is deleted was read just before. *)
Lemma wp_poll_gone {A} (get : io (result A)) (P : ohist -> req -> Prop) (Q : ohist -> outcome (option err) -> Prop) h :
  only reads get -> (forall h' q, extends h h' -> reads q -> P h' q) ->
  (forall h' e, extends h h' -> Q h' (Returned e)) -> (forall h' m, extends h h' -> Q h' (Panicked m)) ->
  wp (Poll (isGone get)) P Q h.
Proof.
  intros Hg HP HQ Hm. eapply wp_only; [by apply only_Poll, only_isGone|done|]. intros h' [e|m] He; auto.
Qed.

Lemma wp_DeleteSTSForNodePool np cn cns (P : ohist -> req -> Prop) Q h :
  (forall h' q, extends h h' -> reads q -> P h' q) ->
  (forall h' sts, extends h h' ->
     saw h' (Get KStatefulSet (cn +:+ "-" +:+ np_Component np) cns) (Ok sts) ->
     P h' (Delete KStatefulSet (sts_Name sts) (sts_Namespace sts) PropForeground)) ->
  (forall h' e, extends h h' -> Q h' (Returned e)) -> (forall h' m, extends h h' -> Q h' (Panicked m)) ->
  wp (DeleteSTSForNodePool np cn cns) P Q h.
Proof.
  intros HP Hd HQ Hm. unfold DeleteSTSForNodePool, GetSTSForNodePool, GetStatefulSet.
  wp_step; [apply HP; [ext|done]|]. destruct r as [sts|e]; [|destruct (IsNotFound e); wp_step; apply HQ; ext].
  unfold DeleteStatefulSet. wp_step; [apply Hd; [ext|apply saw_here]|].
  destruct r as [e|]; [wp_step; apply HQ; ext|].
  apply wp_poll_gone; intros; [only_auto|apply HP; [ext|done]|apply HQ; ext|apply Hm; ext].
Qed.

Lemma wp_DeleteDashboards cn cns (P : ohist -> req -> Prop) Q h :
  (forall h' q, extends h h' -> reads q -> P h' q) ->
  (forall h' d, extends h h' -> saw h' (Get KDeployment (cn +:+ "-dashboards") cns) (Ok d) ->
     P h' (Delete KDeployment (dep_Name d) (dep_Namespace d) PropForeground)) ->
  (forall h' e, extends h h' -> Q h' (Returned e)) -> (forall h' m, extends h h' -> Q h' (Panicked m)) ->
  wp (DeleteDashboardsDeployment cn cns) P Q h.
Proof.
  intros HP Hd HQ Hm. unfold DeleteDashboardsDeployment, GetDashboardsDeployment, GetDeployment.
  wp_step; [apply HP; [ext|done]|]. destruct r as [d|e]; [|destruct (IsNotFound e); wp_step; apply HQ; ext].
  unfold DeleteDeployment. wp_step; [apply Hd; [ext|apply saw_here]|].
  destruct r as [e|]; [wp_step; apply HQ; ext|].
  apply wp_poll_gone; intros; [only_auto|apply HP; [ext|done]|apply HQ; ext|apply Hm; ext].
Qed.

Lemma wp_DeleteSecurityJob cn cns (P : ohist -> req -> Prop) Q h :
  (forall h' q, extends h h' -> reads q -> P h' q) ->
  (forall h' job, extends h h' -> saw h' (Get KJob (cn +:+ "-securityconfig-update") cns) (Ok job) ->
     P h' (Delete KJob (job_Name job) (job_Namespace job) PropForeground)) ->
  (forall h' job, extends h h' -> saw h' (Get KJob (cn +:+ "-securityconfig-update") cns) (Ok job) ->
     P h' (ReconcileResource KJob job StateAbsent)) ->
  (forall h' e, extends h h' -> Q h' (Returned e)) ->
  wp (DeleteSecurityUpdateJob cn cns) P Q h.
Proof.
  intros HP Hd Hr HQ. unfold DeleteSecurityUpdateJob, GetJob, DeleteJob.
  wp_step; [apply HP; [ext|done]|]. destruct r as [d|e]; [|destruct (IsNotFound e); wp_step; apply HQ; ext].
  wp_step; [apply Hd; [ext|apply saw_here]|]. destruct r as [e|]; [wp_step; apply HQ; ext|].
  wp_step; [apply Hr; [ext|apply saw_there, saw_here]|]. destruct r as [? [? e]]. wp_step. apply HQ. ext.
Qed.

End Waits.

Lemma only_GetDeployment n ns : only reads (GetDeployment n ns).
Proof. unfold GetDeployment. only_auto. Qed.
Lemma only_GetPVC n ns : only reads (GetPVC n ns).
Proof. unfold GetPVC. only_auto. Qed.

#[export] Hint Resolve only_GetDeployment only_GetPVC only_WaitForPodDeletion only_WaitForSTSReplicas only_WaitForSTSStatus : only.
