(* ===== verification/Builders.v ===== *)
(** * Builders: the objects of a cluster

    Models [pkg/builders/cluster.go]: the stateful set of a node pool, the bootstrap pod and its
    claim, the services, the service monitor and the password secret, with the functions of
    [pkg/helpers] they use (heap size, user and group, disruption budget, switches of the
    process environment).  The parts of a long builder are definitions of their own; where the
    two pod builders repeat each other word for word they share one. *)

From S2P Require Import Prelude Prog Resources Api K8sClient Helpers RContext ReconcileHelpers.
From S2P Require Import Tls Configuration ResourceReconciler SecurityConfig.

(** ** The standard library *)

(** [strconv.ParseBool]. *)
Definition ParseBool (s : string) : option bool :=
  if bool_decide (s ∈ ["1"; "t"; "T"; "true"; "TRUE"; "True"]) then Some true
  else if bool_decide (s ∈ ["0"; "f"; "F"; "false"; "FALSE"; "False"]) then Some false
  else None.
(** [strconv.ParseInt(s, 10, 32)]. *)
Definition ParseInt32 (s : string) : option Z :=
  match Atoi s with
  | Some z => if bool_decide (- 2 ^ 31 <= z < 2 ^ 31) then Some z else None
  | None => None
  end.
Definition dq : string := String "034" "".

(** ** Switches of the process ([pkg/helpers/constants.go]) *)

Section Switches.
Context `{PE : ProcEnv}.

Definition SkipInitContainer : bool :=
  match LookupEnv "SKIP_INIT_CONTAINER" with
  | None => false
  | Some env => if env == "" then false else default false (ParseBool env)
  end.
Definition ParallelRecoveryMode : bool :=
  let env := match LookupEnv "PARALLEL_RECOVERY_ENABLED" with
             | None => "true"
             | Some env => if env == "" then "true" else env
             end in
  default true (ParseBool env).
End Switches.

(** ** Helpers ([pkg/helpers/helpers.go]) *)

Section Heap.
Context `{QL : QuantityLib}.

(** [Requests.Memory()]: a zero quantity without a request. *)
Definition Memory (requests : gmap string Quantity) : Quantity := default "0" (requests !! "memory").

(** Half of the request in MiB; the divisions are those of integers. *)
Definition heapMb (memoryRequest : Quantity) : Z :=
  if IsZero memoryRequest then 512
  else Z.quot (Z.quot (Z.quot (QuantityValue memoryRequest) 2) 1024) 1024.
Definition CalculateJvmHeapSizeSettings (memoryRequest : Quantity) : string :=
  let mb := Itoa (heapMb memoryRequest) in "-Xms" +:+ mb +:+ "M -Xmx" +:+ mb +:+ "M".
End Heap.

Definition AppendJvmHeapSizeSettings (jvm heapSizeSettings : string) : string :=
  if Contains jvm "Xms" || Contains jvm "Xmx" then jvm
  else if jvm == "" then heapSizeSettings
  else jvm +:+ " " +:+ heapSizeSettings.

Definition DefaultUID : Z := 1000.
Definition DefaultGID : Z := 1000.
(** The first of the container's context, the pod's context and the default that has a value. *)
Definition resolveId (field : SecurityContext -> option Z) (cr : OpenSearchCluster) (d : Z) : Z :=
  let g := sp_General (cl_Spec cr) in
  match g_SecurityContext g ≫= field with
  | Some id => id
  | None => default d (g_PodSecurityContext g ≫= field)
  end.
Definition ResolveUidGid (cr : OpenSearchCluster) : Z * Z :=
  (resolveId sctx_RunAsUser cr DefaultUID, resolveId sctx_RunAsGroup cr DefaultGID).
Definition GetChownCommand (uid gid : Z) (path : string) : string :=
  "chown -R " +:+ Itoa uid +:+ ":" +:+ Itoa gid +:+ " " +:+ path.

(** The second version is a constant; the comparison with a nil version panics. *)
Definition CompareVersions `{HV : HcVersion} (v1 v2 : string) : io bool :=
  match HNewVersion v1 with
  | Err _ => Ret false
  | Ok ver1 =>
      match HNewVersion v2 with
      | Ok ver2 => Ret (HLessThan ver1 ver2)
      | Err _ => Panic nilPointer
      end
  end.

Definition ComposePDB (cr : OpenSearchCluster) (nodepool : NodePool) (pdb : PdbConfig)
    : PodDisruptionBudget :=
  mkPDB (cl_Name cr +:+ "-" +:+ np_Component nodepool +:+ "-pdb") (cl_Namespace cr) []
    (pd_MinAvailable pdb) (pd_MaxUnavailable pdb)
    (Some {[ClusterLabel := cl_Name cr; NodePoolLabel := np_Component nodepool]}) [].

(** ** Parts that several builders share *)

Definition DefaultDiskSize : Quantity := "30Gi".
Definition ConfigurationChecksumAnnotation : string := "opensearch.org/config".

Definition GetDefaultAffinity (clusterName : string) : json :=
  JObj [("podAntiAffinity", JObj [("preferredDuringSchedulingIgnoredDuringExecution",
    JArr [JObj [("weight", JNum 100);
                ("podAffinityTerm", JObj
                   [("labelSelector", JObj [("matchLabels", JObj [(ClusterLabel, JStr clusterName)])]);
                    ("topologyKey", JStr "kubernetes.io/hostname")])]])])].
Definition getAffinity (affinity : option json) (clusterName : string) : json :=
  match affinity with Some a => a | None => GetDefaultAffinity clusterName end.

Definition PortForCluster (cr : OpenSearchCluster) : Z :=
  let port := g_HttpPort (sp_General (cl_Spec cr)) in
  if bool_decide (port > 0) then port else 9200.

(** Zero when gRPC is off. *)
Definition getGrpcPort (cr : OpenSearchCluster) : Z :=
  match g_Grpc (sp_General (cl_Spec cr)) with
  | None => 0
  | Some grpcConfig =>
      if negb (grpc_Enable grpcConfig) then 0
      else
        let port := if grpc_Port grpcConfig == "" then "9400-9500" else grpc_Port grpcConfig in
        match Split port "-" with
        | part :: _ =>
            match ParseInt32 part with
            | Some firstPort => if bool_decide (firstPort > 0) then firstPort else 9400
            | None => 9400
            end
        | [] => 9400
        end
  end.

(** The scheme of the HTTP endpoint, in probes, services and monitors. *)
Definition httpScheme (cr : OpenSearchCluster) : string :=
  if IsHttpTlsEnabled cr then "https" else "http".

Definition containerPorts (cr : OpenSearchCluster) : list ContainerPort :=
  let grpcPort := getGrpcPort cr in
  [mkPort "http" (g_HttpPort (sp_General (cl_Spec cr))); mkPort "transport" 9300] ++
  (if bool_decide (grpcPort > 0) then [mkPort "grpc" grpcPort] else []).

Definition dataMount (home : string) : VolumeMount := mkMount "data" false (home +:+ "/data") "".

Definition envValue (name value : string) : EnvVar := mkEnv name (EnvValue value).
(** The variables at the head of both lists; the options of the JVM follow. *)
Definition nodeEnv (cr : OpenSearchCluster) (jvm : string) : list EnvVar :=
  [envValue "cluster.initial_master_nodes" (BootstrapPodName cr);
   envValue "discovery.seed_hosts" (DiscoveryServiceName cr);
   envValue "cluster.name" (cl_Name cr);
   envValue "network.bind_host" "0.0.0.0";
   mkEnv "network.publish_host" (EnvFieldRef "v1" "metadata.name");
   envValue "OPENSEARCH_JAVA_OPTS" jvm].
Definition httpPortEnv (cr : OpenSearchCluster) : EnvVar :=
  envValue "http.port" (Itoa (g_HttpPort (sp_General (cl_Spec cr)))).
Definition adminPasswordEnv (cr : OpenSearchCluster) : EnvVar :=
  mkEnv "OPENSEARCH_INITIAL_ADMIN_PASSWORD"
    (EnvSecretKeyRef (GeneratedAdminCredentialsSecretName cr) "password").

(** An init container has an image, a command, mounts and a context. *)
Definition initContainer (name : string) (image : ImageSpec) (resources : ResourceRequirements)
    (command args : list string) (mounts : list VolumeMount) (ctx : option SecurityContext)
    : Container :=
  mkContainer name (GetImage image) (GetImagePullPolicy image) command args [] [] resources None
    None None mounts ctx JNull.

Definition chownContainer (cr : OpenSearchCluster) : Container :=
  let home := GetOpenSearchHome (sp_General (cl_Spec cr)) in
  let '(uid, gid) := ResolveUidGid cr in
  initContainer "init" (ResolveInitHelperImage cr) (ih_Resources (sp_InitHelper (cl_Spec cr)))
    ["sh"; "-c"] [GetChownCommand uid gid (home +:+ "/data")] [dataMount home]
    (Some (mkSecurityContext (Some 0) None None JNull)).

Definition sysctlContainer (cr : OpenSearchCluster) : Container :=
  initContainer "init-sysctl" (ResolveInitHelperImage cr)
    (ih_Resources (sp_InitHelper (cl_Spec cr))) ["sysctl"; "-w"; "vm.max_map_count=262144"] [] []
    (Some (mkSecurityContext None None (Some true) JNull)).
Definition sysctlContainers (cr : OpenSearchCluster) : list Container :=
  match g_SetVMMaxMapCount (sp_General (cl_Spec cr)) with
  | Some true => [sysctlContainer cr]
  | _ => []
  end.

(** *** Keystores *)

(** The script of the container that fills the keystore. *)
Definition keystoreScript (home : string) : string :=
  nl +:+
  "				#!/usr/bin/env bash" +:+ nl +:+
  "				set -euo pipefail" +:+ nl +:+
  nl +:+
  "				if [ ! -f " +:+ home +:+ "/config/opensearch.keystore ]; then" +:+ nl +:+
  "				  " +:+ home +:+ "/bin/opensearch-keystore create" +:+ nl +:+
  "				fi" +:+ nl +:+
  "				for i in /tmp/keystoreSecrets/*/*; do" +:+ nl +:+
  "				  key=$(basename $i)" +:+ nl +:+
  "				  echo " +:+ dq +:+ "Adding file $i to keystore key $key" +:+ dq +:+ nl +:+
  "				  " +:+ home +:+ "/bin/opensearch-keystore add-file " +:+ dq +:+ "$key" +:+ dq +:+ " " +:+ dq +:+ "$i" +:+ dq +:+ " --force" +:+ nl +:+
  "				done" +:+ nl +:+
  nl +:+
  "				# Add the bootstrap password since otherwise the opensearch entrypoint tries to do this on startup" +:+ nl +:+
  "				if [ ! -z ${PASSWORD+x} ]; then" +:+ nl +:+
  "				  echo 'Adding env $PASSWORD to keystore as key bootstrap.password'" +:+ nl +:+
  "				  echo " +:+ dq +:+ "$PASSWORD" +:+ dq +:+ " | " +:+ home +:+ "/bin/opensearch-keystore add -x bootstrap.password" +:+ nl +:+
  "				fi" +:+ nl +:+
  nl +:+
  "				cp -a " +:+ home +:+ "/config/opensearch.keystore /tmp/keystore/" +:+ nl +:+
  "				".

Definition keystoreMount (home : string) : VolumeMount :=
  mkMount "keystore" false (home +:+ "/config/opensearch.keystore") "opensearch.keystore".
Definition keystoreVolumes (keystore : list KeystoreValue) : list Volume :=
  mkVolume "keystore" (VolEmptyDir (JObj [])) ::
  map (fun v => mkVolume ("keystore-" +:+ ks_Secret v) (VolSecret (ks_Secret v))) keystore.
(** The secret as a whole, or key by key under other names. *)
Definition keystoreSecretMounts (v : KeystoreValue) : list VolumeMount :=
  let name := "keystore-" +:+ ks_Secret v in
  let path := "/tmp/keystoreSecrets/" +:+ ks_Secret v in
  if bool_decide (ks_KeyMappings v = ∅) then [mkMount name false path ""]
  else map (fun oldKey => mkMount name false
                            (path +:+ "/" +:+ default "" (ks_KeyMappings v !! oldKey)) oldKey)
         (sortedKeys (ks_KeyMappings v)).
Definition keystoreContainer (cr : OpenSearchCluster) (resources : ResourceRequirements)
    (keystore : list KeystoreValue) : Container :=
  let g := sp_General (cl_Spec cr) in
  initContainer "keystore" (ResolveImage cr) resources
    ["sh"; "-c"; keystoreScript (GetOpenSearchHome g)] []
    (mkMount "keystore" false "/tmp/keystore" "" :: flat_map keystoreSecretMounts keystore)
    (g_SecurityContext g).

(** Without values there is neither volume nor mount nor container. *)
Definition whenKeystore {A} (keystore : list KeystoreValue) (l : list A) : list A :=
  match keystore with [] => [] | _ => l end.

(** ** The stateful set of a node pool *)

Section Pods.
Context `{HV : HcVersion} `{PE : ProcEnv} `{QL : QuantityLib}.

Section Sts.
Context (cr : OpenSearchCluster) (node : NodePool).

#[local] Abbreviation g := (sp_General (cl_Spec cr)).
#[local] Abbreviation home := (GetOpenSearchHome g).

Definition nodeDiskSize : Quantity :=
  if IsZero (np_DiskSize node) then DefaultDiskSize else np_DiskSize node.

Definition availableRoles : list string :=
  ["master"; "data"; "data_content"; "data_hot"; "data_warm"; "data_cold"; "data_frozen"; "ingest";
   "ml"; "remote_cluster_client"; "transform"; "cluster_manager"; "search"; "warm"].
Definition selectedRoles : list string :=
  map (fun role => MapClusterRole role (specVersion cr))
    (filter (λ role, ContainsString availableRoles role = true) (np_Roles node)).

(** [node.Persistence == nil || node.Persistence.PVC != nil]. *)
Definition usesPVC : bool :=
  match np_Persistence node with
  | None => true
  | Some p => bool_decide (is_Some (per_PVC p))
  end.

(** The claim template; a pool without a persistence section has an unnamed source. *)
Definition dataClaim (source : option PVCSource) : PVC :=
  mkPVC "data" "" (match source with Some s => pvs_Labels s | None => ∅ end)
    (match source with Some s => pvs_Annotations s | None => ∅ end)
    (match source with Some s => pvs_AccessModes s | None => ["ReadWriteOnce"] end)
    (Some {["storage" := nodeDiskSize]})
    (match source with Some s => pvs_StorageClassName s | None => None end) (Some "Filesystem") [].
Definition volumeClaimTemplates : list PVC :=
  match np_Persistence node with
  | None => [dataClaim None]
  | Some p => match per_PVC p with Some s => [dataClaim (Some s)] | None => [] end
  end.

(** A directory of the host and an empty directory, each as a volume of the same name. *)
Definition dataVolumes : list Volume :=
  match np_Persistence node with
  | None => []
  | Some p =>
      match per_HostPath p with Some d => [mkVolume "data" (VolHostPath d)] | None => [] end ++
      match per_EmptyDir p with Some d => [mkVolume "data" (VolEmptyDir d)] | None => [] end
  end.

Definition matchLabels : gmap string string :=
  {[ClusterLabel := cl_Name cr; NodePoolLabel := np_Component node]}.
(** The labels of the set and of its pods: the user's win. *)
Definition nodeLabels : gmap string string :=
  let labels := matchLabels in
  let labels := if ContainsString selectedRoles "master"
                then <["opensearch.role" := "master"]> labels else labels in
  let labels := if ContainsString selectedRoles "cluster_manager"
                then <["opensearch.role" := "cluster_manager"]> labels else labels in
  np_Labels node ∪ labels.
Definition nodeAnnotations (configChecksum : string) : gmap string string :=
  np_Annotations node ∪ {[ConfigurationChecksumAnnotation := configChecksum]}.

Definition vendorSupported : bool :=
  bool_decide (g_Vendor g ∈ ["Op"; "OP"; "Opensearch"; "opensearch"; ""]).

Definition nodeJvm : io string :=
  let jvm := AppendJvmHeapSizeSettings (np_Jvm node)
               (CalculateJvmHeapSizeSettings (Memory (res_Requests (np_Resources node)))) in
  let! old := if ContainsString selectedRoles "search"
              then CompareVersions (specVersion cr) "2.7.0" else Ret false in
  let jvm := if (old : bool)
             then jvm +:+ " -Dopensearch.experimental.feature.searchable_snapshot.enabled=true"
             else jvm in
  Ret (jvm +:+ " -Dopensearch.transport.cname_in_publish_address=true").

(** *** Probes *)

(** A setting of the user counts when it is positive. *)
Definition positiveOr (v d : Z) : Z := if bool_decide (v > 0) then v else d.
Definition withConfig (config : option ProbeConfig) (d : Probe) : Probe :=
  match config with
  | None => d
  | Some c =>
      mkProbe (positiveOr (pcf_PeriodSeconds c) (pr_PeriodSeconds d))
        (positiveOr (pcf_TimeoutSeconds c) (pr_TimeoutSeconds d))
        (positiveOr (pcf_FailureThreshold c) (pr_FailureThreshold d))
        (positiveOr (pcf_SuccessThreshold c) (pr_SuccessThreshold d))
        (positiveOr (pcf_InitialDelaySeconds c) (pr_InitialDelaySeconds d)) (pr_Handler d)
  end.
Definition curlCommand : list string :=
  ["/bin/bash"; "-c";
   "curl -k -u " +:+
   Quote "$(cat /mnt/admin-credentials/username):$(cat /mnt/admin-credentials/password)" +:+
   " --silent --fail '" +:+ httpScheme cr +:+ "://localhost:" +:+ Itoa (PortForCluster cr) +:+ "'"].
Definition probeCommand (config : option ProbeConfig) : list string :=
  match config with
  | Some c => match pcf_Command c with [] => curlCommand | l => l end
  | None => curlCommand
  end.

Definition livenessProbe : Probe :=
  withConfig (np_Probes node ≫= prb_Liveness) (mkProbe 20 5 10 1 10 (TCPSocket (g_HttpPort g))).
Definition startupProbe : Probe :=
  let config := np_Probes node ≫= prb_Startup in
  withConfig config (mkProbe 30 30 10 1 10 (Exec (probeCommand config))).
Definition readinessProbe : Probe :=
  let config := np_Probes node ≫= prb_Readiness in
  withConfig config (mkProbe 30 30 5 1 60 (Exec (probeCommand config))).

(** *** The pod *)

Definition pluginsToInstall : list string :=
  let m := g_Monitoring g in
  let monitoring :=
    if mon_Enable m then
      [if mon_PluginURL m != "" then mon_PluginURL m
       else "https://github.com/opensearch-project/opensearch-prometheus-exporter/releases/download/" +:+
            g_Version g +:+ ".0/prometheus-exporter-" +:+ g_Version g +:+ ".0.zip"]
    else [] in
  RemoveDuplicateStrings (monitoring ++ g_PluginsList g).

Definition mainCommand : list string :=
  BuildMainCommand "./bin/opensearch-plugin" pluginsToInstall true
    (if g_Command g == "" then "./opensearch-docker-entrypoint.sh" else g_Command g).

Definition nodeVolumes (volumes : list Volume) : list Volume :=
  volumes ++ dataVolumes ++
  [mkVolume "admin-credentials" (VolSecret (cl_Name cr +:+ "-admin-password"))] ++
  whenKeystore (g_Keystore g) (keystoreVolumes (g_Keystore g)).
Definition nodeMounts (volumeMounts : list VolumeMount) : list VolumeMount :=
  volumeMounts ++ [dataMount home] ++
  [mkMount "admin-credentials" false "/mnt/admin-credentials" ""] ++
  whenKeystore (g_Keystore g) [keystoreMount home].

(** The keystore container gets the resources of the init helper. *)
Definition nodeInitContainers : list Container :=
  np_InitContainers node ++ (if SkipInitContainer then [] else [chownContainer cr]) ++
  whenKeystore (g_Keystore g)
    [keystoreContainer cr (ih_Resources (sp_InitHelper (cl_Spec cr))) (g_Keystore g)] ++
  sysctlContainers cr.

Definition nodeRoles : string :=
  match selectedRoles with [] => "[]" | roles => Join roles "," end.

Definition opensearchContainer (jvm : string) (volumeMounts : list VolumeMount) : Container :=
  let image := ResolveImage cr in
  mkContainer "opensearch" (GetImage image) (GetImagePullPolicy image) mainCommand []
    (nodeEnv cr jvm ++ [httpPortEnv cr; adminPasswordEnv cr] ++ [envValue "node.roles" nodeRoles] ++
     np_Env node)
    (containerPorts cr) (np_Resources node) (Some startupProbe) (Some livenessProbe)
    (Some readinessProbe) (nodeMounts volumeMounts) (g_SecurityContext g) JNull.

Definition nodePodSpec (jvm : string) (volumes : list Volume) (volumeMounts : list VolumeMount)
    : PodSpec :=
  mkPodSpec (opensearchContainer jvm volumeMounts :: np_SidecarContainers node)
    nodeInitContainers (nodeVolumes volumes) (g_ServiceAccount g) (np_NodeSelector node)
    (np_Tolerations node) (Some (getAffinity (np_Affinity node) (cl_Name cr)))
    (np_TopologySpreadConstraints node) (img_PullSecrets (ResolveImage cr))
    (np_PriorityClassName node) (g_PodSecurityContext g) (g_HostAliases g) (g_HostNetwork g).

Definition stsWith (configChecksum jvm : string) (volumes : list Volume)
    (volumeMounts : list VolumeMount) : StatefulSet :=
  mkSts (StsName cr node) (cl_Namespace cr) nodeLabels (Some (np_Replicas node)) 0 0 0 0 "" ""
    (nodeAnnotations configChecksum) "" "" [] (Some matchLabels) "OrderedReady" "OnDelete"
    (mkTemplate nodeLabels (nodeAnnotations configChecksum) (nodePodSpec jvm volumes volumeMounts))
    volumeClaimTemplates (g_ServiceName g).

(** The user name that the function is given is not used. *)
Definition NewSTSForNodePool (configChecksum : string) (volumes : list Volume)
    (volumeMounts : list VolumeMount) : io StatefulSet :=
  if vendorSupported then
    let! jvm := nodeJvm in Ret (stsWith configChecksum jvm volumes volumeMounts)
  else Panic "vendor=elasticsearch not implemented".

End Sts.

(** ** The bootstrap pod *)

Section Bootstrap.
Context (cr : OpenSearchCluster).

#[local] Abbreviation g := (sp_General (cl_Spec cr)).
#[local] Abbreviation bs := (sp_Bootstrap (cl_Spec cr)).
#[local] Abbreviation home := (GetOpenSearchHome g).

Definition bootstrapJvm : string :=
  AppendJvmHeapSizeSettings (bs_Jvm bs)
    (CalculateJvmHeapSizeSettings (Memory (res_Requests (bs_Resources bs)))).

Definition bootstrapEnv : list EnvVar :=
  nodeEnv cr bootstrapJvm ++
  [envValue "node.roles" (ResolveClusterManagerRole (g_Version g)); httpPortEnv cr;
   adminPasswordEnv cr] ++ bs_Env bs.

Definition bootstrapVolumes (volumes : list Volume) : list Volume :=
  volumes ++ [mkVolume "data" (VolClaim (cl_Name cr +:+ "-bootstrap-data"))] ++
  whenKeystore (bs_Keystore bs) (keystoreVolumes (bs_Keystore bs)).
Definition bootstrapMounts (volumeMounts : list VolumeMount) : list VolumeMount :=
  volumeMounts ++ [dataMount home] ++ whenKeystore (bs_Keystore bs) [keystoreMount home].

(** The keystore container gets the resources of the pod. *)
Definition bootstrapInitContainers : list Container :=
  bs_InitContainers bs ++ (if SkipInitContainer then [] else [chownContainer cr]) ++
  whenKeystore (bs_Keystore bs) [keystoreContainer cr (bs_Resources bs) (bs_Keystore bs)] ++
  sysctlContainers cr.

Definition bootstrapPlugins : list string :=
  RemoveDuplicateStrings (match bs_PluginsList bs with [] => g_PluginsList g | l => l end).

Definition bootstrapContainer (volumeMounts : list VolumeMount) : Container :=
  let image := ResolveImage cr in
  let probe := mkProbe 20 5 10 1 10 (TCPSocket (g_HttpPort g)) in
  mkContainer "opensearch" (GetImage image) (GetImagePullPolicy image)
    (BuildMainCommand "./bin/opensearch-plugin" bootstrapPlugins true
       "./opensearch-docker-entrypoint.sh") []
    bootstrapEnv (containerPorts cr) (bs_Resources bs) (Some probe) (Some probe) None
    (bootstrapMounts volumeMounts) (g_SecurityContext g) JNull.

Definition NewBootstrapPod (volumes : list Volume) (volumeMounts : list VolumeMount) : Pod :=
  mkPod (BootstrapPodName cr) (cl_Namespace cr)
    (bs_Labels bs ∪ {[ClusterLabel := cl_Name cr]}) None [] [] (bs_Annotations bs)
    (mkPodSpec [bootstrapContainer volumeMounts] bootstrapInitContainers (bootstrapVolumes volumes)
       (g_ServiceAccount g) (bs_NodeSelector bs) (bs_Tolerations bs)
       (Some (getAffinity (bs_Affinity bs) (cl_Name cr))) JNull (img_PullSecrets (ResolveImage cr))
       (bs_PriorityClassName bs) (g_PodSecurityContext g)
       (default (g_HostAliases g) (bs_HostAliases bs)) (g_HostNetwork g)) [].

Definition NewBootstrapPVC : PVC :=
  mkPVC (cl_Name cr +:+ "-bootstrap-data") (cl_Namespace cr) {[ClusterLabel := cl_Name cr]} ∅
    ["ReadWriteOnce"]
    (Some {["storage" := if IsZero (bs_DiskSize bs) then "1Gi" else bs_DiskSize bs]})
    (bs_StorageClassName bs) None [].

End Bootstrap.

End Pods.

(** ** Services *)

Definition intPort (port : Z) : IntOrString := mkIntStr port "".
Definition namedPort (name : string) (port : Z) : ServicePort :=
  mkServicePort name "TCP" port (mkIntStr port (Itoa port)) None.
Definition httpServicePort (cr : OpenSearchCluster) : ServicePort :=
  let port := g_HttpPort (sp_General (cl_Spec cr)) in
  mkServicePort "http" "TCP" port (intPort port) (Some (httpScheme cr)).

Definition NewHeadlessServiceForNodePool (cr : OpenSearchCluster) (nodePool : NodePool) : Service :=
  let g := sp_General (cl_Spec cr) in
  let labels := {[ClusterLabel := cl_Name cr; NodePoolLabel := np_Component nodePool]} in
  mkService (g_ServiceName g +:+ "-" +:+ np_Component nodePool) (cl_Namespace cr) labels
    (np_Annotations nodePool ∪ g_Annotations g) "None"
    [httpServicePort cr; namedPort "transport" 9300] labels "" false [] [].

Definition NewServiceForCR (cr : OpenSearchCluster) : Service :=
  let g := sp_General (cl_Spec cr) in
  let labels := {[ClusterLabel := cl_Name cr]} in
  let grpcPort := getGrpcPort cr in
  mkService (g_ServiceName g) (cl_Namespace cr) labels (g_Annotations g) ""
    ([httpServicePort cr; namedPort "transport" 9300; namedPort "metrics" 9600;
      namedPort "rca" 9650] ++
     (if bool_decide (grpcPort > 0)
      then [mkServicePort "grpc" "TCP" grpcPort (intPort grpcPort) (Some "grpc")] else []))
    labels "" false [] [].

Definition NewDiscoveryServiceForCR (cr : OpenSearchCluster) : Service :=
  let labels := {[ClusterLabel := cl_Name cr]} in
  mkService (DiscoveryServiceName cr) (cl_Namespace cr) labels ∅ "None"
    [namedPort "transport" 9300] labels "" true [] [].

Definition NewNodePortService (cr : OpenSearchCluster) : Service :=
  let labels := {[ClusterLabel := cl_Name cr]} in
  mkService (g_ServiceName (sp_General (cl_Spec cr)) +:+ "-exposed") (cl_Namespace cr) labels ∅ ""
    [httpServicePort cr] labels "NodePort" false [] [].

(** ** Secrets and monitors *)

Definition PasswordSecret (cr : OpenSearchCluster) (username password : string) : Secret :=
  mkSecret (cl_Name cr +:+ "-admin-password") (cl_Namespace cr) ∅ ∅
    {["username" := username; "password" := password]} "" "" [].

(** The code also writes the default into its copy of the instance, where nothing else reads it. *)
Definition scrapeInterval (cr : OpenSearchCluster) : string :=
  let interval := mon_ScrapeInterval (g_Monitoring (sp_General (cl_Spec cr))) in
  if interval == "" then "30s" else interval.
Definition NewServiceMonitor (cr : OpenSearchCluster) : ServiceMonitor :=
  let m := g_Monitoring (sp_General (cl_Spec cr)) in
  let secret := if mon_MonitoringUserSecret m == "" then cl_Name cr +:+ "-admin-password"
                else mon_MonitoringUserSecret m in
  mkServiceMonitor (cl_Name cr +:+ "-monitor") (cl_Namespace cr)
    (mon_Labels m ∪ {[ClusterLabel := cl_Name cr]}) (cl_Name cr +:+ "-monitor") [ClusterLabel]
    [ClusterLabel]
    [mkEndpoint "http" "/_prometheus/metrics" (scrapeInterval cr) (mon_TLSConfig m) false
       (Some (mkBasicAuth secret "username" secret "password")) (httpScheme cr)
       (mon_Relabelings m) (mon_MetricRelabelings m)]
    {[ClusterLabel := cl_Name cr]} [NodePoolLabel] false [cl_Namespace cr] [].
