(* ===== verification/ClusterRec.v ===== *)
(** * ClusterRec: the reconciler of a cluster's workloads

    Models [pkg/reconcilers/cluster.go] and [emptydir_recovery.go]: services, secrets, the
    bootstrap pod, the stateful set of each node pool with its recovery, resizing and recreation,
    and the recreation of a cluster whose data was on empty directories.  Metrics are left out. *)

From S2P Require Import Prelude Prog Resources Api K8sClient Helpers OsClient OsData ReconcilerUtil.
From S2P Require Import RContext ReconcileHelpers Tls Configuration ResourceReconciler SecurityConfig.
From S2P Require Import Waits Builders.

Definition emptyDirRecoveryComponent : string := "EmptyDirRecovery".
Definition emptyDirRecoveryStatusPending : string := "Pending".
(** Five minutes, in nanoseconds. *)
Definition emptyDirRecoveryGracePeriod : Z := 300 * second.

Record emptyDirPodStats := mkStats {
  existingDataPods : Z;
  totalDataPods : Z;
  existingMasterPods : Z;
  totalMasterPods : Z }.

Definition emptyDirDataLossSuspected (stats : emptyDirPodStats) : bool :=
  let dataNodesMissing :=
    bool_decide (totalDataPods stats > 0) && (existingDataPods stats == 0) in
  let mastersLostQuorum :=
    bool_decide (totalMasterPods stats > 0) &&
    bool_decide (existingMasterPods stats < Z.quot (wrap32 (totalMasterPods stats + 1)) 2) in
  dataNodesMissing || mastersLostQuorum.

(** The answer a reconciler gives back: Go's [( *ctrl.Result, error)]. *)
Abbreviation answer := (option Result * option err)%type.

Definition isImmutableFieldChangeError (e : err) : bool :=
  Contains (Error e) ImmutableFieldChangeErrorHelp.
(** The first test of the source, on a status error's reason and message, is subsumed by the
    second: the text of a status error is its message. *)
Definition isImmutablePodUpdateErr (e : err) : bool :=
  Contains (Error e) "pod updates may not change".

Section ClusterRec.
Context `{RP : RetryPolicy} `{PP : PollPolicy} `{PE : ProcEnv} `{CR : Crypto} `{LL : LabelLib}
  `{HV : HcVersion} `{QL : QuantityLib} `{CL : CtrlLib} `{CB : Combiner} `{SL : SecurityLib}.
Context (instance : OpenSearchCluster).

#[local] Abbreviation namespace := (cl_Namespace instance).
#[local] Abbreviation clusterName := (cl_Name instance).
#[local] Abbreviation status := (cl_Status instance).

(** [ctrl.SetControllerReference(r.instance, object, scheme)]: the references of the object, left
    as they are when it fails. *)
Definition setOwner (refs : list OwnerReference) : list OwnerReference * option err :=
  match SetControllerReference clusterName (cl_UID instance) refs with
  | Ok refs' => (refs', None)
  | Err e => (refs, Some e)
  end.

(** ** The stateful set of a node pool *)

(** A pool with settings of its own mounts its own config map in place of the shared one. *)
Definition poolVolumes (rc : ReconcilerContext) (np : NodePool) : list Volume * list VolumeMount :=
  if bool_decide (np_AdditionalConfig np = ∅) then (rc_Volumes rc, rc_VolumeMounts rc)
  else
    (filter (λ v, vol_Name v <> "config") (rc_Volumes rc) ++
       [mkVolume "config" (VolConfigMap (clusterName +:+ "-" +:+ np_Component np +:+ "-config"))],
     filter (λ m, vm_Name m <> "config") (rc_VolumeMounts rc) ++
       [mkMount "config" false
          (GetOpenSearchHome (sp_General (cl_Spec instance)) +:+ "/config/opensearch.yml")
          "opensearch.yml"]).

Definition deleteSTSWithOrphan (existing : StatefulSet) : io (option err) :=
  DeleteStatefulSet existing true.

(** The set whose selector has the label of an old version is created anew. *)
Definition fixSelector (existing sts : StatefulSet) : io (StatefulSet + answer) :=
  let! selector := deref (sts_Selector existing) in
  match selector !! "opensearch.role" with
  | None => Ret (inl sts)
  | Some _ =>
      let! e := WaitForSTSDelete existing in
      match e with
      | Some e => Ret (inr (None, Some e))
      | None =>
          let! (sts, (result, e)) := ask (ReconcileResource KStatefulSet sts StateCreated) in
          match result, e with
          | None, None => Ret (inl sts)
          | _, _ => Ret (inr (result, e))
          end
      end
  end.

(** [pvcCount >= int(nodePool.Replicas) && existing.Status.ReadyReplicas < nodePool.Replicas-1],
    outside upgrades. *)
Definition poolFailed (np : NodePool) (pvcCount readyReplicas : Z) : bool :=
  negb (IsUpgradeInProgress status) && bool_decide (pvcCount >= np_Replicas np) &&
  bool_decide (readyReplicas < wrap32 (np_Replicas np - 1)).

Definition startRecovery (np : NodePool) (existing sts : StatefulSet) : io answer :=
  let! e := WaitForSTSDelete existing in
  match e with
  | Some e => Ret (None, Some e)
  | None =>
      let! (_, (result, e)) :=
        ask (ReconcileResource KStatefulSet (sts_anew_with_policy "Parallel" sts) StatePresent) in
      match e with
      | Some e => Ret (result, Some e)
      | None =>
          let! e := WaitForSTSReplicas existing (np_Replicas np) in
          Ret (Some (mkResult true 0), e)
      end
  end.

(** Detects that a pool has failed and restarts its pods in parallel, or ends that; answers the
    existing set with its status filled in. *)
Definition recoverPool (np : NodePool) (existing sts : StatefulSet) : io (StatefulSet + answer) :=
  if negb (ParallelRecoveryMode && usesPVC np) then Ret (inl existing)
  else
    let! r := if sts_CurrentRevision existing == "" then
                let! (new, e) := WaitForSTSStatus existing in
                Ret (match e with Some e => Err e | None => Ok new end)
              else Ret (Ok existing) in
    match r with
    | Err e => Ret (inr (Some (mkResult true 0), Some e))
    | Ok existing =>
        let! r := ReadyReplicasForNodePool instance np in
        match r with
        | Err e => Ret (inr (None, Some e))
        | Ok readyReplicas =>
            let existing := sts_with_ReadyReplicas readyReplicas existing in
            let! r := CountPVCsForNodePool instance np in
            match r with
            | Err _ => Ret (inl existing)
            | Ok pvcCount =>
                if poolFailed np pvcCount readyReplicas then
                  if sts_PodManagementPolicy existing != "Parallel" then
                    let! a := startRecovery np existing sts in Ret (inr a)
                  else Ret (inl existing)
                else if sts_PodManagementPolicy existing == "Parallel" then
                  let! e := WaitForSTSDelete existing in
                  Ret (match e with Some e => inr (None, Some e) | None => inl existing end)
                else Ret (inl existing)
            end
        end
    end.

Definition pdbMessage : string :=
  "please provide only one parameter (minAvailable OR maxUnavailable) in order to configure a PodDisruptionBudget".

(** Without a budget an existing one is removed. *)
Definition removePDB (np : NodePool) : io answer :=
  let! (_, a) := ask (ReconcileResource KPodDisruptionBudget
    (mkPDB (clusterName +:+ "-" +:+ np_Component np +:+ "-pdb") namespace (cl_Finalizers instance)
       None None None []) StateAbsent) in
  Ret a.

Definition handlePDB (np : NodePool) : io answer :=
  match np_Pdb np with
  | None => removePDB np
  | Some pdb =>
      if negb (pd_Enable pdb) then removePDB np
      else if bool_decide (is_Some (pd_MinAvailable pdb) <-> is_Some (pd_MaxUnavailable pdb))
      then Ret (Some noResult, Some (OtherErr pdbMessage))
      else
        let o := ComposePDB instance np pdb in
        match setOwner [] with
        | (_, Some e) => Ret (Some noResult, Some e)
        | (refs, None) =>
            let! (_, a) := ask (ReconcileResource KPodDisruptionBudget
              (mkPDB (pdb_Name o) (pdb_Namespace o) (pdb_Finalizers o) (pdb_MinAvailable o)
                 (pdb_MaxUnavailable o) (pdb_Selector o) refs) StatePresent) in
            Ret a
        end
  end.

(** *** Volumes *)

(** [Requests.Storage()]: a zero quantity without a request. *)
Definition Storage (claim : PVC) : Quantity :=
  default "0" (pvc_Requests claim ≫= lookup "storage").
Definition pvc_with_storage (size : Quantity) (requests : gmap string Quantity) (p : PVC) : PVC :=
  mkPVC (pvc_Name p) (pvc_Namespace p) (pvc_Labels p) (pvc_Annotations p) (pvc_AccessModes p)
    (Some (<["storage" := size]> requests)) (pvc_StorageClassName p) (pvc_VolumeMode p)
    (pvc_OwnerReferences p).

Definition dataClaimName (np : NodePool) (i : Z) : string :=
  "data-" +:+ clusterName +:+ "-" +:+ np_Component np +:+ "-" +:+ Itoa i.

(** A key cannot be assigned in a nil map. *)
Definition resizeClaim (existing : StatefulSet) (np : NodePool) (size : Quantity) (i : Z) (_ : unit)
    : io (unit + err) :=
  let! r := GetPVC (dataClaimName np i) (sts_Namespace existing) in
  match r with
  | Err e => Ret (inr e)
  | Ok pvc =>
      match pvc_Requests pvc with
      | None => Panic "assignment to entry in nil map"
      | Some requests =>
          let! e := UpdatePVC (pvc_with_storage size requests pvc) in
          match e with
          | None => Ret (inl tt)
          | Some e =>
              do! ask (RecordEvent "Warning" "PVC" ("Failed to Resize " +:+
                         sts_Namespace existing +:+ "/" +:+ sts_Name existing)) in
              Ret (inr e)
          end
      end
  end.

Definition maybeUpdateVolumes (existing : StatefulSet) (np : NodePool) : io (option err) :=
  let size := nodeDiskSize np in
  match sts_VolumeClaimTemplates existing with
  | [] => deleteSTSWithOrphan existing
  | claim :: _ =>
      let existingDisk := Storage claim in
      if QuantityEqual existingDisk size then Ret None
      else
        do! ask (RecordEvent "Normal" "PVC" ("Starting to resize PVC " +:+
                   sts_Namespace existing +:+ "/" +:+ sts_Name existing +:+ " from " +:+
                   QuantityString existingDisk +:+ " to  " +:+ QuantityString size +:+ " ")) in
        let! e := deleteSTSWithOrphan existing in
        match e with
        | Some e => Ret (Some e)
        | None =>
            let! o := for_range (seqZ 0 (default 1 (sts_Replicas existing))) tt
                        (resizeClaim existing np size) in
            Ret (match o with inl _ => None | inr e => Some e end)
        end
  end.

(** *** Labels of orphaned pods *)

(** Maps are compared as such: a nil map is an empty one. *)
Definition updateOrphanedPodLabels (oldSTS newSTS : StatefulSet) : io (option err) :=
  let! oldSelector := deref (sts_Selector oldSTS) in
  let! newSelector := deref (sts_Selector newSTS) in
  if oldSelector == newSelector then Ret None
  else
    let! r := ListPods (sts_Namespace oldSTS) (map_to_list oldSelector) in
    match r with
    | Err e => Ret (Some (Wrapped "failed to list orphaned pods: " e))
    | Ok pods =>
        let! _ := for_range pods tt (fun pod _ =>
          match pod_DeletionTimestamp pod with
          | Some _ => Ret (inl tt)
          | None =>
              do! UpdatePodLabels pod (sts_Labels newSTS ∪ newSelector) in
              Ret (inl tt : unit + Empty_set)
          end) in
        Ret None
    end.

(** *** The desired state *)

Definition indexOutOfRange : string := "runtime error: index out of range [0] with length 0".

(** [sts.Spec.Template.Spec.Containers[0].Env = existing....Env]. *)
Definition keepEnv (existing sts : StatefulSet) : io StatefulSet :=
  let t := sts_Template sts in
  let s := pt_Spec t in
  match ps_Containers s, ps_Containers (pt_Spec (sts_Template existing)) with
  | c :: cs, e :: _ =>
      let c' := mkContainer (ctn_Name c) (ctn_Image c) (ctn_ImagePullPolicy c) (ctn_Command c)
                  (ctn_Args c) (ctn_Env e) (ctn_Ports c) (ctn_Resources c) (ctn_StartupProbe c)
                  (ctn_LivenessProbe c) (ctn_ReadinessProbe c) (ctn_VolumeMounts c)
                  (ctn_SecurityContext c) (ctn_Other c) in
      Ret (sts_with_Template
             (mkTemplate (pt_Labels t) (pt_Annotations t)
                (mkPodSpec (c' :: cs) (ps_InitContainers s) (ps_Volumes s)
                   (ps_ServiceAccountName s) (ps_NodeSelector s) (ps_Tolerations s)
                   (ps_Affinity s) (ps_TopologySpreadConstraints s) (ps_ImagePullSecrets s)
                   (ps_PriorityClassName s) (ps_SecurityContext s) (ps_HostAliases s)
                   (ps_HostNetwork s))) sts)
  | _, _ => Panic indexOutOfRange
  end.

Definition versionChanging : bool :=
  (st_Version status != "") && (st_Version status != specVersion instance).

(** Budget, volumes, and the set as it should be, with as many replicas as it has. *)
Definition enforceSTS (np : NodePool) (existing sts : StatefulSet) : io answer :=
  let! (result, e) := handlePDB np in
  match e with
  | Some e => Ret (result, Some e)
  | None =>
      let! e := if usesPVC np then maybeUpdateVolumes existing np else Ret None in
      match e with
      | Some e => Ret (result, Some e)
      | None =>
          let sts := sts_with_Replicas (sts_Replicas existing) sts in
          let! sts := if versionChanging && negb (HasDataRole np) then keepEnv existing sts
                      else Ret sts in
          do! updateOrphanedPodLabels existing sts in
          let! (sts, (result, e)) := ask (ReconcileResource KStatefulSet sts StatePresent) in
          match e with
          | None => Ret (result, None)
          | Some e =>
              if isImmutableFieldChangeError e then
                let! e := deleteSTSWithOrphan existing in
                match e with
                | Some e => Ret (Some noResult, Some e)
                | None =>
                    let! (_, a) := ask (ReconcileResource KStatefulSet sts StatePresent) in Ret a
                end
              else Ret (result, Some e)
          end
      end
  end.

(** The part of [reconcileNodeStatefulSet] from the built set on. *)
Definition applySTS (np : NodePool) (sts : StatefulSet) : io answer :=
  match setOwner (sts_OwnerReferences sts) with
  | (_, Some e) => Ret (Some noResult, Some e)
  | (refs, None) =>
      let! (sts, (result, e)) :=
        ask (ReconcileResource KStatefulSet (sts_with_OwnerReferences refs sts) StateCreated) in
      match result, e with
      | None, None =>
          let! r := GetStatefulSet (sts_Name sts) (sts_Namespace sts) in
          match r with
          | Err e => Ret (None, Some e)
          | Ok existing =>
              let! r := fixSelector existing sts in
              match r with
              | inr a => Ret a
              | inl sts =>
                  let! r := recoverPool np existing sts in
                  match r with
                  | inr a => Ret a
                  | inl existing => enforceSTS np existing sts
                  end
              end
          end
      | _, _ => Ret (result, e)
      end
  end.

(** A pool whose configuration has no hash yet is left for later. *)
Definition reconcileNodeStatefulSet (rc : ReconcilerContext) (np : NodePool) : io answer :=
  match fetchNodePoolHash rc (np_Component np) with
  | None => Ret (Some (mkResult true 0), None)
  | Some nodePoolConfig =>
      let '(volumes, volumeMounts) := poolVolumes rc np in
      let! sts := NewSTSForNodePool instance np (nh_ConfigHash nodePoolConfig) volumes volumeMounts in
      applySTS np sts
  end.

(** ** Recovery of clusters on empty directories *)

Definition isEmptyDirCluster : bool :=
  forallb (fun np => match np_Persistence np with
                     | None => false
                     | Some p => bool_decide (is_Some (per_EmptyDir p))
                     end) (nodePools instance).

Fixpoint emptyDirRecoveryFirstObserved (components : list ComponentStatus) : option Z :=
  match components with
  | [] => None
  | component :: components =>
      if cs_Component component != emptyDirRecoveryComponent
      then emptyDirRecoveryFirstObserved components
      else ParseRFC3339 (cs_Description component)
  end.

(** The sums are those of [int32]; the replicas pointer is dereferenced. *)
Definition addPoolStats (np : NodePool) (stats : emptyDirPodStats)
    : io (emptyDirPodStats + err) :=
  if negb (HasDataRole np) && negb (HasManagerRole np) then Ret (inl stats)
  else
    let! r := GetSTSForNodePool np clusterName namespace in
    match r with
    | Err e => Ret (inr e)
    | Ok sts =>
        let! r := CountExistingPodsForNodePool instance np in
        match r with
        | Err e => Ret (inr e)
        | Ok existingPods =>
            let! replicas := deref (sts_Replicas sts) in
            let data := HasDataRole np in
            let manager := HasManagerRole np in
            let add (b : bool) (sum n : Z) := if b then wrap32 (sum + n) else sum in
            Ret (inl (mkStats (add data (existingDataPods stats) (wrap32 existingPods))
                        (add data (totalDataPods stats) replicas)
                        (add manager (existingMasterPods stats) (wrap32 existingPods))
                        (add manager (totalMasterPods stats) replicas)))
        end
    end.
Definition collectEmptyDirPodStats : io (result emptyDirPodStats) :=
  let! o := for_range (nodePools instance) (mkStats 0 0 0 0) addPoolStats in
  Ret (match o with inl stats => Ok stats | inr e => Err e end).

Definition recoveryKey : ComponentStatus := mkCS emptyDirRecoveryComponent "" "" [].

Definition clearEmptyDirRecoveryStatus : io (option err) :=
  let '(_, found) := FindFirstPartial (componentsStatus instance) recoveryKey GetByComponent in
  if negb found then Ret None
  else updateStatusOf instance
         (with_status (fun st => set_ComponentsStatus (RemoveIt recoveryKey (st_ComponentsStatus st)) st)).

Definition scalingInProgress : bool :=
  existsb (fun np => (FindFirstPartial (componentsStatus instance)
                        (mkCS "Scaler" "" (np_Component np) []) GetByDescriptionAndComponent).2)
    (nodePools instance).

Definition recoveryEvent (message : string) : io unit :=
  ask (RecordEvent "Warning" "EmptyDirRecovery" message).
Definition clusterPath : string := namespace +:+ "/" +:+ clusterName.

Definition recordObservation (now : Z) : io answer :=
  let! e := updateStatusOf instance
    (with_status (fun st => set_ComponentsStatus
       (Replace recoveryKey (mkCS emptyDirRecoveryComponent emptyDirRecoveryStatusPending
                               (FormatRFC3339 now) []) (st_ComponentsStatus st)) st)) in
  match e with
  | Some e => Ret (Some (mkResult true 0), Some e)
  | None =>
      do! recoveryEvent ("Detected missing pods for emptyDir cluster " +:+ clusterPath +:+
        "; waiting 5m0s before recreating cluster to avoid acting on transient failures") in
      Ret (Some (mkResult true (inSeconds emptyDirRecoveryGracePeriod)), None)
  end.

(** The stateful sets, then the deployment of dashboards, the status, and the job. *)
Definition recreateCluster : io answer :=
  do! recoveryEvent ("Recreating emptyDir cluster " +:+ clusterPath +:+
                     " after pods were missing for 5m0s") in
  let! o := for_range (nodePools instance) tt (fun np _ =>
    let! e := DeleteSTSForNodePool np clusterName namespace in
    Ret (match e with Some e => inr e | None => inl tt end)) in
  match o with
  | inr e => Ret (Some (mkResult true 0), Some e)
  | inl _ =>
      let! e := if db_Enable (sp_Dashboards (cl_Spec instance))
                then DeleteDashboardsDeployment clusterName namespace else Ret None in
      match e with
      | Some e => Ret (Some (mkResult true 0), Some e)
      | None =>
          let! e := updateStatusOf instance
            (with_status (fun st => let st := set_Initialized false st in
               set_ComponentsStatus (RemoveIt recoveryKey (st_ComponentsStatus st)) st)) in
          match e with
          | Some e => Ret (Some (mkResult true 0), Some e)
          | None =>
              let! e := DeleteSecurityUpdateJob clusterName namespace in
              match e with
              | Some e => Ret (Some (mkResult true 0), Some e)
              | None => Ret (Some noResult, None)
              end
          end
      end
  end.

Definition checkForEmptyDirRecovery : io answer :=
  if negb (st_Initialized status) then Ret (Some noResult, None)
  else if scalingInProgress then Ret (Some noResult, None)
  else
    let! r := collectEmptyDirPodStats in
    match r with
    | Err e => Ret (Some (mkResult true 0), Some e)
    | Ok stats =>
        if negb (emptyDirDataLossSuspected stats) then
          let! e := clearEmptyDirRecoveryStatus in
          match e with
          | Some e => Ret (Some (mkResult true 0), Some e)
          | None => Ret (Some noResult, None)
          end
        else
          let! now := ask (Local_ TimeNow) in
          match emptyDirRecoveryFirstObserved (componentsStatus instance) with
          | None => recordObservation now
          | Some firstObserved =>
              let elapsed := saturate (now - firstObserved) in
              if bool_decide (elapsed < emptyDirRecoveryGracePeriod)
              then Ret (Some (mkResult true
                           (inSeconds (wrap64 (emptyDirRecoveryGracePeriod - elapsed)))), None)
              else recreateCluster
          end
    end.

(** ** The bootstrap pod *)

Definition recreateBootstrapPod (existingPod desiredPod : Pod) : io answer :=
  let! e := DeletePod (pod_Name existingPod) (pod_Namespace existingPod) in
  match e with
  | Some e => Ret (Some noResult, Some e)
  | None =>
      let! e := WaitForPodDeletion (pod_Name desiredPod) (pod_Namespace desiredPod) in
      match e with
      | Some e => Ret (Some noResult, Some e)
      | None => let! (_, a) := ask (ReconcileResource KPod desiredPod StateCreated) in Ret a
      end
  end.

(** The update works on a copy of the desired pod. *)
Definition reconcileBootstrapPod (desiredPod : Pod) : io answer :=
  let! r := GetPod (pod_Name desiredPod) (pod_Namespace desiredPod) in
  match r with
  | Err e =>
      if IsNotFound e
      then let! (_, a) := ask (ReconcileResource KPod desiredPod StateCreated) in Ret a
      else Ret (Some noResult, Some e)
  | Ok existingPod =>
      let! (_, (_, e)) := ask (ReconcileResource KPod desiredPod StatePresent) in
      match e with
      | Some e =>
          if isImmutablePodUpdateErr e then recreateBootstrapPod existingPod desiredPod
          else Ret (Some noResult, Some e)
      | None => Ret (Some noResult, None)
      end
  end.

(** ** The reconciler *)

(** An object of the cluster: its owner is set, and it is brought to the state. *)
Definition ownAndReconcile (k : kind) (refs : list OwnerReference)
    (o : list OwnerReference -> obj k) (s : DesiredState) (result : CombinedResult)
    : io CombinedResult :=
  let '(refs, e) := setOwner refs in
  let! (_, (res, e')) := ask (ReconcileResource k (o refs) s) in
  Ret (CombineResult (CombineErr result e) res e').

Definition service_with (s : Service) (refs : list OwnerReference) : Service :=
  mkService (svc_Name s) (svc_Namespace s) (svc_Labels s) (svc_Annotations s) (svc_ClusterIP s)
    (svc_Ports s) (svc_Selector s) (svc_Type s) (svc_PublishNotReadyAddresses s)
    (svc_LoadBalancerSourceRanges s) refs.
Definition secret_with (s : Secret) (refs : list OwnerReference) : Secret :=
  mkSecret (secret_Name s) (secret_Namespace s) (secret_Annotations s) (secret_Data s)
    (secret_StringData s) (secret_ResourceVersion s) (secret_Type s) refs.
Definition pvc_with_owner (p : PVC) (refs : list OwnerReference) : PVC :=
  mkPVC (pvc_Name p) (pvc_Namespace p) (pvc_Labels p) (pvc_Annotations p) (pvc_AccessModes p)
    (pvc_Requests p) (pvc_StorageClassName p) (pvc_VolumeMode p) refs.
Definition pod_with_owner (p : Pod) (refs : list OwnerReference) : Pod :=
  mkPod (pod_Name p) (pod_Namespace p) (pod_Labels p) (pod_DeletionTimestamp p) (pod_Conditions p)
    (pod_ContainerStatuses p) (pod_Annotations p) (pod_Spec p) refs.
Definition monitor_with (m : ServiceMonitor) (refs : list OwnerReference) : ServiceMonitor :=
  mkServiceMonitor (smo_Name m) (smo_Namespace m) (smo_Labels m) (smo_JobLabel m)
    (smo_TargetLabels m) (smo_PodTargetLabels m) (smo_Endpoints m) (smo_MatchLabels m)
    (smo_MatchExpressions m) (smo_NamespaceAny m) (smo_NamespaceNames m) refs.

Definition noMonitoringApi : string :=
  "unable to retrieve the complete list of server APIs: monitoring.coreos.com/v1".

Definition reconcileMonitor (result : CombinedResult) : io CombinedResult :=
  let serviceMonitor := NewServiceMonitor instance in
  if mon_Enable (g_Monitoring (sp_General (cl_Spec instance)))
  then ownAndReconcile KServiceMonitor [] (monitor_with serviceMonitor) StatePresent result
  else
    let! (_, (res, e)) := ask (ReconcileResource KServiceMonitor serviceMonitor StateAbsent) in
    match e with
    | Some e' => if Contains (Error e') noMonitoringApi then Ret result
                 else Ret (CombineResult result res e)
    | None => Ret (CombineResult result res e)
    end.

Definition DiscoverRandomAdminSecret : io (result Secret) :=
  match sp_Security (cl_Spec instance) with
  | None => Ret (Err (OtherErr "security config is not defined"))
  | Some s =>
      match sec_Config s with
      | None => Ret (Err (OtherErr "security config is not defined"))
      | Some c =>
          if sc_AdminCredentialsSecret c != ""
          then Ret (Err (OtherErr "admin credentials secret managed by user"))
          else GetSecret (GeneratedAdminCredentialsSecretName instance) namespace
      end
  end.
Definition DiscoverRandomContextSecret : io (result Secret) :=
  GetSecret (GeneratedSecurityConfigSecretName instance) namespace.

(** A secret that was found is adopted. *)
Definition adoptSecret (r : result Secret) (result : CombinedResult) : io CombinedResult :=
  match r with
  | Err _ => Ret result
  | Ok secret =>
      ownAndReconcile KSecret (secret_OwnerReferences secret) (secret_with secret) StatePresent result
  end.

Definition reconcileBootstrap (rc : ReconcilerContext) (result : CombinedResult)
    : io CombinedResult :=
  let initialized := st_Initialized status in
  let! result := ownAndReconcile KPVC [] (pvc_with_owner (NewBootstrapPVC instance))
    (if initialized then StateAbsent else StatePresent) result in
  let bootstrapPod := NewBootstrapPod instance (rc_Volumes rc) (rc_VolumeMounts rc) in
  if initialized
  then ownAndReconcile KPod [] (pod_with_owner bootstrapPod) StateAbsent result
  else
    let '(refs, e) := setOwner [] in
    let! (res, e') := reconcileBootstrapPod (pod_with_owner bootstrapPod refs) in
    Ret (CombineResult (CombineErr result e) res e').

Definition reconcileNodePools (rc : ReconcilerContext) (result : CombinedResult)
    : io CombinedResult :=
  let! o := for_range (nodePools instance) result (fun np result =>
    let! result := ownAndReconcile KService [] (service_with (NewHeadlessServiceForNodePool instance np))
      StatePresent result in
    let! (res, e) := reconcileNodeStatefulSet rc np in
    Ret (inl (CombineResult result res e) : CombinedResult + Empty_set)) in
  Ret (match o with inl result => result | inr e => match e with end end).

Definition set_Health (health : string) (availableNodes : Z) (st : ClusterStatus) : ClusterStatus :=
  mkClusterStatus (st_Phase st) (st_ComponentsStatus st) (st_Version st) (st_Initialized st)
    availableNodes health (st_AdminSecretCreated st) (st_ContextSecretCreated st).

Definition UpdateClusterStatus : io (option err) :=
  let! (health, _) := GetClusterHealth instance in
  let! availableNodes := GetAvailableOpenSearchNodes instance in
  updateStatusOf instance (with_status (set_Health health availableNodes)).

Definition ClusterReconcile (rc : ReconcilerContext) : io (Result * option err) :=
  let! r := UsernameAndPassword instance in
  match r with
  | Err e => Ret (noResult, Some e)
  | Ok (username, password) =>
      let! result := reconcileMonitor emptyCombined in
      let! result := ownAndReconcile KService [] (service_with (NewServiceForCR instance))
        StatePresent result in
      let! result := ownAndReconcile KService [] (service_with (NewDiscoveryServiceForCR instance))
        StatePresent result in
      let! r := DiscoverRandomAdminSecret in
      let! result := adoptSecret r result in
      let! r := DiscoverRandomContextSecret in
      let! result := adoptSecret r result in
      let! result := ownAndReconcile KSecret []
        (secret_with (PasswordSecret instance username password)) StatePresent result in
      let! result := reconcileBootstrap rc result in
      let! result := reconcileNodePools rc result in
      let! result :=
        if st_Version status == "" then
          let! e := updateStatusOf instance (with_status (set_StatusVersion (specVersion instance))) in
          Ret (CombineErr result e)
        else Ret result in
      let! result := if isEmptyDirCluster then
                       let! (res, e) := checkForEmptyDirRecovery in Ret (CombineResult result res e)
                     else Ret result in
      let! e := UpdateClusterStatus in
      let result := CombineErr result e in
      Ret (c_Result result, c_Err result)
  end.

(** There is nothing to delete but what has an owner. *)
Definition ClusterDeleteResources : Result * option err := (noResult, None).

End ClusterRec.
