(* ===== verification/ClusterSts.v ===== *)
(** * ClusterSts: what the cluster reconciler does to stateful sets

    The theorems on the part of [ClusterRec] that creates, recreates and updates the stateful
    sets of the node pools. *)

From S2P Require Import Prelude Prog Resources Api K8sClient Helpers OsClient OsData ReconcilerUtil.
From S2P Require Import RContext ReconcileHelpers Tls Configuration ResourceReconciler SecurityConfig.
From S2P Require Import Waits Builders ClusterRec.

(** ** Requests that leave workloads and claims alone *)

Definition bystander (q : req) : Prop :=
  match q with
  | Update k _ | StatusUpdate k _ | Delete k _ _ _ | ReconcileResource k _ _ =>
      match k with
      | KStatefulSet | KPod | KPVC | KDeployment | KJob => False
      | _ => True
      end
  | _ => True
  end.

Lemma quiet_bystander q : quiet q -> bystander q.
Proof. by destruct q as [| |[]|[]|[]|[]| | | |]. Qed.
Lemma only_quiet_bystander {A} (p : io A) : only quiet p -> only bystander p.
Proof. apply only_mono, quiet_bystander. Qed.
#[export] Hint Extern 9 (only bystander _) => apply only_quiet_bystander : only.

Section ClusterSts.
Context `{RP : RetryPolicy} `{PP : PollPolicy} `{PE : ProcEnv} `{CR : Crypto} `{LL : LabelLib}
  `{HV : HcVersion} `{QL : QuantityLib} `{CL : CtrlLib} `{CB : Combiner} `{SL : SecurityLib}.
Context (instance : OpenSearchCluster) (rc : ReconcilerContext).

#[local] Abbreviation getSts s := (Get KStatefulSet (sts_Name s) (sts_Namespace s)).

(** The set that the pool should have, as it is built from the specification, the volumes and
    the hash of the pool's configuration. *)
Definition desired (np : NodePool) (o : StatefulSet) : Prop :=
  exists hash jvm refs, fetchNodePoolHash rc (np_Component np) = Some hash /\
    SetControllerReference (cl_Name instance) (cl_UID instance) [] = Ok refs /\
    o = sts_with_OwnerReferences refs
          (stsWith instance np (nh_ConfigHash hash) jvm (poolVolumes instance rc np).1
             (poolVolumes instance rc np).2).

(** What was seen of the pool when it is to be changed: the object [sts] that creating the
    desired set has left, and the set [existing0] the API server has. *)
Definition seen (h : ohist) (np : NodePool) (sts existing0 : StatefulSet) : Prop :=
  np ∈ nodePools instance /\
  (exists o, desired np o /\ saw h (ReconcileResource KStatefulSet o StateCreated) (sts, (None, None))) /\
  saw h (getSts sts) (Ok existing0).

(** The set as the later steps know it: it may have been read again for its status, and its
    number of ready replicas is the number of ready pods. *)
Definition refreshed (h : ohist) (np : NodePool) (existing0 existing : StatefulSet) : Prop :=
  existing = existing0 \/
  exists new n, existing = sts_with_ReadyReplicas n new /\ ready_pods h instance np n /\
    (new = existing0 \/
     sts_CurrentRevision existing0 = "" /\ saw h (getSts existing0) (Ok new)).

(** The claims of the pool, as they were listed. *)
Definition listed_claims (h : ohist) (np : NodePool) (n : Z) : Prop :=
  exists items, saw h (List_ KPVC (cl_Namespace instance)
                         [(ClusterLabel, cl_Name instance); (NodePoolLabel, np_Component np)]) (Ok items) /\
    n = Z.of_nat (length items).

Definition old_selector (existing : StatefulSet) : Prop :=
  exists selector, sts_Selector existing = Some selector /\ is_Some (selector !! "opensearch.role").

(** The pool was judged to have failed, or not. *)
Definition judged (h : ohist) (np : NodePool) (failed : bool) : Prop :=
  ParallelRecoveryMode = true /\ usesPVC np = true /\
  exists n k, ready_pods h instance np n /\ listed_claims h np k /\ poolFailed instance np k n = failed.

(** Why a set is deleted without its pods. *)
Inductive orphan_reason (h : ohist) (np : NodePool) (existing : StatefulSet) : Prop :=
| reason_selector : old_selector existing -> orphan_reason h np existing
| reason_failed :
    sts_PodManagementPolicy existing <> "Parallel" -> judged h np true ->
    orphan_reason h np existing
| reason_recovered :
    sts_PodManagementPolicy existing = "Parallel" -> judged h np false ->
    orphan_reason h np existing
| reason_no_claims :
    usesPVC np = true -> sts_VolumeClaimTemplates existing = [] -> orphan_reason h np existing
| reason_resize claim claims :
    usesPVC np = true -> sts_VolumeClaimTemplates existing = claim :: claims ->
    QuantityEqual (Storage claim) (nodeDiskSize np) = false -> orphan_reason h np existing
| reason_immutable o o' result e :
    saw h (ReconcileResource KStatefulSet o StatePresent) (o', (result, Some e)) ->
    isImmutableFieldChangeError e = true -> orphan_reason h np existing.

(** The set is gone, the API server has said. *)
Definition gone (h : ohist) (s : StatefulSet) : Prop :=
  exists e, saw h (getSts s) (Err e) /\ IsNotFound e = true.

(** A cluster on empty directories may be created anew: its pods were missing at a recorded
    time at least the grace period ago, and are missing now. *)
Inductive pool_stats (h : ohist) : list NodePool -> emptyDirPodStats -> Prop :=
| stats_none : pool_stats h [] (mkStats 0 0 0 0)
| stats_skip pools stats np :
    pool_stats h pools stats -> HasDataRole np = false -> HasManagerRole np = false ->
    pool_stats h (pools ++ [np]) stats
| stats_add pools stats np sts pods replicas :
    pool_stats h pools stats ->
    saw h (Get KStatefulSet (StsName instance np) (cl_Namespace instance)) (Ok sts) ->
    sts_Replicas sts = Some replicas ->
    saw h (List_ KPod (cl_Namespace instance)
             [(ClusterLabel, cl_Name instance); (NodePoolLabel, np_Component np)]) (Ok pods) ->
    let existing := wrap32 (Z.of_nat (length (filter (λ p, terminating p = false) pods))) in
    let add (b : bool) (sum n : Z) := if b then wrap32 (sum + n) else sum in
    pool_stats h (pools ++ [np])
      (mkStats (add (HasDataRole np) (existingDataPods stats) existing)
         (add (HasDataRole np) (totalDataPods stats) replicas)
         (add (HasManagerRole np) (existingMasterPods stats) existing)
         (add (HasManagerRole np) (totalMasterPods stats) replicas)).

Definition recreation_due (h : ohist) : Prop :=
  isEmptyDirCluster instance = true /\ st_Initialized (cl_Status instance) = true /\
  scalingInProgress instance = false /\
  exists stats now firstObserved,
    pool_stats h (nodePools instance) stats /\ emptyDirDataLossSuspected stats = true /\
    saw h (Local_ TimeNow) now /\
    emptyDirRecoveryFirstObserved (componentsStatus instance) = Some firstObserved /\
    emptyDirRecoveryGracePeriod <= saturate (now - firstObserved).

(** The object after the set was created again for its selector. *)
Definition remade (h : ohist) (sts sts' : StatefulSet) : Prop :=
  sts' = sts \/ saw h (ReconcileResource KStatefulSet sts StateCreated) (sts', (None, None)).

(** The object that is enforced: with the replicas of the existing set, and, while a pool without
    data waits for a version to arrive, its variables. *)
Definition enforced (np : NodePool) (sts existing o : StatefulSet) : Prop :=
  let o0 := sts_with_Replicas (sts_Replicas existing) sts in
  if versionChanging instance && negb (HasDataRole np) then keepEnv existing o0 = Ret o else o = o0.

#[local] Abbreviation bootstrapPod :=
  (NewBootstrapPod instance (rc_Volumes rc) (rc_VolumeMounts rc)).
#[local] Abbreviation updateJob :=
  (Get KJob (cl_Name instance +:+ "-securityconfig-update") (cl_Namespace instance)).
#[local] Abbreviation initialized := (st_Initialized (cl_Status instance)).

(** What may be done to stateful sets, pods and claims. *)
Inductive cluster_step (h : ohist) : req -> Prop :=
| step_create np o :
    np ∈ nodePools instance -> desired np o ->
    cluster_step h (ReconcileResource KStatefulSet o StateCreated)
| step_orphan np sts existing0 existing :
    seen h np sts existing0 -> refreshed h np existing0 existing ->
    orphan_reason h np existing ->
    cluster_step h (Delete KStatefulSet (sts_Name existing) (sts_Namespace existing) PropOrphan)
| step_create_again np sts existing :
    seen h np sts existing -> old_selector existing -> gone h existing ->
    cluster_step h (ReconcileResource KStatefulSet sts StateCreated)
| step_parallel np sts sts' existing0 existing :
    seen h np sts existing0 -> refreshed h np existing0 existing -> judged h np true ->
    sts_PodManagementPolicy existing <> "Parallel" -> gone h existing ->
    remade h sts sts' ->
    cluster_step h (ReconcileResource KStatefulSet (sts_anew_with_policy "Parallel" sts') StatePresent)
| step_update np sts sts' existing0 existing o :
    seen h np sts existing0 -> refreshed h np existing0 existing -> remade h sts sts' ->
    enforced np sts' existing o ->
    cluster_step h (ReconcileResource KStatefulSet o StatePresent)
| step_update_again np sts sts' existing0 existing o o' result e :
    seen h np sts existing0 -> refreshed h np existing0 existing -> remade h sts sts' ->
    enforced np sts' existing o ->
    saw h (ReconcileResource KStatefulSet o StatePresent) (o', (result, Some e)) ->
    isImmutableFieldChangeError e = true ->
    saw h (Delete KStatefulSet (sts_Name existing) (sts_Namespace existing) PropOrphan) None ->
    cluster_step h (ReconcileResource KStatefulSet o' StatePresent)
| step_adopt np sts sts' existing0 existing o old new pods pod :
    seen h np sts existing0 -> refreshed h np existing0 existing -> remade h sts sts' ->
    enforced np sts' existing o ->
    sts_Selector existing = Some old -> sts_Selector o = Some new -> old <> new ->
    saw h (List_ KPod (sts_Namespace existing) (map_to_list old)) (Ok pods) -> pod ∈ pods ->
    pod_DeletionTimestamp pod = None ->
    cluster_step h (Update KPod (pod_with_Labels ((sts_Labels o ∪ new) ∪ pod_Labels pod) pod))
| step_resize np sts existing0 existing i claim claims pvc requests :
    seen h np sts existing0 -> refreshed h np existing0 existing -> usesPVC np = true ->
    sts_VolumeClaimTemplates existing = claim :: claims ->
    QuantityEqual (Storage claim) (nodeDiskSize np) = false ->
    saw h (Delete KStatefulSet (sts_Name existing) (sts_Namespace existing) PropOrphan) None ->
    0 <= i < default 1 (sts_Replicas existing) ->
    saw h (Get KPVC (dataClaimName instance np i) (sts_Namespace existing)) (Ok pvc) ->
    pvc_Requests pvc = Some requests ->
    cluster_step h (Update KPVC (pvc_with_storage (nodeDiskSize np) requests pvc))
| step_bootstrap_claim refs :
    cluster_step h (ReconcileResource KPVC (pvc_with_owner (NewBootstrapPVC instance) refs)
                      (if initialized then StateAbsent else StatePresent))
| step_bootstrap_remove refs :
    initialized = true ->
    cluster_step h (ReconcileResource KPod (pod_with_owner bootstrapPod refs) StateAbsent)
| step_bootstrap_ensure refs s :
    initialized = false -> s <> StateAbsent ->
    cluster_step h (ReconcileResource KPod (pod_with_owner bootstrapPod refs) s)
| step_bootstrap_delete existing refs p' result e :
    initialized = false ->
    saw h (Get KPod (BootstrapPodName instance) (cl_Namespace instance)) (Ok existing) ->
    saw h (ReconcileResource KPod (pod_with_owner bootstrapPod refs) StatePresent)
      (p', (result, Some e)) ->
    isImmutablePodUpdateErr e = true ->
    cluster_step h (Delete KPod (pod_Name existing) (pod_Namespace existing) PropDefault)
| step_recreate_sts np sts :
    recreation_due h -> np ∈ nodePools instance ->
    saw h (Get KStatefulSet (cl_Name instance +:+ "-" +:+ np_Component np) (cl_Namespace instance)) (Ok sts) ->
    cluster_step h (Delete KStatefulSet (sts_Name sts) (sts_Namespace sts) PropForeground)
| step_recreate_dashboards d :
    recreation_due h -> db_Enable (sp_Dashboards (cl_Spec instance)) = true ->
    saw h (Get KDeployment (cl_Name instance +:+ "-dashboards") (cl_Namespace instance)) (Ok d) ->
    cluster_step h (Delete KDeployment (dep_Name d) (dep_Namespace d) PropForeground)
| step_recreate_job job :
    recreation_due h -> saw h updateJob (Ok job) ->
    cluster_step h (Delete KJob (job_Name job) (job_Namespace job) PropForeground)
| step_recreate_job_gone job :
    recreation_due h -> saw h updateJob (Ok job) ->
    cluster_step h (ReconcileResource KJob job StateAbsent).

Definition cluster_safe (h : ohist) (q : req) : Prop := bystander q \/ cluster_step h q.

(** ** History *)

Lemma seen_extends h h' np sts ex : extends h h' -> seen h np sts ex -> seen h' np sts ex.
Proof.
  intros He (Hn & (o & Hd & Hs) & Hg). split_and!; [done| |by eapply saw_extends].
  exists o. split; [done|by eapply saw_extends].
Qed.
Lemma refreshed_extends h h' np a b : extends h h' -> refreshed h np a b -> refreshed h' np a b.
Proof.
  intros He [->|(new & n & -> & Hr & Hn)]; [by left|right]. exists new, n.
  split_and!; [done|by eapply ready_pods_extends|]. destruct Hn as [->|[? ?]]; [by left|right].
  split; [done|by eapply saw_extends].
Qed.
Lemma gone_extends h h' s : extends h h' -> gone h s -> gone h' s.
Proof. intros He (e & Hs & Hn). exists e. split; [by eapply saw_extends|done]. Qed.
Lemma judged_extends h h' np b : extends h h' -> judged h np b -> judged h' np b.
Proof.
  intros He (Hm & Hu & n & k & Hr & (items & Hi & ->) & Hp). split_and!; [done|done|].
  exists n, (Z.of_nat (length items)). split_and!; [by eapply ready_pods_extends| |done].
  exists items. split; [by eapply saw_extends|done].
Qed.

Lemma remade_extends h h' a b : extends h h' -> remade h a b -> remade h' a b.
Proof. intros He [->|Hs]; [by left|right; by eapply saw_extends]. Qed.

Lemma enforced_replicas np sts existing o :
  enforced np sts existing o -> sts_Replicas o = sts_Replicas existing.
Proof.
  unfold enforced, keepEnv. destruct (_ && _); [|by intros ->]. cbv zeta.
  destruct (ps_Containers _); [done|]. destruct (ps_Containers _); [done|]. by intros [= <-].
Qed.

(** ** Footprints *)

Lemma safe_bystander h q : bystander q -> cluster_safe h q.
Proof. by left. Qed.
Lemma safe_reads h q : reads q -> cluster_safe h q.
Proof. intros Hq. left. by destruct q as [| |[]|[]|[]|[]| | | |]. Qed.
#[local] Hint Resolve safe_bystander safe_reads : go.
#[local] Hint Extern 1 (cluster_safe _ _) => left; exact I : go.

Lemma only_updateStatus_bystander f : only bystander (updateStatusOf instance f).
Proof.
  unfold updateStatusOf, UpdateOpenSearchClusterStatus, UpdateOpenSearchClusterStatusS, RetryOnConflict.
  apply only_bind; [|only_auto]. apply only_retry_loop. intros s. unfold GetOpenSearchCluster. only_auto.
Qed.
Lemma only_handlePDB np : only bystander (handlePDB instance np).
Proof. unfold handlePDB, removePDB. only_auto. Qed.
Lemma only_keepEnv R a b : only R (keepEnv a b).
Proof. unfold keepEnv. only_auto. Qed.
#[local] Hint Resolve only_updateStatus_bystander only_handlePDB only_keepEnv : only.

(** ** The steps for one pool *)

Section Pool.
Context (np : NodePool).

Lemma wp_WaitDelete sts existing0 existing (Q : ohist -> outcome (option err) -> Prop) h :
  seen h np sts existing0 -> refreshed h np existing0 existing -> orphan_reason h np existing ->
  (forall h' e, extends h h' -> Q h' (Returned (Some e))) ->
  (forall h', extends h h' -> gone h' existing -> Q h' (Returned None)) ->
  wp (WaitForSTSDelete existing) cluster_safe Q h.
Proof.
  intros Hs Hr Ho He Hn. apply wp_WaitForSTSDelete; [right; by econstructor|by auto with go|done|].
  intros h' e H' En Hg. apply Hn; [done|]. by exists e.
Qed.

Lemma wp_deleteOrphan sts existing0 existing (Q : ohist -> outcome (option err) -> Prop) h :
  seen h np sts existing0 -> refreshed h np existing0 existing -> orphan_reason h np existing ->
  (forall h' e, extends h h' -> Q h' (Returned (Some e))) ->
  (forall h', extends h h' ->
     saw h' (Delete KStatefulSet (sts_Name existing) (sts_Namespace existing) PropOrphan) None ->
     Q h' (Returned None)) ->
  wp (deleteSTSWithOrphan existing) cluster_safe Q h.
Proof.
  intros Hs Hr Ho He Hn. unfold deleteSTSWithOrphan, DeleteStatefulSet.
  wp_step; [right; by econstructor|]. destruct r as [e|]; [apply He; ext|]. apply Hn; [ext|apply saw_here].
Qed.

Lemma wp_fixSelector sts existing h :
  seen h np sts existing ->
  wp (fixSelector existing sts) cluster_safe
    (λ h' o, match o with Returned (inl sts') => extends h h' /\ remade h' sts sts' | _ => True end) h.
Proof.
  intros Hs. unfold fixSelector, deref. destruct (sts_Selector existing) as [selector|] eqn:Es; [|done].
  do 3 wp_step. destruct (selector !! "opensearch.role") eqn:El.
  - assert (old_selector existing) as Hold by (exists selector; eauto).
    wp_step. apply (wp_WaitDelete sts existing); [done|by left|by constructor| |].
    + intros h1 e H1. by repeat wp_step.
    + intros h1 H1 Hg. wp_step. wp_step; [right; eapply step_create_again; eauto using seen_extends|].
      destruct r as [sts' [[result|] [e|]]]; wp_step; try done.
      split; [ext|]. right. apply saw_here.
  - wp_step. split; [ext|by left].
Qed.

Lemma wp_CountPVCs (Q : ohist -> outcome (result Z) -> Prop) h :
  (forall h' e, extends h h' -> Q h' (Returned (Err e))) ->
  (forall h' n, extends h h' -> listed_claims h' np n -> Q h' (Returned (Ok n))) ->
  wp (CountPVCsForNodePool instance np) cluster_safe Q h.
Proof.
  intros He Hn. unfold CountPVCsForNodePool, ListPVCs.
  destruct (NewRequirement ClusterLabel _); [wp_step; apply He; ext|].
  destruct (NewRequirement NodePoolLabel _); [wp_step; apply He; ext|].
  wp_step; [by auto with go|]. destruct r as [items|e]; wp_step; [|apply He; ext].
  apply Hn; [ext|]. exists items. split; [apply saw_here|done].
Qed.

Lemma wp_startRecovery sts sts' existing0 existing h :
  seen h np sts existing0 -> refreshed h np existing0 existing -> judged h np true ->
  sts_PodManagementPolicy existing <> "Parallel" -> remade h sts sts' ->
  wp (startRecovery np existing sts') cluster_safe (λ _ _, True) h.
Proof.
  intros Hs Hr Hj Hp Hm. unfold startRecovery. wp_step.
  eapply wp_WaitDelete; [done|done|by apply reason_failed| |].
  - intros h1 e H1. by repeat wp_step.
  - intros h1 H1 Hg. wp_step. wp_step.
    { right. eapply step_parallel; eauto using seen_extends, refreshed_extends, judged_extends, remade_extends. }
    destruct r as [? [result [e|]]]; [by wp_step|].
    eapply wp_only_bind; [apply only_WaitForSTSReplicas|by auto with go| |done].
    intros h2 a H2. by wp_step.
Qed.

Definition recovered (h : ohist) (existing0 : StatefulSet) (h' : ohist)
    (o : outcome (StatefulSet + answer)) : Prop :=
  match o with
  | Returned (inl existing) => extends h h' /\ refreshed h' np existing0 existing
  | _ => True
  end.

Lemma wp_recoverPool sts sts' existing h :
  seen h np sts existing -> remade h sts sts' ->
  wp (recoverPool instance np existing sts') cluster_safe (recovered h existing) h.
Proof.
  intros Hs Hm. unfold recoverPool.
  destruct (ParallelRecoveryMode && usesPVC np) eqn:Emode; cbn [negb];
    [|wp_step; split; [ext|by left]].
  apply andb_true_iff in Emode as [Emode Epvc].
  wp_step. eapply (wp_mono _ _ _ (λ h' o, match o with
      | Returned (Ok new) => extends h h' /\
          (new = existing \/ sts_CurrentRevision existing = "" /\ saw h' (getSts existing) (Ok new))
      | Returned (Err _) => True | Panicked _ => False end)); [done| |].
  2: { case_bool_decide as Er; [|wp_step; split; [ext|by left]]. wp_step.
       apply wp_WaitForSTSStatus; [by auto with go| |]; intros; repeat wp_step; [done|].
       split; [done|]. right. done. }
  intros h1 [[new|e]|m] Hn; [|by repeat wp_step|done]. destruct Hn as [H1 Hn].
  cbn [seq_post]. wp_step. apply wp_ReadyReplicas; [by auto with go|intros; by repeat wp_step|].
  intros h2 n H2 Hready. cbn [seq_post]. wp_step. apply wp_CountPVCs.
  - intros h3 e H3. cbn [seq_post]. wp_step. split; [ext|]. right. exists new, n.
    split_and!; [done|by eapply ready_pods_extends|]. destruct Hn as [->|[? ?]]; [by left|right].
    split; [done|]. eapply saw_extends; [|eassumption]. ext.
  - intros h3 k H3 Hk. cbn [seq_post].
    assert (refreshed h3 np existing (sts_with_ReadyReplicas n new)) as Hre.
    { right. exists new, n. split_and!; [done|by eapply ready_pods_extends|].
      destruct Hn as [->|[? ?]]; [by left|right]. split; [done|]. eapply saw_extends; [|eassumption]. ext. }
    assert (Hj : judged h3 np (poolFailed instance np k n)).
    { split_and!; [done|done|]. exists n, k. split_and!; [by eapply ready_pods_extends|done|done]. }
    assert (extends h h3) as Hh3 by ext.
    destruct (poolFailed instance np k n); case_bool_decide as Ep; cbn [negb].
    + wp_step. split; [ext|done].
    + wp_step. eapply wp_mono; [done| |eapply wp_startRecovery; eauto using seen_extends, remade_extends].
      intros h4 [a|m] _; by repeat wp_step.
    + wp_step. eapply wp_WaitDelete; [by eapply seen_extends|exact Hre|by apply reason_recovered| |].
      * intros. by repeat wp_step.
      * intros h4 H4 Hg. repeat wp_step. split; [ext|]. by eapply refreshed_extends.
    + wp_step. split; [ext|done].
Qed.

Lemma wp_maybeUpdateVolumes sts existing0 existing h :
  usesPVC np = true -> seen h np sts existing0 -> refreshed h np existing0 existing ->
  wp (maybeUpdateVolumes instance existing np) cluster_safe (λ h' _, extends h h') h.
Proof.
  intros Hu Hs Hr. unfold maybeUpdateVolumes. cbv zeta.
  destruct (sts_VolumeClaimTemplates existing) as [|claim claims] eqn:Ev.
  - eapply wp_deleteOrphan; [done|done|by apply reason_no_claims|done|by intros].
  - destruct (QuantityEqual _ _) eqn:Eq; [wp_step; ext|].
    wp_step; [by auto with go|]. set (h1 := _ :: h). assert (extends h h1) as H1 by (subst h1; ext).
    wp_step. eapply wp_deleteOrphan; [by eapply seen_extends|by eapply refreshed_extends| | |].
    + by eapply reason_resize.
    + intros. repeat wp_step. ext.
    + intros h2 H2 Hd. cbn [seq_post]. wp_step.
      apply (wp_for_range (λ rest _ h', extends h2 h' /\
               forall i, i ∈ rest -> 0 <= i < default 1 (sts_Replicas existing))).
      * split; [ext|]. intros i Hi. apply elem_of_seqZ in Hi. lia.
      * intros i rest [] h3 [H3 Hi]. unfold resizeClaim, GetPVC, UpdatePVC.
        wp_step; [by auto with go|]. destruct r0 as [pvc|e]; [|repeat wp_step; ext].
        destruct (pvc_Requests pvc) as [requests|] eqn:Er; [|repeat wp_step; ext].
        wp_step; [right; eapply step_resize|].
        -- eapply seen_extends; [|exact Hs]. ext.
        -- eapply refreshed_extends; [|exact Hr]. ext.
        -- done.
        -- done.
        -- done.
        -- apply saw_there. eapply saw_extends; [exact H3|done].
        -- apply (Hi i). left.
        -- apply saw_here.
        -- done.
        -- destruct r0 as [e|]; [wp_step; [by auto with go|]; repeat wp_step; ext|].
           wp_step. split; [ext|]. intros j Hj. apply Hi. by right.
      * intros [] h3 [H3 _]. repeat wp_step. ext.
Qed.

Lemma wp_updateOrphaned sts sts' existing0 existing o h :
  seen h np sts existing0 -> refreshed h np existing0 existing -> remade h sts sts' ->
  enforced np sts' existing o ->
  wp (updateOrphanedPodLabels existing o) cluster_safe (λ h' _, extends h h') h.
Proof.
  intros Hs Hr Hm He. unfold updateOrphanedPodLabels, deref.
  destruct (sts_Selector existing) as [old|] eqn:Eold; [|repeat wp_step; ext].
  destruct (sts_Selector o) as [new|] eqn:Enew; [|repeat wp_step; ext].
  do 6 wp_step. case_bool_decide as Eq; [wp_step; ext|].
  unfold ListPods. wp_step; [by auto with go|]. destruct r as [pods|e]; [|wp_step; ext].
  set (h1 := _ :: h). assert (extends h h1) as H1 by (subst h1; ext).
  assert (saw h1 (List_ KPod (sts_Namespace existing) (map_to_list old)) (Ok pods)) as Hl by apply saw_here.
  wp_step. apply (wp_for_range (λ rest _ h', extends h1 h' /\ forall p, p ∈ rest -> p ∈ pods)).
  - split; [ext|done].
  - intros pod rest [] h2 [H2 Hin]. destruct (pod_DeletionTimestamp pod) eqn:Ed.
    { wp_step. split; [ext|]. intros p Hp. apply Hin. by right. }
    unfold UpdatePodLabels. wp_step; [right; eapply step_adopt|].
    + eapply seen_extends; [|exact Hs]. ext.
    + eapply refreshed_extends; [|exact Hr]. ext.
    + eapply remade_extends; [|exact Hm]. ext.
    + exact He.
    + exact Eold.
    + exact Enew.
    + exact Eq.
    + eapply saw_extends; [exact H2|exact Hl].
    + apply Hin. left.
    + done.
    + wp_step. split; [ext|]. intros p Hp. apply Hin. by right.
  - intros [] h2 [H2 _]. repeat wp_step. ext.
Qed.

Lemma wp_enforceSTS sts sts' existing0 existing h :
  seen h np sts existing0 -> refreshed h np existing0 existing -> remade h sts sts' ->
  wp (enforceSTS instance np existing sts') cluster_safe (λ _ _, True) h.
Proof.
  intros Hs Hr Hm. unfold enforceSTS.
  eapply wp_only_bind; [apply only_handlePDB|by auto with go| |done].
  intros h1 [result [e|]] H1; [by wp_step|].
  wp_step. eapply (wp_mono _ cluster_safe _ (λ h' _, extends h1 h')); [done| |].
  2: { destruct (usesPVC np) eqn:Eu; [|wp_step; ext].
       eapply wp_maybeUpdateVolumes; [done|by eapply seen_extends|by eapply refreshed_extends]. }
  intros h2 [[e|]|m] H2; [by repeat wp_step| |done]. cbn [seq_post]. cbv zeta.
  set (o0 := sts_with_Replicas _ _).
  wp_step. eapply (wp_mono _ cluster_safe _ (λ h' r, h' = h2 /\
      match r with Returned o => enforced np sts' existing o | _ => True end)); [done| |].
  2: { unfold enforced. fold o0. destruct (versionChanging instance && negb (HasDataRole np)); [|by wp_step].
       unfold keepEnv. cbv zeta. destruct (ps_Containers (pt_Spec (sts_Template o0))); [done|].
       destruct (ps_Containers (pt_Spec (sts_Template existing))); [done|]. by wp_step. }
  intros h3 [o|m] [-> He]; [|done]. cbn [seq_post].
  wp_step. eapply wp_mono; [done| |eapply wp_updateOrphaned;
    eauto using seen_extends, refreshed_extends, remade_extends].
  intros h3 [u|m] H3; [|done]. cbn [seq_post]. assert (extends h h3) as Hh3 by ext.
  wp_step; [right; eapply step_update; eauto using seen_extends, refreshed_extends, remade_extends|].
  destruct r as [o' [result' [e|]]]; [|by wp_step].
  destruct (isImmutableFieldChangeError e) eqn:Ei; [|by wp_step].
  set (h4 := _ :: h3). assert (extends h3 h4) as H4 by (subst h4; ext).
  assert (saw h4 (ReconcileResource KStatefulSet o StatePresent) (o', (result', Some e))) as Hsaw
    by apply saw_here.
  wp_step. eapply wp_deleteOrphan; [eapply seen_extends; [|done]; ext|
    eapply refreshed_extends; [|done]; ext|by eapply reason_immutable|intros; by repeat wp_step|].
  intros h5 H5 Hd. wp_step. wp_step; [|by wp_step].
  right. eapply step_update_again.
  - eapply seen_extends; [|done]. ext.
  - eapply refreshed_extends; [|done]. ext.
  - eapply remade_extends; [|done]. ext.
  - done.
  - eapply saw_extends; [|exact Hsaw]. ext.
  - done.
  - done.
Qed.

Lemma wp_applySTS sts h :
  np ∈ nodePools instance -> sts_OwnerReferences sts = [] ->
  (forall refs, SetControllerReference (cl_Name instance) (cl_UID instance) [] = Ok refs ->
     desired np (sts_with_OwnerReferences refs sts)) ->
  wp (applySTS instance np sts) cluster_safe (λ _ _, True) h.
Proof.
  intros Hnp Hno Hd. unfold applySTS, setOwner. rewrite Hno.
  destruct (SetControllerReference _ _ _) as [refs'|e] eqn:Eo; [|by wp_step].
  specialize (Hd refs' eq_refl). wp_step; [right; by econstructor|].
  destruct r as [sts1 [[result|] [e|]]]; [by wp_step..|].
  unfold GetStatefulSet. wp_step; [by auto with go|]. destruct r as [existing|e]; [|by wp_step].
  set (h2 := _ :: _). assert (seen h2 np sts1 existing) as Hs.
  { split_and!; [done| |apply saw_here]. eexists. split; [exact Hd|]. right. left. }
  wp_step. eapply wp_mono; [done| |by apply wp_fixSelector].
  intros h3 [[sts2|a]|m] Ho; [|by repeat wp_step|done]. destruct Ho as [H3 Hm]. cbn [seq_post].
  wp_step. eapply wp_mono; [done| |eapply wp_recoverPool; [by eapply seen_extends|done]].
  intros h4 [[existing'|a]|m] Ho; [|by repeat wp_step|done]. destruct Ho as [H4 Hr]. cbn [seq_post].
  eapply wp_enforceSTS; [eapply seen_extends; [|done]; ext|done|by eapply remade_extends].
Qed.

(** Building a set asks for nothing. *)
Lemma wp_NewSTS checksum volumes mounts P (Q : ohist -> outcome StatefulSet -> Prop) h :
  (forall jvm, Q h (Returned (stsWith instance np checksum jvm volumes mounts))) ->
  (forall m, Q h (Panicked m)) ->
  wp (NewSTSForNodePool instance np checksum volumes mounts) P Q h.
Proof.
  intros HQ Hm. unfold NewSTSForNodePool, nodeJvm, CompareVersions.
  destruct (vendorSupported instance); [|wp_step; apply Hm]. cbv zeta. do 2 wp_step.
  destruct (ContainsString _ _); [|repeat wp_step; apply HQ].
  destruct (HNewVersion _); [|repeat wp_step; apply HQ].
  destruct (HNewVersion _); repeat wp_step; [apply HQ|apply Hm].
Qed.

Lemma wp_reconcileNode h :
  np ∈ nodePools instance ->
  wp (reconcileNodeStatefulSet instance rc np) cluster_safe (λ _ _, True) h.
Proof.
  intros Hnp. unfold reconcileNodeStatefulSet.
  destruct (fetchNodePoolHash rc (np_Component np)) as [hash|] eqn:Eh; [|by wp_step].
  destruct (poolVolumes instance rc np) as [volumes mounts] eqn:Ev. wp_step.
  apply wp_NewSTS; [|done]. intros jvm. cbn [seq_post]. eapply wp_applySTS; [done|done|].
  intros refs Eo. exists hash, jvm, refs. by rewrite Ev.
Qed.

End Pool.

(** ** Recreation *)

Lemma pool_stats_extends h h' pools stats :
  extends h h' -> pool_stats h pools stats -> pool_stats h' pools stats.
Proof.
  intros He Hp. induction Hp as [| |pools stats np sts pods replicas ? ? Hs Hr Hl]; [constructor|by constructor|].
  eapply (stats_add h'); eauto using saw_extends.
Qed.

Lemma wp_collect h :
  wp (collectEmptyDirPodStats instance) cluster_safe
    (λ h' o, match o with
             | Returned (Ok stats) => extends h h' /\ pool_stats h' (nodePools instance) stats
             | _ => True
             end) h.
Proof.
  unfold collectEmptyDirPodStats. wp_step.
  apply (wp_for_range (λ rest stats h', extends h h' /\ exists before,
           nodePools instance = before ++ rest /\ pool_stats h' before stats)).
  - split; [ext|]. exists []. split; [done|constructor].
  - intros np rest stats h1 (H1 & before & Hp & Hst). unfold addPoolStats.
    destruct (negb (HasDataRole np) && negb (HasManagerRole np)) eqn:Er.
    { apply andb_true_iff in Er as [E1%negb_true_iff E2%negb_true_iff]. wp_step.
      split; [ext|]. exists (before ++ [np]). split; [by rewrite <- app_assoc|]. by constructor. }
    unfold GetSTSForNodePool, GetStatefulSet. wp_step; [by auto with go|].
    destruct r as [sts|e]; [|by repeat wp_step]. unfold CountExistingPodsForNodePool, listPodsForNodePool, ListPods.
    do 2 wp_step. destruct (NewRequirement ClusterLabel _); [by repeat wp_step|].
    destruct (NewRequirement NodePoolLabel _); [by repeat wp_step|].
    wp_step; [by auto with go|]. wp_step. destruct r as [pods|e]; [|by repeat wp_step].
    unfold deref. destruct (sts_Replicas sts) as [replicas|] eqn:Ere; [|by repeat wp_step].
    repeat wp_step. cbn [loop_post]. split; [ext|]. exists (before ++ [np]).
    split; [by rewrite <- app_assoc|].
    eapply stats_add; [eapply pool_stats_extends; [|exact Hst]; ext| |done|apply saw_here].
    apply saw_there, saw_here.
  - intros stats h1 (H1 & before & Hp & Hst). rewrite app_nil_r in Hp. subst before. by repeat wp_step.
Qed.

Lemma recreation_due_extends h h' : extends h h' -> recreation_due h -> recreation_due h'.
Proof.
  intros He (H1 & H2 & H3 & stats & now & first & H4 & H5 & H6 & H7). split_and!; [done..|].
  exists stats, now, first. split_and!; [by eapply pool_stats_extends|done|by eapply saw_extends|naive_solver..].
Qed.

Lemma wp_recreateCluster h :
  recreation_due h -> wp (recreateCluster instance) cluster_safe (λ _ _, True) h.
Proof.
  intros Hd. unfold recreateCluster, recoveryEvent. wp_step; [by auto with go|].
  wp_step. match goal with |- wp _ _ _ ?h' => set (h1 := h') end.
  assert (extends h h1) as H1 by (subst h1; ext).
  apply (wp_for_range (λ rest _ h', extends h1 h' /\ rest ⊆ nodePools instance)); [by split; [ext|]| |].
  { intros np rest [] h2 [H2 Hs]. wp_step. apply wp_DeleteSTSForNodePool; [by auto with go| | |done].
    - intros h3 sts H3 Hsts. right. apply (step_recreate_sts _ np sts); [|set_solver|done].
      eapply recreation_due_extends; [|exact Hd]. ext.
    - intros h3 [e|] H3; repeat wp_step; [done|cbn [loop_post]; split; [ext|set_solver]]. }
  intros [] h2 [H2 _]. cbn [loop_post]. wp_step. wp_step.
  eapply (wp_mono _ cluster_safe _ (λ h' _, extends h2 h')); [done| |].
  2: { destruct (db_Enable _) eqn:Ed; [|wp_step; ext]. apply wp_DeleteDashboards; [by auto with go| |done|done].
       intros h3 d H3 Hdep. right. apply step_recreate_dashboards; [|done|done].
       eapply recreation_due_extends; [|exact Hd]. ext. }
  intros h3 [[e|]|m] H3; [by repeat wp_step| |done]. cbn [seq_post].
  eapply wp_only_bind; [apply only_updateStatus_bystander|by auto with go| |done].
  intros h4 [e|] H4; [by wp_step|]. wp_step.
  apply wp_DeleteSecurityJob; [by auto with go| | |intros h5 [e|] H5; by repeat wp_step].
  - intros h5 job H5 Hj. right. apply step_recreate_job; [|done]. eapply recreation_due_extends; [|exact Hd]. ext.
  - intros h5 job H5 Hj. right. apply step_recreate_job_gone; [|done].
    eapply recreation_due_extends; [|exact Hd]. ext.
Qed.

Lemma wp_checkRecovery h :
  isEmptyDirCluster instance = true ->
  wp (checkForEmptyDirRecovery instance) cluster_safe (λ _ _, True) h.
Proof.
  intros He. unfold checkForEmptyDirRecovery.
  destruct (st_Initialized _) eqn:Ei; cbn [negb]; [|by wp_step].
  destruct (scalingInProgress instance) eqn:Es; [by wp_step|].
  wp_step. eapply wp_mono; [done| |apply wp_collect].
  intros h1 [[stats|e]|m] Hc; [|by repeat wp_step|done]. destruct Hc as [H1 Hst]. cbn [seq_post].
  destruct (emptyDirDataLossSuspected stats) eqn:El; cbn [negb].
  - wp_step; [by auto with go|].
    destruct (emptyDirRecoveryFirstObserved (componentsStatus instance)) as [first|] eqn:Ef.
    + cbv zeta. case_bool_decide as Eg; [by wp_step|]. apply wp_recreateCluster.
      split_and!; [done..|]. exists stats, r, first.
      split_and!; [eapply pool_stats_extends; [|exact Hst]; ext|done|apply saw_here|done|lia].
    + unfold recordObservation, recoveryEvent.
      eapply wp_only_bind; [apply only_updateStatus_bystander|by auto with go| |done].
      intros h2 [e|] H2; [by wp_step|]. wp_step; [by auto with go|]. by wp_step.
  - unfold clearEmptyDirRecoveryStatus. destruct (FindFirstPartial _ _ _) as [? []]; cbn [negb].
    + wp_step. eapply wp_only; [apply only_updateStatus_bystander|by auto with go|].
      intros h2 [[e|]|m] H2; by repeat wp_step.
    + by repeat wp_step.
Qed.

(** ** The bootstrap pod *)

Lemma wp_bootstrapPod refs h :
  initialized = false ->
  wp (reconcileBootstrapPod (pod_with_owner bootstrapPod refs)) cluster_safe (λ _ _, True) h.
Proof.
  intros Hi. unfold reconcileBootstrapPod, GetPod. cbn [pod_Name pod_Namespace pod_with_owner].
  wp_step; [by auto with go|]. destruct r as [existing|e].
  2: { destruct (IsNotFound e); [|by wp_step]. wp_step; [right; by apply step_bootstrap_ensure|].
       destruct r as [? a]. by wp_step. }
  wp_step; [right; by apply step_bootstrap_ensure|]. destruct r as [p' [result [e|]]]; [|by wp_step].
  destruct (isImmutablePodUpdateErr e) eqn:Ee; [|by wp_step].
  unfold recreateBootstrapPod, DeletePod. wp_step.
  { right. eapply (step_bootstrap_delete _ existing refs); [done| | |exact Ee].
    - apply saw_there, saw_here.
    - apply saw_here. }
  destruct r as [e'|]; [by wp_step|].
  eapply wp_only_bind; [apply only_WaitForPodDeletion|by auto with go| |done].
  intros h1 [e'|] H1; [by wp_step|]. wp_step; [right; by apply step_bootstrap_ensure|].
  destruct r as [? a]. by wp_step.
Qed.

(** ** The reconciler *)

Lemma always_own k refs o s result :
  (forall h refs, cluster_safe h (ReconcileResource k (o refs) s)) ->
  always cluster_safe (ownAndReconcile instance k refs o s result).
Proof.
  intros Hs h. unfold ownAndReconcile. destruct (setOwner instance refs) as [refs' e].
  wp_step; [apply Hs|]. destruct r as [? [? ?]]. by wp_step.
Qed.

Lemma always_bystander {A} (p : io A) : only bystander p -> always cluster_safe p.
Proof. intros Hp. by apply (always_only bystander); [|auto with go]. Qed.
#[local] Hint Resolve always_own always_bystander : always.
#[local] Hint Extern 1 (cluster_safe _ _) => left; exact I : always.
#[local] Hint Extern 2 (only bystander _) => solve [only_auto] : always.

Lemma always_adopt r result : always cluster_safe (adoptSecret instance r result).
Proof. unfold adoptSecret. always_auto. Qed.

Lemma always_bootstrap result : always cluster_safe (reconcileBootstrap instance rc result).
Proof.
  unfold reconcileBootstrap. cbv zeta. apply always_bind.
  { apply always_own. intros h refs. right. constructor. }
  intros result'. destruct initialized eqn:Ei.
  - apply always_own. intros h refs. right. by constructor.
  - destruct (setOwner instance []) as [refs e]. apply always_bind; [intros h; by apply wp_bootstrapPod|].
    intros [? ?]. apply always_ret.
Qed.

Lemma always_pools result : always cluster_safe (reconcileNodePools instance rc result).
Proof.
  unfold reconcileNodePools. apply always_bind; [|intros ?; apply always_ret].
  apply always_for_range. intros np s Hnp. apply always_bind; [apply always_own; by left|].
  intros s'. apply always_bind; [intros h; by apply wp_reconcileNode|]. intros [? ?]. apply always_ret.
Qed.

Lemma always_cluster : always cluster_safe (ClusterReconcile instance rc).
Proof.
  unfold ClusterReconcile. apply always_bind; [apply always_bystander; auto with only|].
  intros [[username password]|e]; [|apply always_ret].
  apply always_bind; [unfold reconcileMonitor; always_auto|]. intros ?.
  do 2 (apply always_bind; [apply always_own; by left|intros ?]).
  apply always_bind; [apply always_bystander; unfold DiscoverRandomAdminSecret; only_auto|]. intros ?.
  apply always_bind; [apply always_adopt|]. intros ?.
  apply always_bind; [apply always_bystander; unfold DiscoverRandomContextSecret; only_auto|]. intros ?.
  apply always_bind; [apply always_adopt|]. intros ?.
  apply always_bind; [apply always_own; by left|]. intros ?.
  apply always_bind; [apply always_bootstrap|]. intros ?.
  apply always_bind; [apply always_pools|]. intros ?.
  apply always_bind.
  { case_bool_decide; [|apply always_ret]. apply always_bind; [|intros ?; apply always_ret].
    apply always_bystander, only_updateStatus_bystander. }
  intros ?. apply always_bind.
  { destruct (isEmptyDirCluster instance) eqn:Ee; [|apply always_ret].
    apply always_bind; [intros h; by apply wp_checkRecovery|]. intros [? ?]. apply always_ret. }
  intros ?. apply always_bind; [|intros ?; apply always_ret].
  apply always_bystander. unfold UpdateClusterStatus.
  apply only_bind; [unfold GetClusterHealth, client_GetClusterHealth, os_checked; only_auto|]. intros [? ?].
  apply only_bind; [unfold GetAvailableOpenSearchNodes, addAvailableNodes, GetSTSForNodePool; only_auto|].
  intros ?. apply only_updateStatus_bystander.
Qed.


End ClusterSts.
