(* ===== verification/ClusterFacts.v ===== *)
(** * ClusterFacts: status, volumes and recovery of a cluster

    Theorems on [ClusterRec] besides the guard of [ClusterSts]: what happens to the status and
    why a recorded observation is never cleared, the resizing of claims, the judgement that a
    pool has failed, and concrete runs that show the defects. *)

From S2P Require Import Prelude Prog Resources Api K8sClient Helpers OsClient OsData ReconcilerUtil.
From S2P Require Import RContext ReconcileHelpers Tls Configuration ResourceReconciler SecurityConfig.
From S2P Require Import Waits Builders ClusterRec ClusterSts Fixtures.

Section Status.
Context `{RP : RetryPolicy} `{PP : PollPolicy} `{PE : ProcEnv} `{CR : Crypto} `{LL : LabelLib}
  `{HV : HcVersion} `{QL : QuantityLib} `{CL : CtrlLib} `{CB : Combiner} `{SL : SecurityLib}.
Context (instance : OpenSearchCluster) (rc : ReconcilerContext).

(** ** Status writes *)

(** Of the cluster just fetched the specification, the phase and every entry that has a status
    stay. *)
Definition keeps_entries (h : ohist) (o : OpenSearchCluster) : Prop :=
  exists c, just_saw h (Get KCluster (cl_Name instance) (cl_Namespace instance)) (Ok c) /\
    cl_Spec o = cl_Spec c /\ st_Phase (cl_Status o) = st_Phase (cl_Status c) /\
    (forall e, e ∈ componentsStatus c -> cs_Status e <> "" -> e ∈ componentsStatus o).

Lemma RemoveIt_recoveryKey e l : e ∈ l -> cs_Status e <> "" -> e ∈ RemoveIt recoveryKey l.
Proof.
  intros Hin Hs. apply elem_of_RemoveIt_ne; [done|]. apply not_true_is_false.
  intros [_ E]%ComponentStatusEqual_spec. by rewrite E in Hs.
Qed.

Lemma always_status (f : ClusterStatus -> ClusterStatus) :
  (forall st e, e ∈ st_ComponentsStatus st -> cs_Status e <> "" -> e ∈ st_ComponentsStatus (f st)) ->
  (forall st, st_Phase (f st) = st_Phase st) ->
  always (status_guarded keeps_entries) (updateStatusOf instance (with_status f)).
Proof.
  intros Hf Hp h. apply wp_updateStatusOf_guarded; [|done]. intros h' c He Hs.
  exists c. split_and!; [done|done|apply Hp|]. intros e. apply Hf.
Qed.

Lemma always_no_status {A} (p : io A) : only no_status p -> always (status_guarded keeps_entries) p.
Proof. intros Hp. by apply (always_only no_status); [|auto with go]. Qed.

#[local] Hint Resolve only_Poll only_isGone : only.

Lemma only_WaitDelete_no_status o : only no_status (WaitForSTSDelete o).
Proof. unfold WaitForSTSDelete, DeleteStatefulSet. only_auto. Qed.
#[local] Hint Resolve only_WaitDelete_no_status : only.

Lemma only_volumes_no_status ex np : only no_status (maybeUpdateVolumes instance ex np).
Proof.
  unfold maybeUpdateVolumes, deleteSTSWithOrphan, DeleteStatefulSet, resizeClaim, GetPVC, UpdatePVC. only_auto.
Qed.
Lemma only_orphaned_no_status a b : only no_status (updateOrphanedPodLabels a b).
Proof. unfold updateOrphanedPodLabels, UpdatePodLabels. only_auto. Qed.
Lemma only_pdb_no_status np : only no_status (handlePDB instance np).
Proof. unfold handlePDB, removePDB. only_auto. Qed.
Lemma only_CountPVCs np : only reads (CountPVCsForNodePool instance np).
Proof. unfold CountPVCsForNodePool. only_auto. Qed.
#[local] Hint Resolve only_volumes_no_status only_orphaned_no_status only_pdb_no_status
  only_CountPVCs only_keepEnv : only.

Lemma only_node_no_status np : only no_status (reconcileNodeStatefulSet instance rc np).
Proof.
  unfold reconcileNodeStatefulSet, applySTS, fixSelector, recoverPool, startRecovery, enforceSTS,
    deleteSTSWithOrphan, DeleteStatefulSet, NewSTSForNodePool, nodeJvm, CompareVersions. only_auto.
Qed.

Lemma only_own_no_status k refs o s result :
  k <> KCluster -> only no_status (ownAndReconcile instance k refs o s result).
Proof.
  intros Hk. unfold ownAndReconcile. destruct (setOwner instance refs). apply only_bind; [|only_auto].
  apply only_call. by destruct k.
Qed.

Lemma only_bootstrap_no_status result : only no_status (reconcileBootstrap instance rc result).
Proof.
  unfold reconcileBootstrap. apply only_bind; [by apply only_own_no_status|]. intros ?.
  destruct (st_Initialized _); [by apply only_own_no_status|]. destruct (setOwner instance []).
  apply only_bind; [|only_auto].
  unfold reconcileBootstrapPod, recreateBootstrapPod. only_auto.
Qed.

Lemma always_recovery : always (status_guarded keeps_entries) (checkForEmptyDirRecovery instance).
Proof.
  unfold checkForEmptyDirRecovery. destruct (negb _); [apply always_ret|].
  destruct (scalingInProgress instance); [apply always_ret|].
  apply always_bind.
  { apply always_no_status. unfold collectEmptyDirPodStats, addPoolStats, GetSTSForNodePool,
      CountExistingPodsForNodePool. only_auto. }
  intros [stats|e]; [|apply always_ret]. destruct (negb _).
  { apply always_bind; [|intros [e|]; apply always_ret]. unfold clearEmptyDirRecoveryStatus.
    destruct (FindFirstPartial _ _ _) as [? []]; cbn [negb]; [|apply always_ret].
    apply always_status; [|done]. intros st e. apply RemoveIt_recoveryKey. }
  apply always_bind; [by apply always_no_status, only_call|]. intros now.
  destruct (emptyDirRecoveryFirstObserved _) as [first|].
  - cbv zeta. destruct (bool_decide _); [apply always_ret|]. unfold recreateCluster, recoveryEvent.
    apply always_bind; [by apply always_no_status, only_call|]. intros _. apply always_bind.
    { apply always_no_status. unfold DeleteSTSForNodePool, GetSTSForNodePool, DeleteStatefulSet. only_auto. }
    intros [[]|e]; [|apply always_ret]. apply always_bind.
    { apply always_no_status. unfold DeleteDashboardsDeployment, GetDashboardsDeployment, DeleteDeployment.
      only_auto. }
    intros [e|]; [apply always_ret|]. apply always_bind.
    { apply always_status; [|done]. intros st e. apply RemoveIt_recoveryKey. }
    intros [e|]; [apply always_ret|]. apply always_bind; [|intros [e|]; apply always_ret].
    apply always_no_status. unfold DeleteSecurityUpdateJob, GetJob, DeleteJob. only_auto.
  - unfold recordObservation, recoveryEvent. apply always_bind.
    { apply always_status; [|done]. intros st e He Hs. cbn. apply elem_of_app. left.
      by apply RemoveIt_recoveryKey. }
    intros [e|]; [apply always_ret|]. apply always_bind; [by apply always_no_status, only_call|].
    intros _. apply always_ret.
Qed.

Lemma always_cluster_status : always (status_guarded keeps_entries) (ClusterReconcile instance rc).
Proof.
  unfold ClusterReconcile. apply always_bind; [apply always_no_status; auto with only|].
  intros [[username password]|e]; [|apply always_ret].
  assert (Hown : forall k refs o s result, k <> KCluster ->
    always (status_guarded keeps_entries) (ownAndReconcile instance k refs o s result)).
  { intros. by apply always_no_status, only_own_no_status. }
  apply always_bind.
  { unfold reconcileMonitor. cbv zeta. destruct (mon_Enable _); [by apply Hown|].
    apply always_no_status. only_auto. }
  intros ?. do 2 (apply always_bind; [by apply Hown|intros ?]).
  apply always_bind; [apply always_no_status; unfold DiscoverRandomAdminSecret; only_auto|]. intros r.
  apply always_bind; [destruct r; [by apply Hown|apply always_ret]|]. intros ?.
  apply always_bind; [apply always_no_status; unfold DiscoverRandomContextSecret; only_auto|]. intros r'.
  apply always_bind; [destruct r'; [by apply Hown|apply always_ret]|]. intros ?.
  apply always_bind; [by apply Hown|]. intros ?.
  apply always_bind; [apply always_no_status, only_bootstrap_no_status|]. intros ?.
  apply always_bind.
  { apply always_no_status. unfold reconcileNodePools. apply only_bind; [|only_auto].
    apply only_for_range. intros np s. apply only_bind; [by apply only_own_no_status|]. intros ?.
    apply only_bind; [apply only_node_no_status|only_auto]. }
  intros ?. apply always_bind.
  { case_bool_decide; [|apply always_ret]. apply always_bind; [|intros ?; apply always_ret].
    by apply always_status. }
  intros ?. apply always_bind.
  { destruct (isEmptyDirCluster instance); [|apply always_ret].
    apply always_bind; [apply always_recovery|]. intros [? ?]. apply always_ret. }
  intros ?. apply always_bind; [|intros ?; apply always_ret]. unfold UpdateClusterStatus.
  apply always_bind.
  { apply always_no_status. unfold GetClusterHealth, client_GetClusterHealth, os_checked. only_auto. }
  intros [? ?]. apply always_bind; [|intros n; by apply always_status].
  apply always_no_status. unfold GetAvailableOpenSearchNodes, addAvailableNodes, GetSTSForNodePool. only_auto.
Qed.

(** C29: every status the cluster reconciler writes keeps each entry with a status that the fetched
    cluster has, so the entries of the scaler and of the upgrade survive; but the recorded
    observation of a data loss, which the code means to clear when the pods are back and when the
    cluster was created anew, survives too: it is searched with an empty status and description. *)
Theorem cluster_keeps_entries (w : oenv) :
  calls_ok (status_guarded keeps_entries) (run w (ClusterReconcile instance rc) []).2.
Proof. apply always_run, always_cluster_status. Qed.

End Status.

(** ** The size of claims *)

Section Volumes.
Context `{QL : QuantityLib}.
Context (instance : OpenSearchCluster).

Definition resized (h : ohist) (ns name : string) (size : Quantity) : Prop :=
  exists pvc requests, saw h (Get KPVC name ns) (Ok pvc) /\ pvc_Requests pvc = Some requests /\
    saw h (Update KPVC (pvc_with_storage size requests pvc)) None.

Lemma resized_extends h h' ns name size :
  extends h h' -> resized h ns name size -> resized h' ns name size.
Proof.
  intros He (pvc & requests & H1 & H2 & H3). exists pvc, requests.
  split_and!; [by eapply saw_extends|done|by eapply saw_extends].
Qed.

Lemma wp_resizeAll existing np size n h :
  wp (for_range (seqZ 0 n) tt (resizeClaim instance existing np size)) (λ _ _, True)
    (λ h' o, match o with
             | Returned (inl _) => forall i, 0 <= i < n ->
                 resized h' (sts_Namespace existing) (dataClaimName instance np i) size
             | _ => True
             end) h.
Proof.
  apply (wp_for_range (λ rest _ h', exists done_, seqZ 0 n = done_ ++ rest /\
    forall i, i ∈ done_ -> resized h' (sts_Namespace existing) (dataClaimName instance np i) size)).
  - exists []. split; [done|]. by intros i ?%elem_of_nil.
  - intros i rest [] h1 (done_ & Hs & Hd). unfold resizeClaim, GetPVC, UpdatePVC.
    wp_step; [done|]. destruct r as [pvc|e]; [|by repeat wp_step].
    destruct (pvc_Requests pvc) as [requests|] eqn:Er; [|by repeat wp_step].
    wp_step; [done|]. destruct r as [e|]; [by repeat wp_step|]. wp_step. cbn [loop_post].
    exists (done_ ++ [i]). split; [by rewrite <- app_assoc|].
    intros j [Hj| ->%list_elem_of_singleton]%elem_of_app.
    + eapply resized_extends; [|by apply Hd]. ext.
    + exists pvc, requests. split_and!; [apply saw_there, saw_here|done|apply saw_here].
  - intros [] h1 (done_ & Hs & Hd). rewrite app_nil_r in Hs. intros i Hi. apply Hd.
    rewrite <- Hs. apply elem_of_seqZ. lia.
Qed.

(** C28: when the disk size of a pool differs from that of its set and the update of the volumes
    succeeds, the set was deleted without its pods and the claim of every replica was written
    with the wanted size, and with nothing else changed. *)
Theorem volumes_resized (existing : StatefulSet) (np : NodePool) claim claims (w : oenv) h :
  sts_VolumeClaimTemplates existing = claim :: claims ->
  QuantityEqual (Storage claim) (nodeDiskSize np) = false ->
  run w (maybeUpdateVolumes instance existing np) [] = (Returned None, h) ->
  saw h (Delete KStatefulSet (sts_Name existing) (sts_Namespace existing) PropOrphan) None /\
  forall i, 0 <= i < default 1 (sts_Replicas existing) ->
    resized h (sts_Namespace existing) (dataClaimName instance np i) (nodeDiskSize np).
Proof.
  intros Hc Hq Hr.
  assert (wp (maybeUpdateVolumes instance existing np) (λ _ _, True) (λ h' o, o = Returned None ->
    saw h' (Delete KStatefulSet (sts_Name existing) (sts_Namespace existing) PropOrphan) None /\
    forall i, 0 <= i < default 1 (sts_Replicas existing) ->
      resized h' (sts_Namespace existing) (dataClaimName instance np i) (nodeDiskSize np)) []) as Hw.
  { unfold maybeUpdateVolumes. cbv zeta. rewrite Hc, Hq. wp_step; [done|].
    unfold deleteSTSWithOrphan, DeleteStatefulSet. wp_step; [done|]. destruct r0 as [e|]; [by wp_step|].
    wp_step. eapply wp_mono_ext; [done| |apply wp_resizeAll].
    intros h' [[u|e]|m] He Hall; repeat wp_step; [|done|done]. intros _. split; [|done].
    eapply saw_extends; [exact He|]. apply saw_here. }
  apply (wp_run w) in Hw as [Hw _]. rewrite Hr in Hw. by apply Hw.
Qed.

End Volumes.

(** ** Data loss *)

(** A loss is suspected exactly when no pod of a data pool exists, or fewer than half of the
    cluster managers do (so that with an even number half of them, no quorum, passes); the sums
    stay below the largest integer. *)
Theorem data_loss_spec (stats : emptyDirPodStats) :
  0 <= totalMasterPods stats < 2 ^ 31 - 1 ->
  emptyDirDataLossSuspected stats = true <->
  (0 < totalDataPods stats /\ existingDataPods stats = 0) \/
  (0 < totalMasterPods stats /\ 2 * existingMasterPods stats < totalMasterPods stats).
Proof.
  intros Ht. unfold emptyDirDataLossSuspected. rewrite wrap32_id by (unfold in_int32; lia).
  rewrite orb_true_iff, !andb_true_iff, !bool_decide_eq_true, Z.quot_div_nonneg by lia.
  pose proof (Z.div_mod (totalMasterPods stats + 1) 2 ltac:(lia)).
  pose proof (Z.mod_pos_bound (totalMasterPods stats + 1) 2 ltac:(lia)). lia.
Qed.

Lemma data_loss_spec_witness :
  emptyDirDataLossSuspected (mkStats 0 0 1 3) = true /\
  emptyDirDataLossSuspected (mkStats 0 0 2 4) = false.
Proof.
  split.
  - apply data_loss_spec; [cbn; lia|]. right. cbn. lia.
  - apply not_true_is_false. intros H. apply data_loss_spec in H; cbn in *; lia.
Defined.

(** ** An observation that is never cleared *)

Section Observation.
Context `{RP : RetryPolicy} `{PP : PollPolicy} `{PE : ProcEnv} `{LL : LabelLib} `{SL : SecurityLib}.
Context (instance : OpenSearchCluster).

#[local] Abbreviation getCluster := (Get KCluster (cl_Name instance) (cl_Namespace instance)).
#[local] Abbreviation getPool np :=
  (Get KStatefulSet (cl_Name instance +:+ "-" +:+ np_Component np) (cl_Namespace instance)).

(** The entries of the recovery are those that the reconciler writes. *)
Definition observations_pending (c : OpenSearchCluster) : Prop :=
  forall e, e ∈ componentsStatus c -> cs_Component e = emptyDirRecoveryComponent ->
    cs_Status e = emptyDirRecoveryStatusPending.

Definition written_back (h : ohist) (o : OpenSearchCluster) : Prop :=
  exists c, just_saw h getCluster (Ok c) /\ (observations_pending c -> o = c).

Lemma clearing_keeps c :
  observations_pending c ->
  with_status (fun st => set_ComponentsStatus (RemoveIt recoveryKey (st_ComponentsStatus st)) st) c = c.
Proof.
  intros Hp. destruct c as [n ns uid d f sp st]. unfold with_status. cbn. f_equal.
  rewrite RemoveIt_noop; [by destruct st|]. intros e He. apply not_true_is_false.
  intros [[= Hc _] Hs]%ComponentStatusEqual_spec. by rewrite (Hp e He Hc) in Hs.
Qed.

Lemma wp_clearing h :
  wp (clearEmptyDirRecoveryStatus instance) (status_guarded written_back) (λ _ _, True) h.
Proof.
  unfold clearEmptyDirRecoveryStatus. destruct (FindFirstPartial _ _ _) as [_ []]; cbn [negb]; [|by wp_step].
  apply wp_updateStatusOf_guarded; [|done]. intros h' c He Hc. exists c. split; [done|apply clearing_keeps].
Qed.

(** What has happened stays in the history. *)
Lemma saw_bind {A B} (w : oenv) (p : io A) (f : A -> io B) h q (r : resp q) :
  saw (run w p h).2 q r -> saw (run w (bind p f) h).2 q r.
Proof.
  intros Hs. rewrite run_bind. destruct (run w p h) as [[a|m] h1]; [|done].
  eapply saw_extends; [apply run_extends|exact Hs].
Qed.
Lemma saw_ask_bind {B} (w : oenv) q (f : resp q -> io B) h : saw (run w (bind (ask q) f) h).2 q (w q h).
Proof. apply saw_bind. unfold call. cbn. apply saw_here. Qed.

Lemma recreation_starts (w : oenv) np pools sts h :
  nodePools instance = np :: pools -> (forall h, w (getPool np) h = Ok sts) ->
  exists r, saw (run w (recreateCluster instance) h).2
              (Delete KStatefulSet (sts_Name sts) (sts_Namespace sts) PropForeground) r.
Proof.
  intros Hp Hw. eexists. unfold recreateCluster, recoveryEvent. rewrite run_bind. unfold call at 1. cbn [run].
  apply saw_bind. rewrite Hp. cbn [for_range]. apply saw_bind, saw_bind.
  unfold DeleteSTSForNodePool, GetSTSForNodePool, GetStatefulSet. rewrite run_bind. unfold call at 1.
  cbn [run]. rewrite Hw. unfold DeleteStatefulSet. apply saw_ask_bind.
Qed.

(** C27: the function that is to clear a recorded observation of missing pods clears nothing: if the
    entries of the recovery in the cluster just fetched have the status with which they are recorded,
    it writes this cluster back as it is.  And the observation counts for ever: in an initialized
    cluster that is not scaling, when pods are found missing at any time the grace period or more
    after the recorded time, whatever happened in between, the set of the first pool is deleted with
    its pods at once. *)
Theorem stale_observation_recreates (w : oenv) :
  calls_ok (status_guarded written_back) (run w (clearEmptyDirRecoveryStatus instance) []).2 /\
  forall np pools stats h now firstObserved sts,
    st_Initialized (cl_Status instance) = true -> scalingInProgress instance = false ->
    nodePools instance = np :: pools -> (forall h, w (getPool np) h = Ok sts) ->
    run w (collectEmptyDirPodStats instance) [] = (Returned (Ok stats), h) ->
    emptyDirDataLossSuspected stats = true -> w (Local_ TimeNow) h = now ->
    emptyDirRecoveryFirstObserved (componentsStatus instance) = Some firstObserved ->
    emptyDirRecoveryGracePeriod <= saturate (now - firstObserved) ->
    exists r, saw (run w (checkForEmptyDirRecovery instance) []).2
                (Delete KStatefulSet (sts_Name sts) (sts_Namespace sts) PropForeground) r.
Proof.
  split; [exact (proj2 (wp_run w _ _ _ (wp_clearing [])))|].
  intros np pools stats h now first sts Hi Hs Hp Hw Hc Hl Ht Hf Hg.
  unfold checkForEmptyDirRecovery. rewrite Hi, Hs. cbn [negb]. rewrite run_bind, Hc, Hl. cbn [negb].
  rewrite run_bind. unfold call at 1. cbn [run]. rewrite Ht, Hf. cbv zeta.
  rewrite bool_decide_false by lia. by eapply recreation_starts.
Qed.

End Observation.

(** ** Concrete runs *)

Module Runs.
Import Samples.

#[export] Instance owner : CtrlLib :=
  {| SetControllerReference := fun name uid refs => Ok (mkOwner name uid true :: refs) |}.
#[export] Instance polls : PollPolicy := {| PollSteps := 16 |}.
(** Quantities that are equal when they are written the same. *)
#[export] Instance quantities : QuantityLib :=
  {| IsZero := fun q => (q == "0") || (q == "");
     QuantityValue := fun q => default 0 (Atoi q);
     QuantityEqual := fun a b => a == b;
     QuantityString := fun q => q |}.
#[export] Instance texts : SecurityLib :=
  {| UnmarshalUsers := fun _ => Err (OtherErr "not YAML");
     MarshalUsers := fun _ => Err (OtherErr "not YAML");
     CompareHashAndPassword := fun _ _ => false;
     Sha1Base64 := fun s => s;
     ParseRFC3339 := fun s => Atoi s;
     FormatRFC3339 := Itoa |}.

Definition no_context : ReconcilerContext := mkContext [] [] [mkHash "nodes" "hash"] ∅ ∅.
Definition claim_of (name : string) (size : Quantity) : PVC :=
  mkPVC name "ns" ∅ ∅ ["ReadWriteOnce"] (Some {["storage" := size]}) None None [].

(** A set with claims of 30Gi. *)
Definition stored_sts (replicas : Z) : StatefulSet :=
  mkSts "os-nodes" "ns" {[NodePoolLabel := "nodes"]} (Some replicas) replicas replicas replicas
    replicas "rev1" "rev1" ∅ "" "" [] (Some {[ClusterLabel := "os"; NodePoolLabel := "nodes"]})
    "OrderedReady" "OnDelete" (mkTemplate ∅ ∅ zeroPodSpec) [claim_of "data" "30Gi"] "".

Definition ready_pod (name : string) : Pod :=
  mkPod name "ns" ∅ None [mkPodCondition "Ready" "True"] [] ∅ zeroPodSpec [].

(** A server with [replicas] of the set, [ready] ready pods and [claims] claims; a set that was
    deleted is gone. *)
Definition server (cluster : OpenSearchCluster) (sts : StatefulSet) (pods : list Pod) (claims now : Z) : oenv :=
  fun q h =>
  match q return resp q with
  | Get KCluster _ _ => Ok cluster
  | Get KStatefulSet _ _ =>
      if existsb (fun e => match ev_req e with
                           | Delete KStatefulSet _ _ _ => true | _ => false end) h &&
         negb (existsb (fun e => match ev_req e with
                           | ReconcileResource KStatefulSet _ StatePresent => true | _ => false end) h)
      then Err (NotFound "gone") else Ok sts
  | Get KSecret _ _ => Ok admin_secret
  | Get KPVC name _ => Ok (claim_of name "30Gi")
  | Get KJob _ _ => Err (NotFound "no job")
  | List_ KPod _ _ => Ok pods
  | List_ KPVC _ _ => Ok (map (fun i => claim_of ("data-os-nodes-" +:+ Itoa i) "30Gi") (seqZ 0 claims))
  | Update _ _ => None
  | StatusUpdate _ _ => None
  | Delete _ _ _ _ => None
  | ReconcileResource _ o _ => (o, (None, None))
  | Local_ TimeNow => now
  | q' => down q'
  end.

(** The stateful sets that were sent, the newest first. *)
Definition sent (h : ohist) : list (option Z * string * DesiredState) :=
  omap (fun e => match ev_req e with
                 | ReconcileResource KStatefulSet o s =>
                     Some (sts_Replicas o, sts_PodManagementPolicy o, s)
                 | _ => None
                 end) h.
Definition deletions (h : ohist) : list (string * Propagation) :=
  omap (fun e => match ev_req e with
                 | Delete KStatefulSet name _ p => Some (name, p)
                 | _ => None
                 end) h.

Definition pool_of (replicas : Z) : NodePool := plainNodePool "nodes" replicas ["cluster_manager"; "data"].
Definition cluster_of (replicas : Z) : OpenSearchCluster :=
  cluster_with true true [pool_of replicas] (running []).
Definition pods_of (n : Z) : list Pod := map (fun i => ready_pod ("os-nodes-" +:+ Itoa i)) (seqZ 0 n).

(** A pool of the wanted size is updated in place, with its own replicas. *)
Example healthy_pool :
  sent (run (server (cluster_of 3) (stored_sts 3) (pods_of 3) 3 0)
          (reconcileNodeStatefulSet (cluster_of 3) no_context (pool_of 3)) []).2 =
    [(Some 3, "OrderedReady", StatePresent); (Some 3, "OrderedReady", StateCreated)].
Proof. vm_compute. reflexivity. Qed.

(** A pool whose three nodes are all ready is taken to have failed when it is to grow to six
    and six claims of an earlier size are still there: its set is deleted and created anew with
    parallel pods and six replicas at once, although all pods that should run are ready. *)
Theorem growth_taken_for_failure :
  let w := server (cluster_of 6) (stored_sts 3) (pods_of 3) 6 0 in
  let h := (run w (reconcileNodeStatefulSet (cluster_of 6) no_context (pool_of 6)) []).2 in
  deletions h = [("os-nodes", PropOrphan)] /\
  sent h = [(Some 6, "Parallel", StatePresent); (Some 6, "OrderedReady", StateCreated)].
Proof. vm_compute. split; reflexivity. Qed.

(** The recovery of a pool forgets that its set still has nodes to be drained: of five nodes,
    three are wanted and the scaler has not yet moved the data off the other two, one pod is
    ready; the set is created anew with three replicas at once. *)
Theorem recovery_drops_undrained :
  let w := server (cluster_of 3) (stored_sts 5) (pods_of 1) 5 0 in
  let h := (run w (reconcileNodeStatefulSet (cluster_of 3) no_context (pool_of 3)) []).2 in
  deletions h = [("os-nodes", PropOrphan)] /\
  sent h = [(Some 3, "Parallel", StatePresent); (Some 3, "OrderedReady", StateCreated)].
Proof. vm_compute. split; reflexivity. Qed.

(** A pool that grows its disks. *)
Definition large_pool : NodePool :=
  mkNodePool "nodes" 2 "50Gi" noResources "" ["data"] JNull ∅ None JNull None ∅ ∅ [] "" None None ∅ [] [].
Lemma volumes_resized_witness :
  let c := cluster_with true true [large_pool] (running []) in
  let h := (run (server c (stored_sts 2) (pods_of 2) 2 0) (maybeUpdateVolumes c (stored_sts 2) large_pool) []).2 in
  saw h (Delete KStatefulSet "os-nodes" "ns" PropOrphan) None /\
  forall i, 0 <= i < 2 -> resized h "ns" (dataClaimName c large_pool i) (nodeDiskSize large_pool).
Proof.
  intros c h. apply (volumes_resized c (stored_sts 2) large_pool (claim_of "data" "30Gi") []
    (server c (stored_sts 2) (pods_of 2) 2 0) h); [reflexivity|reflexivity|]. vm_compute. reflexivity.
Defined.

Definition empty_dir_pool : NodePool :=
  mkNodePool "nodes" 3 "0" noResources "" ["cluster_manager"; "data"] JNull ∅ None JNull
    (Some (mkPersistence None (Some (JObj [])) None)) ∅ ∅ [] "" None None ∅ [] [].
Definition observation : ComponentStatus := mkCS emptyDirRecoveryComponent emptyDirRecoveryStatusPending "0" [].
Definition empty_dir_cluster (cs : list ComponentStatus) : OpenSearchCluster :=
  cluster_with true true [empty_dir_pool] (running cs).
Definition written (h : ohist) : list (list ComponentStatus) :=
  omap (fun e => match ev_req e with
                 | StatusUpdate KCluster o => Some (componentsStatus o)
                 | _ => None
                 end) h.
Definition hour : Z := 3600 * second.

(** A server that keeps the set whatever happens. *)
Lemma stale_observation_recreates_witness :
  let c := empty_dir_cluster [observation] in
  let w : oenv := fun q _ => server c (stored_sts 3) [] 0 (2 * hour) q [] in
  exists r, saw (run w (checkForEmptyDirRecovery c) []).2
              (Delete KStatefulSet "os-nodes" "ns" PropForeground) r.
Proof.
  intros c w. destruct (stale_observation_recreates c w) as [_ H].
  apply (H empty_dir_pool [] (mkStats 0 3 0 3) (run w (collectEmptyDirPodStats c) []).2 (2 * hour) 0
           (stored_sts 3)); try reflexivity; vm_compute; first [reflexivity | discriminate].
Defined.

(** The pods of a cluster on empty directories were missing once, at time zero, and came back: the
    reconciliation that finds all of them an hour later writes the observation back.  The first one
    that misses the pods again deletes the set at once; without the stale entry the same server gets
    the observation recorded and nothing deleted. *)
Example stale_observation_run :
  let c := empty_dir_cluster [observation] in
  let back := (run (server c (stored_sts 3) (pods_of 3) 0 hour) (checkForEmptyDirRecovery c) []).2 in
  let again := (run (server c (stored_sts 3) [] 0 (2 * hour)) (checkForEmptyDirRecovery c) []).2 in
  let c0 := empty_dir_cluster [] in
  let first := (run (server c0 (stored_sts 3) [] 0 (2 * hour)) (checkForEmptyDirRecovery c0) []).2 in
  deletions back = [] /\ written back = [[observation]] /\
  deletions again = [("os-nodes", PropForeground)] /\ written again = [[observation]] /\
  deletions first = [] /\
  written first = [[mkCS emptyDirRecoveryComponent emptyDirRecoveryStatusPending (Itoa (2 * hour)) []]].
Proof. vm_compute. repeat split. Qed.

End Runs.
