(* ===== verification/BuilderFacts.v ===== *)
(** * BuilderFacts: the objects of a cluster fit together

    Theorems on [Builders]: every mount of the operator's containers has a volume, selectors and
    labels agree, the roles can be read back from the environment, and the bounds of ports and of
    the heap. *)

From S2P Require Import Prelude Prog Resources Api K8sClient Helpers RContext ReconcileHelpers.
From S2P Require Import Tls Configuration ResourceReconciler SecurityConfig Builders ClusterFacts Fixtures.

(** ** Mounts and volumes *)

Definition bound (names : list string) (c : Container) : Prop :=
  Forall (λ m, vm_Name m ∈ names) (ctn_VolumeMounts c).

(** What a container of the set's pods can mount: the volumes and the claims. *)
Definition mountable (s : StatefulSet) : list string :=
  (vol_Name <$> ps_Volumes (pt_Spec (sts_Template s))) ++ (pvc_Name <$> sts_VolumeClaimTemplates s).
Definition all_containers (s : StatefulSet) : list Container :=
  ps_Containers (pt_Spec (sts_Template s)) ++ ps_InitContainers (pt_Spec (sts_Template s)).

(** The pool says where its data are. *)
Definition has_data (node : NodePool) : Prop :=
  match np_Persistence node with
  | None => True
  | Some p => is_Some (per_PVC p) \/ is_Some (per_EmptyDir p) \/ is_Some (per_HostPath p)
  end.

Lemma no_char_neq c (s t : string) : no_char c s = true -> no_char c t = false -> s <> t.
Proof. congruence. Qed.

Section Mounts.
Context `{HV : HcVersion} `{PE : ProcEnv} `{QL : QuantityLib}.
Context (cr : OpenSearchCluster) (node : NodePool) (checksum jvm : string)
  (volumes : list Volume) (mounts : list VolumeMount).

#[local] Abbreviation s := (stsWith cr node checksum jvm volumes mounts).
#[local] Abbreviation keystore := (g_Keystore (sp_General (cl_Spec cr))).

Lemma keystore_names v m :
  m ∈ keystoreSecretMounts v -> vm_Name m = "keystore-" +:+ ks_Secret v.
Proof.
  unfold keystoreSecretMounts. case_bool_decide; [by intros ->%list_elem_of_singleton|].
  intros (k & -> & _)%list_elem_of_fmap. done.
Qed.

Lemma mountable_given n : n ∈ vol_Name <$> volumes -> n ∈ mountable s.
Proof. intros H. unfold mountable. cbn. unfold nodeVolumes. rewrite !fmap_app. set_solver. Qed.
Lemma mountable_admin : "admin-credentials" ∈ mountable s.
Proof. unfold mountable. cbn. unfold nodeVolumes. rewrite !fmap_app. set_solver. Qed.
Lemma mountable_keystore n :
  keystore <> [] -> n = "keystore" \/ (exists v, v ∈ keystore /\ n = "keystore-" +:+ ks_Secret v) ->
  n ∈ mountable s.
Proof.
  intros Hk Hn. unfold mountable. cbn. unfold nodeVolumes. rewrite !fmap_app.
  apply elem_of_app. left. do 3 (apply elem_of_app; right). unfold whenKeystore.
  destruct keystore as [|v0 vs]; [done|]. unfold keystoreVolumes. rewrite fmap_cons.
  destruct Hn as [->|(v & Hv & ->)]; [left|right].
  apply list_elem_of_fmap. exists (mkVolume ("keystore-" +:+ ks_Secret v) (VolSecret (ks_Secret v))).
  split; [done|]. apply (list_elem_of_fmap_2 (λ v, mkVolume ("keystore-" +:+ ks_Secret v) (VolSecret (ks_Secret v)))).
  done.
Qed.

Lemma mountable_data :
  "data" ∉ vol_Name <$> volumes -> "data" ∈ mountable s <-> has_data node.
Proof.
  intros Hd. unfold mountable, has_data. cbn.
  unfold nodeVolumes, dataVolumes, volumeClaimTemplates.
  rewrite !fmap_app, !elem_of_app, (list_elem_of_fmap vol_Name (whenKeystore _ _) "data").
  assert (~ (exists y, "data" = vol_Name y /\ y ∈ whenKeystore keystore (keystoreVolumes keystore))) as Hk.
  { intros (y & Hy & Hin). unfold whenKeystore in Hin. destruct keystore; [by apply elem_of_nil in Hin|].
    unfold keystoreVolumes in Hin. apply elem_of_cons in Hin as [->|Hin]; [done|].
    apply list_elem_of_fmap in Hin as (v & -> & _). done. }
  destruct (np_Persistence node) as [p|]; cbn; [|set_solver].
  rewrite fmap_app, elem_of_app.
  destruct (per_PVC p), (per_EmptyDir p), (per_HostPath p); cbn; set_solver.
Qed.

(** C31: when the given mounts and the containers of the user have their volumes and no given
    volume is named data, every mount of every container of a pool's pods has one, a volume of the
    pod or a claim template, exactly if the pool has no persistence section or one with a claim, an
    empty directory or a directory of the host: an empty section leaves the data directory without a
    volume. *)
Theorem sts_mounts_bound :
  Forall (λ m, vm_Name m ∈ vol_Name <$> volumes) mounts ->
  "data" ∉ vol_Name <$> volumes ->
  Forall (bound (mountable s)) (np_SidecarContainers node ++ np_InitContainers node) ->
  Forall (bound (mountable s)) (all_containers s) <-> has_data node.
Proof.
  intros Hm Hd [Hsc Hic]%Forall_app. rewrite <- mountable_data by done. unfold all_containers. cbn.
  split.
  - intros [Hc _]%Forall_cons. unfold bound in Hc. cbn in Hc. unfold nodeMounts in Hc.
    rewrite !Forall_app in Hc. destruct Hc as (_ & Hc & _). by apply Forall_cons in Hc as [Hc _].
  - intros Hdata. rewrite Forall_cons, Forall_app. split_and!; [|done|].
    + unfold bound. cbn. unfold nodeMounts. rewrite !Forall_app. split_and!.
      * eapply Forall_impl; [exact Hm|]. intros m. apply mountable_given.
      * by repeat constructor.
      * constructor; [apply mountable_admin|done].
      * unfold whenKeystore. destruct keystore eqn:Ek; [done|]. constructor; [|done].
        apply mountable_keystore; [by rewrite Ek|by left].
    + unfold nodeInitContainers. rewrite !Forall_app. split_and!; [done| | |].
      * destruct SkipInitContainer; [done|]. constructor; [|done]. unfold bound, chownContainer.
        destruct (ResolveUidGid cr). cbn. by repeat constructor.
      * unfold whenKeystore. destruct keystore as [|v vs] eqn:Ek; [done|]. constructor; [|done].
        unfold bound, keystoreContainer. cbn [ctn_VolumeMounts initContainer]. constructor.
        { apply mountable_keystore; [by rewrite Ek|by left]. }
        apply Forall_forall. intros m Hm'. apply list_elem_of_In, in_flat_map in Hm' as (v' & Hv'%list_elem_of_In & Hm'%list_elem_of_In).
        apply mountable_keystore; [by rewrite Ek|right]. exists v'. rewrite Ek. split; [done|].
        by apply keystore_names.
      * unfold sysctlContainers. destruct (g_SetVMMaxMapCount _) as [[]|]; [|done..].
        constructor; [|done]. unfold bound. cbn. constructor.
Qed.

End Mounts.

(** ** Selectors *)

(** Labels that a user adds and that disagree with none of the given ones. *)
Definition respects (user labels : gmap string string) : Prop :=
  forall k v, user !! k = Some v -> labels !! k = None \/ labels !! k = Some v.

Lemma union_keeps (user labels : gmap string string) :
  labels ⊆ user ∪ labels <-> respects user labels.
Proof.
  rewrite map_subseteq_spec. split.
  - intros H k v Hu. destruct (labels !! k) as [v'|] eqn:El; [right|by left].
    specialize (H k v' El). rewrite (lookup_union_Some_l _ _ _ _ Hu) in H. congruence.
  - intros H k v Hl. apply lookup_union_Some_raw. destruct (user !! k) as [v'|] eqn:Eu; [|by right].
    left. destruct (H k v' Eu) as [E|E]; congruence.
Qed.

Section Selectors.
Context `{HV : HcVersion} `{PE : ProcEnv} `{QL : QuantityLib}.
Context (cr : OpenSearchCluster) (node : NodePool).

(** The label of the role does not belong to the selectors. *)
Lemma nodeLabels_base : exists roles, nodeLabels cr node = np_Labels node ∪ (roles ∪ matchLabels cr node) /\
  dom roles ⊆ {["opensearch.role"]}.
Proof.
  unfold nodeLabels. cbv zeta.
  destruct (ContainsString _ "cluster_manager"), (ContainsString _ "master").
  - exists {["opensearch.role" := "cluster_manager"]}. rewrite insert_insert_eq, insert_union_singleton_l.
    set_solver.
  - exists {["opensearch.role" := "cluster_manager"]}. rewrite insert_union_singleton_l. set_solver.
  - exists {["opensearch.role" := "master"]}. rewrite insert_union_singleton_l. set_solver.
  - exists ∅. rewrite (left_id_L ∅ (∪)). set_solver.
Qed.

Lemma selected_iff (sel : gmap string string) :
  sel ⊆ matchLabels cr node -> sel ⊆ nodeLabels cr node <-> respects (np_Labels node) sel.
Proof.
  intros Hs. destruct nodeLabels_base as (roles & -> & Hd). rewrite <- union_keeps.
  assert (forall k v, sel !! k = Some v -> (roles ∪ matchLabels cr node) !! k = Some v) as Hr.
  { intros k v Hk. apply lookup_union_Some_raw. right.
    pose proof (proj1 (map_subseteq_spec _ _) Hs k v Hk) as Hm. split; [|done].
    apply not_elem_of_dom. intros Hk'. apply Hd, elem_of_singleton in Hk' as ->.
    unfold matchLabels in Hm. by rewrite lookup_insert_ne, lookup_singleton_ne in Hm by done. }
  rewrite !map_subseteq_spec. split; intros H k v Hk; specialize (H k v Hk);
    apply lookup_union_Some_raw; apply lookup_union_Some_raw in H as [H|[H H']]; auto.
Qed.

Lemma clusterLabel_sub : ({[ClusterLabel := cl_Name cr]} : gmap string string) ⊆ matchLabels cr node.
Proof. apply map_singleton_subseteq_l. unfold matchLabels. by rewrite lookup_insert_eq. Qed.

(** C32: the set, the headless service and the disruption budget of a pool have the same selector,
    which is also what its pods and claims are counted by; the pods of the set carry it exactly
    if the labels of the user do not give one of its two keys another value, and the services of
    the cluster and of the discovery select them exactly if the user does not override the
    cluster's label. *)
Theorem selectors_agree checksum jvm volumes mounts pdb :
  let s := stsWith cr node checksum jvm volumes mounts in
  sts_Selector s = Some (svc_Selector (NewHeadlessServiceForNodePool cr node)) /\
  pdb_Selector (ComposePDB cr node pdb) = sts_Selector s /\
  svc_Selector (NewDiscoveryServiceForCR cr) = svc_Selector (NewServiceForCR cr) /\
  (forall sel, sts_Selector s = Some sel ->
     sel ⊆ pt_Labels (sts_Template s) <-> respects (np_Labels node) sel) /\
  (svc_Selector (NewServiceForCR cr) ⊆ pt_Labels (sts_Template s) <->
     respects (np_Labels node) {[ClusterLabel := cl_Name cr]}) /\
  (svc_Selector (NewServiceForCR cr) ⊆ pod_Labels (NewBootstrapPod cr volumes mounts) <->
     respects (bs_Labels (sp_Bootstrap (cl_Spec cr))) {[ClusterLabel := cl_Name cr]}).
Proof.
  intros s. split_and!; [done|done|done| | |].
  - intros sel [= <-]. by apply selected_iff.
  - apply selected_iff, clusterLabel_sub.
  - apply union_keeps.
Qed.

(** ** Roles *)

Lemma role_chars c role ver :
  c ∈ [","; "["]%char -> ContainsString availableRoles role = true ->
  no_char c (MapClusterRole role ver) = true.
Proof.
  intros Hc Hr. assert (forall s, s ∈ availableRoles -> no_char c s = true) as Ha.
  { intros s Hs. apply elem_of_cons in Hc as [->| ->%list_elem_of_singleton];
      repeat (apply elem_of_cons in Hs as [->|Hs]; [reflexivity|]); by apply elem_of_nil in Hs. }
  assert (role ∈ availableRoles) as Hin.
  { revert Hr. generalize availableRoles. induction l as [|x l IH]; cbn; [done|].
    case_decide; [subst; left|right; auto]. }
  unfold MapClusterRole. destruct (HNewVersion ver) as [v|]; [|by apply Ha].
  destruct (HSegments v) as [|m ?]; [by apply Ha|].
  apply Ha. unfold roleMap. repeat case_decide; try exact Hin; apply list_elem_of_In; cbn; tauto.
Qed.

(** What OpenSearch reads from [node.roles]. *)
Definition parseRoles (s : string) : list string := if s == "[]" then [] else Split s ",".

Lemma Join_no_char c l sep :
  l <> [] -> Forall (λ w, no_char c w = true) l -> c <> sep -> no_char c (Join l sep) = true.
Proof.
  intros Hne Hl Hs. induction l as [|w [|v l] IH]; [done|by inversion Hl|].
  inversion Hl as [|? ? Hw Hl']; subst. change (Join (w :: v :: l) sep) with (w +:+ String sep (Join (v :: l) sep)).
  rewrite no_char_app, Hw.
  change (negb (bool_decide (sep = c)) && no_char c (Join (v :: l) sep) = true).
  rewrite IH by done. by rewrite bool_decide_false.
Qed.

(** The roles that a node reads from its environment are the known ones among those of its
    pool, under the names of the cluster's version and in their order; a pool without roles is
    told so explicitly. *)
Theorem node_roles_roundtrip : parseRoles (nodeRoles cr node) = selectedRoles cr node.
Proof.
  assert (forall c, c ∈ [","; "["]%char -> Forall (λ w, no_char c w = true) (selectedRoles cr node)) as Hc.
  { intros c Hin. apply Forall_forall. intros w (role & -> & Hr)%list_elem_of_fmap.
    apply list_elem_of_filter in Hr as [Hr _]. by apply role_chars. }
  unfold parseRoles, nodeRoles. destruct (selectedRoles cr node) as [|r rs] eqn:E; [done|].
  rewrite bool_decide_false.
  - apply Split_Join; [done|]. apply Hc. set_solver.
  - intros Hj. assert (no_char "[" (Join (r :: rs) ",") = true) as Hn; [|by rewrite Hj in Hn].
    apply Join_no_char; [done| |done]. apply Hc. set_solver.
Qed.

End Selectors.

(** ** Ports and heap *)

Lemma ParseInt32_Itoa p : 0 < p < 2 ^ 31 -> ParseInt32 (Itoa p) = Some p.
Proof. intros Hp. unfold ParseInt32. rewrite Atoi_Itoa by lia. by rewrite bool_decide_true by lia. Qed.

(** The text of a port, or of a range that starts with it. *)
Definition port_text (p : Z) (text : string) : Prop :=
  text = Itoa p \/ exists rest, text = Itoa p +:+ "-" +:+ rest.

Lemma Split_port p text : 0 < p -> port_text p text -> exists rest, Split text "-" = Itoa p :: rest.
Proof.
  intros Hp [->|(rest & ->)].
  - exists []. apply Split_no_char, Itoa_no_dash. lia.
  - exists (Split rest "-"). apply Split_app, Itoa_no_dash. lia.
Qed.

(** The gRPC port is a positive number of 32 bits exactly if gRPC is on; a number, or a range
    that starts with it, is read back, and no text gives 9400. *)
Theorem grpc_port_spec (cr : OpenSearchCluster) :
  0 <= getGrpcPort cr < 2 ^ 31 /\
  (0 < getGrpcPort cr <-> exists g, g_Grpc (sp_General (cl_Spec cr)) = Some g /\ grpc_Enable g = true) /\
  (forall g, g_Grpc (sp_General (cl_Spec cr)) = Some g -> grpc_Enable g = true ->
     (grpc_Port g = "" -> getGrpcPort cr = 9400) /\
     (forall p, 0 < p < 2 ^ 31 -> port_text p (grpc_Port g) -> getGrpcPort cr = p)).
Proof.
  unfold getGrpcPort. destruct (g_Grpc (sp_General (cl_Spec cr))) as [g|].
  2: { split; [lia|]. split; [split; [lia|naive_solver]|naive_solver]. }
  destruct (grpc_Enable g) eqn:Ee; cbn [negb].
  2: { split; [lia|]. split; [split; [lia|naive_solver congruence]|naive_solver congruence]. }
  cbv zeta.
  assert (Hpos : forall text, 0 < match Split text "-" with
      | part :: _ => match ParseInt32 part with
          | Some firstPort => if bool_decide (firstPort > 0) then firstPort else 9400
          | None => 9400 end
      | [] => 9400 end < 2 ^ 31).
  { intros text. destruct (Split text "-") as [|part ?]; [lia|]. unfold ParseInt32.
    destruct (Atoi part); [|lia]. case_bool_decide; [|lia]. case_bool_decide; lia. }
  specialize (Hpos (if grpc_Port g == "" then "9400-9500" else grpc_Port g)).
  split; [lia|]. split; [split; [by exists g|lia]|]. intros g' [= <-] _. split.
  - intros ->. reflexivity.
  - intros p Hp Ht. destruct (Split_port p _ ltac:(lia) Ht) as [rest Es].
    case_bool_decide as E.
    { rewrite E in Es. injection Es as Es _. pose proof (ParseInt32_Itoa p Hp) as Hi. by rewrite <- Es in Hi. }
    rewrite Es, ParseInt32_Itoa by done. by rewrite bool_decide_true by lia.
Qed.

Lemma heapMb_bounds `{QL : QuantityLib} (q : Quantity) :
  IsZero q = false -> 0 <= QuantityValue q ->
  heapMb q * 2 ^ 21 <= QuantityValue q < (heapMb q + 1) * 2 ^ 21.
Proof.
  intros Hz Hv. unfold heapMb. rewrite Hz.
  rewrite (Z.quot_div_nonneg (QuantityValue q) 2) by lia.
  pose proof (Z.div_pos _ 2 Hv ltac:(lia)) as H1. rewrite (Z.quot_div_nonneg (QuantityValue q / 2) 1024) by lia.
  pose proof (Z.div_pos _ 1024 H1 ltac:(lia)) as H2. rewrite (Z.quot_div_nonneg _ 1024) by lia.
  rewrite !Zdiv.Zdiv_Zdiv by lia.
  match goal with |- context [QuantityValue q / ?d] => change d with (2 ^ 21) end.
  pose proof (Z.div_mod (QuantityValue q) (2 ^ 21) ltac:(lia)).
  pose proof (Z.mod_pos_bound (QuantityValue q) (2 ^ 21) ltac:(lia)). lia.
Qed.

(** A node whose options say nothing of the heap gets half of its requested memory, in MiB
    rounded down, as its smallest and largest heap. *)
Theorem heap_half_of_request `{QL : QuantityLib} (node : NodePool) :
  let memory := Memory (res_Requests (np_Resources node)) in
  IsZero memory = false -> 0 <= QuantityValue memory ->
  Contains (np_Jvm node) "Xms" = false -> Contains (np_Jvm node) "Xmx" = false ->
  exists user n,
    AppendJvmHeapSizeSettings (np_Jvm node) (CalculateJvmHeapSizeSettings memory) =
      user +:+ "-Xms" +:+ Itoa n +:+ "M -Xmx" +:+ Itoa n +:+ "M" /\
    (user = "" \/ user = np_Jvm node +:+ " ") /\
    n * 2 ^ 21 <= QuantityValue memory < (n + 1) * 2 ^ 21.
Proof.
  intros memory Hz Hv H1 H2. unfold AppendJvmHeapSizeSettings. rewrite H1, H2. cbn [orb].
  pose proof (heapMb_bounds memory Hz Hv). case_bool_decide.
  - exists "", (heapMb memory). auto.
  - exists (np_Jvm node +:+ " "), (heapMb memory). split; [|auto]. by rewrite str_app_assoc.
Qed.

(** ** Names of services *)

Definition service_names (cr : OpenSearchCluster) : list string :=
  svc_Name (NewServiceForCR cr) :: svc_Name (NewDiscoveryServiceForCR cr) ::
  map (fun np => svc_Name (NewHeadlessServiceForNodePool cr np)) (nodePools cr).

Lemma longer_ne (s t : string) : t <> "" -> s +:+ t <> s.
Proof.
  intros Ht H. apply (f_equal String.length) in H. rewrite str_app_length in H.
  destruct t; [done|]. cbn in H. lia.
Qed.

(** In a cluster whose service has the cluster's name, the services of the cluster, of the
    discovery and of the pools have different names exactly if the pools have, and none of them
    is called "discovery": that pool's headless service takes the place of the discovery's. *)
Theorem service_names_distinct (cr : OpenSearchCluster) :
  g_ServiceName (sp_General (cl_Spec cr)) = cl_Name cr ->
  NoDup (service_names cr) <->
  NoDup (np_Component <$> nodePools cr) /\ "discovery" ∉ np_Component <$> nodePools cr.
Proof.
  intros Hs. unfold service_names. cbn [svc_Name NewServiceForCR NewDiscoveryServiceForCR NewHeadlessServiceForNodePool].
  rewrite Hs, !NoDup_cons.
  assert (forall c, cl_Name cr +:+ "-" +:+ c ∈ map (fun np => cl_Name cr +:+ "-" +:+ np_Component np) (nodePools cr)
    <-> c ∈ np_Component <$> nodePools cr) as Hin.
  { intros c. change (map ?f ?l) with (f <$> l). rewrite !list_elem_of_fmap. split; intros (np & E & Hn); exists np.
    - split; [by apply app_inj_l, app_inj_l in E|done].
    - by rewrite E. }
  change (DiscoveryServiceName cr) with (cl_Name cr +:+ "-" +:+ "discovery"). rewrite (Hin "discovery").
  assert (cl_Name cr ∉ (cl_Name cr +:+ "-" +:+ "discovery") ::
    map (fun np => cl_Name cr +:+ "-" +:+ np_Component np) (nodePools cr)) as Hself.
  { intros [E|Hn]%elem_of_cons; [by eapply longer_ne, eq_sym, E|].
    change (map ?f ?l) with (f <$> l) in Hn. apply list_elem_of_fmap in Hn as (np & E & _).
    by eapply longer_ne, eq_sym, E. }
  assert (NoDup (map (fun np => cl_Name cr +:+ "-" +:+ np_Component np) (nodePools cr)) <->
    NoDup (np_Component <$> nodePools cr)) as Hnd; [|tauto].
  assert (Inj (=) (=) (λ c, cl_Name cr +:+ "-" +:+ c)).
  { intros a b E. by apply app_inj_l, app_inj_l in E. }
  rewrite <- (NoDup_fmap (λ c, cl_Name cr +:+ "-" +:+ c) (np_Component <$> nodePools cr)).
  rewrite <- list_fmap_compose. reflexivity.
Qed.

(** ** Witnesses *)

Module Witnesses.
Import Samples ClusterFacts.Runs.

(** A pool with an empty directory. *)
Lemma sts_mounts_bound_witness :
  Forall (bound (mountable (stsWith (cluster_of 3) empty_dir_pool "hash" "" [] [])))
    (all_containers (stsWith (cluster_of 3) empty_dir_pool "hash" "" [] [])).
Proof.
  apply sts_mounts_bound; [constructor|by intros ?%elem_of_nil|constructor|]. right. left. by eexists.
Defined.

Definition requesting : NodePool :=
  mkNodePool "nodes" 3 "0" (mkResources {["memory" := "4294967296"]} ∅ JNull) "" ["data"] JNull ∅ None
    JNull None ∅ ∅ [] "" None None ∅ [] [].
Lemma heap_half_of_request_witness :
  exists user n,
    AppendJvmHeapSizeSettings (np_Jvm requesting)
      (CalculateJvmHeapSizeSettings (Memory (res_Requests (np_Resources requesting)))) =
      user +:+ "-Xms" +:+ Itoa n +:+ "M -Xmx" +:+ Itoa n +:+ "M" /\
    (user = "" \/ user = np_Jvm requesting +:+ " ") /\
    n * 2 ^ 21 <= QuantityValue (Memory (res_Requests (np_Resources requesting))) < (n + 1) * 2 ^ 21.
Proof.
  apply (heap_half_of_request requesting); vm_compute; congruence.
Defined.

Lemma service_names_distinct_witness : NoDup (service_names (cluster_of 3)).
Proof.
  apply service_names_distinct; [reflexivity|]. split; [apply NoDup_singleton|]. by intros [?|[]%elem_of_nil]%elem_of_cons.
Defined.

End Witnesses.
