(* ===== verification/Dashboards.v ===== *)
(** * Dashboards: the reconciler of OpenSearch Dashboards

    Models [pkg/reconcilers/dashboards.go] and [pkg/builders/dashboards.go]: the certificate, the
    configuration file and its checksum, the deployment and the service. *)

From S2P Require Import Prelude Prog Resources Api K8sClient Helpers OsClient OsData ReconcilerUtil.
From S2P Require Import RContext ReconcileHelpers Tls Configuration SecurityConfig.
From S2P Require Import Waits Builders ClusterRec.

Definition DashboardConfigName : string := "opensearch_dashboards.yml".
Definition DashboardChecksumName : string := "checksum/dashboards.yml".
Definition DefaultOpenSearchDashboardsHome : string := "/usr/share/opensearch-dashboards".

Definition GetOpenSearchDashboardsHome (d : DashboardsConfig) : string :=
  if db_OpenSearchDashboardsHome d != "" then TrimRight (db_OpenSearchDashboardsHome d) "/"
  else DefaultOpenSearchDashboardsHome.

(** ** The builders *)

Definition dashboardsPort : Z := 5601.

(** What is added to the settings: the map that is given is changed, and shared. *)
Definition dashboardsSettings (cr : OpenSearchCluster) (config : gmap string string)
    : gmap string string :=
  let basePath := db_BasePath (sp_Dashboards (cl_Spec cr)) in
  let config := <["server.name" := cl_Name cr +:+ "-dashboards"]> config in
  let config := match config !! "opensearch.ssl.verificationMode" with
                | Some _ => config
                | None => <["opensearch.ssl.verificationMode" := "none"]> config
                end in
  if basePath != "" then
    <["server.rewriteBasePath" := "true"]> (<["server.basePath" := basePath]> config)
  else config.

(** One line for each setting, in the order of the keys. *)
Definition settingsFile (config : gmap string string) : string :=
  foldr (fun key s => key +:+ ": " +:+ default "" (config !! key) +:+ nl +:+ s) "" (sortedKeys config).

Definition NewDashboardsConfigMapForCR (cr : OpenSearchCluster) (name : string)
    (config : gmap string string) : ConfigMap :=
  mkConfigMap name (cl_Namespace cr)
    {[DashboardConfigName := settingsFile (dashboardsSettings cr config)]} [].

Definition dashboardsLabel : string := "opensearch.cluster.dashboards".

Section Builders.
Context `{PE : ProcEnv}.
Context (cr : OpenSearchCluster).

#[local] Abbreviation d := (sp_Dashboards (cl_Spec cr)).
#[local] Abbreviation g := (sp_General (cl_Spec cr)).

Definition dashboardsConfigMapName : string := cl_Name cr +:+ "-dashboards-config".

Definition dashboardsCredentials : string :=
  if db_OpensearchCredentialsSecret d != "" then db_OpensearchCredentialsSecret d
  else GeneratedDashboardsCredentialsSecretName cr.
Definition dashboardsEnv : list EnvVar :=
  [envValue "OPENSEARCH_HOSTS" (ClusterURL cr); envValue "SERVER_HOST" "0.0.0.0"] ++ db_Env d ++
  [mkEnv "OPENSEARCH_USERNAME" (EnvSecretKeyRef dashboardsCredentials "username");
   mkEnv "OPENSEARCH_PASSWORD" (EnvSecretKeyRef dashboardsCredentials "password")].

Definition dashboardsTls : bool :=
  match db_Tls d with Some t => dtl_Enable t | None => false end.
Definition dashboardsProbe : Probe :=
  let path := "/api/reporting/stats" in
  let path := if db_BasePath d != "" then db_BasePath d +:+ path else path in
  mkProbe 20 5 10 1 10 (HTTPGet path dashboardsPort (if dashboardsTls then "HTTPS" else "HTTP")).

(** The labels are also the selector. *)
Definition dashboardsLabels : gmap string string := db_Labels d ∪ {[dashboardsLabel := cl_Name cr]}.

Definition dashboardsContainer (volumeMounts : list VolumeMount) : Container :=
  let image := ResolveDashboardsImage cr in
  mkContainer "dashboards" (GetImage image) (GetImagePullPolicy image)
    (BuildMainCommandOSD "./bin/opensearch-dashboards-plugin" (db_PluginsList d)
       "./opensearch-dashboards-docker-entrypoint.sh") [] dashboardsEnv
    [mkPort "http" dashboardsPort] (db_Resources d) (Some dashboardsProbe) (Some dashboardsProbe)
    (Some dashboardsProbe)
    (volumeMounts ++ [mkMount "dashboards-config" false
       (GetOpenSearchDashboardsHome d +:+ "/config/opensearch_dashboards.yml")
       "opensearch_dashboards.yml"]) (db_SecurityContext d) JNull.

Definition NewDashboardsDeploymentForCR (volumes : list Volume) (volumeMounts : list VolumeMount)
    (annotations : gmap string string) : Deployment :=
  let annotations := db_Annotations d ∪ annotations in
  mkDeployment (cl_Name cr +:+ "-dashboards") (cl_Namespace cr) dashboardsLabels annotations
    (Some (db_Replicas d)) (Some dashboardsLabels) "RollingUpdate"
    (mkTemplate dashboardsLabels annotations
       (mkPodSpec [dashboardsContainer volumeMounts] []
          (volumes ++ [mkVolume "dashboards-config" (VolConfigMapMode dashboardsConfigMapName 420)])
          (g_ServiceAccount g) (db_NodeSelector d) (db_Tolerations d)
          (Some (getAffinity (db_Affinity d) (cl_Name cr))) (db_TopologySpreadConstraints d)
          (img_PullSecrets (ResolveDashboardsImage cr)) (db_PriorityClassName d)
          (db_PodSecurityContext d) (db_HostAliases d) (g_HostNetwork g))) [].

Definition NewDashboardsSvcForCr (customLabels : gmap string string) : Service :=
  mkService (g_ServiceName g +:+ "-dashboards") (cl_Namespace cr)
    (customLabels ∪ {[dashboardsLabel := cl_Name cr]}) (db_Annotations d) ""
    [mkServicePort "http" "TCP" dashboardsPort (intPort dashboardsPort) None]
    {[dashboardsLabel := cl_Name cr]} (db_ServiceType d) false
    (db_ServiceLoadBalancerSourceRanges d) [].

End Builders.

(** ** The reconciler *)

Section Dashboards.
Context `{PE : ProcEnv} `{SV : Semver} `{CL : CtrlLib} `{CB : Combiner} `{CF : ConfigLib}.
Context (instance : OpenSearchCluster).

#[local] Abbreviation d := (sp_Dashboards (cl_Spec instance)).
#[local] Abbreviation clusterName := (cl_Name instance).
#[local] Abbreviation namespace := (cl_Namespace instance).

Definition providedCaCert (secretName : string) : io (result PEMCert) :=
  let! r := GetSecret secretName namespace in
  Ret (match r with Ok s => Ok (CAFromSecret (secret_Data s)) | Err e => Err e end).

Definition tlsEvent (etype message : string) : io unit :=
  ask (RecordEvent etype "Security" message).

Definition tlsSecretName : string := clusterName +:+ "-dashboards-cert".
Definition dashboardsDnsNames : list string :=
  let name := clusterName +:+ "-dashboards" in
  [name; name +:+ "." +:+ namespace; name +:+ "." +:+ namespace +:+ ".svc";
   name +:+ "." +:+ namespace +:+ ".svc." +:+ ClusterDnsBase].

Definition failedToStore : string := "Failed to store tls certificate for Dashboard Cluster".

(** A certificate that cannot be read, for whatever reason, is generated. *)
Definition ensureCertificate (tlsConfig : DashboardsTlsConfig) (ca : PEMCert) : io (option err) :=
  let! r := GetSecret tlsSecretName namespace in
  match r with
  | Ok _ => Ret None
  | Err _ =>
      let! r := signCertificate ca (clusterName +:+ "-dashboards") clusterName
                  dashboardsDnsNames (default aYear (dtl_Duration tlsConfig)) in
      match r with
      | Err e => do! tlsEvent "Warning" failedToStore in Ret (Some e)
      | Ok nodeCert =>
          match ownedSecret instance tlsSecretName "" (SecretData nodeCert ca) with
          | Err e => Ret (Some e)
          | Ok tlsSecret =>
              let! (_, (_, e)) := CreateSecret tlsSecret in
              match e with
              | Some e => do! tlsEvent "Warning" failedToStore in Ret (Some e)
              | None => Ret None
              end
          end
      end
  end.

Definition certMount (secretName : string) : list Volume * list VolumeMount :=
  ([mkVolume "tls-cert" (VolSecret secretName)],
   [mkMount "tls-cert" false (GetOpenSearchDashboardsHome d +:+ "/certs") ""]).

Definition certSettings : list (string * string) :=
  let home := GetOpenSearchDashboardsHome d in
  [("server.ssl.enabled", "true"); ("server.ssl.key", home +:+ "/certs/tls.key");
   ("server.ssl.certificate", home +:+ "/certs/tls.crt")].

Definition AddDashboardsConfigs (l : list (string * string)) (c : ReconcilerContext)
    : io ReconcilerContext :=
  let! o := for_range l c (fun kv c => let! c := AddDashboardsConfig kv.1 kv.2 c in
                                       Ret (inl c : ReconcilerContext + Empty_set)) in
  Ret (match o with inl c => c | inr e => match e with end end).

Definition handleTls (c : ReconcilerContext)
    : io (ReconcilerContext * result (list Volume * list VolumeMount)) :=
  match db_Tls d with
  | None => Ret (c, Ok ([], []))
  | Some tlsConfig =>
      if negb (dtl_Enable tlsConfig) then Ret (c, Ok ([], []))
      else
        let! r :=
          if dtl_Generate tlsConfig then
            do! tlsEvent "Normal" "Starting to generating certificates for Dashboard Cluster" in
            let! r := if dtl_CaSecret tlsConfig != "" then providedCaCert (dtl_CaSecret tlsConfig)
                      else ReadOrGenerateCaCert instance in
            match r with
            | Err e => Ret (Err e)
            | Ok ca =>
                let! e := ensureCertificate tlsConfig ca in
                Ret (match e with Some e => Err e | None => Ok (certMount tlsSecretName) end)
            end
          else
            do! tlsEvent "Normal"
                  "Notice - using externally provided certificates for Dashboard Cluster" in
            Ret (Ok (certMount (dtl_Secret tlsConfig))) in
        match r with
        | Err e => Ret (c, Err e)
        | Ok mounts =>
            let! c := AddDashboardsConfigs certSettings c in Ret (c, Ok mounts)
        end
  end.

Definition configMap_with (m : ConfigMap) (refs : list OwnerReference) : ConfigMap :=
  mkConfigMap (cm_Name m) (cm_Namespace m) (cm_Data m) refs.
Definition deployment_with (o : Deployment) (refs : list OwnerReference) : Deployment :=
  mkDeployment (dep_Name o) (dep_Namespace o) (dep_Labels o) (dep_Annotations o) (dep_Replicas o)
    (dep_Selector o) (dep_Strategy o) (dep_Template o) refs.

(** The credentials are generated only when the user names none. *)
Definition dashboardsCredentialsStep (result : CombinedResult)
    : io (CombinedResult + (Result * option err)) :=
  if db_OpensearchCredentialsSecret d != "" then Ret (inl result)
  else
    let! (r, managedByOperator) := EnsureDashboardsCredentialsSecret instance in
    match r with
    | Err e => Ret (inr (requeueIn 30, Some e))
    | Ok secret =>
        if (managedByOperator : bool) then
          let! result := ownAndReconcile instance KSecret (secret_OwnerReferences secret)
                           (secret_with secret) StatePresent result in
          Ret (inl result)
        else Ret (inl result)
    end.

(** The checksum is that of the config map as creating it has left it. *)
Definition dashboardsObjects (c : ReconcilerContext) (volumes : list Volume)
    (volumeMounts : list VolumeMount) (result : CombinedResult) : io CombinedResult :=
  let cm := NewDashboardsConfigMapForCR instance (dashboardsConfigMapName instance)
              (rc_DashboardsConfig c) in
  let '(refs, e) := setOwner instance [] in
  let! (cm, (res, e')) := CreateConfigMap (configMap_with cm refs) in
  let result := CombineResult (CombineErr result e) res e' in
  let annotations := match cm_Data cm !! DashboardConfigName with
                     | Some cmData => {[DashboardChecksumName := Sha1Hex cmData]}
                     | None => ∅
                     end in
  let! result := ownAndReconcile instance KDeployment []
    (deployment_with (NewDashboardsDeploymentForCR instance volumes volumeMounts annotations))
    StatePresent result in
  ownAndReconcile instance KService []
    (service_with (NewDashboardsSvcForCr instance (db_ServiceLabels d))) StatePresent result.

Definition DashboardsReconcile (c : ReconcilerContext)
    : io (ReconcilerContext * (Result * option err)) :=
  if negb (db_Enable d) then Ret (c, (noResult, None))
  else
    let! (c, r) := handleTls c in
    match r with
    | Err e => Ret (c, (noResult, Some e))
    | Ok (volumes, volumeMounts) =>
        let! c := AddDashboardsConfigs (map_to_list (db_AdditionalConfig d)) c in
        let! r := CreateAdditionalVolumes namespace (db_AdditionalVolumes d) in
        match r with
        | Err e => Ret (c, (noResult, Some e))
        | Ok (addVolumes, addVolumeMounts, _) =>
            let! r := dashboardsCredentialsStep emptyCombined in
            match r with
            | inr a => Ret (c, a)
            | inl result =>
                let! result := dashboardsObjects c (volumes ++ addVolumes)
                                 (volumeMounts ++ addVolumeMounts) result in
                Ret (rc_set_dashboards (dashboardsSettings instance (rc_DashboardsConfig c)) c,
                     (c_Result result, c_Err result))
            end
        end
    end.

Definition DashboardsDeleteResources : Result * option err := (noResult, None).

End Dashboards.
