(* ===== verification/DashboardsFacts.v ===== *)
(** * DashboardsFacts: what the reconciler of OpenSearch Dashboards writes

    The theorems on [Dashboards]: the objects that are written and when, the settings the
    configuration file has, the names the certificate is for and the names that can clash. *)

From S2P Require Import Prelude Prog Resources Api K8sClient Helpers OsClient OsData ReconcilerUtil.
From S2P Require Import RContext ReconcileHelpers Tls Configuration SecurityConfig.
From S2P Require Import Waits Builders ClusterRec BuilderFacts ClusterFacts Fixtures Dashboards.

Lemma added_union (m c : gmap string string) : added (map_to_list m) c = m ∪ c.
Proof.
  unfold added. revert c. induction m as [|k v m Hk Hf IH] using map_first_key_ind; intros c.
  - rewrite map_to_list_empty. cbn. by rewrite (left_id_L ∅ (∪)).
  - rewrite map_to_list_insert_first_key by done. cbn. rewrite IH.
    rewrite <- insert_union_l. by rewrite insert_union_r.
Qed.

Section Facts.
Context `{PE : ProcEnv} `{SV : Semver} `{CL : CtrlLib} `{CB : Combiner} `{CF : ConfigLib}.
Context (instance : OpenSearchCluster).

#[local] Abbreviation d := (sp_Dashboards (cl_Spec instance)).
#[local] Abbreviation clusterName := (cl_Name instance).
#[local] Abbreviation namespace := (cl_Namespace instance).

(** ** The settings *)

Definition tlsSettings : gmap string string :=
  let home := GetOpenSearchDashboardsHome d in
  if dashboardsTls instance then
    {["server.ssl.enabled" := "true"; "server.ssl.key" := home +:+ "/certs/tls.key";
      "server.ssl.certificate" := home +:+ "/certs/tls.crt"]}
  else ∅.

(** The settings before those of the builder: the user's over those of TLS over those of the
    reconcilers before this one. *)
Definition collected (c : ReconcilerContext) : gmap string string :=
  db_AdditionalConfig d ∪ (tlsSettings ∪ rc_DashboardsConfig c).

Lemma certSettings_added m :
  added (certSettings instance) m =
  {["server.ssl.enabled" := "true"; "server.ssl.key" := GetOpenSearchDashboardsHome d +:+ "/certs/tls.key";
    "server.ssl.certificate" := GetOpenSearchDashboardsHome d +:+ "/certs/tls.crt"]} ∪ m.
Proof.
  unfold added. cbn [foldl fst snd certSettings]. apply map_eq. intros k.
  rewrite lookup_union, !lookup_insert, lookup_singleton.
  repeat case_decide; subst; simplify_eq; destruct (m !! _); done.
Qed.

Definition tlsMounts : list Volume * list VolumeMount :=
  match db_Tls d with
  | Some t => if dtl_Enable t then certMount instance (if dtl_Generate t then tlsSecretName instance
                                                       else dtl_Secret t)
              else ([], [])
  | None => ([], [])
  end.

Lemma wp_AddDashboardsConfigs l c P (Q : ohist -> outcome ReconcilerContext -> Prop) h :
  (forall h' q, is_event q -> P h' q) ->
  (forall h', extends h h' -> Q h' (Returned (rc_set_dashboards (added l (rc_DashboardsConfig c)) c))) ->
  wp (AddDashboardsConfigs l c) P Q h.
Proof.
  intros HP HQ. unfold AddDashboardsConfigs. wp_step.
  apply wp_for_range with (Inv := λ xs c' h', extends h h' /\
    exists front, l = front ++ xs /\ c' = rc_set_dashboards (added front (rc_DashboardsConfig c)) c).
  - split; [ext|]. exists []. split; [done|]. by destruct c.
  - intros kv xs c' h' (He & front & -> & ->). unfold AddDashboardsConfig, duplicateKey. do 2 wp_step.
    assert (forall h0, extends h h0 -> extends h h0 /\ exists front0, front ++ kv :: xs = front0 ++ xs /\
      rc_set_dashboards (<[kv.1 := kv.2]> (added front (rc_DashboardsConfig c)))
        (rc_set_dashboards (added front (rc_DashboardsConfig c)) c)
      = rc_set_dashboards (added front0 (rc_DashboardsConfig c)) c) as Hnext.
    { intros h0 H0. split; [done|]. exists (front ++ [kv]). rewrite <- (assoc_L (++)). split; [done|].
      unfold added. rewrite foldl_app. by destruct c. }
    cbn [rc_DashboardsConfig rc_set_dashboards]. destruct (_ !! kv.1); wp_step; [by apply HP| |];
      repeat wp_step; cbn [loop_post]; apply Hnext; ext.
  - intros c' h' (He & front & Hl & ->). rewrite app_nil_r in Hl. subst front. wp_step. wp_step. by apply HQ.
Qed.

(** ** The requests *)

#[local] Abbreviation store k o := (ReconcileResource k o StatePresent).
Definition caSecretName : string := clusterName +:+ "-ca".

(** What the reconciler may ask for: the secrets of TLS are stored when reading them failed, the
    generated credentials when they are not there or to own them, and the three objects of
    Dashboards always with what their builders make of the settings. *)
Inductive dash_step (c : ReconcilerContext) (h : ohist) : req -> Prop :=
| ds_reads q : reads q -> dash_step c h q
| ds_ca e ca s :
    dashboardsTls instance = true ->
    saw h (Get KSecret caSecretName namespace) (Err e) ->
    saw h (Local_ (NewCA clusterName)) (Ok ca) ->
    ownedSecret instance caSecretName "" (SecretDataCA ca) = Ok s ->
    dash_step c h (store KSecret s)
| ds_certificate t e ca cert s :
    db_Tls d = Some t -> dtl_Enable t = true -> dtl_Generate t = true ->
    saw h (Get KSecret (tlsSecretName instance) namespace) (Err e) ->
    saw h (Local_ (SignCertificate ca (clusterName +:+ "-dashboards") clusterName
                     (dashboardsDnsNames instance)
                     (let v := default aYear (dtl_Duration t) in
                      if bool_decide (v <= 0) then aYear else v))) (Ok cert) ->
    ownedSecret instance (tlsSecretName instance) "" (SecretData cert ca) = Ok s ->
    dash_step c h (store KSecret s)
| ds_credentials e password :
    db_OpensearchCredentialsSecret d = "" ->
    saw h (Get KSecret (GeneratedDashboardsCredentialsSecretName instance) namespace) (Err e) ->
    IsNotFound e = true ->
    dash_step c h (store KSecret
      (mkSecret (GeneratedDashboardsCredentialsSecretName instance) namespace ∅ ∅
         {["username" := "kibanaserver"; "password" := password]} "" "" []))
| ds_own_credentials s :
    db_OpensearchCredentialsSecret d = "" ->
    saw h (Get KSecret (GeneratedDashboardsCredentialsSecretName instance) namespace) (Ok s) ->
    dash_step c h (store KSecret (secret_with s (setOwner instance (secret_OwnerReferences s)).1))
| ds_config_map :
    dash_step c h (store KConfigMap (configMap_with
      (NewDashboardsConfigMapForCR instance (dashboardsConfigMapName instance) (collected c))
      (setOwner instance []).1))
| ds_deployment cm cm' res addV addM :
    saw h (store KConfigMap cm) (cm', res) ->
    dash_step c h (store KDeployment (deployment_with
      (NewDashboardsDeploymentForCR instance (tlsMounts.1 ++ addV) (tlsMounts.2 ++ addM)
         (match cm_Data cm' !! DashboardConfigName with
          | Some text => {[DashboardChecksumName := Sha1Hex text]}
          | None => ∅
          end))
      (setOwner instance []).1))
| ds_service :
    dash_step c h (store KService (service_with
      (NewDashboardsSvcForCr instance (db_ServiceLabels d)) (setOwner instance []).1)).

(** Nothing is asked for when Dashboards are not enabled. *)
Definition dash_safe (c : ReconcilerContext) (h : ohist) (q : req) : Prop :=
  db_Enable d = true /\ dash_step c h q.

#[local] Hint Constructors dash_step : go.
Lemma step_event c h q : is_event q -> dash_step c h q.
Proof. intros Hq. apply ds_reads. by destruct q. Qed.

Lemma wp_ReadOrGenerate c h (Q : ohist -> outcome (result PEMCert) -> Prop) :
  dashboardsTls instance = true ->
  (forall h' r, extends h h' -> Q h' (Returned r)) ->
  wp (ReadOrGenerateCaCert instance) (dash_step c) Q h.
Proof.
  intros Ht HQ. unfold ReadOrGenerateCaCert, GetSecret, newCA, CreateSecret. cbv zeta.
  fold caSecretName. wp_step; [by apply ds_reads|]. destruct r as [s|e]; [wp_step; apply HQ; ext|].
  wp_step; [by apply ds_reads|]. destruct r as [ca|e']; [|wp_step; apply HQ; ext].
  destruct (ownedSecret _ _ _ _) as [s|e'] eqn:Eo; [|wp_step; apply HQ; ext].
  wp_step; [eapply ds_ca; [done|apply saw_there, saw_here|apply saw_here|done]|].
  destruct r as [? [? ?]]. wp_step. apply HQ. ext.
Qed.

Lemma wp_ensureCertificate c t ca h (Q : ohist -> outcome (option err) -> Prop) :
  db_Tls d = Some t -> dtl_Enable t = true -> dtl_Generate t = true ->
  (forall h' r, extends h h' -> Q h' (Returned r)) ->
  wp (ensureCertificate instance t ca) (dash_step c) Q h.
Proof.
  intros Ht He Hg HQ.
  unfold ensureCertificate, GetSecret, signCertificate, CreateSecret, tlsEvent. cbv zeta.
  wp_step; [by apply ds_reads|]. destruct r as [s|e]; [wp_step; apply HQ; ext|].
  wp_step; [by apply ds_reads|].
  destruct r as [cert|e']; [|wp_step; [by apply ds_reads|]; wp_step; apply HQ; ext].
  destruct (ownedSecret _ _ _ _) as [s|e'] eqn:Eo; [|wp_step; apply HQ; ext].
  wp_step; [eapply ds_certificate; [done..|apply saw_there, saw_here|apply saw_here|done]|].
  destruct r as [? [? [e'|]]]; [wp_step; [by apply ds_reads|]|]; wp_step; apply HQ; ext.
Qed.

Lemma wp_handleTls c0 c h (Q : ohist -> outcome _ -> Prop) :
  (forall h' e, extends h h' -> Q h' (Returned (c, Err e))) ->
  (forall h', extends h h' ->
     Q h' (Returned (rc_set_dashboards (tlsSettings ∪ rc_DashboardsConfig c) c, Ok tlsMounts))) ->
  wp (handleTls instance c) (dash_step c0) Q h.
Proof.
  intros HE HQ. unfold handleTls, tlsSettings, tlsMounts, dashboardsTls in *.
  destruct (db_Tls d) as [t|] eqn:Et.
  2:{ wp_step. rewrite (left_id_L ∅ (∪)) in HQ. destruct c. apply HQ. ext. }
  destruct (dtl_Enable t) eqn:Ee; cbn [negb].
  2:{ wp_step. rewrite (left_id_L ∅ (∪)) in HQ. destruct c. apply HQ. ext. }
  assert (forall h' m, extends h h' ->
    m = certMount instance (if dtl_Generate t then tlsSecretName instance else dtl_Secret t) ->
    wp (let! c := AddDashboardsConfigs (certSettings instance) c in Ret (c, Ok m)) (dash_step c0) Q h')
    as Hadd.
  { intros h' m Hh ->. wp_step. apply wp_AddDashboardsConfigs; [intros; by apply step_event|].
    intros h1 H1. do 2 wp_step. rewrite certSettings_added. apply HQ. ext. }
  wp_step. destruct (dtl_Generate t) eqn:Eg.
  - unfold tlsEvent. wp_step; [by apply ds_reads|]. wp_step.
    match goal with |- wp _ _ ?Q' _ =>
      assert (forall h' (r : result PEMCert), extends h h' -> Q' h' (Returned r)) as Hca end.
    { intros h' [ca|e] Hh; wp_step; [|do 2 wp_step; apply HE; ext].
      wp_step. eapply wp_ensureCertificate; [done..|]. intros h1 [e|] H1; do 3 wp_step; [apply HE; ext|].
      apply Hadd; [ext|done]. }
    destruct (bool_decide _); cbn [negb].
    + apply wp_ReadOrGenerate; [unfold dashboardsTls; by rewrite Et|]. intros; apply Hca; ext.
    + unfold providedCaCert, GetSecret. wp_step; [by apply ds_reads|]. wp_step. apply Hca. ext.
  - unfold tlsEvent. wp_step; [by apply ds_reads|]. do 2 wp_step. apply Hadd; [ext|done].
Qed.

Lemma wp_volumes c h (Q : ohist -> outcome _ -> Prop) :
  (forall h' m, Q h' (Panicked m)) -> (forall h' r, extends h h' -> Q h' (Returned r)) ->
  wp (CreateAdditionalVolumes namespace (db_AdditionalVolumes d)) (dash_step c) Q h.
Proof.
  intros Hm HQ. apply (wp_only reads); [|intros; by apply ds_reads|by intros h' [r|m] He; auto].
  unfold CreateAdditionalVolumes, volumeContent, GetConfigMap. only_auto.
Qed.

Lemma wp_credentialsStep c result h (Q : ohist -> outcome _ -> Prop) :
  (forall h' m, Q h' (Panicked m)) -> (forall h' r, extends h h' -> Q h' (Returned r)) ->
  wp (dashboardsCredentialsStep instance result) (dash_step c) Q h.
Proof.
  intros Hm HQ. unfold dashboardsCredentialsStep, EnsureDashboardsCredentialsSecret. cbv zeta.
  destruct (decide (db_OpensearchCredentialsSecret d = "")) as [Ec|Ec].
  2:{ rewrite bool_decide_false by done. cbn [negb]. wp_step. apply HQ. ext. }
  rewrite bool_decide_true by done. cbn [negb].
  assert (forall h' s, extends h h' ->
    saw h' (Get KSecret (GeneratedDashboardsCredentialsSecretName instance) namespace) (Ok s) ->
    wp (let! result := ownAndReconcile instance KSecret (secret_OwnerReferences s) (secret_with s)
                         StatePresent result in Ret (inl result)) (dash_step c) Q h') as Hown.
  { intros h' s Hh Hs. unfold ownAndReconcile. pose proof (ds_own_credentials c h' s Ec Hs) as Hst.
    destruct (setOwner instance _) as [refs e]. wp_step. wp_step; [exact Hst|].
    destruct r as [? [? ?]]. do 3 wp_step. apply HQ. ext. }
  unfold GetSecret. wp_step. wp_step; [by apply ds_reads|]. destruct r as [s|e].
  { do 2 wp_step. apply Hown; [ext|apply saw_here]. }
  destruct (IsNotFound e) eqn:En; cbn [negb]; [|do 2 wp_step; apply HQ; ext].
  wp_step; [by apply ds_reads|]. destruct (security_cases instance) as [(b & Hb)|(m & Hb)];
    unfold security_is in *; rewrite Hb; [|repeat wp_step; apply Hm].
  do 3 wp_step. unfold CreateSecret. wp_step;
    [eapply ds_credentials; [done|apply saw_there, saw_here|done]|].
  destruct r0 as [s' [res [e'|]]]; [do 2 wp_step; apply HQ; ext|].
  wp_step; [by apply ds_reads|]. do 2 wp_step. destruct r0 as [s|e'']; [|wp_step; apply HQ; ext].
  apply Hown; [ext|apply saw_here].
Qed.

Lemma wp_objects c c' addV addM result h (Q : ohist -> outcome CombinedResult -> Prop) :
  rc_DashboardsConfig c' = collected c ->
  (forall h' r, Q h' (Returned r)) ->
  wp (dashboardsObjects instance c' (tlsMounts.1 ++ addV) (tlsMounts.2 ++ addM) result) (dash_step c) Q h.
Proof.
  intros Hc HQ. unfold dashboardsObjects, CreateConfigMap, ownAndReconcile. cbv zeta. rewrite Hc.
  pose proof (ds_config_map c) as H1. pose proof (ds_deployment c) as H2.
  pose proof (ds_service c) as H3. destruct (setOwner instance []) as [refs e]. cbn [fst] in *.
  wp_step; [apply H1|]. destruct r as [cm [res e']]. wp_step.
  wp_step; [eapply H2; apply saw_here|]. destruct r as [? [? ?]]. do 2 wp_step.
  wp_step; [apply H3|]. destruct r as [? [? ?]]. wp_step. apply HQ.
Qed.

Lemma wp_Dashboards c h :
  db_Enable d = true ->
  wp (DashboardsReconcile instance c) (dash_step c) (λ _ _, True) h.
Proof.
  intros He. unfold DashboardsReconcile. rewrite He. cbn [negb]. wp_step.
  apply wp_handleTls; [intros h' e Hh; by do 2 wp_step|]. intros h1 H1.
  destruct tlsMounts as [vs ms] eqn:Em. do 2 wp_step.
  apply wp_AddDashboardsConfigs; [intros; by apply step_event|]. intros h2 H2.
  rewrite added_union. cbn [rc_DashboardsConfig rc_set_dashboards]. do 2 wp_step.
  apply wp_volumes; [done|]. intros h3 [[[addV addM] data]|e] H3; wp_step; [|by wp_step].
  wp_step. apply wp_credentialsStep; [done|]. intros h4 [result|a] H4; wp_step; [|by wp_step].
  wp_step. replace vs with tlsMounts.1 by (by rewrite Em). replace ms with tlsMounts.2 by (by rewrite Em).
  apply wp_objects; [done|]. intros h5 r. by do 2 wp_step.
Qed.

Lemma always_Dashboards c : always (dash_safe c) (DashboardsReconcile instance c).
Proof.
  intros h. destruct (db_Enable d) eqn:He.
  - eapply wp_mono; [| |by apply wp_Dashboards]; [|done]. by intros h' q Hq.
  - unfold DashboardsReconcile. rewrite He. by wp_step.
Qed.

(** C30: whatever the API server answers, the reconciler of Dashboards writes only when Dashboards
    are enabled, and only: the CA and the certificate of Dashboards, each after reading it failed;
    the generated credentials, when the user names none, if they are missing or to own them; the
    config map of the collected settings, in which the user's settings win over those of TLS and
    those over the other reconcilers'; the deployment, whose checksum annotation is the hash of
    the file in the config map as it was left; and the service. *)
Theorem dashboards_changes_guarded (c : ReconcilerContext) (w : oenv) :
  calls_ok (dash_safe c) (run w (DashboardsReconcile instance c) []).2.
Proof. apply always_run, always_Dashboards. Qed.

(** ** The settings the file has *)

Definition basePath : string := db_BasePath d.

(** The settings of Dashboards: the server's name is always that of the cluster; a base path
    of the specification wins over every other setting of it and is also taken off requests;
    certificates are not verified unless a setting says so; and every other setting is the
    user's, or that of TLS, or that of the earlier reconcilers, in this order. *)
Theorem dashboards_settings (c : ReconcilerContext) (key : string) :
  dashboardsSettings instance (collected c) !! key =
  if key == "server.name" then Some (clusterName +:+ "-dashboards")
  else if (basePath != "") && (key == "server.rewriteBasePath") then Some "true"
  else if (basePath != "") && (key == "server.basePath") then Some basePath
  else
    let given := db_AdditionalConfig d !! key ∪ (tlsSettings !! key ∪ rc_DashboardsConfig c !! key) in
    if key == "opensearch.ssl.verificationMode" then Some (default "none" given) else given.
Proof.
  unfold collected. set (m := db_AdditionalConfig d ∪ _).
  replace (_ ∪ (tlsSettings !! key ∪ _)) with (m !! key) by (unfold m; by rewrite !lookup_union).
  clearbody m. unfold dashboardsSettings, basePath. rewrite lookup_insert_ne by done.
  destruct (m !! "opensearch.ssl.verificationMode") as [v|] eqn:Ev; destruct (decide (db_BasePath d = "")) as [Eb|Eb];
    [rewrite !(bool_decide_true (_ = "")) by done|rewrite !(bool_decide_false (_ = "")) by done
    |rewrite !(bool_decide_true (_ = "")) by done|rewrite !(bool_decide_false (_ = "")) by done];
    cbn [negb andb]; rewrite ?lookup_insert; repeat case_bool_decide; repeat case_decide; subst;
    rewrite ?Ev; done.
Qed.

(** ** The names of the certificate *)

(** With a service name without dots, the generated certificate of Dashboards is for the
    service that is created for Dashboards only if the service name of the cluster is the
    cluster's name: the certificate names the cluster, the service its service name. *)
Theorem dashboards_certificate_names (customLabels : gmap string string) :
  no_char "." (g_ServiceName (sp_General (cl_Spec instance))) = true ->
  svc_Name (NewDashboardsSvcForCr instance customLabels) ∈ dashboardsDnsNames instance <->
  g_ServiceName (sp_General (cl_Spec instance)) = clusterName.
Proof.
  cbn [svc_Name NewDashboardsSvcForCr]. unfold dashboardsDnsNames. intros Hd.
  set (sn := g_ServiceName _) in *. cbv zeta.
  assert (forall s, sn +:+ "-dashboards" <> (clusterName +:+ "-dashboards") +:+ "." +:+ s) as Hno.
  { intros s E. apply (f_equal (no_char ".")) in E. rewrite !no_char_app, Hd in E. cbn in E.
    by rewrite andb_false_r in E. }
  rewrite !elem_of_cons, elem_of_nil. split.
  - intros [E|[E|[E|[E|[]]]]]; [|by apply Hno in E..]. by apply str_app_inj in E as [? _].
  - intros ->. by left.
Qed.

(** ** Names that clash *)

(** A node pool named dashboards in a cluster whose service name is its name: its headless
    service has the name of the service of Dashboards, and the config map of its own settings has
    the name of the config map of Dashboards. *)
Theorem pool_named_dashboards (np : NodePool) (customLabels : gmap string string) :
  np_Component np = "dashboards" ->
  g_ServiceName (sp_General (cl_Spec instance)) = clusterName ->
  svc_Name (NewHeadlessServiceForNodePool instance np) = svc_Name (NewDashboardsSvcForCr instance customLabels) /\
  poolConfigName instance np = dashboardsConfigMapName instance.
Proof.
  intros Hc Hs. unfold poolConfigName, dashboardsConfigMapName.
  cbn [svc_Name NewHeadlessServiceForNodePool NewDashboardsSvcForCr]. by rewrite Hc, Hs.
Qed.

(** ** The pods the service finds *)

(** The service of Dashboards selects the pods of its deployment exactly if the labels of the
    user do not give the label of Dashboards another value, while the selector of the deployment
    always is the labels of its pods. *)
Theorem dashboards_selected volumes mounts annotations customLabels :
  dep_Selector (NewDashboardsDeploymentForCR instance volumes mounts annotations) =
    Some (pt_Labels (dep_Template (NewDashboardsDeploymentForCR instance volumes mounts annotations))) /\
  (svc_Selector (NewDashboardsSvcForCr instance customLabels) ⊆
     pt_Labels (dep_Template (NewDashboardsDeploymentForCR instance volumes mounts annotations)) <->
   default clusterName (db_Labels d !! dashboardsLabel) = clusterName).
Proof.
  split; [done|]. cbn [svc_Selector NewDashboardsSvcForCr dep_Template pt_Labels NewDashboardsDeploymentForCR].
  rewrite map_singleton_subseteq_l. unfold dashboardsLabels. rewrite lookup_union, lookup_singleton_eq.
  destruct (db_Labels d !! dashboardsLabel) as [v|]; cbn; [|done]. split; [by intros [= ->]|by intros ->].
Qed.

End Facts.

(** ** Witnesses *)

Module DashboardRuns.
Import Samples ClusterFacts.Runs.

#[export] Instance sums : ConfigLib :=
  {| UnmarshalJSON := fun _ => None; IsFloat := fun _ => false;
     YamlMarshal := fun l => Ok (foldr (fun kv s => kv.1 +:+ ";" +:+ s) "" l); Sha1Hex := fun s => "sha1:" +:+ s |}.

Definition with_dashboards (d : DashboardsConfig) (c : OpenSearchCluster) : OpenSearchCluster :=
  let sp := cl_Spec c in
  mkCluster (cl_Name c) (cl_Namespace c) (cl_UID c) (cl_DeletionTimestamp c) (cl_Finalizers c)
    (mkClusterSpec (sp_General sp) (sp_SmartScaler sp) (sp_Security sp) (sp_NodePools sp) d
       (sp_InitHelper sp) (sp_Bootstrap sp)) (cl_Status c).
Definition a_cluster : OpenSearchCluster := with_dashboards (dashboards_with true None) (cluster_of 3).

Lemma dashboards_certificate_names_witness :
  "os-dashboards" ∈ dashboardsDnsNames a_cluster.
Proof.
  apply (dashboards_certificate_names a_cluster ∅); [reflexivity|reflexivity].
Defined.

Lemma pool_named_dashboards_witness :
  poolConfigName a_cluster (plainNodePool "dashboards" 1 []) = dashboardsConfigMapName a_cluster.
Proof. by apply (pool_named_dashboards a_cluster (plainNodePool "dashboards" 1 []) ∅). Defined.

(** The checksums of the deployments that were sent. *)
Definition checksums (h : ohist) : list (option string) :=
  omap (fun e => match ev_req e with
                 | ReconcileResource KDeployment o _ => Some (dep_Annotations o !! DashboardChecksumName)
                 | _ => None
                 end) h.
Example dashboards_run :
  checksums (run (server a_cluster (stored_sts 3) (pods_of 3) 3 0) (DashboardsReconcile a_cluster no_context) []).2 =
  [Some ("sha1:opensearch.ssl.verificationMode: none" +:+ nl +:+ "server.name: os-dashboards" +:+ nl)].
Proof. vm_compute. reflexivity. Qed.

End DashboardRuns.
