(* ===== verification/Pipeline.v ===== *)
(** * Pipeline: the component reconcilers of a cluster, together

    The instance of [Controller.Components]: the reconcilers of the other files, on the context
    that [reconcilePhaseRunning] of [controllers/opensearchController.go] makes and hands to all of
    them.  The theorems are about what the reconcilers promise to each other through the context. *)

From S2P Require Import Prelude Prog Resources Api K8sClient Helpers OsClient OsData ReconcilerUtil.
From S2P Require Import RContext ReconcileHelpers Scaler Upgrade RollingRestart Controller Tls Configuration.
From S2P Require Import ResourceReconciler SecurityConfig SnapshotPolicy Waits Builders ClusterRec ClusterSts.
From S2P Require Import ManagedCR PolicyCR SecurityJobs BuilderFacts ClusterFacts Dashboards DashboardsFacts Fixtures.

(** ** The components *)

Section Pipeline.
Context `{RP : RetryPolicy} `{PP : PollPolicy} `{PE : ProcEnv} `{CR : Crypto} `{LL : LabelLib}
  `{SV : Semver} `{HV : HcVersion} `{QL : QuantityLib} `{CL : CtrlLib} `{CB : Combiner}
  `{SL : SecurityLib} `{XL : X509Lib} `{CF : ConfigLib} `{CM : CmpLib}.

(** A reconciler that reads and changes the context. *)
Definition onContext
    (p : OpenSearchCluster -> ReconcilerContext -> io (ReconcilerContext * (Result * option err)))
    : component :=
  fun s => let! (c, r) := p s.1 s.2 in Ret ((s.1, c), r).
(** One that reads it. *)
Definition readsContext (p : OpenSearchCluster -> ReconcilerContext -> io (Result * option err))
    : component :=
  fun s => let! r := p s.1 s.2 in Ret (s, r).
Definition finished (r : Result * option err) : component := fun s => Ret (s, r).

#[export] Instance components : Components :=
  {| tlsReconcile := onContext TLSReconcile;
     securityconfigReconcile := onContext SecurityconfigReconcile;
     configReconcile := onContext ConfigurationReconcile;
     clusterReconcile := readsContext ClusterReconcile;
     dashboardsReconcile := onContext DashboardsReconcile;
     snapshotrepositoryReconcile := withInstance SnapshotRepositoryReconcile;
     tlsDelete := finished (noResult, None);
     securityconfigDelete := finished (noResult, None);
     configDelete := finished (noResult, None);
     clusterDelete := finished ClusterDeleteResources;
     dashboardsDelete := finished DashboardsDeleteResources |}.

(** ** The context *)

(** Every mount has its volume. *)
Definition bound_context (c : ReconcilerContext) : Prop :=
  Forall (λ m, vm_Name m ∈ vol_Name <$> rc_Volumes c) (rc_VolumeMounts c).

(** What a reconciler before the configuration leaves: the hashes as they were, and mounts that
    have their volumes. *)
Definition steady (c c' : ReconcilerContext) : Prop :=
  rc_NodePoolHashes c' = rc_NodePoolHashes c /\ (bound_context c -> bound_context c').
#[global] Instance steady_preorder : PreOrder steady.
Proof. split; [by intros c|]. intros a b c [E1 H1] [E2 H2]. split; [congruence|auto]. Qed.

Lemma steady_config m c : steady c (rc_set_config m c).
Proof. done. Qed.
Lemma bound_app vs ms c :
  Forall (λ m, vm_Name m ∈ vol_Name <$> vs) ms -> bound_context c ->
  bound_context (rc_set_volumes (rc_Volumes c ++ vs) (rc_VolumeMounts c ++ ms) c).
Proof.
  unfold bound_context. cbn. intros Hm Hc. apply Forall_app. split.
  - eapply Forall_impl; [exact Hc|]. cbn. intros m. rewrite fmap_app. set_solver.
  - eapply Forall_impl; [exact Hm|]. cbn. intros m. rewrite fmap_app. set_solver.
Qed.
Lemma steady_mount v m c : vm_Name m = vol_Name v -> steady c (rc_mount v m c).
Proof. intros E. split; [done|]. apply bound_app. constructor; [rewrite E; left|done]. Qed.
Lemma steady_mountFolder i a b n c : steady c (mountFolder i a b n c).
Proof. by apply steady_mount. Qed.
Lemma steady_mountExisting i a side c : steady c (mountExisting i a side c).
Proof.
  unfold mountExisting. do 2 (case_bool_decide; [apply steady_mountFolder|]).
  etransitivity; apply steady_mountFolder.
Qed.
Lemma steady_subpaths i s c : steady c (securityconfigSubpaths i s c).
Proof.
  unfold securityconfigSubpaths. destruct (VersionCheck i) as [[? ?] path]. split; [done|].
  apply bound_app. apply Forall_forall. intros m (k & -> & _)%list_elem_of_fmap. left.
Qed.

(** Programs that return such a context. *)
Definition steadily {A} (f : A -> ReconcilerContext) (c : ReconcilerContext) (p : io A) : Prop :=
  ensures (λ _ _, True) (λ a, steady c (f a)) p.
Lemma always_true {A} (p : io A) : always (λ _ _, True) p.
Proof. intros h. apply wp_true. Qed.
Lemma steadily_ret {A} f c (a : A) : steady c (f a) -> steadily f c (Ret a).
Proof. exact (ensures_ret _ _ a). Qed.
Lemma steadily_skip {A B} f c (p : io A) (k : A -> io B) :
  (forall a, steadily f c (k a)) -> steadily f c (bind p k).
Proof. exact (ensures_after _ _ p k (always_true p)). Qed.
Lemma steadily_bind {A B} g f c (p : io A) (k : A -> io B) :
  steadily g c p -> (forall a, steady c (g a) -> steadily f c (k a)) -> steadily f c (bind p k).
Proof. exact (ensures_bind _ _ _ p k). Qed.
Lemma steadily_from {A} f c c' (p : io A) : steady c c' -> steadily f c' p -> steadily f c p.
Proof.
  intros Hc Hp h. eapply wp_mono; [| |apply Hp]; [done|]. intros h' [a|m] Ha; [|done]. by etransitivity.
Qed.
Lemma steadily_AddConfigs l c : steadily id c (AddConfigs l c).
Proof. intros h. apply wp_AddConfigs; [done|]. intros h' _. apply steady_config. Qed.
Lemma steadily_AddConfig k v c : steadily id c (AddConfig k v c).
Proof. intros h. apply wp_AddConfig; [done|]. intros h' _. apply steady_config. Qed.

(** *** TLS and the security configuration *)

Ltac steady_done :=
  first [reflexivity | assumption | apply steady_config | by apply steady_mount
        | apply steady_mountFolder | apply steady_mountExisting | apply steady_subpaths
        | etransitivity; [eassumption|]; steady_done].
Ltac steadily_step :=
  cbv beta zeta;
  lazymatch goal with
  | |- steadily _ _ (Ret _) => apply steadily_ret; cbn; steady_done
  | |- steadily _ _ (Panic _) => apply ensures_panic
  | |- steadily _ ?c (bind (AddConfigs ?l ?c') _) =>
      eapply (steadily_bind id);
        [eapply (steadily_from _ c c'); [steady_done|apply steadily_AddConfigs]|intros ? ?]
  | |- steadily _ ?c (bind (AddConfig ?k ?v ?c') _) =>
      eapply (steadily_bind id);
        [eapply (steadily_from _ c c'); [steady_done|apply steadily_AddConfig]|intros ? ?]
  | |- steadily _ _ (match ?x with _ => _ end) => destruct x
  end.

Lemma steadily_hotReload i side c : steadily id c (addHotReload i side c).
Proof.
  unfold addHotReload. destruct (tl_EnableHotReload side); [|steadily_step].
  apply steadily_skip. intros []; [apply steadily_AddConfigs|steadily_step].
Qed.
Lemma steadily_storeAndMount n s v m c : steadily fst c (storeAndMount n s v m c).
Proof. unfold storeAndMount. apply steadily_skip. intros [? [? [e|]]]; repeat steadily_step. Qed.

Lemma steadily_transport i config c : steadily fst c (handleTransport i config c).
Proof.
  unfold handleTransport. destruct (tl_Generate config).
  - unfold handleTransportGenerate. apply steadily_skip. intros [ca|e]; [|steadily_step].
    apply steadily_skip. intros [s|e]; [|steadily_step].
    apply steadily_skip. intros [data|e]; [|steadily_step]. unfold storeTransport.
    eapply (steadily_bind fst); [apply steadily_storeAndMount|]. intros [c' [e|]] Hc; cbn in Hc.
    all: repeat steadily_step.
  - unfold handleTransportExistingCerts. steadily_step; [steadily_step|].
    apply (steadily_bind id).
    + steadily_step; [eapply steadily_from; [|apply steadily_AddConfigs]; steady_done|].
      steadily_step. eapply steadily_from; [eassumption|apply steadily_hotReload].
    + intros c' Hc. repeat steadily_step.
Qed.

Lemma steadily_http i config c : steadily fst c (handleHttp i config c).
Proof.
  unfold handleHttp. eapply (steadily_bind fst).
  - unfold provideHttp. steadily_step; [|repeat steadily_step].
    apply steadily_skip. intros [ca|e]; [|steadily_step].
    apply steadily_skip. intros [s|e]; [|steadily_step].
    apply steadily_skip. intros [data|e]; [|steadily_step]. apply steadily_storeAndMount.
  - intros [c' [e|]] Hc; cbn in Hc; [steadily_step|]. steadily_step.
    eapply (steadily_bind id); [eapply steadily_from; [eassumption|apply steadily_hotReload]|].
    intros c'' Hc''. steadily_step.
Qed.

Lemma steadily_admin i c : steadily fst c (handleAdminCertificate i c).
Proof.
  unfold handleAdminCertificate. apply steadily_skip. intros changed. steadily_step.
  - apply steadily_skip. intros ref. apply steadily_skip. intros [ca|e]; [|steadily_step].
    apply steadily_skip. intros [res|e]; repeat steadily_step.
  - apply steadily_skip. intros side. repeat steadily_step.
Qed.

Lemma steadily_TLS i c : steadily fst c (TLSReconcile i c).
Proof.
  unfold TLSReconcile. destruct (cluster_tls i) as [t|]; [|steadily_step].
  eapply (steadily_bind fst).
  { destruct (tls_side_enabled (tls_Transport t)); [|steadily_step].
    apply steadily_skip. intros config. apply steadily_transport. }
  intros [c1 [e|]] H1; cbn in H1; [steadily_step|]. eapply (steadily_bind fst).
  { destruct (tls_side_enabled (tls_Http t)); [|repeat steadily_step].
    apply steadily_skip. intros config. eapply steadily_from; [eassumption|apply steadily_http]. }
  intros [c2 [e|]] H2; cbn in H2; [steadily_step|]. apply steadily_skip. intros []; [|steadily_step].
  eapply (steadily_bind fst); [eapply steadily_from; [eassumption|apply steadily_admin]|].
  intros [c3 r] H3. cbn in H3. steadily_step.
Qed.

Lemma steadily_security i c : steadily fst c (SecurityconfigReconcile i c).
Proof.
  unfold SecurityconfigReconcile. apply steadily_skip. intros []; cbn [negb]; [|steadily_step].
  apply steadily_skip. intros admin. steadily_step; [steadily_step|].
  apply steadily_skip. intros [s|stop]; [|steadily_step]. cbv zeta. apply steadily_skip. intros r. steadily_step.
Qed.

(** *** The configuration *)

Definition keepsBound (c : ReconcilerContext) (a : ReconcilerContext * (Result * option err)) : Prop :=
  bound_context c -> bound_context a.1.
Definition has_sources (vs : list AdditionalVolume) : Prop := Forall (λ v, volumeSources v <> []) vs.

Lemma additional_bound vs :
  has_sources vs ->
  Forall (λ m, vm_Name m ∈ vol_Name <$>
    flat_map (fun v => map (mkVolume (av_Name v)) (volumeSources v)) vs) (map volumeMount vs).
Proof.
  intros Hs. apply Forall_forall. intros m (v & -> & Hv)%list_elem_of_fmap. cbn [vm_Name volumeMount].
  pose proof (proj1 (Forall_forall _ _) Hs v Hv) as Hn. destruct (volumeSources v) as [|src l] eqn:E; [done|].
  apply list_elem_of_fmap. exists (mkVolume (av_Name v) src). split; [done|].
  apply list_elem_of_In, in_flat_map. exists v. split; [by apply list_elem_of_In|]. rewrite E. by left.
Qed.

Lemma bound_app_l vs ms c :
  Forall (λ m, vm_Name m ∈ vol_Name <$> vs) ms -> bound_context c ->
  bound_context (rc_set_volumes (vs ++ rc_Volumes c) (ms ++ rc_VolumeMounts c) c).
Proof.
  unfold bound_context. cbn. intros Hm Hc. apply Forall_app. split.
  - eapply Forall_impl; [exact Hm|]. cbn. intros m. rewrite fmap_app. set_solver.
  - eapply Forall_impl; [exact Hc|]. cbn. intros m. rewrite fmap_app. set_solver.
Qed.

Lemma hashPools_volumes data config pools c result :
  let c' := (hashPools data config pools c result).1 in
  rc_Volumes c' = rc_Volumes c /\ rc_VolumeMounts c' = rc_VolumeMounts c.
Proof.
  revert c result. induction pools as [|p pools IH]; intros c result; [done|].
  unfold hashPools. cbn [foldl].
  destruct (createHashForNodePool p _ _ c) as [c1 res] eqn:Ec.
  destruct (IH c1 (CombineResult result res None)) as [E1 E2]. unfold hashPools in E1, E2.
  rewrite E1, E2. unfold createHashForNodePool in Ec.
  destruct (fetchNodePoolHash c (np_Component p)); by injection Ec as <- <-.
Qed.

Lemma bound_volumes c c' :
  rc_Volumes c' = rc_Volumes c -> rc_VolumeMounts c' = rc_VolumeMounts c -> bound_context c -> bound_context c'.
Proof. unfold bound_context. by intros -> ->. Qed.

Lemma bound_configurePools i config c c0 result :
  has_sources (g_AdditionalVolumes (sp_General (cl_Spec i))) ->
  (bound_context c0 -> bound_context c) ->
  ensures (λ _ _, True) (keepsBound c0) (configurePools i config c result).
Proof.
  intros Hs Hc. unfold configurePools. cbv zeta. apply ensures_after; [apply always_true|].
  intros [result'|stop]; [|by apply ensures_ret].
  eapply (ensures_bind _ (λ r, forall vs ms data, r = Ok (vs, ms, data) ->
    Forall (λ m, vm_Name m ∈ vol_Name <$> vs) ms)).
  { unfold CreateAdditionalVolumes. apply ensures_after; [apply always_true|].
    intros [data|e]; apply ensures_ret; [|done]. intros vs ms d [= <- <- _]. by apply additional_bound. }
  intros [[[vs ms] data]|e] Hv; cbv zeta; [|by apply ensures_ret].
  pose proof (hashPools_volumes data config (sp_NodePools (cl_Spec i))
    (rc_set_volumes (vs ++ rc_Volumes c) (ms ++ rc_VolumeMounts c) c) result') as [E1 E2].
  destruct (hashPools _ _ _ _ _) as [c' r']. cbn [fst] in E1, E2. apply ensures_ret. intros H0.
  eapply bound_volumes; [exact E1|exact E2|]. apply bound_app_l; [by eapply Hv|auto].
Qed.

Lemma bound_configuration i c :
  has_sources (g_AdditionalVolumes (sp_General (cl_Spec i))) ->
  ensures (λ _ _, True) (keepsBound c) (ConfigurationReconcile i c).
Proof.
  intros Hs. unfold ConfigurationReconcile. cbv zeta. destruct (hasNoConfig i c); [apply ensures_ret; exact (λ H, H)|].
  apply ensures_after; [apply always_true|]. intros enabled.
  eapply ensures_bind; [apply steadily_AddConfigs|]. intros c1 H1. cbn in H1.
  eapply ensures_bind; [apply steadily_AddConfigs|]. intros c2 H2. cbn in H2.
  eapply ensures_bind; [apply steadily_AddConfigs|]. intros c3 H3. cbn in H3.
  assert (steady c c3) as [_ Hb] by (by do 2 (etransitivity; [eassumption|])).
  case_decide; [by apply bound_configurePools|]. apply ensures_after; [apply always_true|].
  intros [result|stop]; [|by apply ensures_ret]. apply bound_configurePools; [done|].
  intros H0. by apply steady_mount, Hb.
Qed.

(** ** The whole pipeline *)

Context (instance : OpenSearchCluster).

(** The context that the reconcilers of certificates and of the security configuration made of
    the new one in this reconciliation. *)
Definition prepared_context (h : ohist) (c : ReconcilerContext) : Prop :=
  exists c1 r1 h1 r2 h2,
    reaches (TLSReconcile instance (NewReconcilerContext (nodePools instance))) [] (c1, r1) h1 /\
    reaches (SecurityconfigReconcile instance c1) h1 (c, r2) h2 /\ extends h2 h.

(** The hash of a pool in this reconciliation: empty when there is nothing to configure, otherwise
    of the settings in the config maps that were sent and of the volumes that were read. *)
Definition config_hash (h : ohist) (np : NodePool) (hash : NodePoolHash) : Prop :=
  exists c, prepared_context h c /\
    if hasNoConfig instance c then hash = mkHash (np_Component np) ""
    else exists enabled data, security_is instance enabled /\
      volume_data instance h (restartNames (g_AdditionalVolumes (sp_General (cl_Spec instance)))) data /\
      stored_settings instance h (settings instance enabled c) /\
      hash = poolHash (settings instance enabled c) data np.

(** The context as the cluster reconciler gets it. *)
Definition context_ready (h : ohist) (rc : ReconcilerContext) : Prop :=
  (forall np, np ∈ nodePools instance ->
     exists hash, fetchNodePoolHash rc (np_Component np) = Some hash /\ config_hash h np hash) /\
  (has_sources (g_AdditionalVolumes (sp_General (cl_Spec instance))) -> bound_context rc).

(** The instance of the later reconcilers: the scaler leaves its own component status in it. *)
Definition rescaled (comp : list ComponentStatus) : OpenSearchCluster :=
  with_status (set_ComponentsStatus comp) instance.

(** What the pipeline does to pods and stateful sets, and who. *)
Inductive pipeline_step (h : ohist) : req -> Prop :=
| pl_other q : no_workload q -> pipeline_step h q
| pl_cluster rc q :
    context_ready h rc -> cluster_step instance rc h q -> pipeline_step h q
| pl_scaler o s :
    scaler_change instance h o s -> pipeline_step h (ReconcileResource KStatefulSet o s)
| pl_upgrade comp name ns p :
    upgrade_delete (rescaled comp) h name ns -> pipeline_step h (Delete KPod name ns p)
| pl_restart comp name ns p :
    restart_delete (rescaled comp) h name ns -> pipeline_step h (Delete KPod name ns p).

Lemma config_hash_extends h h' np hash : extends h h' -> config_hash h np hash -> config_hash h' np hash.
Proof.
  intros He (c & (c1 & r1 & h1 & r2 & h2 & Hr1 & Hr2 & H2) & Hh). exists c.
  split; [exists c1, r1, h1, r2, h2; split_and!; [done..|by etransitivity]|].
  destruct (hasNoConfig instance c); [done|].
  destruct Hh as (enabled & data & H3 & H4 & [H5 H6] & ->). exists enabled, data.
  split_and!; [done|by eapply volume_data_extends| |done].
  split; intros; (eapply stored_extends; [done|auto]).
Qed.
Lemma context_ready_extends h h' rc : extends h h' -> context_ready h rc -> context_ready h' rc.
Proof.
  intros He [H1 H2]. split; [|done]. intros np Hn. destruct (H1 np Hn) as (hash & ? & ?). exists hash.
  split; [done|by eapply config_hash_extends].
Qed.

Lemma fetch_new (pools : list NodePool) np :
  np ∈ pools -> fetchNodePoolHash (NewReconcilerContext pools) (np_Component np) = Some (mkHash (np_Component np) "").
Proof.
  unfold fetchNodePoolHash. cbn [rc_NodePoolHashes NewReconcilerContext].
  induction pools as [|p pools IH]; intros Hn; [by apply elem_of_nil in Hn|]. cbn.
  case_bool_decide as E; [by rewrite E|]. apply elem_of_cons in Hn as [->|Hn]; [done|auto].
Qed.

#[local] Abbreviation T := (λ (_ : ohist) (_ : outcome (Result * option err)), True).

(** A stage of the pipeline, and what is left. *)
Lemma wp_stage rec recs final s (P : ohist -> req -> Prop) h :
  wp (rec s) P (λ h' o, match o with
                        | Returned (s', (_, None)) => wp (runComponents recs final s') P T h'
                        | _ => True
                        end) h ->
  wp (runComponents (rec :: recs) final s) P T h.
Proof.
  intros Hw. cbn [runComponents]. wp_step. eapply wp_mono; [| |exact Hw]; [done|].
  intros h' [[s' [res [e|]]]|m] Hn; wp_step; [by wp_step| |done]. by destruct (Requeue res); [wp_step|].
Qed.

(** A stage that says nothing of the context. *)
Lemma wp_stage_instance p recs final s (P P0 : ohist -> req -> Prop) Q h :
  wp (p s.1) P0 Q h -> (forall h' q, P0 h' q -> P h' q) ->
  (forall h', extends h h' -> wp (runComponents recs final s) P T h') ->
  wp (runComponents (withInstance p :: recs) final s) P T h.
Proof.
  intros Hp HP Hn. apply wp_stage. unfold withInstance. wp_step.
  eapply wp_mono_ext; [| |exact Hp]; [intros; by apply HP|].
  intros h' [[res [e|]]|m] He _; wp_step; try done. wp_step. by apply Hn.
Qed.

(** One that works on the context. *)
Lemma wp_stage_context p recs final s (P : ohist -> req -> Prop) (Q : ohist -> outcome _ -> Prop) h :
  wp (p s.1 s.2) P Q h ->
  (forall h' c res, extends h h' -> Q h' (Returned (c, (res, None))) ->
     wp (runComponents recs final (s.1, c)) P T h') ->
  wp (runComponents (onContext p :: recs) final s) P T h.
Proof.
  intros Hp Hn. apply wp_stage. unfold onContext. wp_step.
  eapply wp_mono_ext; [| |exact Hp]; [done|].
  intros h' [[c [res [e|]]]|m] He Hq; wp_step; try done. wp_step. by eapply Hn.
Qed.

(** *** The stages *)

Lemma step_no_workload h q : no_workload q -> pipeline_step h q.
Proof. apply pl_other. Qed.
Lemma tls_no_workload h q : tls_allowed instance h q -> no_workload q.
Proof. destruct 1; try done. by apply reads_no_workload. Qed.
Lemma sec_no_workload h q : sec_allowed instance h q -> no_workload q.
Proof. destruct 1; try done. by apply reads_no_workload. Qed.
Lemma cfg_no_workload c h q : cfg_allowed instance c h q -> no_workload q.
Proof. destruct 1; try done. by apply reads_no_workload. Qed.
Lemma bystander_no_workload q : bystander q -> no_workload q.
Proof. by destruct q as [| |[]|[]|[]|[]| | | |]. Qed.
Lemma dash_no_workload i c h q : dash_safe i c h q -> no_workload q.
Proof. intros [_ H]. destruct H; try done. by apply reads_no_workload. Qed.

Lemma wp_tls_stage c h :
  wp (TLSReconcile instance c) pipeline_step
    (λ h' o, forall c' r, o = Returned (c', r) ->
       steady c c' /\ reaches (TLSReconcile instance c) h (c', r) h') h.
Proof.
  eapply wp_mono; [| |apply (wp_conj _ _ _ _ _ _ (wp_TLSReconcile instance c h)
    (wp_conj _ _ _ _ _ _ (steadily_TLS instance c h) (reaches_wp _ h)))].
  - intros h' q [Hq _]. by eapply pl_other, tls_no_workload.
  - intros h' o (_ & Ho & Hr) c' r ->. split; [exact Ho|by apply Hr].
Qed.
Lemma wp_security_stage c h :
  wp (SecurityconfigReconcile instance c) pipeline_step
    (λ h' o, forall c' r, o = Returned (c', r) ->
       steady c c' /\ reaches (SecurityconfigReconcile instance c) h (c', r) h') h.
Proof.
  eapply wp_mono; [| |apply (wp_conj _ _ _ _ _ _ (wp_SecurityconfigReconcile instance c h)
    (wp_conj _ _ _ _ _ _ (steadily_security instance c h) (reaches_wp _ h)))].
  - intros h' q [Hq _]. by eapply pl_other, sec_no_workload.
  - intros h' o (_ & Ho & Hr) c' r ->. split; [exact Ho|by apply Hr].
Qed.

Lemma bound_stage c h :
  wp (ConfigurationReconcile instance c) (λ _ _, True)
    (λ _ o, forall a, o = Returned a ->
       has_sources (g_AdditionalVolumes (sp_General (cl_Spec instance))) -> keepsBound c a) h.
Proof.
  assert (Decision (has_sources (g_AdditionalVolumes (sp_General (cl_Spec instance))))) as [Hs|Hs]
    by (unfold has_sources; apply _).
  - eapply wp_mono; [| |apply (bound_configuration instance c Hs)]; [done|]. by intros h' [a|m] Ha ? [= <-].
  - eapply wp_mono; [| |apply wp_true]; done.
Qed.

Lemma wp_config_stage `{!CombinerLaws} c h :
  NoDup (np_Component <$> nodePools instance) ->
  steady (NewReconcilerContext (nodePools instance)) c -> prepared_context h c ->
  wp (ConfigurationReconcile instance c) pipeline_step
    (λ h' o, forall c' res, o = Returned (c', (res, None)) -> context_ready h' c') h.
Proof.
  intros Hn [Ec Hc] Hp.
  assert (forall np, np ∈ nodePools instance -> fetchNodePoolHash c (np_Component np) = Some (mkHash (np_Component np) ""))
    as Hf by (intros np Hnp; unfold fetchNodePoolHash; rewrite Ec; by apply fetch_new).
  destruct (hasNoConfig instance c) eqn:E.
  { unfold ConfigurationReconcile. rewrite E. cbv zeta. wp_step. intros c' res [= <- _].
    split; [|intros _; apply Hc; constructor]. intros np Hnp. eexists. split; [by apply Hf|].
    exists c. by rewrite E. }
  eapply wp_mono_ext; [| |apply (wp_conj _ _ _ _ _ _ (wp_ConfigurationReconcile instance c h) (bound_stage c h))].
  - intros h' q _ [Hq _]. by eapply pl_other, cfg_no_workload.
  - intros h' o He [Ho Hb] c' res ->. split.
    2:{ intros Hs. apply (Hb _ eq_refl Hs), Hc. constructor. }
    intros np Hnp. destruct (Ho c' res eq_refl Hn) as [[He' _]|(enabled & data & H1 & H2 & H3 & H4)];
      [congruence|].
    exists (poolHash (settings instance enabled c) data np). split; [apply H4; [done|by rewrite Hf]|].
    exists c. rewrite E. split; [|by exists enabled, data].
    destruct Hp as (c1 & r1 & h1 & r2 & h2 & ? & ? & ?). exists c1, r1, h1, r2, h2.
    split_and!; [done..|by etransitivity].
Qed.

Lemma only_SnapshotRepository i : only no_workload (SnapshotRepositoryReconcile i).
Proof.
  unfold SnapshotRepositoryReconcile, repositoryStep, ReconcileRepository, GetSnapshotRepository,
    CreateSnapshotRepository, UpdateSnapshotRepository, getPolicy, sendPolicy,
    client_GetSnapshotRepository, client_CreateSnapshotRepository, client_UpdateSnapshotRepository,
    doHTTPGet, doHTTPPut. only_auto.
Qed.

Lemma pod_guarded_step W h q :
  (forall name ns p, W h name ns -> pipeline_step h (Delete KPod name ns p)) ->
  pod_guarded W h q -> pipeline_step h q.
Proof. intros HW Hq. destruct q as [| | | |[]|[]| | | |]; try (by apply pl_other); by apply HW. Qed.

(** The stages after the cluster reconciler's. *)
Lemma wp_later_stages rc final comp h :
  wp (runComponents [dashboardsReconcile; withInstance UpgradeReconcile; withInstance RollingRestartReconcile;
        snapshotrepositoryReconcile] final (rescaled comp, rc)) pipeline_step T h.
Proof.
  eapply wp_stage_context.
  { eapply wp_mono; [| |apply always_Dashboards]; [|done]. intros h' q Hq. by eapply pl_other, dash_no_workload. }
  intros h1 c1 res H1 _. cbn [fst]. eapply wp_stage_instance; [apply wp_UpgradeReconcile| |].
  { intros h' q. apply pod_guarded_step. intros. by eapply pl_upgrade. }
  intros h2 H2. eapply wp_stage_instance; [apply wp_RollingRestartReconcile| |].
  { intros h' q. apply pod_guarded_step. intros. by eapply pl_restart. }
  intros h3 H3. eapply wp_stage_instance; [apply only_SnapshotRepository|by intros; apply pl_other|].
  intros h4 H4. cbn [runComponents]. by wp_step.
Qed.

Lemma wp_pipeline `{!CombinerLaws} final :
  NoDup (np_Component <$> nodePools instance) ->
  wp (runComponents runningComponents final (withContext instance)) pipeline_step T [].
Proof.
  intros Hn. unfold runningComponents, withContext. eapply wp_stage_context; [apply wp_tls_stage|].
  cbn [fst snd]. intros h1 c1 res1 H1 Hc1. eapply wp_stage_context; [apply wp_security_stage|].
  cbn [fst snd]. intros h2 c2 res2 H2 Hc2. eapply wp_stage_context.
  { destruct (Hc1 _ _ eq_refl) as [? Hr1], (Hc2 _ _ eq_refl) as [? Hr2].
    apply wp_config_stage; [done|by etransitivity|]. eexists c1, _, h1, _, h2. by split_and!. }
  cbn [fst snd]. intros h3 c3 res3 H3 Hc3. specialize (Hc3 c3 res3 eq_refl).
  apply wp_stage. unfold clusterReconcile, components, readsContext. cbn [fst snd]. wp_step.
  eapply wp_mono_ext; [| |apply always_cluster].
  { intros h' q He [Hq|Hq]; [by apply pl_other, bystander_no_workload|].
    eapply pl_cluster; [by eapply context_ready_extends|done]. }
  intros h4 [[res4 [e|]]|m] H4 _; wp_step; try done. wp_step.
  apply wp_stage. unfold scalerComponent. cbn [fst snd]. wp_step.
  eapply wp_mono; [| |apply wp_ScalerReconcile].
  { intros h' q Hq. destruct q as [| | | | |[]| | | |]; try (by apply pl_other). by apply pl_scaler. }
  intros h5 [[comp [res5 [e|]]]|m] _; wp_step; try done. wp_step. apply wp_later_stages.
Qed.


End Pipeline.

(** ** Deletion *)

Section Deletion.
Context `{RP : RetryPolicy} `{PP : PollPolicy} `{PE : ProcEnv} `{CR : Crypto} `{LL : LabelLib}
  `{SV : Semver} `{HV : HcVersion} `{QL : QuantityLib} `{CL : CtrlLib} `{CB : Combiner}
  `{SL : SecurityLib} `{XL : X509Lib} `{CF : ConfigLib} `{CM : CmpLib} `{FL : FinalizerLib}.

(** The cluster is read, and written without the finalizer. *)
Definition only_finalizer (name ns : string) (h : ohist) (q : req) : Prop :=
  q = Get KCluster name ns \/
  exists c, saw h (Get KCluster name ns) (Ok c) /\
    q = Update KCluster (with_finalizers (fun l => RemoveFinalizer l myFinalizerName) c).

(** A deleted cluster: no component deletes or waits for anything, so the controller takes its
    finalizer away at once and leaves every object to the garbage collector: the only requests are
    reads of the cluster and updates that remove the finalizer from what was read. *)
Theorem deletion_only_removes_finalizer name ns (instance : OpenSearchCluster) (w : oenv) :
  calls_ok (only_finalizer name ns) (run w (finalizeCluster name ns instance) []).2.
Proof.
  refine (proj2 (wp_run w _ (only_finalizer name ns) (λ _ _, True) _)). unfold finalizeCluster.
  destruct (ContainsString _ _); [|by wp_step].
  assert (deleteExternalResources instance = Ret (noResult, None)) as -> by reflexivity.
  do 4 wp_step. unfold retryUpdate, RetryOnConflict.
  apply (wp_retry_loop (λ _ _, True)); [done| |by intros h' [] ? _; repeat wp_step].
  intros i h _. unfold GetOpenSearchCluster. wp_step; [by left|]. destruct r as [c|e]; [|by wp_step].
  do 3 wp_step. unfold sendUpdate. wp_step; [right; exists c; split; [apply saw_here|done]|].
  wp_step. split; [done|]. by destruct r.
Qed.

End Deletion.

(** ** A run *)

Module PipelineRuns.
Import Samples ClusterFacts.Runs DashboardRuns.

#[local] Existing Instance combiner_laws.
#[export] Instance no_certificates : X509Lib :=
  {| pemDecode := fun _ => None; ParseCertificate := fun _ => Err (OtherErr "not a certificate") |}.

(** A cluster with one setting of its own. *)
Definition configured : OpenSearchCluster :=
  mkCluster "os" "ns" "uid" None [myFinalizerName]
    (mkClusterSpec (plain_general true {["cluster.routing.allocation.enable" := "all"]} []) true None
       [pool_of 3] no_dashboards no_init_helper no_bootstrap) (running []).


(** The config maps, and the checksums of the stateful sets that were created, newest first. *)
Definition written_config (h : ohist) : list (string * option string) :=
  omap (fun e => match ev_req e with
                 | ReconcileResource KConfigMap o _ => Some (cm_Name o, cm_Data o !! "opensearch.yml")
                 | ReconcileResource KStatefulSet o StateCreated =>
                     Some (sts_Name o, pt_Annotations (sts_Template o) !! ConfigurationChecksumAnnotation)
                 | _ => None
                 end) h.
Example configuration_reaches_pods :
  written_config (run (server configured (stored_sts 3) (pods_of 3) 3 0)
     (runComponents runningComponents (requeueIn 30) (withContext configured)) []).2 =
  [("os-nodes", Some "sha1:cluster.routing.allocation.enable;plugins.security.disabled;");
   ("os-config", Some "cluster.routing.allocation.enable;plugins.security.disabled;")].
Proof. vm_compute. reflexivity. Qed.

End PipelineRuns.
