(* ===== verification/Metrics.v ===== *)
(** * Metrics: the Prometheus series of the operator

    Models [pkg/helpers/metrics.go]: the five vectors, the update after each look at a cluster's
    health and the deletion with the cluster.  The Prometheus client is a parameter; what its
    documentation says of the methods that are used is [PromLaws]. *)

From S2P Require Import Prelude Prog Resources Api K8sClient Helpers Fixtures.

Abbreviation Labels := (gmap string string).

(** A vector of gauges or counters; the values that the operator sets are whole numbers. *)
Class PromLib := {
  Vec : Type;
  NewVec : list string -> Vec;
  With : Vec -> Labels -> option (Z -> Vec);  (* setting the series; nothing is a panic *)
  Delete_ : Vec -> Labels -> Vec;
  DeletePartialMatch : Vec -> Labels -> Vec;
  labelNames : Vec -> list string;
  series : Vec -> gmap Labels Z }.

(** Documented: [With] panics unless the labels are those of the vector; [Delete] removes the
    series with exactly these labels, and inconsistent labels can never match; [DeletePartialMatch]
    removes all series that contain the labels. *)
Definition consistent (names : list string) (l : Labels) : Prop := dom l = list_to_set names.
Class PromLaws `{PL : PromLib} := {
  NewVec_series names : series (NewVec names) = ∅;
  NewVec_names names : labelNames (NewVec names) = names;
  With_ok vec l : consistent (labelNames vec) l ->
    exists set, With vec l = Some set /\
      forall v, series (set v) = <[l := v]> (series vec) /\ labelNames (set v) = labelNames vec;
  Delete_match vec l : consistent (labelNames vec) l -> series (Delete_ vec l) = delete l (series vec);
  Delete_inconsistent vec l : ~ consistent (labelNames vec) l -> series (Delete_ vec l) = series vec;
  Delete_names vec l : labelNames (Delete_ vec l) = labelNames vec;
  DeletePartial_series vec l :
    series (DeletePartialMatch vec l) = filter (λ kv, ~ l ⊆ kv.1) (series vec) }.

Section Metrics.
Context `{PL : PromLib}.

Record Registry := mkRegistry {
  TlsCertificateDaysRemaining : Vec;
  ClusterInfo : Vec;
  ClusterHealth : Vec;
  ClusterShards : Vec;
  ReconcileErrors : Vec }.

Definition newRegistry : Registry :=
  mkRegistry (NewVec ["namespace"; "opensearch_cluster"; "interface"; "node"])
    (NewVec ["namespace"; "opensearch_cluster"; "version"])
    (NewVec ["namespace"; "opensearch_cluster"])
    (NewVec ["namespace"; "opensearch_cluster"; "status"])
    (NewVec ["namespace"; "opensearch_cluster"; "reconciler"]).

Definition clusterLabels (namespace clusterName : string) : Labels :=
  {["namespace" := namespace; "opensearch_cluster" := clusterName]}.

Definition DeleteClusterMetrics (namespace clusterName : string) (r : Registry) : Registry :=
  let labels := clusterLabels namespace clusterName in
  mkRegistry (Delete_ (TlsCertificateDaysRemaining r) labels) (Delete_ (ClusterInfo r) labels)
    (Delete_ (ClusterHealth r) labels) (Delete_ (ClusterShards r) labels)
    (DeletePartialMatch (ReconcileErrors r) labels).

Definition setWith (vec : Vec) (l : Labels) (v : Z) : option Vec :=
  match With vec l with Some set => Some (set v) | None => None end.

Definition healthValue (health : string) : Z :=
  if health == "red" then 2 else if health == "yellow" then 1 else if health == "green" then 0 else -1.

(** The shards of each kind, one after the other. *)
Definition setShards (labels : Labels) (h : ClusterHealthResponse) (vec : Vec) : option Vec :=
  foldl (fun vec kv => match vec with
                       | Some vec => setWith vec (<["status" := kv.1]> labels) kv.2
                       | None => None
                       end) (Some vec)
    [("active", ch_ActiveShards h); ("relocating", ch_RelocatingShards h);
     ("initializing", ch_InitializingShards h); ("unassigned", ch_UnassignedShards h)].

Definition UpdateClusterInfo (instance : OpenSearchCluster) (health : string)
    (healthResponse : ClusterHealthResponse) (r : Registry) : option Registry :=
  let labels := clusterLabels (cl_Namespace instance) (cl_Name instance) in
  match setWith (Delete_ (ClusterInfo r) labels)
          (<["version" := st_Version (cl_Status instance)]> labels) 1,
        setWith (ClusterHealth r) labels (healthValue health),
        if health != "unknown" then setShards labels healthResponse (ClusterShards r)
        else Some (ClusterShards r) with
  | Some info, Some clusterHealth, Some shards =>
      Some (mkRegistry (TlsCertificateDaysRemaining r) info clusterHealth shards (ReconcileErrors r))
  | _, _, _ => None
  end.

(** ** Lemmas *)

(** The vectors have the labels they were made with. *)
Definition registered (r : Registry) : Prop :=
  labelNames (TlsCertificateDaysRemaining r) = ["namespace"; "opensearch_cluster"; "interface"; "node"] /\
  labelNames (ClusterInfo r) = ["namespace"; "opensearch_cluster"; "version"] /\
  labelNames (ClusterHealth r) = ["namespace"; "opensearch_cluster"] /\
  labelNames (ClusterShards r) = ["namespace"; "opensearch_cluster"; "status"] /\
  labelNames (ReconcileErrors r) = ["namespace"; "opensearch_cluster"; "reconciler"].

Context `{!PromLaws}.

Lemma setWith_ok vec l v :
  consistent (labelNames vec) l ->
  exists vec', setWith vec l v = Some vec' /\ series vec' = <[l := v]> (series vec) /\
    labelNames vec' = labelNames vec.
Proof.
  intros Hc. destruct (With_ok vec l Hc) as (set & Hs & Hv). exists (set v).
  unfold setWith. rewrite Hs. split; [done|apply Hv].
Qed.

Lemma consistent_cluster ns n : consistent ["namespace"; "opensearch_cluster"] (clusterLabels ns n).
Proof. unfold consistent, clusterLabels. set_solver. Qed.
Lemma consistent_with ns n k v :
  consistent ["namespace"; "opensearch_cluster"; k] (<[k := v]> (clusterLabels ns n)).
Proof. unfold consistent, clusterLabels. set_solver. Qed.
Lemma too_few ns n k names :
  k <> "namespace" -> k <> "opensearch_cluster" -> k ∈ names -> ~ consistent names (clusterLabels ns n).
Proof. unfold consistent, clusterLabels. intros H1 H2 Hk E. set_solver. Qed.

Lemma setShards_ok ns n h vec :
  labelNames vec = ["namespace"; "opensearch_cluster"; "status"] ->
  exists vec', setShards (clusterLabels ns n) h vec = Some vec' /\ labelNames vec' = labelNames vec.
Proof.
  intros Hn. unfold setShards. cbn [foldl].
  edestruct (setWith_ok vec) as (v1 & -> & _ & E1); [rewrite Hn; apply consistent_with|].
  edestruct (setWith_ok v1) as (v2 & -> & _ & E2); [rewrite E1, Hn; apply consistent_with|].
  edestruct (setWith_ok v2) as (v3 & -> & _ & E3); [rewrite E2, E1, Hn; apply consistent_with|].
  edestruct (setWith_ok v3) as (v4 & -> & _ & E4); [rewrite E3, E2, E1, Hn; apply consistent_with|].
  exists v4. split; [done|congruence].
Qed.

(** ** Theorems *)

(** Updating the series of a cluster never panics and keeps the registry's labels; it sets the
    health, and it adds the version of the cluster without removing any other: the labels it
    deletes by have no version and so match nothing, and a cluster that was upgraded has a series
    for each of its versions, all with the value one. *)
Theorem old_versions_stay (instance : OpenSearchCluster) health resp (r : Registry) :
  registered r ->
  exists r', UpdateClusterInfo instance health resp r = Some r' /\ registered r' /\
    series (ClusterInfo r') =
      <[<["version" := st_Version (cl_Status instance)]>
          (clusterLabels (cl_Namespace instance) (cl_Name instance)) := 1]> (series (ClusterInfo r)) /\
    series (ClusterHealth r') !! clusterLabels (cl_Namespace instance) (cl_Name instance) =
      Some (healthValue health).
Proof.
  intros (H1 & H2 & H3 & H4 & H5). unfold UpdateClusterInfo. cbv zeta.
  set (labels := clusterLabels _ _).
  edestruct (setWith_ok (Delete_ (ClusterInfo r) labels)) as (info & -> & Es & En).
  { rewrite Delete_names, H2. apply consistent_with. }
  edestruct (setWith_ok (ClusterHealth r)) as (hl & -> & Hs & Hn); [rewrite H3; apply consistent_cluster|].
  assert (exists sh, (if health != "unknown" then setShards labels resp (ClusterShards r)
    else Some (ClusterShards r)) = Some sh /\ labelNames sh = labelNames (ClusterShards r)) as (sh & -> & Hsh).
  { destruct (negb _); [by apply setShards_ok|by eexists]. }
  eexists. split; [done|]. unfold registered. cbn. rewrite En, Delete_names, Hn, Hsh, Es, Hs.
  split_and!; try done; [|by rewrite lookup_insert_eq].
  rewrite Delete_inconsistent; [done|]. rewrite H2. by eapply too_few; [| |do 2 right; left].
Qed.

(** Of a deleted cluster, only the series of its health and of its reconcile errors go: those of
    its certificates, versions and shards have more labels than the two they are deleted by, and
    stay for as long as the operator runs. *)
Theorem deleted_metrics (ns n : string) (r : Registry) :
  registered r ->
  let r' := DeleteClusterMetrics ns n r in
  series (TlsCertificateDaysRemaining r') = series (TlsCertificateDaysRemaining r) /\
  series (ClusterInfo r') = series (ClusterInfo r) /\
  series (ClusterShards r') = series (ClusterShards r) /\
  series (ClusterHealth r') = delete (clusterLabels ns n) (series (ClusterHealth r)) /\
  (forall l, is_Some (series (ReconcileErrors r') !! l) -> ~ clusterLabels ns n ⊆ l).
Proof.
  intros (H1 & H2 & H3 & H4 & H5). cbn. split_and!.
  - apply Delete_inconsistent. rewrite H1. by eapply too_few; [| |do 2 right; left].
  - apply Delete_inconsistent. rewrite H2. by eapply too_few; [| |do 2 right; left].
  - apply Delete_inconsistent. rewrite H4. by eapply too_few; [| |do 2 right; left].
  - apply Delete_match. rewrite H3. apply consistent_cluster.
  - intros l [v Hv]. rewrite DeletePartial_series in Hv. by apply map_lookup_filter_Some in Hv as [_ ?].
Qed.

End Metrics.

(** ** Witnesses *)

Module MetricRuns.
Import Samples.

(** A vector as its labels and its series. *)
#[export] Instance client : PromLib :=
  {| Vec := list string * gmap Labels Z;
     NewVec := fun names => (names, ∅);
     With := fun vec l => if bool_decide (dom l = list_to_set vec.1)
                          then Some (fun v => (vec.1, <[l := v]> vec.2)) else None;
     Delete_ := fun vec l => (vec.1, if bool_decide (dom l = list_to_set vec.1)
                                     then delete l vec.2 else vec.2);
     DeletePartialMatch := fun vec l => (vec.1, filter (λ kv, ~ l ⊆ kv.1) vec.2);
     labelNames := fst; series := snd |}.
#[export] Instance client_laws : PromLaws.
Proof.
  split; cbn; try done.
  - intros vec l Hc. rewrite bool_decide_true by done. by eexists.
  - intros vec l Hc. by rewrite bool_decide_true.
  - intros vec l Hc. by rewrite bool_decide_false.
Qed.

Definition upgraded (version : string) : OpenSearchCluster :=
  cluster_with true true [] (mkClusterStatus PhaseRunning [] version true 3 "green" false false).
Definition v1_labels : Labels := <["version" := "2.19.1"]> (clusterLabels "ns" "os").
Definition v2_labels : Labels := <["version" := "3.0.0"]> (clusterLabels "ns" "os").

(** Both versions of an upgraded cluster have a series. *)
Lemma old_versions_stay_witness :
  exists r1 r2, UpdateClusterInfo (upgraded "2.19.1") "green" green newRegistry = Some r1 /\
    UpdateClusterInfo (upgraded "3.0.0") "green" green r1 = Some r2 /\
    series (ClusterInfo r2) = {[v2_labels := 1; v1_labels := 1]}.
Proof.
  destruct (old_versions_stay (upgraded "2.19.1") "green" green newRegistry) as (r1 & H1 & Hr & Hs & _);
    [repeat split|].
  destruct (old_versions_stay (upgraded "3.0.0") "green" green r1 Hr) as (r2 & H2 & _ & Hs2 & _).
  exists r1, r2. split; [exact H1|]. split; [exact H2|]. rewrite Hs2, Hs. reflexivity.
Defined.

Lemma deleted_metrics_witness :
  series (ClusterInfo (DeleteClusterMetrics "ns" "os" newRegistry)) = ∅.
Proof. destruct (deleted_metrics "ns" "os" newRegistry) as (_ & H & _); [repeat split|]. rewrite H. reflexivity. Defined.

End MetricRuns.
