(* ===== verification/Entry.v ===== *)
(** * Entry: the start of the process

    Models [main.go]: the namespaces the process watches, its settings from the flags and from the
    environment, and the registrations in their order.  An empty set of default namespaces means all
    of them.  The manager and the logger are third-party code: requests and a parameter. *)

From S2P Require Import Prelude Prog Resources Api Setup.

Definition parseWatchNamespaces (watchNamespace : string) : gset string :=
  foldl (fun namespaces watchNs =>
    let trimmed := TrimSpace watchNs in
    if trimmed == "" then namespaces else {[trimmed]} ∪ namespaces) ∅ (Split watchNamespace ",").

(** The options of the cache; nothing is all namespaces. *)
Definition defaultNamespaces (watchNamespace : string) : option (gset string) :=
  if watchNamespace != "" then
    let namespaces := parseWatchNamespaces watchNamespace in
    if bool_decide (namespaces = ∅) then None else Some namespaces
  else None.

(** The controllers see the objects of a namespace. *)
Definition watches (watchNamespace ns : string) : Prop :=
  match defaultNamespaces watchNamespace with None => True | Some namespaces => ns ∈ namespaces end.

Lemma elem_of_parse (l : list string) (acc : gset string) ns :
  ns ∈ foldl (fun namespaces watchNs =>
         let trimmed := TrimSpace watchNs in
         if trimmed == "" then namespaces else {[trimmed]} ∪ namespaces) acc l <->
  ns ∈ acc \/ ns <> "" /\ ns ∈ TrimSpace <$> l.
Proof.
  revert acc. induction l as [|x l IH]; intros acc; cbn [foldl]; [set_solver|].
  rewrite IH, fmap_cons, elem_of_cons. cbv zeta. case_bool_decide as E.
  - rewrite E. split; [|intros [?|[? [?|?]]]; auto; congruence]. intros [?|[? ?]]; auto.
  - rewrite elem_of_union, elem_of_singleton. split.
    + intros [[->|?]|[? ?]]; auto.
    + intros [?|[? [->|?]]]; auto.
Qed.

(** With the flag set to a list of namespaces, exactly these are watched; blanks around them and
    empty entries do not count, and a flag without any namespace watches all. *)
Theorem watched_namespaces (watchNamespace ns : string) :
  watches watchNamespace ns <->
  (forall x, x ∈ TrimSpace <$> Split watchNamespace "," -> x = "") \/
  ns <> "" /\ ns ∈ TrimSpace <$> Split watchNamespace ",".
Proof.
  unfold watches, defaultNamespaces, parseWatchNamespaces. case_bool_decide as E0; cbn [negb].
  { subst. split; [|done]. intros _. left. intros x Hx. cbn in Hx. by apply list_elem_of_singleton in Hx. }
  cbv zeta. case_bool_decide as E.
  - split; [|done]. intros _. left. intros x Hx. destruct (decide (x = "")) as [|Hn]; [done|].
    exfalso. apply (not_elem_of_empty (C := gset string) x). rewrite <- E. apply elem_of_parse. by right.
  - rewrite elem_of_parse. split; [intros [[]%not_elem_of_empty|?]; by right|].
    intros [Ha|?]; [|by right]. exfalso. apply E. apply set_eq. intros x. rewrite elem_of_parse.
    split; [|set_solver]. intros [?|[Hn Hx]]; [done|]. by apply Ha in Hx.
Qed.

(** ** The settings

    The logging flags that the logging library defines for itself are left at their defaults. *)

(** [strconv.ParseBool]. *)
Definition ParseBool (s : string) : option bool :=
  if bool_decide (s ∈ ["1"; "t"; "T"; "true"; "TRUE"; "True"]) then Some true
  else if bool_decide (s ∈ ["0"; "f"; "F"; "false"; "FALSE"; "False"]) then Some false
  else None.

(** [zapcore]. *)
Class LogLib := { Level : Type; InfoLevel : Level; ParseLevel : string -> option Level }.

Record Flags := mkFlags {
  fl_metricsAddr : string;
  fl_probeAddr : string;
  fl_enableLeaderElection : bool;
  fl_enableWebhooks : bool;
  fl_webhookPort : Z;
  fl_watchNamespace : string;
  fl_logLevel : string }.
Definition defaultFlags : Flags := mkFlags ":8443" ":8081" false true 9443 "" "info".

(** A webhook server only when webhooks are enabled. *)
Record ManagerOptions := mkManagerOptions {
  mn_MetricsAddr : string;
  mn_ProbeAddr : string;
  mn_LeaderElection : bool;
  mn_LeaderElectionID : string;
  mn_DefaultNamespaces : option (gset string);
  mn_WebhookPort : option Z }.
Definition managerOptions (f : Flags) : ManagerOptions :=
  mkManagerOptions (fl_metricsAddr f) (fl_probeAddr f) (fl_enableLeaderElection f)
    "a867c7dc.opensearch.org" (defaultNamespaces (fl_watchNamespace f))
    (if fl_enableWebhooks f then Some (fl_webhookPort f) else None).

(** ** The start *)

Inductive step :=
| NewManager (o : ManagerOptions)
| SetupWith (s : Setup)
| AddHealthzCheck
| AddReadyzCheck
| StartManager.

Section Main.
Context `{LG : LogLib} (getenv : string -> string).

(** A step can fail; the manager runs until the process is told to stop. *)
Inductive breq :=
| Try (s : step)
| SetLogger (level : Level) (development : bool) (messageKey : option string)
| RegisterMetrics
| ServePprof.
Definition bresp (q : breq) : Type :=
  match q with Try _ => option err | _ => unit end.

Abbreviation boot := (prog bresp).
Abbreviation bask := (@call breq bresp).

Definition logLevelOf (logLevel : string) : Level := default InfoLevel (ParseLevel logLevel).
Definition development : bool := default false (ParseBool (getenv "OPERATOR_DEV_LOGGING")).
Definition messageKey : option string :=
  let key := getenv "OPERATOR_LOGGING_MESSAGE_KEY" in if key == "" then None else Some key.
Definition pprofEndpoints : bool := default false (ParseBool (getenv "PPROF_ENDPOINTS_ENABLED")).

(** Steps one after the other; the first that fails ends the process. *)
Fixpoint trySteps (l : list step) : boot bool :=
  match l with
  | [] => Ret true
  | s :: l =>
      let! e := bask (Try s) in
      match e with
      | Some _ => Ret false
      | None => trySteps l
      end
  end.
Definition andThen (l : list step) (p : boot Z) : boot Z :=
  let! ok := trySteps l in if (ok : bool) then p else Ret 1.

Definition main (f : Flags) : boot Z :=
  do! bask (SetLogger (logLevelOf (fl_logLevel f)) development messageKey) in
  andThen [NewManager (managerOptions f)]
    (do! bask RegisterMetrics in
     andThen (map SetupWith controllers)
       (andThen (map SetupWith migrations)
          (andThen (if fl_enableWebhooks f then map SetupWith validators else [])
             (andThen [AddHealthzCheck; AddReadyzCheck]
                (do! (if pprofEndpoints then bask ServePprof else Ret tt) in
                 andThen [StartManager] (Ret 0)))))).

(** Everything that has to succeed before the process serves. *)
Definition bootSteps (f : Flags) : list step :=
  [NewManager (managerOptions f)] ++ map SetupWith controllers ++ map SetupWith migrations ++
  (if fl_enableWebhooks f then map SetupWith validators else []) ++
  [AddHealthzCheck; AddReadyzCheck] ++ [StartManager].

(** ** What was tried *)

Definition triedOf (e : @event breq bresp) : option (step * option err) :=
  match e with
  | Ev q r => match q return bresp q -> option (step * option err) with
              | Try s => fun r => Some (s, r)
              | _ => fun _ => None
              end r
  end.
Definition tried (h : hist bresp) : list (step * option err) := omap triedOf (reverse h).

(** A beginning of [l], all of it if [ok], and otherwise up to the first step that fails. *)
Definition attempted (l : list step) (ok : bool) (t : list (step * option err)) : Prop :=
  if ok then t.*1 = l /\ Forall (λ x, x.2 = None) t
  else exists pre s e, t = pre ++ [(s, Some e)] /\ Forall (λ x, x.2 = None) pre /\ t.*1 `prefix_of` l.

Lemma tried_cons e h : tried (e :: h) = tried h ++ option_list (triedOf e).
Proof. unfold tried. rewrite reverse_cons, omap_app. cbn. by destruct (triedOf e). Qed.

Lemma attempted_cons s l ok t : attempted l ok t -> attempted (s :: l) ok ((s, None) :: t).
Proof.
  destruct ok; cbn.
  - intros [<- H]. by repeat constructor.
  - intros (pre & s' & e & -> & H & Hp). exists ((s, None) :: pre), s', e. split_and!; [done|by constructor|].
    by apply prefix_cons.
Qed.
Lemma attempted_app l l' ok t t' : attempted l true t -> attempted l' ok t' -> attempted (l ++ l') ok (t ++ t').
Proof.
  intros [<- H]. induction H as [|[s e] t He _ IH]; [done|]. cbn in He. subst. intros Ht.
  cbn. by apply attempted_cons, IH.
Qed.
Lemma attempted_stop l l' t : attempted l false t -> attempted (l ++ l') false t.
Proof.
  intros (pre & s & e & -> & H & Hp). exists pre, s, e. split_and!; [done|done|]. by apply prefix_app_r.
Qed.

Lemma wp_trySteps l h :
  wp (trySteps l) (λ _ _, True)
    (λ h' o, exists ok t, o = Returned ok /\ tried h' = tried h ++ t /\ attempted l ok t) h.
Proof.
  revert h. induction l as [|s l IH]; intros h; cbn [trySteps].
  - wp_step. exists true, []. by rewrite app_nil_r.
  - wp_step; [done|]. destruct r as [e|].
    + wp_step. exists false, [(s, Some e)]. rewrite tried_cons. split_and!; [done|done|].
      exists [], s, e. split_and!; [done|constructor|]. by apply prefix_cons, prefix_nil.
    + eapply wp_mono; [done| |apply IH]. intros h' o (ok & t & -> & E & Ha).
      exists ok, ((s, None) :: t). rewrite E, tried_cons, <- app_assoc. split_and!; [done|done|].
      by apply attempted_cons.
Qed.

(** The result of a part of the process: its exit code and what it tried. *)
Definition ended (l : list step) (h : hist bresp) (h' : hist bresp) (o : outcome Z) : Prop :=
  exists ok t, o = Returned (if ok : bool then 0 else 1) /\ tried h' = tried h ++ t /\ attempted l ok t.

Lemma wp_andThen l l' p h :
  (forall h', wp p (λ _ _, True) (ended l' h') h') ->
  wp (andThen l p) (λ _ _, True) (ended (l ++ l') h) h.
Proof.
  intros Hp. unfold andThen. wp_step. eapply wp_mono; [done| |apply wp_trySteps].
  intros h1 o (ok & t & -> & E & Ha). wp_step. destruct ok.
  - eapply wp_mono; [done| |apply Hp]. intros h2 o (ok & t' & -> & E' & Ha').
    exists ok, (t ++ t'). rewrite E', E, app_assoc. split_and!; [done|done|]. by apply attempted_app.
  - wp_step. exists false, t. split_and!; [done|done|]. by apply attempted_stop.
Qed.

Lemma wp_other l p e h :
  triedOf e = None -> wp p (λ _ _, True) (ended l (e :: h)) (e :: h) ->
  wp p (λ _ _, True) (ended l h) (e :: h).
Proof.
  intros He. apply wp_mono; [done|]. intros h' o (ok & t & -> & E & Ha). exists ok, t.
  by rewrite E, tried_cons, He, app_nil_r.
Qed.

Lemma wp_start h : wp (andThen [StartManager] (Ret 0)) (λ _ _, True) (ended [StartManager] h) h.
Proof.
  apply (wp_andThen [StartManager] []). intros h'. wp_step. exists true, []. by rewrite app_nil_r.
Qed.

Lemma wp_main f h : wp (main f) (λ _ _, True) (ended (bootSteps f) h) h.
Proof.
  unfold main, bootSteps. wp_step; [done|]. apply wp_other; [done|]. apply wp_andThen. intros h1.
  wp_step; [done|]. apply wp_other; [done|]. do 4 (apply wp_andThen; intros).
  destruct pprofEndpoints; wp_step; [done| |].
  - apply wp_other; [done|]. apply wp_start.
  - wp_step. wp_step. apply wp_start.
Qed.

(** The process starts its manager exactly after the manager was made and every controller, every
    migration, with webhooks enabled every validator, and the two checks were registered, in this
    order; at the first of them that fails it exits with code 1, and nothing else is tried. *)
Theorem main_starts (f : Flags) (w : env bresp) :
  exists ok t, (run w (main f) []).1 = Returned (if ok : bool then 0 else 1) /\
    tried (run w (main f) []).2 = t /\ attempted (bootSteps f) ok t.
Proof.
  destruct (wp_sound w _ _ _ [] (wp_main f []) I) as [(ok & t & E & Ht & Ha) _]. by exists ok, t.
Qed.

End Main.
